(* ===== verification/_CoqProject ===== *)
-Q . S2P
Prelude.v
Effects.v
Lib.v
External.v
Params.v
Comm.v
Ipc.v
Broker.v
DbFacts.v
DbInv.v
InternalClient.v
Registry.v
Delivery.v
Announce.v
Aaa.v
Peer.v
Handshake.v
Rpc.v
Fifo.v
Exclusions.v
PeerFacts.v
Subscriptions.v
Wire.v
IpcFacts.v
System.v
Typed.v
Session.v
Scenarios.v
BrokerRpc.v
CoreRpc.v
RpcScenarios.v
Cursors.v
Pubsub.v
SyncIpc.v
SyncRpc.v
Clients.v
Connect.v
Server.v
Busrtd.v
InterThread.v
RpcClient.v
RpcTasks.v
ServerScenarios.v
CursorService.v
CounterService.v
Cli.v
Demos.v
