(* ===== verification/Prelude.v ===== *)
(** * A verification library for the BUS/RT broker

    BUS/RT is an inter-process message bus. A broker ([src/broker.rs]) keeps the connected
    clients and moves frames between them: one-to-one messages, broadcasts to the names a mask
    fits, and publications to the subscribers of a topic. Clients live in the broker's process
    or connect through sockets ([src/ipc.rs]); an RPC layer ([src/rpc/]) works on top of
    either, and [src/tools/pubsub.rs] and [src/cursors.rs] serve applications. This
    library models these parts as executable Rocq functions and proves what makes them correct.
    File names are relative to the crate.

    ** The parts, and where they are

    - [Prelude], [Effects]: bytes, little-endian integers, [split], [find], UTF-8 validation, the
      order of strings; reads from a stream, and the monad [prog] of stateful computations that
      return, fail with an [Err], wait for ever or panic, with the rules [preserves] and [keeps]
      for invariants and the tactics [preserve] and [keep].
    - [Lib] ([lib.rs]): protocol constants, error kinds and their codes, operation and QoS codes,
      [FrameData] and its accessors.
    - [External]: the crates the broker is built on, as classes of operations with classes of
      laws over a logical view: [submap]'s maps, [async_channel]'s queues. [Module Ref] holds
      small executable instances.
    - [Comm] ([comm.rs]): [TtlBufWriter]; its owner, flusher task and drop future, with the mutex between
      them, are a step relation, in which writes, flushes and the wait for the mutex may fail or time out.
    - [Ipc], [IpcFacts] ([ipc.rs]): the socket client, its send path, confirmations, reader task
      and its side of the connection dialogue.
    - [Broker] ([broker.rs]): [BusRtClient] and [BrokerDb], the delivery macros, registration,
      announcements. An [Arc<BusRtClient>] is a number into [heap]: sharing is explicit.
      [DbFacts] and [DbInv] hold the invariant [db_wf] and what each operation does to it.
      [InternalClient] has the in-process [Client] and the methods of [Broker].
      Theorems: [Registry] (registration, replacement, unregistration), [Delivery] (who gets a
      frame), [Announce] (the recursion between announcing and unregistering), [Subscriptions]
      and [Exclusions] (topics).
    - [Aaa], [Peer], [Handshake] ([broker.rs], [handle_peer] and its tasks): permissions; the
      dialogue that authorizes and registers a connection; reading and executing packets,
      writing frames, the pinger, the end of a connection. Theorems also in [PeerFacts].
      [Session]: [handle_peer] from the handshake to the end.
    - [Wire]: the two ends put together: what one side writes is what the other side reads.
    - [Rpc] ([rpc/mod.rs], [rpc/async_client.rs]): events, the client's frame processor, calls.
      [RpcClient]: the asynchronous client with its tasks: the processor, handlers and their pool, the
      pinger, and the threads that call, as actions of one state; theorems in [RpcTasks].
      [BrokerRpc] ([broker.rs], [BrokerRpcHandlers]): the methods of the client [.broker];
      [CoreRpc]: the RPC client of the broker that answers with them.
    - [Params] ([common.rs], [str_to_params_map]), [Fifo] ([broker.rs], [send_fifo_cmd],
      [spawn_fifo]): commands that shell scripts write into a named pipe.
    - [System]: every operation of the broker as a step; the invariant of all reachable databases.
      [Typed]: what the queues of these databases hold.
    - [SyncIpc] ([sync/ipc.rs]): the blocking socket client, against [Ipc]. [SyncRpc]
      ([sync/rpc.rs]): the threads of programs with the blocking RPC client, as actions.
    - [Connect] ([ipc.rs], [sync/ipc.rs]): configurations, and opening a connection with either
      client, up to the first operation. [Server] ([broker.rs]): the options and services of a
      broker, its listeners, and the tasks of the connections they accept. [Busrtd]
      ([server.rs]): the daemon, from its options to its shutdown.
    - [Clients] ([client.rs], [sync/client.rs], [borrow.rs]): the trait of clients as a class with
      laws, and its three implementations; buffers.
    - [Pubsub] ([tools/pubsub.rs]): the topic broker of a client.
    - [Cursors] ([cursors.rs]): the map of cursors of an RPC service and its cleaner.
      [CursorService] ([examples/server_cursor.rs], [client_cursor.rs]): a service and a client of it.
    - [CounterService] ([examples/client_rpc_handler.rs], [client_rpc.rs]): a service with a counter and
      its client. [InterThread] ([examples/inter_thread.rs]): workers in one process. [Demos]: the other
      example programs, [examples/broker_aaa.rs] with its permissions among them.
    - [Cli] ([cli.rs]): the command line client: what its commands ask, print and end with.
    - [Scenarios], [RpcScenarios], [ServerScenarios]: the classes instantiated, and the theorems applied to databases
      that runs of operations lead to.

    ** What the theorems show

    - The broker as a whole: [System.broker_invariant]: whatever order operations, packets and
      ends of connections come in, and however they end, nothing panics, the client table, the
      subscription map and the broadcast map hold exactly the registered clients, and every
      secondary belongs to a registered primary. [Typed.queues_typed]: queues stay within their
      capacity, and every frame in them has what its receiver relies on, so that writers of
      connections do not panic either.
    - Registration: exact effects on success, exact errors otherwise, replacement under
      [force_register], removal with all secondaries.
    - Delivery: a message, broadcast or publication reaches exactly the clients it should, once
      each, and nobody else's queue changes; slow socket clients are dropped.
    - Connections: only authorized names are registered, for every answer of the peer; the
      reader is total on arbitrary bytes; a connection that ended leaves no trace in the tables
      ([Session.connection_cleanup]); refused packets have no effect on others; a packet with
      topics does what the in-process operation does, within the permissions.
      Through the listeners: no connection can hurt the broker ([Server.connections_safe]), and a
      client that dials a service is registered by it ([Server.client_reaches_broker]).
    - Wire formats: frames of clients and of the broker, acknowledgements, the handshake and
      lists of topics are read back as they were written.
    - The clients: a send hands over the whole frame or disconnects, frame ids do not repeat, the
      reader task is total; RPC calls reach the handler and their answers the right caller, once, task
      by task ([RpcTasks.call_answered], [RpcTasks.rpc_client_safe]).
      The blocking client does what the asynchronous one does but for timeouts
      ([SyncIpc.sync_client_equiv], [Connect.connect_equiv]), and its RPC layer completes calls ([SyncRpc.sync_call_completes]).
      Applications may use any of them alike ([Clients.clients_interchangeable]). A scheduled write of the
      buffered writer has a flush pending until one is made or given up ([Comm.scheduled_flush_never_lost]).
    - The broker's RPC client answers what it is asked ([CoreRpc.core_call_answered]); fifo lines
      do what they say ([Fifo.fifo_commands]), with parameters read as they are spelled
      ([Params.params_spec]).
    - The daemon: what it serves and when it starts ([Busrtd.busrtd_starts]), and that a signal ends
      it ([Busrtd.shutdown_completes]).
    - Tools: routing of publications, the ordered tables, cursors kept and dropped, the client list.
      The client of the cursor example reads every row ([CursorService.client_gets_all_rows]); the
      command line client ends normally, with OK, exactly for what the broker confirmed ([Cli.cli_acknowledged]). The
      counter of the RPC example loses no addition ([CounterService.counter_serial]), and the broker of
      the permissions example admits and permits what its comment says ([Demos.aaa_demo_permissions]).
    - Where the code goes wrong: an announcement to a slow subscriber, a reply to a slow caller of
      the broker, and a fifo line for a slow target wait for a mutex their own task holds; programs
      that call each other with the blocking RPC client wait for each other's mutexes;
      calls of the asynchronous client that wait when its processor stops, or waits for their tasks,
      never return ([RpcTasks.deaf_client_never_returns]); the daemon does not terminate while a subscriber is slow ([Busrtd.shutdown_blocked]); a flush that is
      skipped, fails or times out is not tried again until the writer is used ([Comm.given_up_stuck]); the
      workers of the example stop when queues nobody reads are full ([InterThread.inter_thread_stalls]); the
      blocking client connects without a timeout ([Connect.silent_broker]); [Client::unregister] leaves the name taken; a handshake whose last write fails leaves the
      client registered; names with a NUL byte make receivers misread the sender.

    ** Modelling choices

    - A method of [BrokerDb] runs as one step. Its awaits are on queues and on the mutex of the
      announcing RPC client. Waiting on a full queue lets its owner take off a number of frames
      the scheduler chooses ([ext_room]); what still cannot proceed waits for ever ([Hang]), with
      a timeout fails. Interleavings of whole operations are the steps of [System].
    - Held mutexes matter where a task may lock them again: [rpc_lock] (around the RPC client of
      the broker), [bus_lock] (around the bus client behind it), and the [held] list of
      [drop_client_fuel]. A task that is cancelled lets its mutexes go ([Session.release]): this
      happens to the reader of a connection when another task of it ends first, and not to
      registrations, ends of connections, replies of the broker and the fifo.
    - Recursion: [drop_client] nests twice (a primary and its secondaries): fuel 2, shown not to
      run out by [DbFacts.drop_client_Done]; [announce] and [unregister_client] call each other:
      fuel 2, where any positive fuel gives the same result by [Announce.announce_fuel_enough];
      the readers take one turn more than there are bytes ([reader_fuel]), as every turn
      consumes some ([PeerFacts.handle_reader_safe], [IpcFacts.reader_task_total]).
    - Counters are [u64] with wrap-around, call and frame ids [u32]; lengths of buffers are
      unbounded except where they go on the wire in 32 bits.
    - Parameters: SHA-256 (injective), the [submap] and [async_channel] crates, MessagePack,
      regular expressions, IP networks, the clock, the scheduler, the allocator of large buffers,
      a buffered writer, and an RPC service's handlers and cursors.
    - The network between a client and a broker is a hypothesis: a connection to an address reaches the
      listener bound to it, and each end reads what the other writes ([Server.Listening]).
    - The cargo features [rpc] and [broker-rpc] are on. Arithmetic on the clock is not limited.

    ** Not modelled

    Parsing of options, logging, daemonizing, colours and tables of the programs. The sockets
    themselves: binding, accepting, TLS and the WebSocket framing are outcomes the model is given.
    The bindings for other languages. Outside [Clients], buffers that avoid copies are lists of bytes.
*)
From stdpp Require Export base numbers list gmap strings pretty.
From Stdlib Require Export Init.Byte.
From Stdlib Require Import Strings.Byte.

#[global] Set Default Goal Selector "!".
Open Scope Z_scope.

(** ** Bytes, slices and strings *)

#[export] Instance byte_eq_dec : EqDecision byte := Byte.byte_eq_dec.

#[export] Instance byte_countable : Countable byte :=
  inj_countable Byte.to_N Byte.of_N Byte.of_to_N.

#[export] Instance byte_inhabited : Inhabited byte := populate x00.

(** A slice of bytes; a Rust [&str] is the slice of its UTF-8 bytes. *)
Abbreviation bytes := (list byte) (only parsing).
Abbreviation str := (list byte) (only parsing).

(** A Rust string literal. *)
Definition lit (s : string) : str := String.list_byte_of_string s.

(** [z as u8]: the low eight bits. *)
Definition u8 (z : Z) : byte := default x00 (Byte.of_N (Z.to_N (z mod 256))).

(** The number a byte stands for. *)
Definition u8_val (b : byte) : Z := Z.of_N (Byte.to_N b).

Lemma u8_val_range b : 0 <= u8_val b < 256.
Proof. unfold u8_val. pose proof (Byte.to_N_bounded b). lia. Qed.

Lemma u8_val_inj b1 b2 : u8_val b1 = u8_val b2 -> b1 = b2.
Proof.
  unfold u8_val. intros H%N2Z.inj.
  pose proof (Byte.of_to_N b1) as E1. pose proof (Byte.of_to_N b2) as E2.
  rewrite H in E1. congruence.
Qed.

Lemma u8_val_u8 z : u8_val (u8 z) = z mod 256.
Proof.
  unfold u8. pose proof (Z.mod_pos_bound z 256 ltac:(lia)) as Hr.
  destruct (Byte.of_N (Z.to_N (z mod 256))) as [b|] eqn:E; simpl.
  - apply Byte.to_of_N in E. unfold u8_val. lia.
  - apply Byte.of_N_None_iff in E. lia.
Qed.

Lemma u8_u8_val b : u8 (u8_val b) = b.
Proof.
  apply u8_val_inj. rewrite u8_val_u8. apply Z.mod_small, u8_val_range.
Qed.

(** ** Little-endian integers *)

(** [z.to_le_bytes()] for an integer [n] bytes wide. *)
Fixpoint to_le_bytes (n : nat) (z : Z) : bytes :=
  match n with
  | O => []
  | S n => u8 z :: to_le_bytes n (z / 256)
  end.

(** [from_le_bytes] for an unsigned integer. *)
Fixpoint from_le_bytes (bs : bytes) : Z :=
  match bs with
  | [] => 0
  | b :: bs => u8_val b + 256 * from_le_bytes bs
  end.

(** Two's complement: the signed value of an [n]-byte unsigned one. *)
Definition sign_of (n : nat) (z : Z) : Z :=
  if decide (2 * z < 256 ^ Z.of_nat n) then z else z - 256 ^ Z.of_nat n.

Lemma length_to_le_bytes n z : length (to_le_bytes n z) = n.
Proof. revert z. induction n as [|n IH]; intros z; simpl; [done|by rewrite IH]. Qed.

Lemma pow256_succ (n : nat) : 256 ^ Z.of_nat (S n) = 256 * 256 ^ Z.of_nat n.
Proof. rewrite Nat2Z.inj_succ, Z.pow_succ_r; lia. Qed.

Lemma from_to_le_bytes n z : from_le_bytes (to_le_bytes n z) = z mod 256 ^ Z.of_nat n.
Proof.
  revert z. induction n as [|n IH]; intros z.
  - by rewrite Z.mod_1_r.
  - cbn [to_le_bytes from_le_bytes]. rewrite IH, u8_val_u8, pow256_succ.
    rewrite Z.rem_mul_r by lia. lia.
Qed.

Lemma from_le_bytes_range bs : 0 <= from_le_bytes bs < 256 ^ Z.of_nat (length bs).
Proof.
  induction bs as [|b bs IH]; [done|].
  cbn [length from_le_bytes]. rewrite pow256_succ.
  pose proof (u8_val_range b). lia.
Qed.

Lemma to_from_le_bytes bs : to_le_bytes (length bs) (from_le_bytes bs) = bs.
Proof.
  induction bs as [|b bs IH]; [done|]. cbn [length from_le_bytes to_le_bytes].
  pose proof (u8_val_range b) as Hb. f_equal.
  - apply u8_val_inj. rewrite u8_val_u8, (Z.mul_comm 256), Z.mod_add by lia.
    by apply Z.mod_small.
  - rewrite (Z.mul_comm 256), Z.div_add, (Z.div_small (u8_val b)) by lia.
    by rewrite Z.add_0_l.
Qed.

Lemma from_to_le_bytes_small n z : 0 <= z < 256 ^ Z.of_nat n -> from_le_bytes (to_le_bytes n z) = z.
Proof. intros Hz. rewrite from_to_le_bytes. by apply Z.mod_small. Qed.

(** A signed value survives its own little-endian encoding. *)
Lemma sign_of_to_le_bytes n z :
  - 256 ^ Z.of_nat n <= 2 * z < 256 ^ Z.of_nat n -> sign_of n (from_le_bytes (to_le_bytes n z)) = z.
Proof.
  intros Hz. rewrite from_to_le_bytes. unfold sign_of.
  destruct (decide (0 <= z)).
  - rewrite Z.mod_small by lia. case_decide; lia.
  - rewrite <- (Z.mod_add z 1), Z.mul_1_l, Z.mod_small by lia. case_decide; lia.
Qed.

(** ** Rust's [Result] and the [?] operator *)

Inductive result (A E : Type) : Type :=
| Ok (a : A)
| Err (e : E).
Arguments Ok {A E} a.
Arguments Err {A E} e.

Declare Scope rust_scope.
Delimit Scope rust_scope with rust.
Open Scope rust_scope.

Notation "'let?' x ':=' e 'in' k" :=
  (match e with Ok x => k | Err err => Err err end)
  (at level 10, x pattern, e at level 200, k at level 200) : rust_scope.

(** [Option::ok_or_else]. *)
Definition ok_or {A E} (o : option A) (e : E) : result A E :=
  match o with Some a => Ok a | None => Err e end.

(** [Result::map_err]. *)
Definition map_err {A E F} (f : E -> F) (r : result A E) : result A F :=
  match r with Ok a => Ok a | Err e => Err (f e) end.

(** ** Searching and splitting slices *)

(** [s.starts_with(pat)]. *)
Fixpoint starts_with (pat s : bytes) : bool :=
  match pat, s with
  | [], _ => true
  | _ :: _, [] => false
  | p :: pat, c :: s => bool_decide (p = c) && starts_with pat s
  end.

(** [s.find(pat)]: the byte offset of the first occurrence. *)
Fixpoint find_sub (pat s : bytes) : option nat :=
  if starts_with pat s then Some O
  else match s with [] => None | _ :: s => S <$> find_sub pat s end.

(** [s.strip_prefix(pat)]. *)
Definition strip_prefix (pat s : bytes) : option bytes :=
  if starts_with pat s then Some (drop (length pat) s) else None.

(** The slice up to the first separator, and what follows it if there is one. *)
Fixpoint split_once (sep : byte) (bs : bytes) : bytes * option bytes :=
  match bs with
  | [] => ([], None)
  | b :: bs =>
      if decide (b = sep) then ([], Some bs)
      else let '(h, t) := split_once sep bs in (b :: h, t)
  end.

(** [slice.splitn(n, |c| *c == sep)], all its items. *)
Fixpoint splitn (n : nat) (sep : byte) (bs : bytes) : list bytes :=
  match n with
  | O => []
  | S O => [bs]
  | S n =>
      match split_once sep bs with
      | (h, None) => [h]
      | (h, Some t) => h :: splitn n sep t
      end
  end.

(** [slice.split(|c| *c == sep)], all its items. *)
Fixpoint split (sep : byte) (bs : bytes) : list bytes :=
  match bs with
  | [] => [[]]
  | b :: bs =>
      if decide (b = sep) then [] :: split sep bs
      else match split sep bs with
           | [] => [[b]]
           | h :: t => (b :: h) :: t
           end
  end.

Lemma split_once_app sep h t :
  sep ∉ h -> split_once sep (h ++ sep :: t) = (h, Some t).
Proof.
  induction h as [|b h IH]; cbn [app split_once]; intros Hn.
  - by rewrite decide_True.
  - rewrite decide_False by set_solver. rewrite IH by set_solver. done.
Qed.

Lemma split_once_none sep h : sep ∉ h -> split_once sep h = (h, None).
Proof.
  induction h as [|b h IH]; cbn [split_once]; intros Hn; [done|].
  rewrite decide_False by set_solver. rewrite IH by set_solver. done.
Qed.

(** What [split_once] returns, read backwards. *)
Lemma split_once_spec sep bs :
  match split_once sep bs with
  | (h, Some t) => bs = h ++ sep :: t /\ sep ∉ h
  | (h, None) => bs = h /\ sep ∉ h
  end.
Proof.
  induction bs as [|b bs IH]; cbn [split_once]; [set_solver|].
  case_decide as Hb; [subst; set_solver|].
  destruct (split_once sep bs) as [h [t|]]; destruct IH as [-> Hn]; set_solver.
Qed.

Lemma splitn2_app sep h t : sep ∉ h -> splitn 2 sep (h ++ sep :: t) = [h; t].
Proof. intros Hn. cbn [splitn]. by rewrite split_once_app. Qed.

Lemma splitn2_none sep h : sep ∉ h -> splitn 2 sep h = [h].
Proof. intros Hn. cbn [splitn]. by rewrite split_once_none. Qed.

Lemma splitn3_app sep h1 h2 t :
  sep ∉ h1 -> sep ∉ h2 -> splitn 3 sep (h1 ++ sep :: h2 ++ sep :: t) = [h1; h2; t].
Proof. intros H1 H2. cbn [splitn]. rewrite split_once_app by done. by rewrite split_once_app. Qed.

Lemma split_nonempty sep bs : split sep bs <> [].
Proof. destruct bs as [|b bs]; cbn [split]; [done|]. case_decide; [done|]. by destruct (split sep bs). Qed.

Lemma split_none sep h : sep ∉ h -> split sep h = [h].
Proof.
  induction h as [|b h IH]; cbn [split]; intros Hn; [done|].
  rewrite decide_False by set_solver. rewrite IH by set_solver. done.
Qed.

Lemma split_app sep h t : sep ∉ h -> split sep (h ++ sep :: t) = h :: split sep t.
Proof.
  induction h as [|b h IH]; cbn [app split]; intros Hn.
  - by rewrite decide_True.
  - rewrite decide_False by set_solver. rewrite IH by set_solver. done.
Qed.

Lemma starts_with_app pat s : starts_with pat (pat ++ s) = true.
Proof. induction pat as [|p pat IH]; simpl; [done|]. rewrite bool_decide_true by done. done. Qed.

Lemma starts_with_spec pat s : starts_with pat s = true <-> exists t, s = pat ++ t.
Proof.
  split.
  - revert s. induction pat as [|p pat IH]; intros s Hs; [by exists s|].
    destruct s as [|c s]; [done|]. simpl in Hs.
    apply andb_prop in Hs as [Hp%bool_decide_eq_true Hs]. subst.
    destruct (IH _ Hs) as [t ->]. by exists t.
  - intros [t ->]. apply starts_with_app.
Qed.

(** The prefix [find_sub] cuts off holds no further occurrence. *)
Lemma find_sub_Some pat s n :
  find_sub pat s = Some n -> exists t, s = take n s ++ pat ++ t.
Proof.
  revert n. induction s as [|c s IH]; intros n.
  - destruct pat; simpl; [|done]. intros [= <-]. by exists [].
  - cbn [find_sub]. destruct (starts_with pat (c :: s)) eqn:E.
    + intros [= <-]. apply starts_with_spec in E as [t E]. exists t. by rewrite take_0.
    + intros (m & Hm & ->)%fmap_Some. destruct (IH _ Hm) as [t Ht].
      exists t. cbn [take app]. by rewrite <- Ht.
Qed.

Lemma find_sub_None pat s : find_sub pat s = None <-> ~ exists h t, s = h ++ pat ++ t.
Proof.
  split.
  - intros Hf (h & t & ->). revert Hf.
    induction h as [|c h IH]; cbn [app].
    + destruct (pat ++ t) eqn:E; cbn [find_sub]; by rewrite <- E, starts_with_app.
    + cbn [find_sub]. destruct (starts_with _ _); [done|].
      rewrite fmap_None. done.
  - intros Hn. induction s as [|c s IH]; cbn [find_sub].
    + destruct (starts_with pat []) eqn:E; [|done].
      apply starts_with_spec in E as [t E]. destruct Hn. by exists [], t.
    + destruct (starts_with pat (c :: s)) eqn:E.
      * apply starts_with_spec in E as [t E]. destruct Hn. by exists [], t.
      * rewrite IH; [done|]. intros (h & t & ->). apply Hn. by exists (c :: h), t.
Qed.

Lemma starts_with_take pat s n : starts_with pat (take n s) = true -> starts_with pat s = true.
Proof.
  intros (t & Ht)%starts_with_spec. rewrite <- (take_drop n s), Ht, <- app_assoc.
  apply starts_with_app.
Qed.

Lemma find_sub_take pat s n :
  pat <> [] -> find_sub pat s = Some n -> find_sub pat (take n s) = None.
Proof.
  intros Hp. revert n. induction s as [|c s IH]; intros n.
  - destruct pat; done.
  - cbn [find_sub]. destruct (starts_with pat (c :: s)) eqn:E.
    + intros [= <-]. by destruct pat.
    + intros (m & Hm & ->)%fmap_Some. cbn [take find_sub].
      destruct (starts_with pat (c :: take m s)) eqn:E'.
      * change (c :: take m s) with (take (S m) (c :: s)) in E'.
        apply starts_with_take in E'. congruence.
      * by rewrite (IH _ Hm).
Qed.

Lemma find_sub_le pat s n : find_sub pat s = Some n -> (n <= length s)%nat.
Proof.
  revert n. induction s as [|c s IH]; intros n; cbn [find_sub length].
  - destruct (starts_with _ _); [|done]. intros [= <-]. lia.
  - destruct (starts_with _ _); [intros [= <-]; lia|].
    intros (m & Hm & ->)%fmap_Some. specialize (IH _ Hm). lia.
Qed.

(** ** UTF-8 ([std::str::from_utf8]) *)

Record Utf8Error := {
  valid_up_to : nat;
  error_len : option nat;
}.

Definition in_range (lo hi : Z) (b : byte) : bool := (lo <=? u8_val b) && (u8_val b <=? hi).

(** The bytes that may follow a three- or four-byte lead. *)
Definition utf8_second (lead : byte) : byte -> bool :=
  if u8_val lead =? 0xE0 then in_range 0xA0 0xBF
  else if u8_val lead =? 0xED then in_range 0x80 0x9F
  else if u8_val lead =? 0xF0 then in_range 0x90 0xBF
  else if u8_val lead =? 0xF4 then in_range 0x80 0x8F
  else in_range 0x80 0xBF.

(** [None] for valid UTF-8, or where and how it fails. *)
Fixpoint utf8_scan (pos : nat) (bs : bytes) : option Utf8Error :=
  let fail n := Some {| valid_up_to := pos; error_len := n |} in
  match bs with
  | [] => None
  | b0 :: bs1 =>
      if in_range 0 0x7F b0 then utf8_scan (S pos) bs1
      else if in_range 0xC2 0xDF b0 then
        match bs1 with
        | [] => fail None
        | b1 :: bs2 => if utf8_second b0 b1 then utf8_scan (2 + pos) bs2 else fail (Some 1%nat)
        end
      else if in_range 0xE0 0xEF b0 then
        match bs1 with
        | [] => fail None
        | b1 :: bs2 =>
            if negb (utf8_second b0 b1) then fail (Some 1%nat) else
            match bs2 with
            | [] => fail None
            | b2 :: bs3 =>
                if in_range 0x80 0xBF b2 then utf8_scan (3 + pos) bs3 else fail (Some 2%nat)
            end
        end
      else if in_range 0xF0 0xF4 b0 then
        match bs1 with
        | [] => fail None
        | b1 :: bs2 =>
            if negb (utf8_second b0 b1) then fail (Some 1%nat) else
            match bs2 with
            | [] => fail None
            | b2 :: bs3 =>
                if negb (in_range 0x80 0xBF b2) then fail (Some 2%nat) else
                match bs3 with
                | [] => fail None
                | b3 :: bs4 =>
                    if in_range 0x80 0xBF b3 then utf8_scan (4 + pos) bs4 else fail (Some 3%nat)
                end
            end
        end
      else fail (Some 1%nat)
  end.

Definition from_utf8 (bs : bytes) : result str Utf8Error :=
  match utf8_scan 0 bs with
  | None => Ok bs
  | Some e => Err e
  end.

(** The invariant of Rust's [str]: its bytes are valid UTF-8. *)
Definition is_str (s : bytes) : bool := bool_decide (utf8_scan 0 s = None).

Lemma from_utf8_str s : is_str s = true -> from_utf8 s = Ok s.
Proof. unfold is_str, from_utf8. intros H%bool_decide_eq_true. by rewrite H. Qed.

Lemma from_utf8_Ok s t : from_utf8 s = Ok t -> t = s /\ is_str s = true.
Proof.
  unfold is_str, from_utf8. destruct (utf8_scan 0 s); intros [= <-].
  by rewrite bool_decide_true.
Qed.

(** Text of an integer, as [format!] prints it. *)
Definition fmt_z (z : Z) : str := lit (pretty z).

Definition hex_digit (z : Z) : byte := if z <? 10 then u8 (48 + z) else u8 (87 + z).

(** [{:x}] of a byte. *)
Definition fmt_hex8 (b : byte) : str :=
  let v := u8_val b in
  if v <? 16 then [hex_digit v] else [hex_digit (v / 16); hex_digit (v mod 16)].

(** [Display] of [Utf8Error]. *)
Definition fmt_utf8_error (e : Utf8Error) : str :=
  match error_len e with
  | Some n =>
      lit "invalid utf-8 sequence of " ++ fmt_z (Z.of_nat n) ++ lit " bytes from index "
        ++ fmt_z (Z.of_nat (valid_up_to e))
  | None => lit "incomplete utf-8 byte sequence from index " ++ fmt_z (Z.of_nat (valid_up_to e))
  end.

(** ** The order of strings *)

(** [Ord for str]: bytewise lexicographic. *)
Fixpoint str_lt (a b : str) : bool :=
  match a, b with
  | _, [] => false
  | [], _ :: _ => true
  | x :: a, y :: b => (u8_val x <? u8_val y) || (bool_decide (x = y) && str_lt a b)
  end.

Lemma str_lt_irrefl a : str_lt a a = false.
Proof. induction a as [|x a IH]; [done|]. cbn. rewrite Z.ltb_irrefl, IH. by rewrite andb_false_r. Qed.

Lemma str_lt_trans a b c : str_lt a b = true -> str_lt b c = true -> str_lt a c = true.
Proof.
  revert b c. induction a as [|x a IH]; intros [|y b] [|z c]; cbn; try done.
  rewrite !orb_true_iff, !andb_true_iff, !bool_decide_eq_true, !Z.ltb_lt.
  intros [H1|[-> H1]] [H2|[-> H2]]; [left; lia|by left|by left|right; eauto].
Qed.

Lemma str_lt_total a b : str_lt a b = false -> a = b \/ str_lt b a = true.
Proof.
  revert b. induction a as [|x a IH]; intros [|y b]; cbn; auto; try done.
  rewrite orb_false_iff, Z.ltb_ge, orb_true_iff, andb_true_iff, bool_decide_eq_true, Z.ltb_lt.
  intros [H1 H2]. destruct (decide (x = y)) as [->|Hne].
  - rewrite bool_decide_true in H2 by done. destruct (IH _ H2) as [->|?]; auto.
  - right. left. assert (u8_val x <> u8_val y) by (intros E; by apply Hne, u8_val_inj). lia.
Qed.

(** A proper prefix sorts before what it is a prefix of. *)
Lemma str_lt_prefix a b : b <> [] -> str_lt a (a ++ b) = true.
Proof.
  intros Hb. induction a as [|x a IH]; cbn; [by destruct b|].
  by rewrite bool_decide_true, IH, orb_true_r.
Qed.

Lemma str_lt_app a b c : str_lt (a ++ b) (a ++ c) = str_lt b c.
Proof. induction a as [|x a IH]; [done|]. cbn. by rewrite Z.ltb_irrefl, bool_decide_true, IH. Qed.
