(* ===== verification/Effects.v ===== *)
(** * Effects: byte sources, the outcome monad, 64-bit counters

    What the components share to model stateful, fallible and possibly blocking code:
    - [source]: the bytes a socket still delivers and what happens after them;
    - [outcome], [prog]: a computation over a state that returns, fails with an error, waits
      for ever or panics, with [preserves] to carry an invariant through it;
    - the wrapping arithmetic of the [AtomicU64] counters. *)
From S2P Require Export Prelude.

(** ** Reading from a socket *)

(** [std::io::ErrorKind], as far as the code tells the kinds apart. *)
Inductive io_kind := UnexpectedEof | BrokenPipe | ConnectionReset | OtherKind.

#[export] Instance io_kind_eq_dec : EqDecision io_kind.
Proof. solve_decision. Defined.

Record io_error := IoError {
  io_err_kind : io_kind;
  io_err_text : str;
}.

(** What a reader meets when the bytes run out: a closed peer, an error, or silence. *)
Inductive ending := EndEof | EndError (e : io_error) | EndStall.

Record source := Source {
  src_data : bytes;
  src_end : ending;
}.

Inductive io_read : Type :=
| ReadOk (data : bytes) (rest : source)
| ReadErr (e : io_error)
| ReadStall.

Definition eof_error : io_error := IoError UnexpectedEof (lit "early eof").

(** [reader.read_exact(&mut buf)] for a buffer of [n] bytes. *)
Definition read_exact (n : Z) (s : source) : io_read :=
  if n <=? Z.of_nat (length (src_data s)) then
    ReadOk (take (Z.to_nat n) (src_data s)) (Source (drop (Z.to_nat n) (src_data s)) (src_end s))
  else match src_end s with
       | EndEof => ReadErr eof_error
       | EndError e => ReadErr e
       | EndStall => ReadStall
       end.

Lemma read_exact_app (a b : bytes) e :
  read_exact (Z.of_nat (length a)) (Source (a ++ b) e) = ReadOk a (Source b e).
Proof.
  unfold read_exact. cbn [src_data src_end]. rewrite length_app.
  rewrite (proj2 (Z.leb_le _ _)) by lia.
  by rewrite Nat2Z.id, take_app_length, drop_app_length.
Qed.

Lemma read_exact_app_eq n (a b : bytes) e :
  n = Z.of_nat (length a) -> read_exact n (Source (a ++ b) e) = ReadOk a (Source b e).
Proof. intros ->. apply read_exact_app. Qed.

(** A successful read hands over exactly the bytes it was asked for. *)
Lemma read_exact_ReadOk n s data rest :
  0 <= n -> read_exact n s = ReadOk data rest ->
  Z.of_nat (length data) = n /\ src_data s = data ++ src_data rest /\ src_end rest = src_end s.
Proof.
  unfold read_exact. intros Hn. destruct (n <=? _) eqn:E.
  - intros [= <- <-]. simpl. apply Z.leb_le in E.
    rewrite length_take, take_drop. split_and!; [lia|done|done].
  - by destruct (src_end s).
Qed.

Lemma read_exact_ReadOk_length n s data rest :
  0 <= n -> read_exact n s = ReadOk data rest ->
  Z.of_nat (length (src_data s)) = n + Z.of_nat (length (src_data rest)).
Proof.
  intros Hn (Hl & Hd & _)%read_exact_ReadOk; [|done].
  rewrite Hd, length_app. lia.
Qed.

(** ** Computations over a state *)

Inductive outcome (S E A : Type) : Type :=
| Done (a : A) (s : S)     (* returned *)
| Throw (e : E) (s : S)    (* returned an [Err] through [?] *)
| Hang (s : S)             (* waits for ever *)
| Panic.                   (* panicked *)
Arguments Done {S E A}.
Arguments Throw {S E A}.
Arguments Hang {S E A}.
Arguments Panic {S E A}.

Definition prog (S E A : Type) : Type := S -> outcome S E A.

#[export] Instance prog_ret {S E} : MRet (prog S E) := fun A a s => Done a s.
#[export] Instance prog_bind {S E} : MBind (prog S E) := fun A B f m s =>
  match m s with
  | Done a s => f a s
  | Throw e s => Throw e s
  | Hang s => Hang s
  | Panic => Panic
  end.

Section ops.
Context {S E : Type}.

Definition gets {A} (f : S -> A) : prog S E A := fun s => Done (f s) s.
Definition modify (f : S -> S) : prog S E unit := fun s => Done tt (f s).
Definition throw {A} (e : E) : prog S E A := fun s => Throw e s.
Definition hang {A} : prog S E A := fun s => Hang s.
Definition panic {A} : prog S E A := fun _ => Panic.

(** [e?] on a pure result. *)
Definition lift {A} (r : result A E) : prog S E A :=
  match r with Ok a => mret a | Err e => throw e end.

(** Run a computation and keep its [Result] as a value. *)
Definition attempt {A} (m : prog S E A) : prog S E (result A E) := fun s =>
  match m s with
  | Done a s => Done (Ok a) s
  | Throw e s => Done (Err e) s
  | Hang s => Hang s
  | Panic => Panic
  end.

Definition when (b : bool) (m : prog S E unit) : prog S E unit := if b then m else mret tt.

(** [for x in l { .. }]. *)
Fixpoint for_each {A} (l : list A) (f : A -> prog S E unit) : prog S E unit :=
  match l with
  | [] => mret tt
  | x :: l => f x ≫= fun _ => for_each l f
  end.

(** *** Invariants of computations *)

(** [m] keeps [I] whichever way it ends, and does not panic. *)
Definition preserves (I : S -> Prop) {A} (m : prog S E A) : Prop :=
  forall s, I s ->
    match m s with
    | Done _ s' | Throw _ s' | Hang s' => I s'
    | Panic => False
    end.

Lemma preserves_ret I {A} (a : A) : preserves I (mret a).
Proof. by intros s Hs. Qed.

Lemma preserves_bind I {A B} (m : prog S E A) (f : A -> prog S E B) :
  preserves I m -> (forall a, preserves I (f a)) -> preserves I (m ≫= f).
Proof.
  intros Hm Hf s Hs. unfold mbind, prog_bind. specialize (Hm s Hs).
  destruct (m s); [by apply Hf|done..].
Qed.

Lemma preserves_throw I {A} e : preserves I (throw e : prog S E A).
Proof. by intros s Hs. Qed.

Lemma preserves_hang I {A} : preserves I (hang : prog S E A).
Proof. by intros s Hs. Qed.

Lemma preserves_gets I {A} (f : S -> A) : preserves I (gets f).
Proof. by intros s Hs. Qed.

Lemma preserves_modify (I : S -> Prop) f :
  (forall s, I s -> I (f s)) -> preserves I (modify f).
Proof. intros Hf s Hs. by apply Hf. Qed.

Lemma preserves_lift I {A} (r : result A E) : preserves I (lift r).
Proof. intros s Hs. by destruct r. Qed.

Lemma preserves_attempt I {A} (m : prog S E A) : preserves I m -> preserves I (attempt m).
Proof. intros Hm s Hs. specialize (Hm s Hs). unfold attempt. by destruct (m s). Qed.

Lemma preserves_when I b (m : prog S E unit) : preserves I m -> preserves I (when b m).
Proof. intros Hm s Hs. destruct b; [by apply Hm|done]. Qed.

Lemma preserves_for_each I {A} (l : list A) f :
  (forall x, x ∈ l -> preserves I (f x)) -> preserves I (for_each l f).
Proof.
  induction l as [|x l IH]; intros Hf; [by intros s|].
  apply preserves_bind; [apply Hf; set_solver|]. intros _. apply IH. set_solver.
Qed.

(** [m] keeps [I] whichever way it ends, unless it panics. *)
Definition keeps (I : S -> Prop) {A} (m : prog S E A) : Prop :=
  forall s, I s -> match m s with Done _ s' | Throw _ s' | Hang s' => I s' | Panic => True end.

Lemma keeps_ret I {A} (a : A) : keeps I (mret a).
Proof. by intros s Hs. Qed.
Lemma keeps_throw I {A} e : keeps I (throw e : prog S E A).
Proof. by intros s Hs. Qed.
Lemma keeps_hang I {A} : keeps I (hang : prog S E A).
Proof. by intros s Hs. Qed.
Lemma keeps_panic I {A} : keeps I (panic : prog S E A).
Proof. by intros s Hs. Qed.
Lemma keeps_gets I {A} (f : S -> A) : keeps I (gets f).
Proof. by intros s Hs. Qed.
Lemma keeps_modify (I : S -> Prop) f : (forall s, I s -> I (f s)) -> keeps I (modify f).
Proof. intros Hf s Hs. by apply Hf. Qed.
Lemma keeps_lift I {A} (r : result A E) : keeps I (lift r).
Proof. intros s Hs. by destruct r. Qed.

Lemma keeps_bind I {A B} (m : prog S E A) (f : A -> prog S E B) :
  keeps I m -> (forall a, keeps I (f a)) -> keeps I (m ≫= f).
Proof.
  intros Hm Hf s Hs. unfold mbind, prog_bind. specialize (Hm s Hs).
  destruct (m s); [by apply Hf|done..].
Qed.

Lemma keeps_attempt I {A} (m : prog S E A) : keeps I m -> keeps I (attempt m).
Proof. intros Hm s Hs. specialize (Hm s Hs). unfold attempt. by destruct (m s). Qed.
Lemma keeps_when I b (m : prog S E unit) : keeps I m -> keeps I (when b m).
Proof. intros Hm. destruct b; [done|apply keeps_ret]. Qed.
Lemma keeps_for_each I {A} (l : list A) f : (forall x, keeps I (f x)) -> keeps I (for_each l f).
Proof. intros Hf. induction l as [|x l IH]; [apply keeps_ret|]. by apply keeps_bind. Qed.

(** *** Total runs *)

(** [m] returns from every state satisfying [P], in a state and with a value in [Q]. *)
Definition returns (P : S -> Prop) {A} (m : prog S E A) (Q : A -> S -> Prop) : Prop :=
  forall s, P s -> exists a s', m s = Done a s' /\ Q a s'.

Lemma bind_Done {A B} (m : prog S E A) (f : A -> prog S E B) s a s' :
  m s = Done a s' -> (m ≫= f) s = f a s'.
Proof. intros H. unfold mbind, prog_bind. by rewrite H. Qed.

Lemma returns_bind P {A B} (m : prog S E A) (f : A -> prog S E B) Q R :
  returns P m Q -> (forall a, returns (Q a) (f a) R) -> returns P (m ≫= f) R.
Proof.
  intros Hm Hf s Hs. destruct (Hm s Hs) as (a & s' & E' & Hq).
  destruct (Hf a s' Hq) as (b & s'' & E'' & Hr).
  exists b, s''. by rewrite (bind_Done _ _ _ _ _ E').
Qed.

Lemma attempt_Done {A} (m : prog S E A) s a s' :
  m s = Done a s' -> attempt m s = Done (Ok a) s'.
Proof. intros H. unfold attempt. by rewrite H. Qed.

Lemma attempt_Throw {A} (m : prog S E A) s e s' :
  m s = Throw e s' -> attempt m s = Done (Err e) s'.
Proof. intros H. unfold attempt. by rewrite H. Qed.
End ops.

Create HintDb preserves.
#[export] Hint Resolve preserves_ret preserves_throw preserves_hang preserves_gets
  preserves_lift preserves_attempt preserves_when : preserves.

(** Walk through a program, leaving the steps no hint knows. *)
Ltac preserve :=
  repeat first
    [ assumption
    | solve [ eauto with preserves ]
    | apply preserves_bind; [|intros ?]
    | apply preserves_attempt
    | apply preserves_when
    | apply preserves_for_each; intros ? ?
    | match goal with
      | |- preserves _ (match ?x with _ => _ end) => destruct x
      | |- preserves _ (let '_ := ?x in _) => destruct x
      end ].

Create HintDb keeps.
#[export] Hint Resolve keeps_ret keeps_throw keeps_hang keeps_panic keeps_gets keeps_lift : keeps.

(** The same for [keeps]. *)
Ltac keep :=
  repeat first
    [ assumption
    | solve [ eauto with keeps ]
    | apply keeps_bind; [|intros ?]
    | apply keeps_attempt
    | apply keeps_when
    | apply keeps_for_each; intros ?
    | match goal with
      | |- keeps _ (match ?x with _ => _ end) => destruct x
      | |- keeps _ (let '_ := ?x in _) => destruct x
      end ].

(** ** Wrapping 64-bit counters *)

Definition u64_max : Z := 2 ^ 64 - 1.
(** [AtomicU64::fetch_add]: wraps on overflow. *)
Definition u64_add (a b : Z) : Z := (a + b) mod 2 ^ 64.
(** Multiplication of [u64]s; the crate is built without overflow checks. *)
Definition u64_mul (a b : Z) : Z := (a * b) mod 2 ^ 64.

Lemma u64_add_range a b : 0 <= u64_add a b <= u64_max.
Proof. unfold u64_add, u64_max. pose proof (Z.mod_pos_bound (a + b) (2 ^ 64)). lia. Qed.

Lemma u64_add_small a b : 0 <= a + b <= u64_max -> u64_add a b = a + b.
Proof. unfold u64_add, u64_max. intros H. apply Z.mod_small. lia. Qed.
