(* ===== verification/Lib.v ===== *)
(** * The crate root ([src/lib.rs])

    Protocol constants, errors, the operation, QoS and frame-kind codes with their
    conversions, and [FrameData] with its accessors. An accessor that panics in the source
    returns [None] here. *)
From S2P Require Export Effects.

Definition OP_NOP : byte := x00.
Definition OP_PUBLISH : byte := x01.
Definition OP_SUBSCRIBE : byte := x02.
Definition OP_UNSUBSCRIBE : byte := x03.
Definition OP_EXCLUDE : byte := x04.
Definition OP_UNEXCLUDE : byte := x05.
Definition OP_PUBLISH_FOR : byte := x06.
Definition OP_MESSAGE : byte := x12.
Definition OP_BROADCAST : byte := x13.
Definition OP_ACK : byte := xfe.

Definition PROTOCOL_VERSION : Z := 0x01.
Definition RESPONSE_OK : byte := x01.
Definition PING_FRAME : bytes := [x00; x00; x00; x00; x00; x00; x00; x00; x00].

Definition ERR_CLIENT_NOT_REGISTERED : byte := x71.
Definition ERR_DATA : byte := x72.
Definition ERR_IO : byte := x73.
Definition ERR_OTHER : byte := x74.
Definition ERR_NOT_SUPPORTED : byte := x75.
Definition ERR_BUSY : byte := x76.
Definition ERR_NOT_DELIVERED : byte := x77.
Definition ERR_TIMEOUT : byte := x78.
Definition ERR_ACCESS : byte := x79.

Definition GREETINGS : bytes := [xeb].
(** Durations in microseconds. *)
Definition DEFAULT_TIMEOUT : Z := 1000000.
Definition DEFAULT_BUF_TTL : Z := 10.
Definition DEFAULT_BUF_SIZE : Z := 8192.
Definition DEFAULT_QUEUE_SIZE : Z := 8192.
Definition SECONDARY_SEP : str := lit "%%".

(** ** Errors *)

Inductive ErrorKind :=
| NotRegistered | NotSupported | Io | Timeout | Data | Busy | NotDelivered | Access | Other | Eof.

#[export] Instance ErrorKind_eq_dec : EqDecision ErrorKind.
Proof. solve_decision. Defined.

(** [kind as u8]: the discriminants. *)
Definition ErrorKind_code (k : ErrorKind) : byte :=
  match k with
  | NotRegistered => ERR_CLIENT_NOT_REGISTERED
  | NotSupported => ERR_NOT_SUPPORTED
  | Io => ERR_IO
  | Timeout => ERR_TIMEOUT
  | Data => ERR_DATA
  | Busy => ERR_BUSY
  | NotDelivered => ERR_NOT_DELIVERED
  | Access => ERR_ACCESS
  | Other => ERR_OTHER
  | Eof => xff
  end.

(** [impl From<u8> for ErrorKind]. *)
Definition ErrorKind_from_u8 (code : byte) : ErrorKind :=
  if decide (code = ERR_CLIENT_NOT_REGISTERED) then NotRegistered
  else if decide (code = ERR_NOT_SUPPORTED) then NotSupported
  else if decide (code = ERR_IO) then Io
  else if decide (code = ERR_DATA) then Data
  else if decide (code = ERR_BUSY) then Busy
  else if decide (code = ERR_NOT_DELIVERED) then NotDelivered
  else if decide (code = ERR_ACCESS) then Access
  else Other.

Definition ErrorKind_fmt (k : ErrorKind) : str :=
  match k with
  | NotRegistered => lit "Client not registered"
  | NotSupported => lit "Feature not supported"
  | Io => lit "I/O Error"
  | Timeout => lit "Timeout"
  | Data => lit "Data Error"
  | Busy => lit "Busy"
  | NotDelivered => lit "Frame not delivered"
  | Other => lit "Error"
  | Access => lit "Access denied"
  | Eof => lit "Eof"
  end.

Record Error := MkError {
  kind : ErrorKind;
  message : option str;
}.

Definition Error_fmt (e : Error) : str :=
  match message e with
  | Some m => ErrorKind_fmt (kind e) ++ lit ": " ++ m
  | None => ErrorKind_fmt (kind e)
  end.

Definition Error_io (m : str) : Error := MkError Io (Some m).
Definition Error_data (m : str) : Error := MkError Data (Some m).
Definition Error_access (m : str) : Error := MkError Access (Some m).
Definition Error_not_supported (m : str) : Error := MkError NotSupported (Some m).
Definition Error_not_registered : Error := MkError NotRegistered None.
Definition Error_not_delivered : Error := MkError NotDelivered None.
Definition Error_timeout : Error := MkError Timeout None.
Definition Error_busy (m : str) : Error := MkError Busy (Some m).

(** [u8::to_busrt_result]: what an acknowledgement code means. *)
Definition to_busrt_result (code : byte) : result unit Error :=
  if decide (code = RESPONSE_OK) then Ok tt
  else Err (MkError (ErrorKind_from_u8 code) None).

(** [impl From<std::io::Error> for Error]. *)
Definition Error_from_io (e : io_error) : Error :=
  if bool_decide (io_err_kind e = UnexpectedEof)
     || bool_decide (io_err_kind e = BrokenPipe)
     || bool_decide (io_err_kind e = ConnectionReset)
  then MkError Eof None
  else Error_io (io_err_text e).

Definition Error_from_utf8 (e : Utf8Error) : Error := Error_data (fmt_utf8_error e).
(** [impl From<async_channel::SendError<T>> for Error]. *)
Definition Error_from_send : Error := MkError Eof None.
(** [impl From<oneshot::error::RecvError> for Error]. *)
Definition Error_from_recv : Error := MkError Eof None.

(** ** Operation codes *)

Inductive FrameOp :=
| FrameOp_Nop | FrameOp_Message | FrameOp_Broadcast | FrameOp_PublishTopic
| FrameOp_PublishTopicFor | FrameOp_SubscribeTopic | FrameOp_UnsubscribeTopic
| FrameOp_ExcludeTopic | FrameOp_UnexcludeTopic.

#[export] Instance FrameOp_eq_dec : EqDecision FrameOp.
Proof. solve_decision. Defined.

Definition FrameOp_code (op : FrameOp) : byte :=
  match op with
  | FrameOp_Nop => OP_NOP
  | FrameOp_Message => OP_MESSAGE
  | FrameOp_Broadcast => OP_BROADCAST
  | FrameOp_PublishTopic => OP_PUBLISH
  | FrameOp_PublishTopicFor => OP_PUBLISH_FOR
  | FrameOp_SubscribeTopic => OP_SUBSCRIBE
  | FrameOp_UnsubscribeTopic => OP_UNSUBSCRIBE
  | FrameOp_ExcludeTopic => OP_EXCLUDE
  | FrameOp_UnexcludeTopic => OP_UNEXCLUDE
  end.

Definition FrameOp_try_from (tp : byte) : result FrameOp Error :=
  if decide (tp = OP_NOP) then Ok FrameOp_Nop
  else if decide (tp = OP_MESSAGE) then Ok FrameOp_Message
  else if decide (tp = OP_BROADCAST) then Ok FrameOp_Broadcast
  else if decide (tp = OP_PUBLISH) then Ok FrameOp_PublishTopic
  else if decide (tp = OP_PUBLISH_FOR) then Ok FrameOp_PublishTopicFor
  else if decide (tp = OP_SUBSCRIBE) then Ok FrameOp_SubscribeTopic
  else if decide (tp = OP_UNSUBSCRIBE) then Ok FrameOp_UnsubscribeTopic
  else if decide (tp = OP_EXCLUDE) then Ok FrameOp_ExcludeTopic
  else if decide (tp = OP_UNEXCLUDE) then Ok FrameOp_UnexcludeTopic
  else Err (Error_data (lit "Invalid frame type: " ++ fmt_z (u8_val tp))).

Inductive QoS := QoS_No | QoS_Processed | QoS_Realtime | QoS_RealtimeProcessed.

#[export] Instance QoS_eq_dec : EqDecision QoS.
Proof. solve_decision. Defined.

Definition QoS_code (q : QoS) : Z :=
  match q with
  | QoS_No => 0
  | QoS_Processed => 1
  | QoS_Realtime => 2
  | QoS_RealtimeProcessed => 3
  end.

Definition is_realtime (q : QoS) : bool := negb (Z.land (QoS_code q) 2 =? 0).
Definition needs_ack (q : QoS) : bool := negb (Z.land (QoS_code q) 1 =? 0).

Definition QoS_try_from (q : byte) : result QoS Error :=
  let v := u8_val q in
  if v =? 0 then Ok QoS_No
  else if v =? 1 then Ok QoS_Processed
  else if v =? 2 then Ok QoS_Realtime
  else if v =? 3 then Ok QoS_RealtimeProcessed
  else Err (Error_data (lit "Invalid QoS: " ++ fmt_z v)).

(** ** Frames *)

Inductive FrameKind :=
| FrameKind_Prepared | FrameKind_Message | FrameKind_Broadcast | FrameKind_Publish
| FrameKind_Acknowledge | FrameKind_Nop.

#[export] Instance FrameKind_eq_dec : EqDecision FrameKind.
Proof. solve_decision. Defined.

Definition FrameKind_code (k : FrameKind) : byte :=
  match k with
  | FrameKind_Prepared => xff
  | FrameKind_Message => OP_MESSAGE
  | FrameKind_Broadcast => OP_BROADCAST
  | FrameKind_Publish => OP_PUBLISH
  | FrameKind_Acknowledge => OP_ACK
  | FrameKind_Nop => OP_NOP
  end.

Definition FrameKind_try_from (code : byte) : result FrameKind Error :=
  if decide (code = OP_MESSAGE) then Ok FrameKind_Message
  else if decide (code = OP_BROADCAST) then Ok FrameKind_Broadcast
  else if decide (code = OP_PUBLISH) then Ok FrameKind_Publish
  else if decide (code = OP_ACK) then Ok FrameKind_Acknowledge
  else if decide (code = OP_NOP) then Ok FrameKind_Nop
  else Err (Error_data (lit "Invalid frame type: " ++ fmt_hex8 code)).

Record FrameData := MkFrame {
  frame_kind : FrameKind;
  frame_sender : option str;
  frame_topic : option str;
  frame_header : option bytes;
  frame_buf : bytes;
  frame_payload_pos : Z;
  frame_realtime : bool;
}.

#[export] Instance FrameData_eq_dec : EqDecision FrameData.
Proof. solve_decision. Defined.

Definition new_nop : FrameData := {|
  frame_kind := FrameKind_Nop;
  frame_sender := None;
  frame_topic := None;
  frame_header := None;
  frame_buf := [];
  frame_payload_pos := 0;
  frame_realtime := false;
|}.

(** [&buf[pos..]]: panics when [pos] is past the end. *)
Definition slice_from (pos : Z) (buf : bytes) : option bytes :=
  if (0 <=? pos) && (pos <=? Z.of_nat (length buf)) then Some (drop (Z.to_nat pos) buf) else None.

(** The part of a name before the secondary separator. *)
Definition before_sep (name : str) : str :=
  match find_sub SECONDARY_SEP name with
  | Some pos => take pos name
  | None => name
  end.

(** [FrameData::sender]: panics for a prepared frame. *)
Definition sender (f : FrameData) : option str := frame_sender f.

(** [FrameData::primary_sender]: panics for a prepared frame. *)
Definition primary_sender (f : FrameData) : option str :=
  match frame_sender f with
  | None => None
  | Some primary_sender =>
      match find_sub SECONDARY_SEP primary_sender with
      | Some pos => Some (take pos primary_sender)
      | None => Some primary_sender
      end
  end.

(** [FrameData::payload]. *)
Definition payload (f : FrameData) : option bytes := slice_from (frame_payload_pos f) (frame_buf f).

(** The payload position of a frame lies inside its buffer. *)
Definition frame_wf (f : FrameData) : Prop :=
  0 <= frame_payload_pos f <= Z.of_nat (length (frame_buf f)).

Lemma slice_from_app (a b : bytes) : slice_from (Z.of_nat (length a)) (a ++ b) = Some b.
Proof.
  unfold slice_from. rewrite length_app.
  rewrite (proj2 (Z.leb_le _ _)), (proj2 (Z.leb_le _ _)) by lia. simpl.
  by rewrite Nat2Z.id, drop_app_length.
Qed.

Lemma slice_from_0 (b : bytes) : slice_from 0 b = Some b.
Proof. apply (slice_from_app []). Qed.

Lemma slice_from_Some pos (b : bytes) :
  0 <= pos <= Z.of_nat (length b) -> slice_from pos b = Some (drop (Z.to_nat pos) b).
Proof.
  intros H. unfold slice_from. rewrite !(proj2 (Z.leb_le _ _)) by lia. done.
Qed.

Lemma payload_wf f : frame_wf f -> exists p, payload f = Some p.
Proof. intros H. unfold payload. rewrite slice_from_Some by done. eauto. Qed.

Lemma primary_sender_before_sep f : primary_sender f = before_sep <$> frame_sender f.
Proof.
  unfold primary_sender, before_sep. destruct (frame_sender f); [|done]. simpl.
  by destruct (find_sub _ _).
Qed.

(** A primary name holds no separator, so it is its own primary name. *)
Lemma before_sep_idemp name : before_sep (before_sep name) = before_sep name.
Proof.
  unfold before_sep at 2 3. destruct (find_sub SECONDARY_SEP name) as [pos|] eqn:E.
  - unfold before_sep. by rewrite (find_sub_take SECONDARY_SEP name pos ltac:(discriminate) E).
  - unfold before_sep. by rewrite E.
Qed.

Lemma QoS_roundtrip q : QoS_try_from (u8 (QoS_code q)) = Ok q.
Proof. by destruct q. Qed.

Lemma FrameOp_roundtrip op : FrameOp_try_from (FrameOp_code op) = Ok op.
Proof. by destruct op. Qed.

Create Rewrite HintDb wire.
#[export] Hint Rewrite FrameOp_roundtrip QoS_roundtrip : wire.

(** An error sent as its code is read back as the same kind, except that the code of
    [Timeout] (and of [Eof]) is read back as [Other]: [From<u8>] has no branch for
    [ERR_TIMEOUT]. *)
Lemma ErrorKind_code_roundtrip k :
  ErrorKind_from_u8 (ErrorKind_code k) =
    if decide (k = Timeout \/ k = Eof) then Other else k.
Proof. by destruct k. Qed.
