(* ===== verification/External.v ===== *)
(** * Interfaces of the third-party crates the broker is built on

    The [submap] crate (topic and name maps), the [async_channel] crate (client queues) and
    the SHA-256 digest are not part of the repository. Each is a class of operations, an
    argument of every definition that uses it, with a second class of laws: the documented
    behaviour the code relies on, stated over a logical view. [Module Ref] instantiates all of
    them with small executable versions, for the concrete runs that witness the theorems. *)
From S2P Require Export Lib.

(** Separator, single-level and multi-level wildcard of a map. *)
Record mask_cfg := MaskCfg {
  mc_separator : str;
  mc_match_any : str;
  mc_wildcard : str;
}.

(** ** [submap::AclMap] *)

Class AclMapOps (M : Type) := {
  acl_new : M;
  acl_separator : str -> M -> M;
  acl_match_any : str -> M -> M;
  acl_wildcard : str -> M -> M;
  acl_insert : str -> M -> M;
  acl_remove : str -> M -> M;
  acl_matches : M -> str -> bool;
  acl_is_empty : M -> bool;
}.

Class AclMapLaws (M : Type) `{AclMapOps M} := {
  acl_masks : M -> gset str;
  acl_cfg : M -> mask_cfg;
  acl_fits : mask_cfg -> str -> str -> bool;
  acl_masks_new : acl_masks acl_new = ∅;
  acl_masks_separator s m : acl_masks (acl_separator s m) = acl_masks m;
  acl_masks_match_any s m : acl_masks (acl_match_any s m) = acl_masks m;
  acl_masks_wildcard s m : acl_masks (acl_wildcard s m) = acl_masks m;
  acl_masks_insert t m : acl_masks (acl_insert t m) = {[ t ]} ∪ acl_masks m;
  acl_masks_remove t m : acl_masks (acl_remove t m) = acl_masks m ∖ {[ t ]};
  acl_cfg_insert t m : acl_cfg (acl_insert t m) = acl_cfg m;
  acl_cfg_remove t m : acl_cfg (acl_remove t m) = acl_cfg m;
  acl_matches_spec m t :
    acl_matches m t = true <-> exists mask, mask ∈ acl_masks m /\ acl_fits (acl_cfg m) mask t = true;
  acl_is_empty_spec m : acl_is_empty m = true <-> acl_masks m = ∅;
}.

(** ** [submap::SubMap] and [submap::BroadcastMap]

    The maps order clients by a key: [Ord for BusRtClient] compares digests. *)

Class SubMapOps (C M : Type) := {
  sm_create : mask_cfg -> M;
  sm_register_client : C -> M -> bool * M;
  sm_unregister_client : C -> M -> bool * M;
  sm_subscribe : str -> C -> M -> bool * M;
  sm_unsubscribe : str -> C -> M -> bool * M;
  sm_get_subscribers : M -> str -> list C;
}.

Class SubMapLaws {K C : Type} (key : C -> K) (M : Type)
    `{Countable K, SubMapOps C M} := {
  sm_view : M -> gmap K (C * gset str);
  sm_cfg : M -> mask_cfg;
  sm_fits : mask_cfg -> str -> str -> bool;
  sm_create_view cfg : sm_view (sm_create cfg) = ∅;
  sm_create_cfg cfg : sm_cfg (sm_create cfg) = cfg;
  sm_register_new c m :
    sm_view m !! key c = None ->
    fst (sm_register_client c m) = true /\
    sm_view (snd (sm_register_client c m)) = <[ key c := (c, ∅) ]> (sm_view m);
  sm_register_cfg c m : sm_cfg (snd (sm_register_client c m)) = sm_cfg m;
  sm_unregister_view c m :
    sm_view (snd (sm_unregister_client c m)) = delete (key c) (sm_view m);
  sm_unregister_cfg c m : sm_cfg (snd (sm_unregister_client c m)) = sm_cfg m;
  sm_subscribe_known t c m ts :
    sm_view m !! key c = Some (c, ts) ->
    fst (sm_subscribe t c m) = true /\
    sm_view (snd (sm_subscribe t c m)) = <[ key c := (c, {[ t ]} ∪ ts) ]> (sm_view m);
  sm_subscribe_unknown t c m :
    sm_view m !! key c = None ->
    fst (sm_subscribe t c m) = false /\ sm_view (snd (sm_subscribe t c m)) = sm_view m;
  sm_subscribe_cfg t c m : sm_cfg (snd (sm_subscribe t c m)) = sm_cfg m;
  sm_unsubscribe_known t c m ts :
    sm_view m !! key c = Some (c, ts) ->
    fst (sm_unsubscribe t c m) = true /\
    sm_view (snd (sm_unsubscribe t c m)) = <[ key c := (c, ts ∖ {[ t ]}) ]> (sm_view m);
  sm_unsubscribe_unknown t c m :
    sm_view m !! key c = None ->
    fst (sm_unsubscribe t c m) = false /\ sm_view (snd (sm_unsubscribe t c m)) = sm_view m;
  sm_unsubscribe_cfg t c m : sm_cfg (snd (sm_unsubscribe t c m)) = sm_cfg m;
  sm_get_subscribers_spec m t c :
    c ∈ sm_get_subscribers m t <->
    exists ts mask, sm_view m !! key c = Some (c, ts) /\ mask ∈ ts /\
                    sm_fits (sm_cfg m) mask t = true;
  sm_get_subscribers_NoDup m t : NoDup (key <$> sm_get_subscribers m t);
}.

Class BroadcastMapOps (C M : Type) := {
  bm_create : mask_cfg -> M;
  bm_register_client : str -> C -> M -> M;
  bm_unregister_client : str -> C -> M -> M;
  bm_get_clients_by_mask : M -> str -> list C;
}.

Class BroadcastMapLaws {K C : Type} (key : C -> K) (M : Type)
    `{Countable K, BroadcastMapOps C M} := {
  (** The clients and the names they are registered under. *)
  bm_view : M -> gmap K (C * str);
  bm_cfg : M -> mask_cfg;
  bm_fits : mask_cfg -> str -> str -> bool;
  bm_create_view cfg : bm_view (bm_create cfg) = ∅;
  bm_create_cfg cfg : bm_cfg (bm_create cfg) = cfg;
  bm_register_view n c m :
    bm_view m !! key c = None ->
    bm_view (bm_register_client n c m) = <[ key c := (c, n) ]> (bm_view m);
  bm_register_cfg n c m : bm_cfg (bm_register_client n c m) = bm_cfg m;
  bm_unregister_view n c m :
    bm_view m !! key c = Some (c, n) ->
    bm_view (bm_unregister_client n c m) = delete (key c) (bm_view m);
  bm_unregister_cfg n c m : bm_cfg (bm_unregister_client n c m) = bm_cfg m;
  bm_get_spec m mask c :
    c ∈ bm_get_clients_by_mask m mask <->
    exists n, bm_view m !! key c = Some (c, n) /\ bm_fits (bm_cfg m) mask n = true;
  bm_get_NoDup m mask : NoDup (key <$> bm_get_clients_by_mask m mask);
}.

(** ** [async_channel]: a bounded FIFO queue *)

Class ChannelOps (F Q : Type) := {
  ch_bounded : Z -> Q;
  ch_is_full : Q -> bool;
  ch_len : Q -> Z;
  ch_is_closed : Q -> bool;
  (** What [send] does to an open queue with room. *)
  ch_push : F -> Q -> Q;
  ch_close : Q -> Q;
  ch_recv : Q -> option (F * Q);
}.

Class ChannelLaws (F Q : Type) `{ChannelOps F Q} := {
  ch_items : Q -> list F;
  ch_cap : Q -> Z;
  ch_bounded_spec n :
    0 < n -> ch_items (ch_bounded n) = [] /\ ch_cap (ch_bounded n) = n /\ ch_is_closed (ch_bounded n) = false;
  ch_is_full_spec q : ch_is_full q = true <-> ch_cap q <= Z.of_nat (length (ch_items q));
  ch_len_spec q : ch_len q = Z.of_nat (length (ch_items q));
  ch_push_spec f q :
    ch_is_full q = false -> ch_is_closed q = false ->
    ch_items (ch_push f q) = ch_items q ++ [f] /\ ch_cap (ch_push f q) = ch_cap q /\
    ch_is_closed (ch_push f q) = false;
  ch_close_spec q :
    ch_items (ch_close q) = ch_items q /\ ch_cap (ch_close q) = ch_cap q /\ ch_is_closed (ch_close q) = true;
  ch_recv_None q : ch_recv q = None <-> ch_items q = [];
  ch_recv_Some q f q' :
    ch_recv q = Some (f, q') ->
    ch_items q = f :: ch_items q' /\ ch_cap q' = ch_cap q /\ ch_is_closed q' = ch_is_closed q;
}.

Section channel.
Context {F Q : Type} `{ChannelOps F Q}.

(** The owner of the queue takes up to [n] frames off it. *)
Fixpoint ch_drain (n : nat) (q : Q) : Q :=
  match n with
  | O => q
  | S n => match ch_recv q with Some (_, q) => ch_drain n q | None => q end
  end.

Inductive sent := Sent (q : Q) | SendClosed | SendBlocked (q : Q).

(** [tx.send(frame).await] while the owner takes [room] frames off a full queue: an error on
    a closed queue, a push when there is room, and otherwise still waiting. *)
Definition ch_send (room : nat) (f : F) (q : Q) : sent :=
  if ch_is_closed q then SendClosed
  else if ch_is_full q then
    let q := ch_drain room q in
    if ch_is_full q then SendBlocked q else Sent (ch_push f q)
  else Sent (ch_push f q).
End channel.
Arguments sent Q : clear implicits.
Arguments Sent {Q}.
Arguments SendClosed {Q}.
Arguments SendBlocked {Q}.

(** ** Executable instances *)

Module Ref.
Fixpoint fits_segments (cfg : mask_cfg) (mask topic : list str) : bool :=
  match mask, topic with
  | [], [] => true
  | [], _ :: _ => false
  | m :: mask, _ =>
      if bool_decide (m = mc_wildcard cfg) then true
      else match topic with
           | [] => false
           | t :: topic =>
               (bool_decide (m = mc_match_any cfg) || bool_decide (m = t))
                 && fits_segments cfg mask topic
           end
  end.

(** A mask matches a topic segment by segment. *)
Definition fits (cfg : mask_cfg) (mask topic : str) : bool :=
  let sep := default x00 (head (mc_separator cfg)) in
  fits_segments cfg (split sep mask) (split sep topic).

Definition fits_any (cfg : mask_cfg) (masks : gset str) (topic : str) : bool :=
  existsb (fun m => fits cfg m topic) (elements masks).

Lemma fits_any_spec cfg masks topic :
  fits_any cfg masks topic = true <-> exists m, m ∈ masks /\ fits cfg m topic = true.
Proof.
  unfold fits_any. rewrite existsb_exists. split; intros (m & Hm & Hf); exists m; split; try done.
  - by apply elem_of_elements, list_elem_of_In.
  - by apply list_elem_of_In, elem_of_elements.
Qed.

Record acl := Acl { r_cfg : mask_cfg; r_masks : gset str }.

#[global] Instance acl_ops : AclMapOps acl := {
  acl_new := Acl (MaskCfg (lit "/") (lit "?") (lit "*")) ∅;
  acl_separator s m := Acl (MaskCfg s (mc_match_any (r_cfg m)) (mc_wildcard (r_cfg m))) (r_masks m);
  acl_match_any s m := Acl (MaskCfg (mc_separator (r_cfg m)) s (mc_wildcard (r_cfg m))) (r_masks m);
  acl_wildcard s m := Acl (MaskCfg (mc_separator (r_cfg m)) (mc_match_any (r_cfg m)) s) (r_masks m);
  acl_insert t m := Acl (r_cfg m) ({[ t ]} ∪ r_masks m);
  acl_remove t m := Acl (r_cfg m) (r_masks m ∖ {[ t ]});
  acl_matches m t := fits_any (r_cfg m) (r_masks m) t;
  acl_is_empty m := bool_decide (r_masks m = ∅);
}.

#[global] Instance acl_laws : AclMapLaws acl.
Proof.
  refine {| acl_masks := r_masks; acl_cfg := r_cfg; acl_fits := fits |}; try done.
  - intros m t. apply fits_any_spec.
  - intros m. apply bool_decide_eq_true.
Defined.

Section maps.
Context {K C : Type} (key : C -> K) `{Countable K}.

Record submap := SubMap { r_scfg : mask_cfg; r_subs : gmap K (C * gset str) }.

Definition submap_pick (m : submap) (topic : str) (kv : K * (C * gset str)) : option C :=
  if bool_decide (key kv.2.1 = kv.1) && fits_any (r_scfg m) kv.2.2 topic then Some kv.2.1 else None.

Definition upd_topics (f : gset str -> gset str) (c : C) (m : submap) : bool * submap :=
  match r_subs m !! key c with
  | Some (c', ts) => (true, SubMap (r_scfg m) (<[ key c := (c', f ts) ]> (r_subs m)))
  | None => (false, m)
  end.

Definition submap_ops : SubMapOps C submap := {|
  sm_create cfg := SubMap cfg ∅;
  sm_register_client c m :=
    match r_subs m !! key c with
    | Some _ => (false, m)
    | None => (true, SubMap (r_scfg m) (<[ key c := (c, ∅) ]> (r_subs m)))
    end;
  sm_unregister_client c m :=
    (bool_decide (is_Some (r_subs m !! key c)), SubMap (r_scfg m) (delete (key c) (r_subs m)));
  sm_subscribe t c m := upd_topics (fun ts => {[ t ]} ∪ ts) c m;
  sm_unsubscribe t c m := upd_topics (fun ts => ts ∖ {[ t ]}) c m;
  sm_get_subscribers m topic := omap (submap_pick m topic) (map_to_list (r_subs m));
|}.

Lemma submap_pick_spec m topic kv c :
  submap_pick m topic kv = Some c <->
  exists ts, kv = (key c, (c, ts)) /\ fits_any (r_scfg m) ts topic = true.
Proof.
  unfold submap_pick. destruct kv as [k [c' ts]]; simpl. split.
  - case_bool_decide as Hk; simpl; [|done].
    destruct (fits_any _ _ _) eqn:E; [|done]. intros [= ->]. subst. eauto.
  - intros (ts' & [= -> -> ->] & Hf). rewrite bool_decide_true by done. by rewrite Hf.
Qed.

Lemma omap_keys_NoDup {V} (f : K * V -> option C) (l : list (K * V)) :
  (forall kv c, f kv = Some c -> key c = kv.1) ->
  NoDup (l.*1) -> NoDup (key <$> omap f l).
Proof.
  intros Hf. induction l as [|kv l IH]; cbn; [constructor|].
  intros [Hn Hnd]%NoDup_cons. destruct (f kv) as [c|] eqn:E; [|by apply IH].
  cbn. apply NoDup_cons. split; [|by apply IH].
  rewrite (Hf _ _ E). intros (c' & Hk & (kv' & Hin & Hc)%list_elem_of_omap)%list_elem_of_fmap.
  apply Hn. apply list_elem_of_fmap. exists kv'. split; [|done].
  rewrite Hk. by apply Hf.
Qed.

Definition submap_laws : @SubMapLaws K C key submap _ _ submap_ops.
Proof.
  refine {| sm_view := r_subs; sm_cfg := r_scfg; sm_fits := fits |};
    cbn; try done.
  - intros c m Hc. by rewrite Hc.
  - intros c m. by destruct (_ !! _).
  - intros t c m ts Hc. unfold upd_topics. by rewrite Hc.
  - intros t c m Hc. unfold upd_topics. by rewrite Hc.
  - intros t c m. unfold upd_topics. by destruct (_ !! _) as [[? ?]|].
  - intros t c m ts Hc. unfold upd_topics. by rewrite Hc.
  - intros t c m Hc. unfold upd_topics. by rewrite Hc.
  - intros t c m. unfold upd_topics. by destruct (_ !! _) as [[? ?]|].
  - intros m t c. rewrite list_elem_of_omap. split.
    + intros (kv & Hin & (ts & -> & (mask & Hm & Hf)%fits_any_spec)%submap_pick_spec).
      apply elem_of_map_to_list in Hin. eauto.
    + intros (ts & mask & Hl & Hm & Hf). exists (key c, (c, ts)).
      rewrite elem_of_map_to_list, submap_pick_spec. split; [done|].
      exists ts. split; [done|]. apply fits_any_spec. eauto.
  - intros m t. apply omap_keys_NoDup; [|apply NoDup_fst_map_to_list].
    by intros kv c (ts & -> & _)%submap_pick_spec.
Defined.

Record broadcasts := Broadcasts { r_bcfg : mask_cfg; r_names : gmap K (C * str) }.

Definition broadcasts_pick (m : broadcasts) (mask : str) (kv : K * (C * str)) : option C :=
  if bool_decide (key kv.2.1 = kv.1) && fits (r_bcfg m) mask kv.2.2 then Some kv.2.1 else None.

Definition broadcasts_ops : BroadcastMapOps C broadcasts := {|
  bm_create cfg := Broadcasts cfg ∅;
  bm_register_client n c m := Broadcasts (r_bcfg m) (<[ key c := (c, n) ]> (r_names m));
  bm_unregister_client n c m := Broadcasts (r_bcfg m) (delete (key c) (r_names m));
  bm_get_clients_by_mask m mask := omap (broadcasts_pick m mask) (map_to_list (r_names m));
|}.

Lemma broadcasts_pick_spec m mask kv c :
  broadcasts_pick m mask kv = Some c <->
  exists n, kv = (key c, (c, n)) /\ fits (r_bcfg m) mask n = true.
Proof.
  unfold broadcasts_pick. destruct kv as [k [c' n]]; simpl. split.
  - case_bool_decide as Hk; simpl; [|done].
    destruct (fits _ _ _) eqn:E; [|done]. intros [= ->]. subst. eauto.
  - intros (n' & [= -> -> ->] & Hf). rewrite bool_decide_true by done. by rewrite Hf.
Qed.

Definition broadcasts_laws : @BroadcastMapLaws K C key broadcasts _ _ broadcasts_ops.
Proof.
  refine {| bm_view := r_names; bm_cfg := r_bcfg; bm_fits := fits |}; cbn; try done.
  - intros m mask c. rewrite list_elem_of_omap. split.
    + intros (kv & Hin & (n & -> & Hf)%broadcasts_pick_spec).
      apply elem_of_map_to_list in Hin. eauto.
    + intros (n & Hl & Hf). exists (key c, (c, n)).
      rewrite elem_of_map_to_list, broadcasts_pick_spec. eauto.
  - intros m mask. apply omap_keys_NoDup; [|apply NoDup_fst_map_to_list].
    by intros kv c (n & -> & _)%broadcasts_pick_spec.
Defined.
End maps.

Record queue (F : Type) := Queue { r_items : list F; r_cap : Z; r_closed : bool }.
#[global] Arguments Queue {F}.
#[global] Arguments r_items {F}.
#[global] Arguments r_cap {F}.
#[global] Arguments r_closed {F}.

#[global] Instance queue_ops {F} : ChannelOps F (queue F) := {
  ch_bounded n := Queue [] n false;
  ch_is_full q := r_cap q <=? Z.of_nat (length (r_items q));
  ch_len q := Z.of_nat (length (r_items q));
  ch_is_closed := r_closed;
  ch_push f q := Queue (r_items q ++ [f]) (r_cap q) (r_closed q);
  ch_close q := Queue (r_items q) (r_cap q) true;
  ch_recv q :=
    match r_items q with
    | [] => None
    | f :: fs => Some (f, Queue fs (r_cap q) (r_closed q))
    end;
}.

#[global] Instance queue_laws {F} : ChannelLaws F (queue F).
Proof.
  refine {| ch_items := r_items; ch_cap := r_cap |}; cbn; try done.
  - intros q. apply Z.leb_le.
  - intros q. by destruct (r_items q).
  - intros q f q'. destruct (r_items q); [done|]. by intros [= <- <-].
Defined.
End Ref.
