(* ===== verification/Params.v ===== *)
(** * Parameters of the RPC calls of the command line ([src/common.rs])

    [str_to_params_map] reads [name=value] words: booleans, 64-bit integers, floating-point
    numbers, and texts otherwise. Floating-point numbers, and the encoding of the map the caller
    wants, are a class. *)
From Stdlib Require Import Strings.Ascii.
From S2P Require Export Lib.

(** [serde_value::Value], as far as it is used. *)
Inductive Value (F : Type) :=
| VBool (b : bool)
| VI64 (z : Z)
| VF64 (f : F)
| VString (s : str).
Arguments VBool {F}.
Arguments VI64 {F}.
Arguments VF64 {F}.
Arguments VString {F}.

Class ParamOps := {
  pa_f64 : Type;
  (** [str::parse::<f64>] and [rmp_serde::to_vec_named] of the map, with the text of its error. *)
  pa_parse_f64 : str -> option pa_f64;
  pa_to_vec : gmap str (Value pa_f64) -> result bytes str;
}.

Definition EQ : byte := x3d.

Definition digit_val (b : byte) : option Z :=
  let v := u8_val b in if (48 <=? v) && (v <=? 57) then Some (v - 48) else None.

Fixpoint digits (acc : Z) (s : bytes) : option Z :=
  match s with
  | [] => Some acc
  | b :: s => d ← digit_val b; digits (acc * 10 + d) s
  end.

Definition i64_range (z : Z) : bool := (- 2 ^ 63 <=? z) && (z <? 2 ^ 63).

(** [str::parse::<i64>]: a sign, if any, and digits; what does not fit is an error. *)
Definition parse_i64 (s : str) : option Z :=
  let '(sign, ds) :=
    match s with
    | b :: rest => if decide (b = x2d) then (-1, rest) else if decide (b = x2b) then (1, rest) else (1, s)
    | [] => (1, [])
    end in
  match ds with
  | [] => None
  | _ => n ← digits 0 ds; if i64_range (sign * n) then Some (sign * n) else None
  end.

Section params.
Context {P : ParamOps}.

(** The value of a word. *)
Definition parse_value (v : str) : Value pa_f64 :=
  if decide (v = lit "false") then VBool false
  else if decide (v = lit "true") then VBool true
  else match parse_i64 v with
  | Some i => VI64 i
  | None => match pa_parse_f64 v with
            | Some f => VF64 f
            | None => VString v
            end
  end.

(** One turn of the loop. *)
Definition add_param (kv : str) (params : gmap str (Value pa_f64)) : result (gmap str (Value pa_f64)) Error :=
  match kv with
  | [] => Ok params
  | _ =>
      let psp := split EQ kv in
      let? var := ok_or (psp !! 0%nat) (Error_data (lit "var name not specified")) in
      let? v := ok_or (psp !! 1%nat) (Error_data (lit "var value not specified")) in
      Ok (<[ var := parse_value v ]> params)
  end.

Fixpoint add_params (s : list str) (params : gmap str (Value pa_f64)) : result (gmap str (Value pa_f64)) Error :=
  match s with
  | [] => Ok params
  | kv :: s => let? params := add_param kv params in add_params s params
  end.

(** [str_to_params_map]. *)
Definition str_to_params_map (s : list str) : result (gmap str (Value pa_f64)) Error := add_params s ∅.

(** ** Facts *)

(** How values are spelled. *)
Inductive spells : str -> Value pa_f64 -> Prop :=
| spells_bool b : spells (if b : bool then lit "true" else lit "false") (VBool b)
| spells_int z : - 2 ^ 63 <= z < 2 ^ 63 -> spells (fmt_z z) (VI64 z)
| spells_plus z : 0 <= z < 2 ^ 63 -> spells (lit "+" ++ fmt_z z) (VI64 z)
| spells_float s f : s <> lit "true" -> s <> lit "false" -> parse_i64 s = None -> pa_parse_f64 s = Some f ->
    spells s (VF64 f)
| spells_text s : s <> lit "true" -> s <> lit "false" -> parse_i64 s = None -> pa_parse_f64 s = None ->
    spells s (VString s).
End params.

Lemma lit_cons a s : lit (String a s) = byte_of_ascii a :: lit s.
Proof. done. Qed.

(** The digits of a number spell it. *)
Lemma digits_pretty_go (x : N) s : digits 0 (lit (pretty_N_go x s)) = digits (Z.of_N x) (lit s).
Proof.
  revert s. induction (N.lt_wf_0 x) as [x _ IH]; intros s.
  destruct (decide (x = 0%N)) as [->|Hx]; [by rewrite pretty_N_go_0|].
  rewrite pretty_N_go_step by lia. rewrite IH by (apply N.div_lt; lia). rewrite lit_cons. cbn [digits].
  assert (Hd : forall y, (y < 10)%N -> digit_val (byte_of_ascii (pretty_N_char y)) = Some (Z.of_N y)).
  { intros y Hy. assert (y = 0 \/ y = 1 \/ y = 2 \/ y = 3 \/ y = 4 \/ y = 5 \/ y = 6 \/ y = 7 \/ y = 8 \/ y = 9)%N as Hc by lia.
    naive_solver. }
  rewrite Hd by (apply N.mod_lt; lia). cbn [mbind option_bind]. f_equal.
  pose proof (N.div_mod x 10 ltac:(lia)). lia.
Qed.

Lemma digits_pretty (n : N) : digits 0 (lit (pretty n)) = Some (Z.of_N n) /\ lit (pretty n) <> [].
Proof.
  unfold pretty, pretty_N. case_decide as Hn; [by subst|]. pose proof (digits_pretty_go n "") as H.
  split; [exact H|]. intros E. rewrite E in H. injection H as H. lia.
Qed.

Lemma digit_no_sign b d : digit_val b = Some d -> b <> x2d /\ b <> x2b.
Proof. intros H. by split; intros ->. Qed.

(** Unsigned digits. *)
Lemma parse_digits ds n :
  ds <> [] -> digits 0 ds = Some n -> parse_i64 ds = if i64_range n then Some n else None.
Proof.
  destruct ds as [|b ds]; [done|]. intros _ Hd. pose proof Hd as Hd'. cbn [digits] in Hd'.
  destruct (digit_val b) as [v|] eqn:E; [|done]. apply digit_no_sign in E as [H1 H2].
  unfold parse_i64. rewrite !decide_False, Hd by done. cbn [mbind option_bind]. by rewrite Z.mul_1_l.
Qed.

Lemma parse_signed b ds n :
  ds <> [] -> digits 0 ds = Some n ->
  (b = x2d -> parse_i64 (b :: ds) = if i64_range (- n) then Some (- n) else None) /\
  (b = x2b -> parse_i64 (b :: ds) = if i64_range n then Some n else None).
Proof.
  intros Hne Hd. destruct ds as [|b' ds]; [done|]. split; intros ->; unfold parse_i64.
  - rewrite decide_True, Hd by done. cbn [mbind option_bind]. by replace (-1 * n) with (- n) by lia.
  - rewrite decide_False, decide_True, Hd by done. cbn [mbind option_bind]. by rewrite Z.mul_1_l.
Qed.

Lemma i64_range_spec z : i64_range z = true <-> - 2 ^ 63 <= z < 2 ^ 63.
Proof. unfold i64_range. rewrite andb_true_iff, Z.leb_le, Z.ltb_lt. done. Qed.

(** Reading back the digits of any integer: its value, if it fits. *)
Lemma parse_fmt z : parse_i64 (fmt_z z) = if i64_range z then Some z else None.
Proof.
  unfold fmt_z. destruct z as [|p|p]; [done|..].
  - change (pretty (Zpos p)) with (pretty (Npos p)). destruct (digits_pretty (Npos p)) as [H Hne].
    by rewrite (parse_digits _ _ Hne H).
  - change (lit (pretty (Zneg p))) with (x2d :: lit (pretty (Npos p))).
    destruct (digits_pretty (Npos p)) as [H Hne]. by rewrite (proj1 (parse_signed x2d _ _ Hne H) eq_refl).
Qed.

Lemma parse_plus z : 0 <= z -> parse_i64 (lit "+" ++ fmt_z z) = if i64_range z then Some z else None.
Proof.
  intros Hz. assert (Hd : digits 0 (fmt_z z) = Some z /\ fmt_z z <> []).
  { destruct z as [|p|p]; [done| |lia]. apply (digits_pretty (Npos p)). }
  destruct Hd as [Hd Hne]. by apply (parse_signed x2b _ _ Hne Hd).
Qed.

Section facts.
Context {P : ParamOps}.

(** What a word spells is what is read. *)
Lemma spells_parse w v : spells w v -> parse_value w = v.
Proof.
  intros [b|z Hz|z Hz|s f Ht Hf Hp Hpf|s Ht Hf Hp Hpf]; [by destruct b|..]; unfold parse_value.
  - apply i64_range_spec in Hz. pose proof (parse_fmt z) as E. rewrite Hz in E.
    rewrite !decide_False, E; [done|intros H; rewrite H in E; discriminate..].
  - assert (Hr : i64_range z = true) by (apply i64_range_spec; lia).
    pose proof (parse_plus z (proj1 Hz)) as E. rewrite Hr in E.
    rewrite !decide_False, E; [done|intros H; rewrite H in E; discriminate..].
  - by rewrite !decide_False, Hp, Hpf by done.
  - by rewrite !decide_False, Hp, Hpf by done.
Qed.

Lemma add_param_pair k w rest m :
  EQ ∉ k -> EQ ∉ w -> rest = [] \/ (exists more, rest = EQ :: more) ->
  add_param (k ++ EQ :: w ++ rest) m = Ok (<[ k := parse_value w ]> m).
Proof.
  intros Hk Hw Hr. unfold add_param. rewrite split_app by done.
  assert (Hs : split EQ (w ++ rest) !! 0%nat = Some w).
  { destruct Hr as [->|[more ->]]; [rewrite app_nil_r; by rewrite split_none|by rewrite split_app]. }
  destruct (k ++ EQ :: w ++ rest) eqn:E; [by destruct k|]. cbv zeta.
  change ((k :: split EQ (w ++ rest)) !! 1%nat) with (split EQ (w ++ rest) !! 0%nat). by rewrite Hs.
Qed.

Lemma add_param_bare w m : w <> [] -> EQ ∉ w -> add_param w m = Err (Error_data (lit "var value not specified")).
Proof. intros Hne Hw. unfold add_param. rewrite split_none by done. by destruct w. Qed.

Lemma add_params_app s1 s2 m :
  add_params (s1 ++ s2) m = let? m' := add_params s1 m in add_params s2 m'.
Proof.
  revert m. induction s1 as [|kv s1 IH]; intros m; [done|]. cbn.
  destruct (add_param kv m); cbn; [apply IH|done].
Qed.
End facts.

(** C25: [str_to_params_map] reads back what [name=value] words spell, the last value of a name
    counting: booleans, every 64-bit integer (with or without a sign), floating-point numbers, and
    other texts as they are; empty words are skipped, and what follows a second equals sign is
    ignored. A word without an equals sign is an error, and an integer that does not fit into 64
    bits is never read as an integer. *)
Theorem params_spec {P : ParamOps} :
  (forall words : list (str * str * str * Value pa_f64),
     (forall k w rest v, (k, w, rest, v) ∈ words ->
        (EQ ∉ k) /\ (EQ ∉ w) /\ spells w v /\ (rest = [] \/ exists more, rest = EQ :: more)) ->
     str_to_params_map ((fun '(k, w, rest, _) => k ++ EQ :: w ++ rest) <$> words)
       = Ok (list_to_map ((fun '(k, _, _, v) => (k, v)) <$> reverse words))) /\
  (forall s1 s2, str_to_params_map (s1 ++ [] :: s2) = str_to_params_map (s1 ++ s2)) /\
  (forall s1 w s2 m, str_to_params_map s1 = Ok m -> w <> [] -> EQ ∉ w ->
     str_to_params_map (s1 ++ w :: s2) = Err (Error_data (lit "var value not specified"))) /\
  (forall z, ~ (- 2 ^ 63 <= z < 2 ^ 63) -> forall i, parse_value (fmt_z z) <> VI64 i).
Proof.
  split_and!.
  - intros words Hw. unfold str_to_params_map.
    assert (H : forall m : gmap str (Value pa_f64),
      add_params ((fun '(k, w, rest, _) => k ++ EQ :: w ++ rest) <$> words) m
        = Ok (list_to_map ((fun '(k, _, _, v) => (k, v)) <$> reverse words) ∪ m)).
    { induction words as [|[[[k w] rest] v] words IH]; intros m; [cbn; by rewrite map_empty_union|].
      destruct (Hw k w rest v) as (Hk & Hv & Hs & Hr); [left|]. cbn [fmap list_fmap add_params].
      rewrite add_param_pair, (spells_parse w v Hs) by done.
      rewrite (IH (fun k w rest v H => Hw k w rest v (list_elem_of_further _ _ _ H))).
      rewrite reverse_cons, fmap_app, list_to_map_app, <- map_union_assoc. cbn.
      by rewrite insert_empty, <- insert_union_singleton_l. }
    specialize (H ∅). by rewrite map_union_empty in H.
  - intros s1 s2. unfold str_to_params_map. by rewrite !add_params_app.
  - intros s1 w s2 m E Hne Hw. unfold str_to_params_map in *. rewrite add_params_app, E. cbn.
    by rewrite add_param_bare.
  - intros z Hz i. unfold parse_value. case_decide; [done|]. case_decide; [done|].
    rewrite parse_fmt. destruct (i64_range z) eqn:E; [by apply i64_range_spec in E|].
    by destruct (pa_parse_f64 _).
Qed.

(** Numbers with a point are floating-point, in tenths; the encoding prints the size. *)
Definition ref_params : ParamOps := {|
  pa_f64 := Z;
  pa_parse_f64 s :=
    match split x2e s with
    | [a; b] => if decide (length b = 1%nat) then digits 0 (a ++ b) else None
    | _ => None
    end;
  pa_to_vec m := Ok (fmt_z (Z.of_nat (size m)));
|}.

Lemma params_spec_witness :
  str_to_params_map (P := ref_params) [lit "n=-5"; lit "x=1.5"; lit "on=true"; lit "s=hi"; lit "n=7"]
    = Ok (list_to_map [(lit "n", VI64 7); (lit "s", VString (lit "hi")); (lit "on", VBool true);
                       (lit "x", VF64 (15 : pa_f64 (ParamOps := ref_params))); (lit "n", VI64 (-5))]).
Proof.
  destruct (params_spec (P := ref_params)) as [H _].
  refine (H [(lit "n", lit "-5", [], VI64 (-5)); (lit "x", lit "1.5", [], VF64 15); (lit "on", lit "true", [], VBool true);
             (lit "s", lit "hi", [], VString (lit "hi")); (lit "n", lit "7", [], VI64 7)] _).
  intros k w rest v Hin. rewrite !elem_of_cons, elem_of_nil in Hin.
  assert (Hs : (EQ ∉ k) /\ (EQ ∉ w) /\ rest = [] /\ spells (P := ref_params) w v).
  { destruct Hin as [[= -> -> -> ->]|[[= -> -> -> ->]|[[= -> -> -> ->]|[[= -> -> -> ->]|[[= -> -> -> ->]|[]]]]]];
      split_and!; try done; try (apply (bool_decide_eq_true _); by vm_compute).
    - by apply (spells_int (P := ref_params) (-5)).
    - by refine (spells_float (P := ref_params) (lit "1.5") 15 _ _ _ _).
    - by apply (spells_bool (P := ref_params) true).
    - by apply (spells_text (P := ref_params)).
    - by apply (spells_int (P := ref_params) 7). }
  destruct Hs as (? & ? & ? & ?). auto.
Defined.
