(* ===== verification/Comm.v ===== *)
(** * The buffered writer ([src/comm.rs])

    [TtlBufWriter] wraps a buffered writer: a write marked [Scheduled] asks a background
    flusher to flush after a delay, one marked [Instant] flushes at once. The flusher and the
    future that works on drop are steps of a transition relation ([step]); [write] is the
    operation the callers use. The buffered writer itself ([tokio::io::BufWriter]) is a class. *)
From S2P Require Export Lib.

Inductive Flush := Flush_No | Flush_Scheduled | Flush_Instant.

#[export] Instance Flush_eq_dec : EqDecision Flush.
Proof. solve_decision. Defined.

(** [impl From<bool> for Flush]. *)
Definition Flush_from (realtime : bool) : Flush :=
  if realtime then Flush_Instant else Flush_Scheduled.

(** ** [tokio::io::BufWriter] *)

Class BufWriterOps (W : Type) := {
  bw_write_all : bytes -> W -> result unit io_error * W;
  bw_flush : W -> result unit io_error * W;
  (** The writer after a [write_all] or a [flush] that was dropped on its way; the number
      says how far it came. *)
  bw_write_part : nat -> bytes -> W -> W;
  bw_flush_part : nat -> W -> W;
}.

Class BufWriterLaws (W : Type) `{BufWriterOps W} := {
  (** What reached the socket and what is still buffered. *)
  bw_sent : W -> bytes;
  bw_pending : W -> bytes;
  bw_write_all_Ok data w w' :
    bw_write_all data w = (Ok tt, w') ->
    bw_sent w' ++ bw_pending w' = bw_sent w ++ bw_pending w ++ data;
  bw_flush_Ok w w' :
    bw_flush w = (Ok tt, w') -> bw_sent w' = bw_sent w ++ bw_pending w /\ bw_pending w' = [];
}.

(** ** The writer *)

(** The flusher waits for a token, sleeps for [ttl], or is in [flush] with the mutex. *)
Inductive flusher_state := Waiting | Sleeping | Flushing | Aborted.

(** The future that works on drop: waiting for [drx], told to flush, done. *)
Inductive drop_future := Armed | Told | Finished.

(** Who holds the mutex of the writer across an await. *)
Inductive lock_user := Owner | Flusher.

Record TtlBufWriter (W : Type) := MkTtl {
  writer : W;
  (** The token of the capacity-1 channel [tx]. *)
  tx_token : bool;
  flusher : flusher_state;
  dtx : drop_future;
  holder : option lock_user;
}.
Arguments MkTtl {W}.
Arguments writer {W}.
Arguments tx_token {W}.
Arguments flusher {W}.
Arguments dtx {W}.
Arguments holder {W}.

Section ttl.
Context {W : Type} `{BufWriterOps W}.

Definition new (w : W) : TtlBufWriter W := MkTtl w false Waiting Armed None.

Definition set_writer (w : W) (t : TtlBufWriter W) : TtlBufWriter W :=
  MkTtl w (tx_token t) (flusher t) (dtx t) (holder t).

Definition set_holder (h : option lock_user) (t : TtlBufWriter W) : TtlBufWriter W :=
  MkTtl (writer t) (tx_token t) (flusher t) (dtx t) h.

(** [TtlBufWriter::write], once it has the mutex. *)
Definition write (buf : bytes) (flush : Flush) (t : TtlBufWriter W)
    : result unit io_error * TtlBufWriter W :=
  let '(res, w) := bw_write_all buf (writer t) in
  if decide (flush = Flush_Instant) then
    match bw_flush w with
    | (Ok _, w) => (res, set_writer w t)
    | (Err e, w) => (Err e, set_writer w t)
    end
  else if bool_decide (flush = Flush_Scheduled) && negb (tx_token t) then
    (res, MkTtl w true (flusher t) (dtx t) (holder t))
  else (res, set_writer w t).

(** The states of the writer when the future of a [write] was dropped while it waited for
    the socket: part of the buffer is in, or all of it and the flush was interrupted. *)
Inductive write_dropped (buf : bytes) (flush : Flush) (w : W) : W -> Prop :=
| dropped_writing n : write_dropped buf flush w (bw_write_part n buf w)
| dropped_flushing res w' n :
    flush = Flush_Instant -> bw_write_all buf w = (res, w') ->
    write_dropped buf flush w (bw_flush_part n w').

(** [timeout(timeout, writer.flush())]: flushed, failed, or dropped after the timeout.
    Its callers discard the result. *)
Inductive timed_flush (w : W) : bool -> W -> Prop :=
| flush_done w' : bw_flush w = (Ok tt, w') -> timed_flush w true w'
| flush_failed e w' : bw_flush w = (Err e, w') -> timed_flush w false w'
| flush_elapsed n : timed_flush w false (bw_flush_part n w).

(** [Drop]: abort the flusher, wherever it is, which gives the mutex back, and let the drop
    future run. *)
Definition drop_ttl (t : TtlBufWriter W) : TtlBufWriter W :=
  MkTtl (writer t) (tx_token t) Aborted Told None.

(** ** The owner and the two background futures *)

(** A run of the writer. The two flags are kept for the theorems only: [unflushed], a
    scheduled write waits for its flush; [given_up], the flush it relied on was skipped,
    failed or timed out. *)
Record writer_run := MkRun { ttl_writer : TtlBufWriter W; unflushed : bool; given_up : bool }.

Definition writer_start (w : W) : writer_run := MkRun (new w) false false.

(** What a write, whatever it returned, means for the promise: a successful flush keeps it, a
    scheduled write makes it again. *)
Definition note_write (flush : Flush) (res : result unit io_error) (t : TtlBufWriter W)
    (r : writer_run) : writer_run :=
  match flush, res with
  | Flush_No, _ => MkRun t (unflushed r) (given_up r)
  | Flush_Scheduled, _ => MkRun t true false
  | Flush_Instant, Ok _ => MkRun t false false
  | Flush_Instant, Err _ => MkRun t (unflushed r) (given_up r)
  end.

(** What the end of an attempt of the flusher means for it: nothing is given up while the
    token of a later write is in the channel. *)
Definition note_attempt (ok : bool) (t : TtlBufWriter W) (r : writer_run) : writer_run :=
  if ok then MkRun t false false else MkRun t (unflushed r) (negb (tx_token t)).

(** The owner of the writer: [write] takes the mutex, and returns or is dropped; the writer
    is dropped when no [write] runs. *)
Inductive owner_step (r : writer_run) : writer_run -> Prop :=
| step_write_lock :
    dtx (ttl_writer r) = Armed -> holder (ttl_writer r) = None ->
    owner_step r (MkRun (set_holder (Some Owner) (ttl_writer r)) (unflushed r) (given_up r))
| step_write buf flush res t :
    holder (ttl_writer r) = Some Owner -> write buf flush (ttl_writer r) = (res, t) ->
    owner_step r (note_write flush res (set_holder None t) r)
| step_write_dropped buf flush w :
    holder (ttl_writer r) = Some Owner -> write_dropped buf flush (writer (ttl_writer r)) w ->
    owner_step r (MkRun (set_holder None (set_writer w (ttl_writer r))) (unflushed r) (given_up r))
| step_drop w :
    dtx (ttl_writer r) = Armed -> holder (ttl_writer r) <> Some Owner ->
    (w = writer (ttl_writer r) \/
     holder (ttl_writer r) = Some Flusher /\ exists n, w = bw_flush_part n (writer (ttl_writer r))) ->
    owner_step r (MkRun (drop_ttl (set_writer w (ttl_writer r))) (unflushed r) false).

(** The flusher and the drop future. The flusher skips its flush when the mutex is not free
    within the timeout; after a flush, however it ended, it waits for a token again. *)
Inductive background_step (r : writer_run) : writer_run -> Prop :=
| step_recv :
    flusher (ttl_writer r) = Waiting -> tx_token (ttl_writer r) = true ->
    background_step r
      (MkRun (MkTtl (writer (ttl_writer r)) false Sleeping (dtx (ttl_writer r)) (holder (ttl_writer r)))
         (unflushed r) (given_up r))
| step_lock :
    flusher (ttl_writer r) = Sleeping -> holder (ttl_writer r) = None ->
    background_step r
      (MkRun (MkTtl (writer (ttl_writer r)) (tx_token (ttl_writer r)) Flushing (dtx (ttl_writer r)) (Some Flusher))
         (unflushed r) (given_up r))
| step_skip :
    flusher (ttl_writer r) = Sleeping -> holder (ttl_writer r) = Some Owner ->
    background_step r
      (note_attempt false
         (MkTtl (writer (ttl_writer r)) (tx_token (ttl_writer r)) Waiting (dtx (ttl_writer r)) (holder (ttl_writer r))) r)
| step_flush ok w :
    flusher (ttl_writer r) = Flushing -> timed_flush (writer (ttl_writer r)) ok w ->
    background_step r
      (note_attempt ok (MkTtl w (tx_token (ttl_writer r)) Waiting (dtx (ttl_writer r)) None) r)
| step_drop_flush ok w :
    dtx (ttl_writer r) = Told -> holder (ttl_writer r) = None -> timed_flush (writer (ttl_writer r)) ok w ->
    background_step r
      (MkRun (MkTtl w (tx_token (ttl_writer r)) Aborted Finished None)
         (if ok then false else unflushed r) (negb ok)).

Definition step (r r' : writer_run) : Prop := owner_step r r' \/ background_step r r'.

(** What a scheduled write relies on: the flusher has a token to take, is counting down or
    flushing, or the drop future was told to flush. *)
Definition flush_pending (t : TtlBufWriter W) : Prop :=
  match flusher t with
  | Waiting => tx_token t = true
  | Sleeping | Flushing => True
  | Aborted => dtx t = Told
  end.

(** The flusher is aborted exactly once the writer is dropped, and holds the mutex exactly
    while it flushes; a dropped writer has no owner. *)
Definition consistent (t : TtlBufWriter W) : Prop :=
  (flusher t = Aborted <-> dtx t <> Armed) /\
  (flusher t = Flushing <-> holder t = Some Flusher) /\
  (holder t = Some Owner -> dtx t = Armed).

(** A token in the channel is a flush that was not given up, and as long as nothing was, the
    flush is pending. *)
Definition promise (r : writer_run) : Prop :=
  (tx_token (ttl_writer r) = true -> flusher (ttl_writer r) <> Aborted -> given_up r = false) /\
  (unflushed r = true -> (given_up r = false <-> flush_pending (ttl_writer r))).

Lemma write_shape buf flush t res t' :
  write buf flush t = (res, t') ->
  flusher t' = flusher t /\ dtx t' = dtx t /\ holder t' = holder t /\
  tx_token t' = tx_token t || bool_decide (flush = Flush_Scheduled).
Proof.
  unfold write. destruct (bw_write_all buf (writer t)) as [r w].
  destruct flush; simpl; [| |destruct (bw_flush w) as [[] ?]];
    destruct (tx_token t) eqn:E; intros [= <- <-]; simpl; by rewrite ?E.
Qed.

Lemma step_consistent r r' : step r r' -> consistent (ttl_writer r) -> consistent (ttl_writer r').
Proof.
  unfold consistent. intros [Hs|Hs].
  - destruct Hs as [Hd Hh|buf flush res t Hh Hw|buf flush w Hh _|w Hd Hh _]; simpl.
    + rewrite Hd, Hh. naive_solver.
    + destruct (write_shape _ _ _ _ _ Hw) as (Hf & Hd & _).
      assert (ttl_writer (note_write flush res (set_holder None t) r) = set_holder None t) as ->
        by (by destruct flush, res).
      simpl. rewrite Hf, Hd, Hh. naive_solver.
    + rewrite Hh. naive_solver.
    + naive_solver.
  - destruct Hs as [Hf Hk|Hf Hh|Hf Hh|ok w Hf _|ok w Hd Hh _]; try destruct ok; simpl;
      try rewrite Hf; try rewrite Hh; naive_solver.
Qed.

Lemma step_promise r r' :
  step r r' -> consistent (ttl_writer r) -> promise r -> promise r'.
Proof.
  unfold consistent, promise, flush_pending. intros [Hs|Hs] (Ha & Hl & Ho) [Ht Hp].
  - destruct Hs as [Hd Hh|buf flush res t Hh Hw|buf flush w Hh _|w Hd Hh _]; simpl; [done| |done|done].
    destruct (write_shape _ _ _ _ _ Hw) as (Hf & _ & _ & Hk).
    assert (flusher (ttl_writer r) <> Aborted) by naive_solver.
    rewrite <- Hf in *.
    destruct flush, res; simpl; rewrite Hk; simpl; rewrite ?orb_false_r, ?orb_true_r;
      try done; destruct (flusher t); naive_solver.
  - destruct Hs as [Hf Hk|Hf Hh|Hf Hh|ok w Hf _|ok w Hd Hh _]; try destruct ok; simpl;
      try rewrite Hf in *; destruct (tx_token (ttl_writer r)); naive_solver.
Qed.

Lemma run_promise w r : rtc step (writer_start w) r -> consistent (ttl_writer r) /\ promise r.
Proof.
  revert r. apply rtc_ind_r; [by split_and!|].
  intros r r' _ Hs [Hc Hp]. eauto using step_consistent, step_promise.
Qed.

(** A pending flush needs nobody but the two futures. *)
Lemma pending_flush_runs r w :
  consistent (ttl_writer r) -> flush_pending (ttl_writer r) -> holder (ttl_writer r) <> Some Owner ->
  bw_flush (writer (ttl_writer r)) = (Ok tt, w) ->
  exists r', rtc background_step r r' /\ unflushed r' = false /\ writer (ttl_writer r') = w.
Proof.
  destruct r as [[w0 k f d h] u g]. unfold consistent, flush_pending. simpl.
  intros (Ha & Hl & _) Hp Hh Hw.
  assert (Hfl : forall k h d u g, exists r',
    rtc background_step (MkRun (MkTtl w0 k Flushing d h) u g) r' /\
    unflushed r' = false /\ writer (ttl_writer r') = w).
  { intros. eexists. split; [apply rtc_once, (step_flush _ true w); [done|by constructor]|done]. }
  assert (Hsl : forall k d u g, exists r',
    rtc background_step (MkRun (MkTtl w0 k Sleeping d None) u g) r' /\
    unflushed r' = false /\ writer (ttl_writer r') = w).
  { intros k' d' u' g'. destruct (Hfl k' (Some Flusher) d' u' g') as (r' & Hr & ?).
    exists r'. split; [|done]. eapply rtc_l; [by apply step_lock|done]. }
  destruct f; [| |by apply Hfl|].
  - assert (h = None) as -> by (destruct h as [[]|]; naive_solver). subst k.
    destruct (Hsl false d u g) as (r' & Hr & ?). exists r'. split; [|done].
    eapply rtc_l; [by apply step_recv|done].
  - assert (h = None) as -> by (destruct h as [[]|]; naive_solver). apply Hsl.
  - assert (h = None) as -> by (destruct h as [[]|]; naive_solver). eexists.
    split; [apply rtc_once, (step_drop_flush _ true w); try done; by constructor|done].
Qed.

(** Given up is given up: neither future does anything more by itself. *)
Lemma given_up_stuck r r' :
  consistent (ttl_writer r) -> promise r -> unflushed r = true -> given_up r = true ->
  ~ background_step r r'.
Proof.
  unfold consistent, promise, flush_pending. intros (Ha & Hl & _) [_ Hp] Hu Hg.
  specialize (Hp Hu). rewrite Hg in Hp.
  destruct 1 as [Hf Hk|Hf Hh|Hf Hh|ok w Hf _|ok w Hd Hh _]; try rewrite Hf in Hp;
    [intuition congruence..|].
  assert (flusher (ttl_writer r) = Aborted) as Hf by (apply Ha; congruence).
  rewrite Hf in Hp. intuition congruence.
Qed.

Context `{!BufWriterLaws W}.

(** Everything accepted so far, sent or still buffered. *)
Definition accepted (t : TtlBufWriter W) : bytes := bw_sent (writer t) ++ bw_pending (writer t).

Lemma bw_flush_accepted (w w' : W) :
  bw_flush w = (Ok tt, w') -> bw_sent w' ++ bw_pending w' = bw_sent w ++ bw_pending w.
Proof. intros [-> ->]%bw_flush_Ok. by rewrite app_nil_r. Qed.
End ttl.

(** C40: in every run of the writer, its flusher and its drop future, with writes and flushes
    that fail or time out and with a mutex that is not free in time, a scheduled write that is
    not flushed yet has a flush pending (a token in the channel, a countdown or flush of
    the flusher, or the drop future told to flush) exactly if the flush it relied on was not
    given up, that is skipped for the mutex, failed or timed out with no later token in the
    channel. A pending flush runs without the owner once the mutex is not with a write, and
    flushes everything if the writer's flush succeeds; after one that was given up the
    flusher and the drop future do nothing until the owner writes again or drops the writer. *)
Theorem scheduled_flush_never_lost {W} `{BufWriterOps W} (w : W) r :
  rtc step (writer_start w) r ->
  (unflushed r = true -> (given_up r = false <-> flush_pending (ttl_writer r))) /\
  (flush_pending (ttl_writer r) -> holder (ttl_writer r) <> Some Owner ->
   forall w', bw_flush (writer (ttl_writer r)) = (Ok tt, w') ->
   exists r', rtc background_step r r' /\ unflushed r' = false /\ writer (ttl_writer r') = w') /\
  (unflushed r = true -> given_up r = true -> forall r', ~ background_step r r').
Proof.
  intros [Hc Hp]%run_promise. split_and!; [by destruct Hp|..]; intros.
  - by eapply pending_flush_runs.
  - by apply given_up_stuck.
Qed.

(** A write neither loses, duplicates nor reorders bytes: after a successful write with
    any flush mode, what was sent plus what is buffered is what it was plus the new bytes, and
    with [Flush::Instant] nothing stays buffered. *)
Theorem write_appends {W} `{BufWriterLaws W} buf flush (t t' : TtlBufWriter W) :
  write buf flush t = (Ok tt, t') ->
  accepted t' = accepted t ++ buf /\ (flush = Flush_Instant -> bw_pending (writer t') = []).
Proof.
  unfold write, accepted. destruct (bw_write_all buf (writer t)) as [res w1] eqn:Ew.
  case_decide as Hi.
  - destruct (bw_flush w1) as [[[]|] w2] eqn:Ef; [|done]. intros [= -> <-]. simpl.
    rewrite (bw_flush_accepted _ _ Ef), (bw_write_all_Ok _ _ _ Ew), app_assoc.
    split; [done|]. intros _. by apply bw_flush_Ok in Ef as [_ ->].
  - destruct (_ && _); intros [= -> <-]; simpl;
      rewrite (bw_write_all_Ok _ _ _ Ew), app_assoc; done.
Qed.

(** ** An executable buffered writer *)

Module RefWriter.
Record t := BufWriter { sent : bytes; pending : bytes }.

#[global] Instance ops : BufWriterOps t := {
  bw_write_all data w := (Ok tt, BufWriter (sent w) (pending w ++ data));
  bw_flush w := (Ok tt, BufWriter (sent w ++ pending w) []);
  bw_write_part n data w := BufWriter (sent w) (pending w ++ take n data);
  bw_flush_part n w := BufWriter (sent w ++ take n (pending w)) (drop n (pending w));
}.

#[global] Instance laws : BufWriterLaws t.
Proof.
  refine {| bw_sent := sent; bw_pending := pending |}; simpl.
  - intros data w w' [= <-]. done.
  - intros w w' [= <-]. done.
Defined.
End RefWriter.

Definition ref_writer : TtlBufWriter RefWriter.t := new (RefWriter.BufWriter [] []).

(** A scheduled write whose flush is given up: the flusher counts down, finds the mutex with
    a write that does not end in time, and waits for a token that nobody sends. The next
    scheduled write makes the promise again. *)
Lemma scheduled_flush_never_lost_witness :
  let t k f h ps := MkTtl (RefWriter.BufWriter [] ps) k f Armed h in
  exists r r' : writer_run, rtc step (writer_start (RefWriter.BufWriter [] [])) r /\
    r = MkRun (t false Waiting (Some Owner) [x41]) true true /\
    ~ flush_pending (ttl_writer r) /\
    rtc step r r' /\ r' = MkRun (t true Waiting None [x41; x42]) true false /\
    flush_pending (ttl_writer r') /\
    exists r'', rtc background_step r' r'' /\ unflushed r'' = false /\
      writer (ttl_writer r'') = RefWriter.BufWriter [x41; x42] [].
Proof.
  intros t.
  assert (H1 : rtc step (writer_start (RefWriter.BufWriter [] []))
    (MkRun (t false Waiting (Some Owner) [x41]) true true)).
  { eapply rtc_l; [left; by apply step_write_lock|].
    eapply rtc_l; [left; by apply (step_write _ [x41] Flush_Scheduled)|].
    eapply rtc_l; [right; by apply step_recv|].
    eapply rtc_l; [left; by apply step_write_lock|].
    eapply rtc_l; [right; by apply step_skip|]. apply rtc_refl. }
  assert (H2 : rtc step (MkRun (t false Waiting (Some Owner) [x41]) true true)
    (MkRun (t true Waiting None [x41; x42]) true false)).
  { eapply rtc_l; [left; by apply (step_write _ [x42] Flush_Scheduled)|apply rtc_refl]. }
  eexists _, _. split; [exact H1|]. split; [reflexivity|].
  split; [intros Hp; by apply (scheduled_flush_never_lost _ _ H1) in Hp|].
  split; [exact H2|]. split; [reflexivity|]. split; [reflexivity|].
  apply (scheduled_flush_never_lost (RefWriter.BufWriter [] []) _
    (transitivity H1 H2)); [exact I || reflexivity|discriminate|reflexivity].
Defined.

Lemma write_appends_witness :
  exists t, write [x41] Flush_Instant ref_writer = (Ok tt, t) /\
            accepted t = accepted ref_writer ++ [x41] /\
            (Flush_Instant = Flush_Instant -> bw_pending (writer t) = []).
Proof.
  eexists. split; [reflexivity|]. apply write_appends. reflexivity.
Defined.
