(* ===== verification/Ipc.v ===== *)
(** * The socket client ([src/ipc.rs])

    [Client] holds what the client, its reader task and the tasks waiting for confirmations
    share: the frame counter, the map of pending confirmations, the event queue, the connected
    flag, and both directions of the socket. A [oneshot] channel is a number, and the value
    sent into it is recorded under that number. What the transport does with the writes to
    come (success, error, timeout, or the caller dropping the future) is an oracle of the
    state, [writes]. *)
From S2P Require Export External Comm.

(** What happens to one [writer.write]. *)
Inductive write_outcome := WriteOk | WriteErr (e : io_error) | WriteElapsed | WriteCancelled.

(** ** Frame layout, shared by the writing macros *)

(** [$op as u8 | ($qos as u8) << 6]. *)
Definition frame_flags (op : FrameOp) (qos : QoS) : byte :=
  u8 (Z.lor (u8_val (FrameOp_code op)) (Z.shiftl (QoS_code qos) 6)).

(** The frame id wraps past [u32::MAX] to 1: zero never is a frame id. *)
Definition next_frame_id (id : Z) : Z := if id =? 2 ^ 32 - 1 then 1 else id + 1.

(** [prepare_frame_buf!], after the counter is incremented. *)
Definition prepare_frame_buf (frame_id : Z) (op : FrameOp) (qos : QoS) : bytes :=
  to_le_bytes 4 frame_id ++ [frame_flags op qos].

Definition blen (bs : bytes) : Z := Z.of_nat (length bs).

(** The header part of [send_zc_frame!]: everything before the payload. *)
Definition zc_frame_buf (frame_id : Z) (target header payload : bytes) (op : FrameOp) (qos : QoS) : bytes :=
  prepare_frame_buf frame_id op qos
    ++ to_le_bytes 4 (blen target + blen payload + blen header + 1)
    ++ target ++ [x00] ++ header.

(** [send_frame!], "send to target or topic". *)
Definition target_frame_buf (frame_id : Z) (target payload : bytes) (op : FrameOp) (qos : QoS) : bytes :=
  prepare_frame_buf frame_id op qos
    ++ to_le_bytes 4 (blen target + blen payload + 1)
    ++ target ++ [x00].

(** [send_frame!], "send to topic with a receiver". *)
Definition receiver_frame_buf (frame_id : Z) (target receiver payload : bytes) (op : FrameOp) (qos : QoS) : bytes :=
  prepare_frame_buf frame_id op qos
    ++ to_le_bytes 4 (blen target + blen receiver + blen payload + 2)
    ++ target ++ [x00] ++ receiver ++ [x00].

(** [send_frame!], "send w/o a target". *)
Definition plain_frame_buf (frame_id : Z) (payload : bytes) (op : FrameOp) (qos : QoS) : bytes :=
  prepare_frame_buf frame_id op qos ++ to_le_bytes 4 (blen payload).

(** The payload of the bulk operations: the topics joined by NUL bytes. *)
Definition bulk_payload (topics : list str) : bytes :=
  foldl (fun payload topic =>
           (match payload with [] => payload | _ => payload ++ [x00] end) ++ topic)
        [] topics.

(** ** The client and its reader *)

Record Client (Q : Type) := MkClient {
  name : str;
  frame_id : Z;
  responses : gmap Z nat;
  (** The event channel, until it is taken. *)
  rx : option unit;
  connected : bool;
  reader_aborted : bool;
  secondary_counter : Z;
  (** The bytes handed to the writer, with their flush mode. *)
  written : list (bytes * Flush);
  writes : list write_outcome;
  (** The next unused [oneshot] channel, and the values already sent into such channels. *)
  next_confirm : nat;
  confirms : gmap nat (result unit Error);
  (** What the reader task reads from, and the queue it feeds. *)
  incoming : source;
  events : Q;
}.
Arguments MkClient {Q}.
Arguments name {Q}.
Arguments frame_id {Q}.
Arguments responses {Q}.
Arguments rx {Q}.
Arguments connected {Q}.
Arguments reader_aborted {Q}.
Arguments secondary_counter {Q}.
Arguments written {Q}.
Arguments writes {Q}.
Arguments next_confirm {Q}.
Arguments confirms {Q}.
Arguments incoming {Q}.
Arguments events {Q}.

Section client.
Context {Q : Type} `{ChannelOps FrameData Q}.

Definition set_frame_id (v : Z) (c : Client Q) : Client Q :=
  MkClient (name c) v (responses c) (rx c) (connected c) (reader_aborted c) (secondary_counter c)
    (written c) (writes c) (next_confirm c) (confirms c) (incoming c) (events c).
Definition set_responses (v : gmap Z nat) (c : Client Q) : Client Q :=
  MkClient (name c) (frame_id c) v (rx c) (connected c) (reader_aborted c) (secondary_counter c)
    (written c) (writes c) (next_confirm c) (confirms c) (incoming c) (events c).
Definition set_rx (v : option unit) (c : Client Q) : Client Q :=
  MkClient (name c) (frame_id c) (responses c) v (connected c) (reader_aborted c)
    (secondary_counter c)
    (written c) (writes c) (next_confirm c) (confirms c) (incoming c) (events c).
Definition set_written (v : list (bytes * Flush)) (ws : list write_outcome) (c : Client Q) : Client Q :=
  MkClient (name c) (frame_id c) (responses c) (rx c) (connected c) (reader_aborted c)
    (secondary_counter c)
    v ws (next_confirm c) (confirms c) (incoming c) (events c).
Definition set_next_confirm (v : nat) (c : Client Q) : Client Q :=
  MkClient (name c) (frame_id c) (responses c) (rx c) (connected c) (reader_aborted c)
    (secondary_counter c)
    (written c) (writes c) v (confirms c) (incoming c) (events c).
Definition set_confirms (v : gmap nat (result unit Error)) (c : Client Q) : Client Q :=
  MkClient (name c) (frame_id c) (responses c) (rx c) (connected c) (reader_aborted c)
    (secondary_counter c)
    (written c) (writes c) (next_confirm c) v (incoming c) (events c).
Definition set_incoming (v : source) (c : Client Q) : Client Q :=
  MkClient (name c) (frame_id c) (responses c) (rx c) (connected c) (reader_aborted c)
    (secondary_counter c)
    (written c) (writes c) (next_confirm c) (confirms c) v (events c).
Definition set_events (v : Q) (c : Client Q) : Client Q :=
  MkClient (name c) (frame_id c) (responses c) (rx c) (connected c) (reader_aborted c)
    (secondary_counter c)
    (written c) (writes c) (next_confirm c) (confirms c) (incoming c) v.
Definition set_connected (v : bool) (c : Client Q) : Client Q :=
  MkClient (name c) (frame_id c) (responses c) (rx c) v (reader_aborted c) (secondary_counter c)
    (written c) (writes c) (next_confirm c) (confirms c) (incoming c) (events c).

(** [reader_fut.abort()] and [connected.store(false)]: what both the error paths of
    [send_data_or_mark_disconnected!] and the armed [FrameWriteGuard] do. *)
Definition mark_disconnected (c : Client Q) : Client Q :=
  MkClient (name c) (frame_id c) (responses c) (rx c) false true (secondary_counter c)
    (written c) (writes c) (next_confirm c) (confirms c) (incoming c) (events c).

Definition increment_frame_id : prog (Client Q) Error unit :=
  modify (fun c => set_frame_id (next_frame_id (frame_id c)) c).

(** [send_data_or_mark_disconnected!]. *)
Definition send_data (data : bytes) (flush : Flush) : prog (Client Q) Error unit := fun c =>
  let '(out, ws) := match writes c with [] => (WriteOk, []) | o :: ws => (o, ws) end in
  let c := set_written (written c ++ [(data, flush)]) ws c in
  match out with
  | WriteOk => Done tt c
  | WriteErr e => Throw (Error_from_io e) (mark_disconnected c)
  | WriteElapsed => Throw Error_timeout (mark_disconnected c)
  | WriteCancelled => Hang c
  end.

(** Run [m] under an armed [FrameWriteGuard]: unless [m] returns and disarms it, dropping
    the guard marks the client disconnected. *)
Definition with_frame_write_guard {A} (m : prog (Client Q) Error A) : prog (Client Q) Error A := fun c =>
  match m c with
  | Done a c => Done a c
  | Throw e c => Throw e (mark_disconnected c)
  | Hang c => Hang (mark_disconnected c)
  | Panic => Panic
  end.

(** [send_frame_and_confirm!]: register the confirmation, then write the frame. *)
Definition send_frame_and_confirm (buf payload : bytes) (qos : QoS) : prog (Client Q) Error (option nat) :=
  gets (fun c => (next_confirm c, frame_id c)) ≫= fun '(tx, id) =>
  (if needs_ack qos then
     modify (fun c => set_responses (<[ id := tx ]> (responses c)) (set_next_confirm (S tx) c)) ≫= fun _ =>
     mret (Some tx)
   else mret None) ≫= fun rx =>
  with_frame_write_guard (
    send_data buf Flush_No ≫= fun _ =>
    send_data payload (Flush_from (is_realtime qos))) ≫= fun _ =>
  mret rx.

Definition send_zc_frame (target header payload : bytes) (op : FrameOp) (qos : QoS) :=
  increment_frame_id ≫= fun _ => gets frame_id ≫= fun id =>
  send_frame_and_confirm (zc_frame_buf id target header payload op qos) payload qos.

Definition send_target_frame (target payload : bytes) (op : FrameOp) (qos : QoS) :=
  increment_frame_id ≫= fun _ => gets frame_id ≫= fun id =>
  send_frame_and_confirm (target_frame_buf id target payload op qos) payload qos.

Definition send_receiver_frame (target receiver payload : bytes) (op : FrameOp) (qos : QoS) :=
  increment_frame_id ≫= fun _ => gets frame_id ≫= fun id =>
  send_frame_and_confirm (receiver_frame_buf id target receiver payload op qos) payload qos.

Definition send_plain_frame (payload : bytes) (op : FrameOp) (qos : QoS) :=
  increment_frame_id ≫= fun _ => gets frame_id ≫= fun id =>
  send_frame_and_confirm (plain_frame_buf id payload op qos) payload qos.

(** *** [impl AsyncClient for Client] *)

Definition take_event_channel : prog (Client Q) Error (option unit) := fun c =>
  Done (rx c) (set_rx None c).

Definition send (target : str) (payload : bytes) (qos : QoS) :=
  send_target_frame target payload FrameOp_Message qos.

Definition zc_send (target : str) (header payload : bytes) (qos : QoS) :=
  send_zc_frame target header payload FrameOp_Message qos.

Definition send_broadcast (target : str) (payload : bytes) (qos : QoS) :=
  send_target_frame target payload FrameOp_Broadcast qos.

Definition publish (target : str) (payload : bytes) (qos : QoS) :=
  send_target_frame target payload FrameOp_PublishTopic qos.

Definition publish_for (target receiver : str) (payload : bytes) (qos : QoS) :=
  send_receiver_frame target receiver payload FrameOp_PublishTopicFor qos.

Definition subscribe (topic : str) (qos : QoS) := send_plain_frame topic FrameOp_SubscribeTopic qos.
Definition unsubscribe (topic : str) (qos : QoS) := send_plain_frame topic FrameOp_UnsubscribeTopic qos.
Definition subscribe_bulk (topics : list str) (qos : QoS) :=
  send_plain_frame (bulk_payload topics) FrameOp_SubscribeTopic qos.
Definition unsubscribe_bulk (topics : list str) (qos : QoS) :=
  send_plain_frame (bulk_payload topics) FrameOp_UnsubscribeTopic qos.
Definition exclude (topic : str) (qos : QoS) := send_plain_frame topic FrameOp_ExcludeTopic qos.
Definition unexclude (topic : str) (qos : QoS) := send_plain_frame topic FrameOp_UnexcludeTopic qos.
Definition exclude_bulk (topics : list str) (qos : QoS) :=
  send_plain_frame (bulk_payload topics) FrameOp_ExcludeTopic qos.
Definition unexclude_bulk (topics : list str) (qos : QoS) :=
  send_plain_frame (bulk_payload topics) FrameOp_UnexcludeTopic qos.

Definition ping : prog (Client Q) Error unit := send_data PING_FRAME Flush_Instant.
Definition is_connected (c : Client Q) : bool := connected c.

(** [register_secondary]: the name the next secondary client connects under. *)
Definition register_secondary_name : prog (Client Q) Error str :=
  gets (fun c => name c) ≫= fun n =>
  match find_sub SECONDARY_SEP n with
  | Some _ => throw (Error_not_supported (lit "not a primary client"))
  | None => fun c =>
      Done (n ++ SECONDARY_SEP ++ fmt_z (secondary_counter c))
        (MkClient (name c) (frame_id c) (responses c) (rx c) (connected c) (reader_aborted c)
           (u64_add (secondary_counter c) 1)
           (written c) (writes c) (next_confirm c) (confirms c) (incoming c) (events c))
  end.

(** *** The reader task: [handle_read] *)

(** Sender, topic and payload position of an incoming frame body. *)
Definition parse_body (frame_type : FrameKind) (buf : bytes)
    : result (option str * option str * Z) Error :=
  let broken := Error_data (lit "broken frame") in
  if decide (frame_type = FrameKind_Publish) then
    let sp := splitn 3 x00 buf in
    let? s := ok_or (sp !! 0%nat) broken in
    let? sender := map_err Error_from_utf8 (from_utf8 s) in
    let? t := ok_or (sp !! 1%nat) broken in
    let? topic := map_err Error_from_utf8 (from_utf8 t) in
    let? _ := ok_or (sp !! 2%nat) broken in
    Ok (Some sender, Some topic, blen s + blen t + 2)
  else
    let sp := splitn 2 x00 buf in
    let? s := ok_or (sp !! 0%nat) broken in
    let? sender := map_err Error_from_utf8 (from_utf8 s) in
    let? _ := ok_or (sp !! 1%nat) broken in
    Ok (Some sender, None, blen s + 1).

(** [reader.read_exact(..).await?], with or without [tokio::time::timeout]. *)
Definition read (n : Z) (timed : bool) : prog (Client Q) Error bytes := fun c =>
  match read_exact n (incoming c) with
  | ReadOk data rest => Done data (set_incoming rest c)
  | ReadErr e => Throw (Error_from_io e) c
  | ReadStall => if timed then Throw Error_timeout c else Hang c
  end.

(** Resolve the confirmation registered under [ack_id], if there is one. *)
Definition acknowledge (ack_id : Z) (code : byte) : prog (Client Q) Error unit :=
  modify (fun c =>
    match responses c !! ack_id with
    | Some tx => set_confirms (<[ tx := to_busrt_result code ]> (confirms c))
                   (set_responses (delete ack_id (responses c)) c)
    | None => c
    end).

(** [tx.send(frame).await.map_err(Error::io)?]; [room] frames are taken off a full queue
    while the reader waits. *)
Definition deliver (room : nat) (frame : FrameData) : prog (Client Q) Error unit := fun c =>
  match ch_send room frame (events c) with
  | Sent q => Done tt (set_events q c)
  | SendClosed => Throw (Error_io (lit "sending into a closed channel")) c
  | SendBlocked q => Hang (set_events q c)
  end.

(** One turn of the loop of [handle_read]. *)
Definition handle_read_one (room : nat) : prog (Client Q) Error unit :=
  read 6 false ≫= fun buf =>
  lift (FrameKind_try_from (buf !!! 0%nat)) ≫= fun frame_type =>
  let realtime := bool_decide (buf !!! 5%nat <> x00) in
  let word := from_le_bytes (take 4 (drop 1 buf)) in
  match frame_type with
  | FrameKind_Nop => mret tt
  | FrameKind_Acknowledge => acknowledge word (buf !!! 5%nat)
  | _ =>
      read word true ≫= fun buf =>
      lift (parse_body frame_type buf) ≫= fun '(sender, topic, payload_pos) =>
      deliver room (MkFrame frame_type sender topic None buf payload_pos realtime)
  end.

(** [handle_read]: the loop ends only with an error (or waits for more bytes). Each turn
    consumes at least six bytes, so [fuel] turns suffice for [6 * fuel] bytes. *)
Fixpoint handle_read (fuel : nat) (room : nat) : prog (Client Q) Error unit :=
  match fuel with
  | O => hang
  | S fuel => handle_read_one room ≫= fun _ => handle_read fuel room
  end.

(** The reader task: [connected] is cleared when the loop ends. *)
Definition reader_task (fuel room : nat) : prog (Client Q) Error unit := fun c =>
  match handle_read fuel room c with
  | Done _ c | Throw _ c => Done tt (set_connected false c)
  | Hang c => Hang c
  | Panic => Panic
  end.
End client.
