(* ===== verification/Broker.v ===== *)
(** * The broker database ([src/broker.rs])

    [BusRtClient] is the client object every part of the broker shares through an [Arc]: here a
    number, [ptr], into [heap]. [BrokerDb] holds the client table, the broadcast and the
    subscription map, the statistics and the RPC client used for announcements. The delivery
    macros ([safe_send_frame!], [send!], [send_broadcast!], [publish!]) and the methods of
    [BrokerDb] are programs over it. Unregistering a client announces the fact to subscribers,
    whose delivery may unregister another client: the recursion between [announce] and
    [unregister_client] is tied by a fuel argument that [Announce.announce_fuel_enough] shows is
    never exhausted. The mutexes that are held across such calls are modelled: a task that
    locks one it already holds waits for ever ([hang]). *)
From S2P Require Export External Params.

(** ** Announcements *)

Record BrokerEvent := MkEvent {
  ev_s : str;
  ev_d : option str;
  ev_t : Z;
  ev_topic : str;
}.

Definition BROKER_INFO_TOPIC : str := lit ".broker/info".
Definition BROKER_WARN_TOPIC : str := lit ".broker/warn".
Definition BROKER_NAME : str := lit ".broker".

Definition BrokerEvent_new (s : str) (d : option str) (topic : str) : BrokerEvent := MkEvent s d 0 topic.
Definition BrokerEvent_shutdown : BrokerEvent := MkEvent (lit "shutdown") None 0 BROKER_WARN_TOPIC.
Definition BrokerEvent_reg (name : str) : BrokerEvent := MkEvent (lit "reg") (Some name) 0 BROKER_INFO_TOPIC.
Definition BrokerEvent_unreg (name : str) : BrokerEvent := MkEvent (lit "unreg") (Some name) 0 BROKER_INFO_TOPIC.

Definition set_ev_t (t : Z) (e : BrokerEvent) : BrokerEvent := MkEvent (ev_s e) (ev_d e) t (ev_topic e).

(** ** What the broker takes from outside *)

(** A handle to a shared client as the maps store it: its address, and the digest that
    [PartialEq] and [Ord] of [BusRtClient] compare. *)
Record BrokerClient (D : Type) := Arc { ptr : nat; ptr_digest : D }.
Arguments Arc {D}.
Arguments ptr {D}.
Arguments ptr_digest {D}.

Class Externals := {
  ext_digest : Type;
  ext_digest_eq_dec :: EqDecision ext_digest;
  ext_digest_countable :: Countable ext_digest;
  (** [submap::digest::sha256]. *)
  ext_sha256 : str -> ext_digest;
  ext_queue : Type;
  ext_channel :: ChannelOps FrameData ext_queue;
  ext_acl : Type;
  ext_acl_ops :: AclMapOps ext_acl;
  ext_submap : Type;
  ext_submap_ops :: SubMapOps (BrokerClient ext_digest) ext_submap;
  ext_broadcasts : Type;
  ext_broadcast_ops :: BroadcastMapOps (BrokerClient ext_digest) ext_broadcasts;
  (** [rmp_serde::to_vec_named] of an event, and the clock. *)
  ext_event_to_vec : BrokerEvent -> result bytes str;
  ext_now_ns : Z;
  (** The scheduler: how many frames the owner of a full queue takes off it while a sender
      waits for room (indexed by the client's address). *)
  ext_room : nat -> nat;
  (** Parameters of calls read from a fifo. *)
  ext_params :: ParamOps;
}.

Class ExternalsLaws (X : Externals) := {
  law_sha256_inj :: Inj (=) (=) ext_sha256;
  law_channel :: ChannelLaws FrameData ext_queue;
  law_acl :: AclMapLaws ext_acl;
  law_submap :: SubMapLaws ptr_digest ext_submap;
  law_broadcasts :: BroadcastMapLaws ptr_digest ext_broadcasts;
}.

(** ** Clients *)

Inductive BusRtClientKind := Internal | LocalIpc | Tcp | WebSocket.

#[export] Instance BusRtClientKind_eq_dec : EqDecision BusRtClientKind.
Proof. solve_decision. Defined.

Definition BusRtClientKind_as_str (k : BusRtClientKind) : str :=
  match k with
  | Internal => lit "internal"
  | LocalIpc => lit "local_ipc"
  | Tcp => lit "tcp"
  | WebSocket => lit "websocket"
  end.

Section broker.
Context {X : Externals}.

Record BusRtClient := MkBusRtClient {
  name : str;
  digest : ext_digest;
  primary_name : str;
  ckind : BusRtClientKind;
  source : option str;
  port : option str;
  (** [disconnect_trig] was triggered. *)
  disconnected : bool;
  tx : ext_queue;
  registered : bool;
  r_frames : Z;
  r_bytes : Z;
  w_frames : Z;
  w_bytes : Z;
  primary : bool;
  secondaries : gset str;
  has_exclusions : bool;
  exclusions : ext_acl;
}.

(** [BusRtClient::new]. *)
Definition BusRtClient_new (nm pname : str) (queue_size : Z) (k : BusRtClientKind)
    (src prt : option str) : BusRtClient := {|
  name := nm;
  digest := ext_sha256 nm;
  primary_name := pname;
  ckind := k;
  source := src;
  port := prt;
  disconnected := false;
  tx := ch_bounded queue_size;
  registered := false;
  r_frames := 0; r_bytes := 0; w_frames := 0; w_bytes := 0;
  primary := bool_decide (nm = pname);
  secondaries := ∅;
  has_exclusions := false;
  exclusions := acl_wildcard (lit "#") (acl_match_any (lit "+") (acl_separator (lit "/") acl_new));
|}.

(** [impl PartialEq for BusRtClient]. *)
Definition BusRtClient_eq (a b : BusRtClient) : bool := bool_decide (digest a = digest b).

Definition set_disconnected (v : bool) (c : BusRtClient) : BusRtClient :=
  MkBusRtClient (name c) (digest c) (primary_name c) (ckind c) (source c) (port c) v (tx c)
    (registered c) (r_frames c) (r_bytes c) (w_frames c) (w_bytes c) (primary c)
    (secondaries c) (has_exclusions c) (exclusions c).
Definition set_tx (v : ext_queue) (c : BusRtClient) : BusRtClient :=
  MkBusRtClient (name c) (digest c) (primary_name c) (ckind c) (source c) (port c)
    (disconnected c) v (registered c) (r_frames c) (r_bytes c) (w_frames c) (w_bytes c)
    (primary c) (secondaries c) (has_exclusions c) (exclusions c).
Definition set_registered (v : bool) (c : BusRtClient) : BusRtClient :=
  MkBusRtClient (name c) (digest c) (primary_name c) (ckind c) (source c) (port c)
    (disconnected c) (tx c) v (r_frames c) (r_bytes c) (w_frames c) (w_bytes c)
    (primary c) (secondaries c) (has_exclusions c) (exclusions c).
Definition set_secondaries (v : gset str) (c : BusRtClient) : BusRtClient :=
  MkBusRtClient (name c) (digest c) (primary_name c) (ckind c) (source c) (port c)
    (disconnected c) (tx c) (registered c) (r_frames c) (r_bytes c) (w_frames c) (w_bytes c)
    (primary c) v (has_exclusions c) (exclusions c).
Definition set_has_exclusions (v : bool) (c : BusRtClient) : BusRtClient :=
  MkBusRtClient (name c) (digest c) (primary_name c) (ckind c) (source c) (port c)
    (disconnected c) (tx c) (registered c) (r_frames c) (r_bytes c) (w_frames c) (w_bytes c)
    (primary c) (secondaries c) v (exclusions c).
Definition set_exclusions (v : ext_acl) (c : BusRtClient) : BusRtClient :=
  MkBusRtClient (name c) (digest c) (primary_name c) (ckind c) (source c) (port c)
    (disconnected c) (tx c) (registered c) (r_frames c) (r_bytes c) (w_frames c) (w_bytes c)
    (primary c) (secondaries c) (has_exclusions c) v.

(** One frame of [len] bytes received from the client, or written to it. *)
Definition count_r (len : Z) (c : BusRtClient) : BusRtClient :=
  MkBusRtClient (name c) (digest c) (primary_name c) (ckind c) (source c) (port c)
    (disconnected c) (tx c) (registered c) (u64_add (r_frames c) 1) (u64_add (r_bytes c) len)
    (w_frames c) (w_bytes c) (primary c) (secondaries c) (has_exclusions c) (exclusions c).
Definition count_w (len : Z) (c : BusRtClient) : BusRtClient :=
  MkBusRtClient (name c) (digest c) (primary_name c) (ckind c) (source c) (port c)
    (disconnected c) (tx c) (registered c) (r_frames c) (r_bytes c)
    (u64_add (w_frames c) 1) (u64_add (w_bytes c) len)
    (primary c) (secondaries c) (has_exclusions c) (exclusions c).

(** ** The database *)

Record BrokerDb := MkBrokerDb {
  (** Every [Arc<BusRtClient>] allocated so far. *)
  heap : gmap nat BusRtClient;
  clients : gmap str nat;
  broadcasts : ext_broadcasts;
  subscriptions : ext_submap;
  (** The bus client behind the core RPC client; whether the mutex around the RPC client and
      the one around its bus client are held. *)
  rpc_client : option nat;
  rpc_lock : bool;
  bus_lock : bool;
  db_r_frames : Z;
  db_r_bytes : Z;
  db_w_frames : Z;
  db_w_bytes : Z;
  force_register : bool;
  next_ptr : nat;
}.

(** [impl Default for BrokerDb], with the [force_register] of [Broker::create]. *)
Definition BrokerDb_new (force : bool) : BrokerDb := {|
  heap := ∅;
  clients := ∅;
  broadcasts := bm_create (MaskCfg (lit ".") (lit "?") (lit "*"));
  subscriptions := sm_create (MaskCfg (lit "/") (lit "+") (lit "#"));
  rpc_client := None;
  rpc_lock := false;
  bus_lock := false;
  db_r_frames := 0; db_r_bytes := 0; db_w_frames := 0; db_w_bytes := 0;
  force_register := force;
  next_ptr := 0;
|}.

Definition set_heap (v : gmap nat BusRtClient) (d : BrokerDb) : BrokerDb :=
  MkBrokerDb v (clients d) (broadcasts d) (subscriptions d) (rpc_client d) (rpc_lock d) (bus_lock d)
    (db_r_frames d) (db_r_bytes d) (db_w_frames d) (db_w_bytes d) (force_register d) (next_ptr d).
Definition set_clients (v : gmap str nat) (d : BrokerDb) : BrokerDb :=
  MkBrokerDb (heap d) v (broadcasts d) (subscriptions d) (rpc_client d) (rpc_lock d) (bus_lock d)
    (db_r_frames d) (db_r_bytes d) (db_w_frames d) (db_w_bytes d) (force_register d) (next_ptr d).
Definition set_broadcasts (v : ext_broadcasts) (d : BrokerDb) : BrokerDb :=
  MkBrokerDb (heap d) (clients d) v (subscriptions d) (rpc_client d) (rpc_lock d) (bus_lock d)
    (db_r_frames d) (db_r_bytes d) (db_w_frames d) (db_w_bytes d) (force_register d) (next_ptr d).
Definition set_subscriptions (v : ext_submap) (d : BrokerDb) : BrokerDb :=
  MkBrokerDb (heap d) (clients d) (broadcasts d) v (rpc_client d) (rpc_lock d) (bus_lock d)
    (db_r_frames d) (db_r_bytes d) (db_w_frames d) (db_w_bytes d) (force_register d) (next_ptr d).
Definition set_rpc_lock (v : bool) (d : BrokerDb) : BrokerDb :=
  MkBrokerDb (heap d) (clients d) (broadcasts d) (subscriptions d) (rpc_client d) v (bus_lock d)
    (db_r_frames d) (db_r_bytes d) (db_w_frames d) (db_w_bytes d) (force_register d) (next_ptr d).
Definition set_bus_lock (v : bool) (d : BrokerDb) : BrokerDb :=
  MkBrokerDb (heap d) (clients d) (broadcasts d) (subscriptions d) (rpc_client d) (rpc_lock d) v
    (db_r_frames d) (db_r_bytes d) (db_w_frames d) (db_w_bytes d) (force_register d) (next_ptr d).
(** [set_core_rpc_client]. *)
Definition set_core_rpc_client (bus : nat) (d : BrokerDb) : BrokerDb :=
  MkBrokerDb (heap d) (clients d) (broadcasts d) (subscriptions d) (Some bus) (rpc_lock d) (bus_lock d)
    (db_r_frames d) (db_r_bytes d) (db_w_frames d) (db_w_bytes d) (force_register d) (next_ptr d).
Definition db_count_r (frames len : Z) (d : BrokerDb) : BrokerDb :=
  MkBrokerDb (heap d) (clients d) (broadcasts d) (subscriptions d) (rpc_client d) (rpc_lock d) (bus_lock d)
    (u64_add (db_r_frames d) frames) (u64_add (db_r_bytes d) len) (db_w_frames d) (db_w_bytes d)
    (force_register d) (next_ptr d).
Definition db_count_w (frames len : Z) (d : BrokerDb) : BrokerDb :=
  MkBrokerDb (heap d) (clients d) (broadcasts d) (subscriptions d) (rpc_client d) (rpc_lock d) (bus_lock d)
    (db_r_frames d) (db_r_bytes d) (u64_add (db_w_frames d) frames) (u64_add (db_w_bytes d) len)
    (force_register d) (next_ptr d).

(** Update the client object behind an [Arc]. *)
Definition db_upd (c : nat) (f : BusRtClient -> BusRtClient) (d : BrokerDb) : BrokerDb :=
  set_heap (alter f c (heap d)) d.

(** [Arc::new]. *)
Definition alloc (cl : BusRtClient) : prog BrokerDb Error nat := fun d =>
  Done (next_ptr d)
    (MkBrokerDb (<[ next_ptr d := cl ]> (heap d)) (clients d) (broadcasts d) (subscriptions d)
       (rpc_client d) (rpc_lock d) (bus_lock d) (db_r_frames d) (db_r_bytes d) (db_w_frames d) (db_w_bytes d)
       (force_register d) (S (next_ptr d))).

Definition deref (c : nat) : prog BrokerDb Error BusRtClient := fun d =>
  match heap d !! c with Some cl => Done cl d | None => Panic end.
Definition upd (c : nat) (f : BusRtClient -> BusRtClient) : prog BrokerDb Error unit :=
  modify (db_upd c f).

(** The handle the maps store for a client. *)
Definition handle (c : nat) (cl : BusRtClient) : BrokerClient ext_digest := Arc c (digest cl).

(** ** [insert_client], [drop_client] *)

(** [BrokerDb::insert_client]. *)
Definition insert_client (c : nat) : prog BrokerDb Error unit :=
  deref c ≫= fun client =>
  (if primary client then mret None
   else gets (fun d => clients d !! primary_name client) ≫= fun pc =>
        lift (ok_or pc Error_not_registered) ≫= fun pc => mret (Some pc)) ≫= fun primary_client =>
  gets (fun d => clients d !! name client) ≫= fun entry =>
  match entry with
  | None =>
      match primary_client with
      | Some pc => upd pc (fun p => set_secondaries ({[ name client ]} ∪ secondaries p) p)
      | None => mret tt
      end ≫= fun _ =>
      modify (fun d => set_broadcasts
        (bm_register_client (name client) (handle c client) (broadcasts d)) d) ≫= fun _ =>
      modify (fun d => set_subscriptions
        (snd (sm_register_client (handle c client) (subscriptions d))) d) ≫= fun _ =>
      modify (fun d => set_subscriptions
        (snd (sm_subscribe BROKER_WARN_TOPIC (handle c client) (subscriptions d))) d) ≫= fun _ =>
      upd c (set_registered true) ≫= fun _ =>
      modify (fun d => set_clients (<[ name client := c ]> (clients d)) d)
  | Some _ =>
      throw (Error_busy (lit "the client is already registred: " ++ name client))
  end.

(** One secondary of a primary client that goes away: its connection is told to close unless
    the client is internal, and it is dropped in turn. *)
Definition drop_secondary (drop : nat -> prog BrokerDb Error unit) (secondary : str)
    : prog BrokerDb Error unit :=
  gets (fun d => clients d !! secondary) ≫= fun sec =>
  match sec with
  | Some s =>
      deref s ≫= fun sec =>
      when (negb (bool_decide (ckind sec = Internal))) (upd s (set_disconnected true)) ≫= fun _ =>
      drop s
  | None => mret tt
  end.

(** [BrokerDb::drop_client]. [held] are the clients whose [secondaries] mutex the caller holds;
    [fuel] bounds the nesting of primaries and secondaries ([drop_client_Done] in [DbFacts]). *)
Fixpoint drop_client_fuel (fuel : nat) (held : list nat) (c : nat) : prog BrokerDb Error unit :=
  match fuel with
  | O => hang
  | S fuel =>
      deref c ≫= fun client =>
      when (registered client) (
        upd c (set_registered false) ≫= fun _ =>
        modify (fun d => set_subscriptions
          (snd (sm_unregister_client (handle c client) (subscriptions d))) d) ≫= fun _ =>
        modify (fun d => set_broadcasts
          (bm_unregister_client (name client) (handle c client) (broadcasts d)) d) ≫= fun _ =>
        modify (fun d => set_clients (delete (name client) (clients d)) d) ≫= fun _ =>
        if primary client then
          if decide (c ∈ held) then hang else
          deref c ≫= fun client =>
          for_each (elements (secondaries client))
            (drop_secondary (drop_client_fuel fuel (c :: held))) ≫= fun _ =>
          upd c (set_secondaries ∅)
        else
          gets (fun d => clients d !! primary_name client) ≫= fun p =>
          match p with
          | Some p =>
              if decide (p ∈ held) then hang else
              upd p (fun p => set_secondaries (secondaries p ∖ {[ name client ]}) p)
          | None => mret tt
          end)
  end.

Definition drop_client (c : nat) : prog BrokerDb Error unit := drop_client_fuel 2 [] c.

(** ** Delivery *)

Section delivery.
Variable unregister_client : nat -> prog BrokerDb Error unit.

(** [safe_send_frame!]. *)
Definition safe_send_frame_with (tgt : nat) (frame : FrameData) (timeout : option Z)
    : prog BrokerDb Error unit :=
  deref tgt ≫= fun t =>
  if ch_is_full (tx t) then
    if decide (ckind t = Internal) then
      match ch_send (ext_room tgt) frame (tx t) with
      | Sent q => upd tgt (set_tx q)
      | SendClosed => throw Error_from_send
      | SendBlocked q =>
          upd tgt (set_tx q) ≫= fun _ =>
          match timeout with Some _ => throw Error_timeout | None => hang end
      end
    else
      unregister_client tgt ≫= fun _ =>
      upd tgt (fun t => set_tx (ch_close (tx t)) t) ≫= fun _ =>
      throw Error_not_delivered
  else
    match ch_send 0 frame (tx t) with
    | Sent q => upd tgt (set_tx q)
    | SendClosed => throw Error_from_send
    | SendBlocked _ => hang
    end.

(** The counters every incoming frame of [client] moves. *)
Definition count_incoming (client : nat) (len : Z) : prog BrokerDb Error unit :=
  upd client (count_r len) ≫= fun _ => modify (db_count_r 1 len).

(** [send!]. *)
Definition send_with (client : nat) (target : str) (header : option bytes) (buf : bytes)
    (payload_pos len : Z) (realtime : bool) (timeout : option Z) : prog BrokerDb Error unit :=
  count_incoming client len ≫= fun _ =>
  gets (fun d => clients d !! target) ≫= fun tgt =>
  match tgt with
  | Some tgt =>
      upd tgt (count_w len) ≫= fun _ =>
      modify (db_count_w 1 len) ≫= fun _ =>
      deref client ≫= fun from =>
      safe_send_frame_with tgt
        (MkFrame FrameKind_Message (Some (name from)) None header buf payload_pos realtime) timeout
  | None => throw Error_not_registered
  end.

(** The common tail of [send_broadcast!] and [publish!]: the frame goes to every subscriber;
    a failed delivery is ignored. *)
Definition deliver_all (subs : list (BrokerClient ext_digest)) (frame : FrameData) (len : Z)
    (timeout : option Z) : prog BrokerDb Error unit :=
  match subs with
  | [] => mret tt
  | _ =>
      let n := Z.of_nat (length subs) in
      modify (db_count_w n (u64_mul len n)) ≫= fun _ =>
      for_each subs (fun sub =>
        upd (ptr sub) (count_w len) ≫= fun _ =>
        attempt (safe_send_frame_with (ptr sub) frame timeout) ≫= fun _ => mret tt)
  end.

(** [send_broadcast!]. *)
Definition send_broadcast_with (client : nat) (target : str) (header : option bytes) (buf : bytes)
    (payload_pos len : Z) (realtime : bool) (timeout : option Z) : prog BrokerDb Error unit :=
  count_incoming client len ≫= fun _ =>
  gets (fun d => bm_get_clients_by_mask (broadcasts d) target) ≫= fun subs =>
  deref client ≫= fun from =>
  deliver_all subs
    (MkFrame FrameKind_Broadcast (Some (name from)) None header buf payload_pos realtime) len timeout.

(** The test of [subs.retain(..)]: the exclusion map is only searched when the client ever
    excluded something. *)
Definition retained (topic : str) (sub : BusRtClient) : bool :=
  negb (has_exclusions sub) || negb (acl_matches (exclusions sub) topic).

Definition retain (f : BusRtClient -> bool) (d : BrokerDb) (subs : list (BrokerClient ext_digest))
    : list (BrokerClient ext_digest) :=
  List.filter (fun s => match heap d !! ptr s with Some cl => f cl | None => false end) subs.

(** [publish!], first arm. *)
Definition publish_with (client : nat) (topic : str) (header : option bytes) (buf : bytes)
    (payload_pos len : Z) (realtime : bool) (timeout : option Z) : prog BrokerDb Error unit :=
  count_incoming client len ≫= fun _ =>
  gets (fun d => retain (retained topic) d (sm_get_subscribers (subscriptions d) topic)) ≫= fun subs =>
  deref client ≫= fun from =>
  deliver_all subs
    (MkFrame FrameKind_Publish (Some (name from)) (Some topic) header buf payload_pos realtime)
    len timeout.

(** [publish!], the arm with a receiver. *)
Definition publish_for_with (client : nat) (topic receiver : str) (header : option bytes)
    (buf : bytes) (payload_pos len : Z) (realtime : bool) (timeout : option Z)
    : prog BrokerDb Error unit :=
  count_incoming client len ≫= fun _ =>
  gets (fun d =>
    retain (fun sub => bool_decide (primary_name sub = receiver) && retained topic sub) d
      (sm_get_subscribers (subscriptions d) topic)) ≫= fun subs =>
  deref client ≫= fun from =>
  deliver_all subs
    (MkFrame FrameKind_Publish (Some (name from)) (Some topic) header buf payload_pos realtime)
    len timeout.

(** Run [m] while the mutex is held; waiting for a mutex that is held is waiting for ever, since
    its holder is the task itself or one that waits for ever. *)
Definition with_rpc_lock {A} (m : prog BrokerDb Error A) : prog BrokerDb Error A := fun d =>
  if rpc_lock d then Hang d else
  match m (set_rpc_lock true d) with
  | Done a d => Done a (set_rpc_lock false d)
  | Throw e d => Throw e (set_rpc_lock false d)
  | r => r
  end.

Definition with_bus_lock {A} (m : prog BrokerDb Error A) : prog BrokerDb Error A := fun d =>
  if bus_lock d then Hang d else
  match m (set_bus_lock true d) with
  | Done a d => Done a (set_bus_lock false d)
  | Throw e d => Throw e (set_bus_lock false d)
  | r => r
  end.

(** [BrokerDb::announce]: the mutex of [rpc_client] stays locked while the event is published
    by the bus client behind it ([Client::publish], which waits without a timeout), whose own
    mutex is locked, too. *)
Definition announce_with (event : BrokerEvent) : prog BrokerDb Error unit :=
  with_rpc_lock (
    gets rpc_client ≫= fun rpc =>
    match rpc with
    | None => mret tt
    | Some bus =>
        let event := set_ev_t ext_now_ns event in
        with_bus_lock (
          lift (map_err Error_data (ext_event_to_vec event)) ≫= fun payload =>
          publish_with bus (ev_topic event) None payload 0 (Z.of_nat (length payload)) false None)
    end).
End delivery.

(** [BrokerDb::unregister_client]; a failed announcement is only logged. *)
Definition unregister_client_with (announce : BrokerEvent -> prog BrokerDb Error unit) (c : nat)
    : prog BrokerDb Error unit :=
  deref c ≫= fun client =>
  drop_client c ≫= fun _ =>
  when (primary client && registered client)
    (attempt (announce (BrokerEvent_unreg (name client))) ≫= fun _ => mret tt).

(** [announce] and [unregister_client] call each other. *)
Fixpoint announce_fuel (fuel : nat) (event : BrokerEvent) : prog BrokerDb Error unit :=
  match fuel with
  | O => hang
  | S fuel => announce_with (unregister_client_with (announce_fuel fuel)) event
  end.

Definition announce (event : BrokerEvent) : prog BrokerDb Error unit := announce_fuel 2 event.
Definition unregister_client (c : nat) : prog BrokerDb Error unit := unregister_client_with announce c.

Definition safe_send_frame := safe_send_frame_with unregister_client.
Definition send := send_with unregister_client.
Definition send_broadcast := send_broadcast_with unregister_client.
Definition publish := publish_with unregister_client.
Definition publish_for := publish_for_with unregister_client.

(** ** Registration *)

(** The branch of [register_client] for a name that is taken, with [force_register]. *)
Definition replace_client (c : nat) (nm : str) : prog BrokerDb Error unit :=
  gets (fun d => clients d !! nm) ≫= fun prev_c =>
  modify (fun d => set_clients (delete nm (clients d)) d) ≫= fun _ =>
  match prev_c with
  | Some prev => drop_client prev ≫= fun _ => upd prev (set_disconnected true)
  | None => mret tt
  end ≫= fun _ =>
  insert_client c.

(** [BrokerDb::register_client]. *)
Definition db_register_client (c : nat) : prog BrokerDb Error unit :=
  deref c ≫= fun client =>
  gets force_register ≫= fun force =>
  let allow_force := primary client && force in
  attempt (insert_client c) ≫= fun r =>
  match r with
  | Ok _ => mret tt
  | Err e =>
      if bool_decide (kind e = Busy) && allow_force then replace_client c (name client) else throw e
  end ≫= fun _ =>
  when (primary client)
    (attempt (announce (BrokerEvent_reg (name client))) ≫= fun _ => mret tt).

(** [BrokerDb::trigger_disconnect]. *)
Definition trigger_disconnect (nm : str) : prog BrokerDb Error unit :=
  gets (fun d => clients d !! nm) ≫= fun client =>
  match client with
  | Some c =>
      deref c ≫= fun client =>
      if decide (ckind client = Internal) then throw (Error_not_supported (lit "the client is internal"))
      else upd c (set_disconnected true)
  | None => throw Error_not_registered
  end.

Record BrokerStats := MkStats {
  uptime : Z;
  st_r_frames : Z;
  st_r_bytes : Z;
  st_w_frames : Z;
  st_w_bytes : Z;
}.

(** [BrokerDb::stats]; the seconds since the start are the clock's. *)
Definition stats (elapsed : Z) (d : BrokerDb) : BrokerStats :=
  MkStats elapsed (db_r_frames d) (db_r_bytes d) (db_w_frames d) (db_w_bytes d).
End broker.
