(* ===== verification/DbFacts.v ===== *)
(** * Facts about the broker database

    The invariant [db_wf] of [BrokerDb]: the client table, the broadcast map and the
    subscription map hold exactly the registered clients, under the names and digests the
    client objects carry, and every registered secondary is known to its registered primary.
    The lemmas show what each operation of [Broker] does to a database that satisfies it. *)
From S2P Require Export Broker.

Section facts.
Context {X : Externals} `{!ExternalsLaws X}.

(** ** The invariant *)

(** What holds of a client object from its creation on. *)
Definition client_ok (cl : BusRtClient) : Prop :=
  digest cl = ext_sha256 (name cl) /\
  primary_name cl = before_sep (name cl) /\
  primary cl = bool_decide (name cl = primary_name cl).

Record core_wf (d : BrokerDb) : Prop := {
  cw_next c cl : heap d !! c = Some cl -> (c < next_ptr d)%nat;
  cw_ok c cl : heap d !! c = Some cl -> client_ok cl;
  cw_clients n c :
    clients d !! n = Some c ->
    exists cl, heap d !! c = Some cl /\ name cl = n /\ registered cl = true;
  cw_registered c cl :
    heap d !! c = Some cl -> registered cl = true -> clients d !! name cl = Some c;
  cw_subs_in k h ts :
    sm_view (subscriptions d) !! k = Some (h, ts) ->
    exists cl, heap d !! ptr h = Some cl /\ registered cl = true /\
               h = handle (ptr h) cl /\ k = digest cl;
  cw_subs_out c cl :
    heap d !! c = Some cl -> registered cl = true ->
    exists ts, sm_view (subscriptions d) !! digest cl = Some (handle c cl, ts);
  cw_names_in k h n :
    bm_view (broadcasts d) !! k = Some (h, n) ->
    exists cl, heap d !! ptr h = Some cl /\ registered cl = true /\
               h = handle (ptr h) cl /\ k = digest cl /\ n = name cl;
  cw_names_out c cl :
    heap d !! c = Some cl -> registered cl = true ->
    bm_view (broadcasts d) !! digest cl = Some (handle c cl, name cl);
  cw_rpc bus : rpc_client d = Some bus -> is_Some (heap d !! bus);
}.

(** Primaries and their secondaries know each other; [orphans] are the names of registered
    secondaries whose primary is being dropped. *)
Record links_wf (orphans : gset str) (d : BrokerDb) : Prop := {
  lw_up c cl :
    heap d !! c = Some cl -> registered cl = true -> primary cl = false ->
    name cl ∈ orphans \/
    exists p pcl, clients d !! primary_name cl = Some p /\ heap d !! p = Some pcl /\
                  name cl ∈ secondaries pcl;
  lw_down p pcl s :
    heap d !! p = Some pcl -> registered pcl = true -> s ∈ secondaries pcl ->
    exists c cl, clients d !! s = Some c /\ heap d !! c = Some cl /\ primary cl = false /\
                 primary_name cl = name pcl;
}.

Definition db_wf (d : BrokerDb) : Prop := core_wf d /\ links_wf ∅ d.

(** ** Heap updates *)

Lemma alter_Some {A} (h : gmap nat A) f c c' x :
  alter f c h !! c' = Some x <->
  exists y, h !! c' = Some y /\ x = if decide (c = c') then f y else y.
Proof.
  destruct (decide (c = c')) as [<-|Hn].
  - rewrite lookup_alter_eq. rewrite fmap_Some. done.
  - rewrite lookup_alter_ne by done. naive_solver.
Qed.

Lemma heap_db_upd c f d c' x :
  heap (db_upd c f d) !! c' = Some x <->
  exists y, heap d !! c' = Some y /\ x = if decide (c = c') then f y else y.
Proof. apply alter_Some. Qed.

Lemma dom_db_upd c f d : dom (heap (db_upd c f d)) = dom (heap d).
Proof. apply dom_alter_L. Qed.

(** An update that touches nothing the invariant looks at. *)
Definition inert (f : BusRtClient -> BusRtClient) : Prop :=
  forall cl, name (f cl) = name cl /\ digest (f cl) = digest cl /\
             primary_name (f cl) = primary_name cl /\ primary (f cl) = primary cl /\
             registered (f cl) = registered cl /\ secondaries (f cl) = secondaries cl.

Lemma inert_set_tx f : inert (fun c => set_tx (f c) c).
Proof. by intros cl. Qed.
Lemma inert_count_r len : inert (count_r len).
Proof. by intros cl. Qed.
Lemma inert_count_w len : inert (count_w len).
Proof. by intros cl. Qed.
Lemma inert_disconnected v : inert (set_disconnected v).
Proof. by intros cl. Qed.
Lemma inert_has_exclusions v : inert (set_has_exclusions v).
Proof. by intros cl. Qed.
Lemma inert_exclusions f : inert (fun c => set_exclusions (f c) c).
Proof. by intros cl. Qed.

(** [db_upd] with an inert function keeps each of the invariant's clauses; the same holds of
    any two databases whose heaps agree up to the fields the invariant ignores. *)
Definition similar (cl cl' : BusRtClient) : Prop :=
  name cl' = name cl /\ digest cl' = digest cl /\ primary_name cl' = primary_name cl /\
  primary cl' = primary cl /\ registered cl' = registered cl /\ secondaries cl' = secondaries cl.

Record agree (d d' : BrokerDb) : Prop := {
  ag_to c cl : heap d !! c = Some cl -> exists cl', heap d' !! c = Some cl' /\ similar cl cl';
  ag_from c cl' : heap d' !! c = Some cl' -> exists cl, heap d !! c = Some cl /\ similar cl cl';
  ag_clients : clients d' = clients d;
  ag_subs : sm_view (subscriptions d') = sm_view (subscriptions d);
  ag_names : bm_view (broadcasts d') = bm_view (broadcasts d);
  ag_rpc : rpc_client d' = rpc_client d;
  ag_next : next_ptr d' = next_ptr d;
}.

Lemma handle_similar c cl cl' : similar cl cl' -> handle c cl' = handle c cl.
Proof. intros (_ & Hd & _). unfold handle. by rewrite Hd. Qed.

Lemma agree_core d d' : agree d d' -> core_wf d -> core_wf d'.
Proof.
  intros [Hto Hfrom Hc Hs Hn Hr Hx] W. constructor.
  - intros c cl' (cl & Hl & _)%Hfrom. rewrite Hx. by apply (cw_next d W c cl).
  - intros c cl' (cl & Hl & S)%Hfrom. destruct (cw_ok d W c cl Hl) as (? & ? & ?).
    destruct S as (En & Ed & Ep & Eb & _). unfold client_ok. by rewrite En, Ed, Ep, Eb.
  - intros n c. rewrite Hc. intros (cl & Hl & En & Er)%(cw_clients d W).
    destruct (Hto _ _ Hl) as (cl' & Hl' & S). exists cl'.
    destruct S as (-> & _ & _ & _ & -> & _). done.
  - intros c cl' (cl & Hl & S)%Hfrom Er. rewrite Hc.
    destruct S as (-> & _ & _ & _ & Er' & _). apply (cw_registered d W); congruence.
  - intros k h ts. rewrite Hs. intros (cl & Hl & Er & Eh & Ek)%(cw_subs_in d W).
    destruct (Hto _ _ Hl) as (cl' & Hl' & S). exists cl'.
    rewrite (handle_similar _ _ _ S). destruct S as (_ & -> & _ & _ & -> & _). done.
  - intros c cl' (cl & Hl & S)%Hfrom Er. rewrite Hs, (handle_similar _ _ _ S).
    destruct S as (_ & -> & _ & _ & Er' & _). apply (cw_subs_out d W); congruence.
  - intros k h n. rewrite Hn. intros (cl & Hl & Er & Eh & Ek & En)%(cw_names_in d W).
    destruct (Hto _ _ Hl) as (cl' & Hl' & S). exists cl'.
    rewrite (handle_similar _ _ _ S). destruct S as (-> & -> & _ & _ & -> & _). done.
  - intros c cl' (cl & Hl & S)%Hfrom Er. rewrite Hn, (handle_similar _ _ _ S).
    destruct S as (-> & -> & _ & _ & Er' & _). apply (cw_names_out d W); congruence.
  - intros bus. rewrite Hr. intros [cl Hl]%(cw_rpc d W).
    destruct (Hto _ _ Hl) as (cl' & Hl' & _). eauto.
Qed.

Lemma agree_links O d d' : agree d d' -> links_wf O d -> links_wf O d'.
Proof.
  intros [Hto Hfrom Hc _ _ _ _] L. constructor.
  - intros c cl' (cl & Hl & S)%Hfrom Er Ep.
    destruct S as (-> & _ & -> & Ep' & Er' & _). rewrite Hc.
    destruct (lw_up O d L c cl Hl) as [?|(p & pcl & Hp & Hl' & Hin)]; [congruence..|by left|].
    right. destruct (Hto _ _ Hl') as (pcl' & Hpl & S'). exists p, pcl'.
    by destruct S' as (_ & _ & _ & _ & _ & ->).
  - intros p pcl' s (pcl & Hl & S)%Hfrom Er. destruct S as (-> & _ & _ & _ & Er' & ->). rewrite Hc.
    intros (c & cl & Hcl & Hl' & Ep & En)%(lw_down O d L _ _ _ Hl); [|congruence].
    destruct (Hto _ _ Hl') as (cl' & Hlc & S'). exists c, cl'.
    by destruct S' as (_ & _ & -> & -> & _).
Qed.

Lemma agree_wf d d' : agree d d' -> db_wf d -> db_wf d'.
Proof. intros A [W L]. split; [by eapply agree_core|by eapply agree_links]. Qed.

Lemma agree_upd c f d : inert f -> agree d (db_upd c f d).
Proof.
  intros Hf. constructor; try done.
  - intros c' cl Hl. setoid_rewrite heap_db_upd.
    eexists. split; [eauto|]. case_decide; [apply Hf|done].
  - intros c' cl' (cl & Hl & ->)%heap_db_upd. exists cl. split; [done|].
    case_decide; [apply Hf|done].
Qed.

(** ** Names *)

Lemma primary_name_primary cl cl' :
  client_ok cl -> client_ok cl' -> primary_name cl' = name cl -> primary cl = true.
Proof.
  intros (_ & Ep & ->) (_ & Ep' & _) E. apply bool_decide_eq_true.
  rewrite Ep, <- E, Ep'. by rewrite before_sep_idemp.
Qed.

(** Two registered clients with one name, or one digest, are one client. *)
Lemma registered_inj d c1 c2 cl1 cl2 :
  core_wf d -> heap d !! c1 = Some cl1 -> heap d !! c2 = Some cl2 ->
  registered cl1 = true -> registered cl2 = true -> name cl1 = name cl2 -> c1 = c2.
Proof.
  intros W H1 H2 R1 R2 E. apply (cw_registered d W) in H1; [|done].
  apply (cw_registered d W) in H2; [|done]. congruence.
Qed.

Lemma digest_name d c1 c2 cl1 cl2 :
  core_wf d -> heap d !! c1 = Some cl1 -> heap d !! c2 = Some cl2 ->
  digest cl1 = digest cl2 -> name cl1 = name cl2.
Proof.
  intros W H1 H2 E. destruct (cw_ok d W _ _ H1) as (E1 & _ & _).
  destruct (cw_ok d W _ _ H2) as (E2 & _ & _). apply (inj ext_sha256). congruence.
Qed.

(** ** Taking one client out of the maps *)

(** The first half of [drop_client]. *)
Definition forget (c : nat) (cl : BusRtClient) (d : BrokerDb) : BrokerDb :=
  let d := db_upd c (set_registered false) d in
  let d := set_subscriptions (snd (sm_unregister_client (handle c cl) (subscriptions d))) d in
  let d := set_broadcasts (bm_unregister_client (name cl) (handle c cl) (broadcasts d)) d in
  set_clients (delete (name cl) (clients d)) d.

Section forget.
Context (d : BrokerDb) (c : nat) (cl : BusRtClient).
Hypotheses (W : core_wf d) (Hl : heap d !! c = Some cl) (R : registered cl = true).

Lemma heap_forget x y' :
  heap (forget c cl d) !! x = Some y' <->
  exists y, heap d !! x = Some y /\ y' = if decide (c = x) then set_registered false y else y.
Proof. apply heap_db_upd. Qed.

Lemma clients_forget n x :
  clients (forget c cl d) !! n = Some x <-> name cl <> n /\ clients d !! n = Some x.
Proof. apply lookup_delete_Some. Qed.

(** Who is still registered was registered before and is someone else. *)
Lemma forget_registered x y :
  heap (forget c cl d) !! x = Some y -> registered y = true ->
  heap d !! x = Some y /\ x <> c /\ name y <> name cl /\ digest y <> digest cl.
Proof.
  intros (y0 & Hy & ->)%heap_forget Ry. case_decide as Hc; [done|].
  assert (Hn : name y0 <> name cl).
  { intros En. apply Hc. symmetry. by eapply (registered_inj d x c). }
  split_and!; try done. intros Ed. apply Hn. by eapply (digest_name d x c).
Qed.

Lemma forget_core : core_wf (forget c cl d).
Proof using W Hl R ExternalsLaws0.
  assert (Hs : sm_view (subscriptions (forget c cl d)) = delete (digest cl) (sm_view (subscriptions d)))
    by exact (sm_unregister_view (key := ptr_digest) (handle c cl) (subscriptions d)).
  assert (Hb : bm_view (broadcasts (forget c cl d)) = delete (digest cl) (bm_view (broadcasts d)))
    by exact (bm_unregister_view (key := ptr_digest) (name cl) (handle c cl) (broadcasts d)
                (cw_names_out d W c cl Hl R)).
  assert (Hkeep : forall x y, heap d !! x = Some y -> registered y = true -> digest y <> digest cl ->
                    heap (forget c cl d) !! x = Some y).
  { intros x y Hy Ry Hd. apply heap_forget. exists y. split; [done|].
    case_decide; [|done]. congruence. }
  constructor.
  - intros x y (y0 & Hy & _)%heap_forget. by apply (cw_next d W x y0).
  - intros x y (y0 & Hy & ->)%heap_forget. apply (cw_ok d W) in Hy. by case_decide.
  - intros n x (Hn & (y & Hy & <- & Ry)%(cw_clients d W))%clients_forget.
    exists y. split_and!; try done. apply Hkeep; try done.
    intros Ed. apply Hn. symmetry. by eapply (digest_name d x c).
  - intros x y Hy Ry. destruct (forget_registered _ _ Hy Ry) as (Hy' & _ & Hn & _).
    apply clients_forget. split; [done|]. by apply (cw_registered d W).
  - rewrite Hs. intros k h ts (Hk & (y & Hy & Ry & Eh & ->)%(cw_subs_in d W))%lookup_delete_Some.
    exists y. split_and!; try done. by apply Hkeep.
  - rewrite Hs. intros x y Hy Ry. destruct (forget_registered _ _ Hy Ry) as (Hy' & _ & _ & Hd).
    rewrite lookup_delete_ne by done. by apply (cw_subs_out d W).
  - rewrite Hb. intros k h n (Hk & (y & Hy & Ry & Eh & -> & ->)%(cw_names_in d W))%lookup_delete_Some.
    exists y. split_and!; try done. by apply Hkeep.
  - rewrite Hb. intros x y Hy Ry. destruct (forget_registered _ _ Hy Ry) as (Hy' & _ & _ & Hd).
    rewrite lookup_delete_ne by done. by apply (cw_names_out d W).
  - intros bus (y & Hy)%(cw_rpc d W). eexists. apply heap_forget. eauto.
Qed.

(** Forgetting a primary turns its secondaries into orphans. *)
Lemma forget_links_primary :
  primary cl = true -> links_wf ∅ d -> links_wf (secondaries cl) (forget c cl d).
Proof using W Hl R.
  intros P L. constructor.
  - intros x y Hy Ry Py. destruct (forget_registered _ _ Hy Ry) as (Hy' & Hx & Hn & _).
    destruct (lw_up ∅ d L x y Hy' Ry Py) as [?|(p & pcl & Hp & Hpl & Hin)]; [set_solver|].
    destruct (cw_clients d W _ _ Hp) as (pcl' & Hpl' & Enp & Rp). simplify_eq.
    destruct (decide (p = c)) as [->|Hpc]; [left; congruence|right].
    assert (Hne : primary_name y <> name cl).
    { intros E. apply Hpc. eapply (registered_inj d p c); eauto. congruence. }
    exists p, pcl. split_and!; [by apply clients_forget| |done].
    apply heap_forget. exists pcl. split; [done|]. by rewrite decide_False.
  - intros p pcl s Hp Rp Hin. destruct (forget_registered _ _ Hp Rp) as (Hp' & Hpc & Hpn & _).
    destruct (lw_down ∅ d L p pcl s Hp' Rp Hin) as (x & y & Hx & Hy & Py & Ey).
    assert (Hs : s <> name cl).
    { intros ->. rewrite (cw_registered d W c cl) in Hx by done. congruence. }
    assert (x <> c) by (intros ->; congruence).
    exists x, y. split_and!; try done.
    + by apply clients_forget.
    + apply heap_forget. exists y. by rewrite decide_False.
Qed.
End forget.

(** ** Running [drop_client] *)

Lemma deref_Some c cl d : heap d !! c = Some cl -> deref c d = Done cl d.
Proof. intros H. unfold deref. by rewrite H. Qed.

Lemma drop_unregistered n held c cl d :
  heap d !! c = Some cl -> registered cl = false -> drop_client_fuel (S n) held c d = Done tt d.
Proof.
  intros Hl R. cbn [drop_client_fuel]. rewrite (bind_Done _ _ _ _ _ (deref_Some _ _ _ Hl)).
  by rewrite R.
Qed.

(** The second half for a client that is not a primary. *)
Definition unlink (cl : BusRtClient) (d : BrokerDb) : BrokerDb :=
  match clients d !! primary_name cl with
  | Some p => db_upd p (fun p => set_secondaries (secondaries p ∖ {[ name cl ]}) p) d
  | None => d
  end.

Lemma drop_nonprimary n held c cl d :
  heap d !! c = Some cl -> registered cl = true -> primary cl = false ->
  (forall p, clients (forget c cl d) !! primary_name cl = Some p -> p ∉ held) ->
  drop_client_fuel (S n) held c d = Done tt (unlink cl (forget c cl d)).
Proof.
  intros Hl R P Hh. cbn [drop_client_fuel]. rewrite (bind_Done _ _ _ _ _ (deref_Some _ _ _ Hl)).
  rewrite R. unfold when. rewrite P. unfold unlink.
  change (clients (forget c cl d) !! primary_name cl) with
    (delete (name cl) (clients d) !! primary_name cl) in *.
  cbv [mbind prog_bind modify upd gets]. cbn -[lookup delete].
  destruct (delete (name cl) (clients d) !! primary_name cl) as [p|] eqn:E; [|done].
  by rewrite decide_False by eauto.
Qed.

Lemma drop_primary n held c cl d :
  heap d !! c = Some cl -> registered cl = true -> primary cl = true -> c ∉ held ->
  drop_client_fuel (S n) held c d =
    (for_each (elements (secondaries cl)) (drop_secondary (drop_client_fuel n (c :: held))) ≫= fun _ =>
     upd c (set_secondaries ∅)) (forget c cl d).
Proof.
  intros Hl R P Hh. cbn [drop_client_fuel]. rewrite (bind_Done _ _ _ _ _ (deref_Some _ _ _ Hl)).
  rewrite R. unfold when. rewrite P. rewrite decide_False by done.
  assert (Hc : heap (forget c cl d) !! c = Some (set_registered false cl)).
  { apply heap_forget. exists cl. split; [done|]. by rewrite decide_True. }
  transitivity ((deref c ≫= fun client =>
      for_each (elements (secondaries client)) (drop_secondary (drop_client_fuel n (c :: held)))
      ≫= fun _ => upd c (set_secondaries ∅)) (forget c cl d)); [done|].
  by rewrite (bind_Done _ _ _ _ _ (deref_Some _ _ _ Hc)).
Qed.

Lemma heap_unlink cl d x y' :
  heap (unlink cl d) !! x = Some y' <->
  exists y, heap d !! x = Some y /\
    y' = if decide (clients d !! primary_name cl = Some x)
         then set_secondaries (secondaries y ∖ {[ name cl ]}) y else y.
Proof.
  unfold unlink. destruct (clients d !! primary_name cl) as [p|].
  - rewrite heap_db_upd. split; intros (y & Hy & ->); exists y; split; try done.
    + case_decide as E; [rewrite decide_True by congruence|rewrite decide_False by congruence]; done.
    + case_decide as E; [rewrite decide_True by congruence|rewrite decide_False by congruence]; done.
  - split; [intros Hx; eexists; split; [exact Hx|]; by rewrite decide_False|].
    intros (y & Hy & ->). by rewrite decide_False.
Qed.

Lemma clients_unlink cl d : clients (unlink cl d) = clients d.
Proof. unfold unlink. by destruct (_ !! _). Qed.

(** [secondaries] plays no part in the core invariant. *)
Lemma core_set_secondaries p f d :
  core_wf d -> core_wf (db_upd p (fun c => set_secondaries (f c) c) d).
Proof.
  intros W. constructor.
  - intros c x (y & Hy & _)%heap_db_upd. by apply (cw_next d W c y).
  - intros c x (y & Hy & ->)%heap_db_upd. apply (cw_ok d W) in Hy. by case_decide.
  - intros n c (y & Hy & ? & ?)%(cw_clients d W). eexists. rewrite heap_db_upd.
    split; [eauto|]. by case_decide.
  - intros c x (y & Hy & ->)%heap_db_upd Rx. 
    rewrite <- (cw_registered d W c y Hy); by case_decide.
  - intros k h ts (y & Hy & Ry & Eh & Ek)%(cw_subs_in d W). eexists. rewrite heap_db_upd.
    split; [eauto|]. by case_decide.
  - intros c x (y & Hy & ->)%heap_db_upd Rx.
    destruct (cw_subs_out d W c y Hy) as [ts Hts]; [by case_decide|]. exists ts. by case_decide.
  - intros k h n (y & Hy & Ry & Eh & Ek & En)%(cw_names_in d W). eexists. rewrite heap_db_upd.
    split; [eauto|]. by case_decide.
  - intros c x (y & Hy & ->)%heap_db_upd Rx.
    pose proof (cw_names_out d W c y Hy). by case_decide; apply H.
  - intros bus (y & Hy)%(cw_rpc d W). eexists. apply heap_db_upd. eauto.
Qed.

Lemma unlink_core cl d : core_wf d -> core_wf (unlink cl d).
Proof.
  intros W. unfold unlink. destruct (_ !! _) as [p|]; [|done].
  by apply (core_set_secondaries p (fun p => secondaries p ∖ {[ name cl ]})).
Qed.

(** Dropping a secondary leaves everyone else's links intact. *)
Lemma drop_nonprimary_links O d c cl :
  core_wf d -> heap d !! c = Some cl -> registered cl = true -> primary cl = false ->
  links_wf O d -> links_wf (O ∖ {[ name cl ]}) (unlink cl (forget c cl d)).
Proof.
  intros W Hl R P L. constructor.
  - intros x y' (y & Hy & ->)%heap_unlink Ry Py.
    assert (Ry' : registered y = true) by (by case_decide).
    destruct (forget_registered d c cl W Hl R x y Hy Ry') as (Hy' & Hx & Hn & _).
    destruct (lw_up O d L x y Hy' Ry') as [Ho|(p & pcl & Hp & Hpl & Hin)]; [by case_decide| |].
    { left. case_decide; cbn; set_solver. }
    right. assert (Hne : name cl <> primary_name y).
    { intros E. destruct (cw_clients d W _ _ Hp) as (q & Hq & Enq & Rq).
      rewrite Hpl in Hq. injection Hq as <-.
      assert (primary cl = true); [|congruence].
      apply (primary_name_primary cl y); [by eapply cw_ok|by eapply cw_ok|done]. }
    assert (Hpc : p <> c).
    { intros ->. destruct (cw_clients d W _ _ Hp) as (q & Hq & Enq & Rq). congruence. }
    assert (Hpf : heap (forget c cl d) !! p = Some pcl).
    { apply heap_forget. exists pcl. by rewrite decide_False. }
    assert (Hcf : clients (forget c cl d) !! primary_name y = Some p)
      by by apply clients_forget.
    rewrite clients_unlink.
    exists p. eexists. split_and!; [by case_decide|apply heap_unlink; eauto|].
    case_decide; case_decide; cbn; set_solver.
  - intros p pcl' s (pcl & Hp & ->)%heap_unlink Rp.
    assert (Rp' : registered pcl = true) by (by case_decide).
    destruct (forget_registered d c cl W Hl R p pcl Hp Rp') as (Hp' & Hpc & Hpn & _).
    intros Hin. assert (Hin' : s ∈ secondaries pcl) by (case_decide; cbn in Hin; set_solver).
    destruct (lw_down O d L p pcl s Hp' Rp' Hin') as (x & y & Hx & Hy & Py & Ey).
    assert (Hs : name cl <> s).
    { intros <-. rewrite (cw_registered d W c cl) in Hx by done. simplify_eq.
      rewrite decide_True in Hin.
      - cbn in Hin. set_solver.
      - rewrite Ey. apply clients_forget. split; [done|]. by apply (cw_registered d W). }
    assert (Hxc : x <> c).
    { intros ->. destruct (cw_clients d W _ _ Hx) as (q & Hq & ? & ?). congruence. }
    clear Hin Rp. rewrite clients_unlink. exists x. eexists.
    split; [by apply clients_forget|]. split; [|split].
    + apply heap_unlink. exists y. split; [|reflexivity].
      apply heap_forget. exists y. by rewrite decide_False.
    + by case_decide.
    + by repeat case_decide.
Qed.

(** ** What dropping clients changes *)

(** [y'] is [y] up to the disconnect trigger, the loss of the registration and of secondaries. *)
Definition fixed (y y' : BusRtClient) : Prop :=
  y' = set_disconnected (disconnected y')
         (set_registered (registered y') (set_secondaries (secondaries y') y)) /\
  secondaries y' ⊆ secondaries y /\ (registered y = false -> registered y' = false).

Lemma fixed_refl y : fixed y y.
Proof. by destruct y. Qed.

Lemma fixed_trans y1 y2 y3 : fixed y1 y2 -> fixed y2 y3 -> fixed y1 y3.
Proof.
  intros (E1 & S1 & R1) (E2 & S2 & R2). split_and!; [|set_solver|auto].
  rewrite E2, E1. by destruct y1.
Qed.

Lemma fixed_name y y' : fixed y y' -> name y' = name y /\ ckind y' = ckind y.
Proof. intros [-> _]. done. Qed.

(** A client that was not registered and has no secondaries only may have been told to close. *)
Lemma fixed_newborn y y' :
  fixed y y' -> registered y = false -> secondaries y = ∅ ->
  y' = set_disconnected (disconnected y') y.
Proof.
  intros (E & S & R) Ry Sy. rewrite E at 1. destruct y; cbn in *. subst.
  rewrite R by done. by replace (secondaries y') with (∅ : gset (list byte)) by set_solver.
Qed.

(** The parts of the database that registration does not touch. *)
Definition rest (d : BrokerDb) :=
  (rpc_client d, rpc_lock d, bus_lock d, (db_r_frames d, db_r_bytes d, db_w_frames d, db_w_bytes d),
   force_register d, next_ptr d).

(** The names in [gone] left the client table, the connections of [trig] were told to close,
    and nothing else happened. *)
Record dropped (gone : gset str) (trig : gset nat) (d d' : BrokerDb) : Prop := {
  dr_clients n : clients d' !! n = if decide (n ∈ gone) then None else clients d !! n;
  dr_heap x y : heap d !! x = Some y ->
    exists y', heap d' !! x = Some y' /\ fixed y y' /\
               disconnected y' = disconnected y || bool_decide (x ∈ trig);
  dr_dom : dom (heap d') = dom (heap d);
  dr_rest : rest d' = rest d;
}.

Lemma dropped_refl d : dropped ∅ ∅ d d.
Proof.
  constructor; try done. intros x y Hy. exists y. split_and!; [done|apply fixed_refl|].
  rewrite bool_decide_false by set_solver. by rewrite orb_false_r.
Qed.

Lemma dropped_trans G1 T1 G2 T2 d1 d2 d3 :
  dropped G1 T1 d1 d2 -> dropped G2 T2 d2 d3 -> dropped (G1 ∪ G2) (T1 ∪ T2) d1 d3.
Proof.
  intros A B. constructor.
  - intros n. rewrite (dr_clients _ _ _ _ B), (dr_clients _ _ _ _ A).
    repeat case_decide; set_solver.
  - intros x y (y1 & Hy1 & F1 & D1)%(dr_heap _ _ _ _ A).
    destruct (dr_heap _ _ _ _ B _ _ Hy1) as (y2 & Hy2 & F2 & D2).
    exists y2. split_and!; [done|by eapply fixed_trans|].
    rewrite D2, D1, <- orb_assoc. f_equal. symmetry.
    repeat case_bool_decide; set_solver.
  - by rewrite (dr_dom _ _ _ _ B), (dr_dom _ _ _ _ A).
  - by rewrite (dr_rest _ _ _ _ B), (dr_rest _ _ _ _ A).
Qed.

Lemma dropped_upd c f d :
  (forall y, fixed y (f y) /\ disconnected (f y) = disconnected y) ->
  dropped ∅ ∅ d (db_upd c f d).
Proof.
  intros Hf. constructor; [done| |apply dom_db_upd|done].
  intros x y Hy. eexists. rewrite heap_db_upd. split; [eauto|].
  rewrite bool_decide_false, orb_false_r by set_solver.
  case_decide; [apply Hf|]. split; [apply fixed_refl|done].
Qed.

Lemma dropped_disconnect c b d :
  dropped ∅ (if b : bool then {[ c ]} else ∅) d
    (if b then db_upd c (set_disconnected true) d else d).
Proof.
  destruct b; [|apply dropped_refl].
  constructor; [done| |apply dom_db_upd|done].
  intros x y Hy. eexists. rewrite heap_db_upd. split; [eauto|].
  case_decide as E.
  - rewrite bool_decide_true, orb_true_r by set_solver. by destruct y.
  - rewrite bool_decide_false, orb_false_r by set_solver. split; [apply fixed_refl|done].
Qed.

Lemma dropped_forget c cl d : dropped {[ name cl ]} ∅ d (forget c cl d).
Proof.
  constructor.
  - intros n. change (clients (forget c cl d)) with (delete (name cl) (clients d)).
    case_decide as E.
    + apply elem_of_singleton in E as ->. apply lookup_delete_eq.
    + apply lookup_delete_ne. set_solver.
  - intros x y Hy. eexists. rewrite heap_forget. split; [eauto|].
    rewrite bool_decide_false, orb_false_r by set_solver.
    case_decide; [by destruct y|]. split; [apply fixed_refl|done].
  - apply dom_db_upd.
  - done.
Qed.

Lemma dropped_unlink cl d : dropped ∅ ∅ d (unlink cl d).
Proof.
  unfold unlink. destruct (_ !! _); [|apply dropped_refl].
  apply dropped_upd. intros y. split; [split; [by destruct y|cbn; set_solver]|done].
Qed.

(** ** Dropping the secondaries of a primary *)

(** The state of the loop over the secondaries [l] still to come: their primary, whose name is
    [pn], is already out of the table. *)
Record dropping (pn : str) (l : list str) (d : BrokerDb) : Prop := {
  dg_core : core_wf d;
  dg_links : links_wf (list_to_set l) d;
  dg_primary : clients d !! pn = None;
  dg_secondary s x y : s ∈ l -> clients d !! s = Some x -> heap d !! x = Some y ->
    primary y = false /\ primary_name y = pn;
}.

Lemma links_missing O s d :
  core_wf d -> clients d !! s = None -> links_wf O d -> links_wf (O ∖ {[ s ]}) d.
Proof.
  intros W Hs L. constructor; [|apply L].
  intros x y Hy Ry Py. destruct (lw_up O d L x y Hy Ry Py) as [Ho|?]; [left|by right].
  assert (name y <> s) by (intros E; pose proof (cw_registered d W x y Hy Ry); congruence).
  set_solver.
Qed.

Lemma list_to_set_cons_difference (s : str) l :
  s ∉ l -> (list_to_set (s :: l) : gset str) ∖ {[ s ]} = list_to_set l.
Proof. intros Hn. apply set_eq. intros x. rewrite !elem_of_difference, !elem_of_list_to_set. set_solver. Qed.

(** A secondary whose name is not registered (any more) is skipped. *)
Lemma drop_secondary_absent n held pn s l d :
  s ∉ l -> dropping pn (s :: l) d -> clients d !! s = None ->
  exists d' trig,
    drop_secondary (drop_client_fuel (S n) held) s d = Done tt d' /\
    dropping pn l d' /\ dropped {[ s ]} trig d d' /\
    (forall x, x ∈ trig <->
       exists y, clients d !! s = Some x /\ heap d !! x = Some y /\ ckind y <> Internal).
Proof.
  intros Hs D Ex. unfold drop_secondary. exists d, ∅. split_and!.
  - by rewrite (bind_Done (gets (fun d => clients d !! s)) _ d _ d eq_refl), Ex.
  - constructor; [apply D| |apply D|].
    + rewrite <- (list_to_set_cons_difference s l Hs). apply links_missing; [apply D|done|apply D].
    + intros s' x' y' Hin. apply D. set_solver.
  - destruct (dropped_refl d) as [_ Hh Hd Hr]. constructor; try done.
    intros n'. case_decide as E; [|done]. by apply elem_of_singleton in E as ->.
  - intros x. split; [set_solver|]. intros (? & ? & _). congruence.
Qed.

Lemma drop_secondary_step n held pn s l d :
  NoDup (s :: l) -> dropping pn (s :: l) d ->
  exists d' trig,
    drop_secondary (drop_client_fuel (S n) held) s d = Done tt d' /\
    dropping pn l d' /\ dropped {[ s ]} trig d d' /\
    (forall x, x ∈ trig <->
       exists y, clients d !! s = Some x /\ heap d !! x = Some y /\ ckind y <> Internal).
Proof.
  intros [Hs Hnd]%NoDup_cons D. destruct (clients d !! s) as [x|] eqn:Ex.
  2:{ destruct (drop_secondary_absent n held pn s l d Hs D Ex) as (d' & trig & H). rewrite Ex in H. eauto. }
  unfold drop_secondary.
  destruct (cw_clients d (dg_core _ _ _ D) _ _ Ex) as (y & Hy & En & Ry).
  destruct (dg_secondary _ _ _ D s x y) as [Py Epn]; [set_solver|done..|].
  set (b := negb (bool_decide (ckind y = Internal))).
  set (d1 := if b then db_upd x (set_disconnected true) d else d).
  assert (A1 : agree d d1).
  { unfold d1. destruct b; [apply agree_upd, inert_disconnected|].
    constructor; try done; intros c cl Hc; by exists cl. }
  assert (D1 : dropped ∅ (if b then {[ x ]} else ∅) d d1) by apply dropped_disconnect.
  assert (Hy1 : exists y1, heap d1 !! x = Some y1 /\ similar y y1) by by apply (ag_to d d1 A1).
  destruct Hy1 as (y1 & Hy1 & S1). pose proof S1 as (En1 & _ & Ep1 & Eb1 & Er1 & _).
  pose proof (agree_core d d1 A1 (dg_core _ _ _ D)) as W1.
  pose proof (agree_links _ d d1 A1 (dg_links _ _ _ D)) as L1.
  exists (unlink y1 (forget x y1 d1)), (if b then {[ x ]} else ∅). split_and!.
  - rewrite (bind_Done (gets (fun d => clients d !! s)) _ d _ d eq_refl), Ex.
    rewrite (bind_Done _ _ _ _ _ (deref_Some _ _ _ Hy)). fold b.
    rewrite (bind_Done _ _ d tt d1) by (unfold d1; by destruct b).
    apply drop_nonprimary; [done|congruence|congruence|].
    intros p [_ Hp]%clients_forget. rewrite Ep1, Epn, (ag_clients d d1 A1) in Hp.
    rewrite (dg_primary _ _ _ D) in Hp. done.
  - constructor.
    + apply unlink_core, forget_core; [done|done|congruence].
    + rewrite <- (list_to_set_cons_difference s l Hs).
      replace s with (name y1) at 2 by congruence.
      apply drop_nonprimary_links; [done|done|congruence|congruence|done].
    + rewrite clients_unlink. change (delete (name y1) (clients d1) !! pn = None).
      apply lookup_delete_None. right. rewrite (ag_clients d d1 A1). apply D.
    + intros s' x' y' Hin. rewrite clients_unlink. intros [_ Hx']%clients_forget.
      rewrite (ag_clients d d1 A1) in Hx'.
      intros (z & (z1 & Hz1 & ->)%heap_forget & ->)%heap_unlink.
      destruct (ag_from d d1 A1 _ _ Hz1) as (z0 & Hz0 & (_ & _ & E1 & E2 & _)).
      destruct (dg_secondary _ _ _ D s' x' z0); [set_solver|done..|].
      repeat case_decide; cbn; by rewrite E1, E2.
  - replace {[ s ]} with (∅ ∪ ({[ name y1 ]} ∪ ∅ : gset str)) by (rewrite En1, En; set_solver).
    replace (if b then {[ x ]} else ∅) with ((if b then {[ x ]} else ∅) ∪ (∅ ∪ ∅ : gset nat))
      by set_solver.
    eapply dropped_trans; [exact D1|].
    eapply dropped_trans; [apply dropped_forget|apply dropped_unlink].
  - intros z. unfold b. split.
    + case_bool_decide; cbn; [set_solver|]. intros ->%elem_of_singleton. eauto.
    + intros (y' & E & Hy' & Hk). simplify_eq. rewrite bool_decide_false by done. set_solver.
Qed.

Lemma drop_secondaries n held pn l d :
  NoDup l -> dropping pn l d ->
  exists d' trig,
    for_each l (drop_secondary (drop_client_fuel (S n) held)) d = Done tt d' /\
    dropping pn [] d' /\ dropped (list_to_set l) trig d d' /\
    (forall x, x ∈ trig <->
       exists s y, s ∈ l /\ clients d !! s = Some x /\ heap d !! x = Some y /\ ckind y <> Internal).
Proof.
  revert d. induction l as [|s l IH]; intros d Hnd D.
  { exists d, ∅. split_and!; [done|done|apply dropped_refl|set_solver]. }
  destruct (drop_secondary_step n held pn s l d Hnd D) as (d1 & T1 & E1 & D1 & R1 & H1).
  apply NoDup_cons in Hnd as [Hs Hnd].
  destruct (IH d1 Hnd D1) as (d2 & T2 & E2 & D2 & R2 & H2).
  exists d2, (T1 ∪ T2). split_and!; [|done|by eapply dropped_trans|].
  - cbn [for_each]. by rewrite (bind_Done _ _ _ _ _ E1).
  - assert (Hc : forall s', s' ∈ l -> clients d1 !! s' = clients d !! s').
    { intros s' Hin. rewrite (dr_clients _ _ _ _ R1), decide_False; [done|].
      intros ->%elem_of_singleton. done. }
    intros x. rewrite elem_of_union, H1, H2. split.
    + intros [(y & ? & ? & ?)|(s' & y1 & Hin & Hx & Hy1 & Hk)].
      * exists s, y. split_and!; [left|done..].
      * rewrite Hc in Hx by done.
        destruct (heap d !! x) as [y|] eqn:Hy.
        { destruct (dr_heap _ _ _ _ R1 x y Hy) as (y1' & ? & F & _). simplify_eq.
          exists s', y. split_and!; [by right|done|done|].
          by rewrite (proj2 (fixed_name _ _ F)) in Hk. }
        apply not_elem_of_dom in Hy. rewrite <- (dr_dom _ _ _ _ R1) in Hy.
        apply not_elem_of_dom in Hy. congruence.
    + intros (s' & y & [->|Hin]%elem_of_cons & Hx & Hy & Hk); [left; eauto|right].
      destruct (dr_heap _ _ _ _ R1 x y Hy) as (y1 & Hy1 & F & _).
      exists s', y1. rewrite Hc by done. split_and!; try done.
      by rewrite (proj2 (fixed_name _ _ F)).
Qed.

(** ** [drop_client] *)

(** An unregistered client's list of secondaries matters to no one. *)
Lemma links_clear O d c cl :
  heap d !! c = Some cl -> registered cl = false -> core_wf d ->
  links_wf O d -> links_wf O (db_upd c (set_secondaries ∅) d).
Proof.
  intros Hl R W L. constructor.
  - intros x y' (y & Hy & ->)%heap_db_upd Ry Py. change (clients (db_upd _ _ d)) with (clients d).
    destruct (lw_up O d L x y Hy) as [?|(p & pcl & Hp & Hpl & Hin)]; [by case_decide..| |].
    + left. by case_decide.
    + right. exists p, pcl. split_and!; [by case_decide| |by case_decide].
      apply heap_db_upd. exists pcl. split; [done|]. rewrite decide_False; [done|].
      intros ->. destruct (cw_clients d W _ _ Hp) as (q & Hq & _ & Rq). congruence.
  - intros p pcl' s (pcl & Hp & ->)%heap_db_upd Rp Hin.
    assert (p <> c) by (intros ->; case_decide; cbn in Rp; congruence).
    rewrite decide_False in * by done.
    destruct (lw_down O d L p pcl s Hp Rp Hin) as (x & y & Hx & Hy & Py & Ey).
    exists x. eexists. split; [done|]. rewrite heap_db_upd. split; [eauto|]. by case_decide.
Qed.

(** The names that leave with a client. *)
Definition leaves (cl : BusRtClient) : gset str :=
  {[ name cl ]} ∪ (if primary cl then secondaries cl else ∅).

Lemma dropping_start d c cl :
  db_wf d -> heap d !! c = Some cl -> registered cl = true -> primary cl = true ->
  dropping (name cl) (elements (secondaries cl)) (forget c cl d).
Proof.
  intros [W L] Hl R P. constructor.
  - by apply forget_core.
  - rewrite list_to_set_elements_L. by apply forget_links_primary.
  - apply lookup_delete_eq.
  - intros s x y Hs%elem_of_elements [Hn Hx]%clients_forget (y0 & Hy0 & ->)%heap_forget.
    destruct (lw_down ∅ d L c cl s Hl R Hs) as (x' & y' & Hx' & Hy' & Py & Ey). simplify_eq.
    by case_decide.
Qed.

(** The dropped primary is still allocated afterwards, and no longer registered. *)
Lemma dropping_primary_gone N T pn d d2 c cl :
  heap d !! c = Some cl -> name cl = pn -> dropped N T (forget c cl d) d2 -> dropping pn [] d2 ->
  exists c2, heap d2 !! c = Some c2 /\ registered c2 = false.
Proof.
  intros Hl <- R2 D2. destruct (heap d2 !! c) as [c2|] eqn:Hc2.
  - exists c2. split; [done|]. destruct (registered c2) eqn:Er; [|done].
    pose proof (cw_registered d2 (dg_core _ _ _ D2) c c2 Hc2 Er) as Hreg.
    destruct (dr_heap _ _ _ _ (dropped_forget c cl d) c cl Hl) as (c1 & H1 & F1 & _).
    destruct (dr_heap _ _ _ _ R2 c c1 H1) as (c2' & H2 & F2 & _). simplify_eq.
    rewrite (proj1 (fixed_name _ _ F2)), (proj1 (fixed_name _ _ F1)) in Hreg.
    by rewrite (dg_primary _ _ _ D2) in Hreg.
  - apply not_elem_of_dom in Hc2. rewrite (dr_dom _ _ _ _ R2) in Hc2. destruct Hc2.
    rewrite (dr_dom _ _ _ _ (dropped_forget c cl d)). by apply elem_of_dom_2 in Hl.
Qed.

Lemma drop_client_Done d c cl :
  db_wf d -> heap d !! c = Some cl -> registered cl = true ->
  exists d' trig,
    drop_client c d = Done tt d' /\ db_wf d' /\ dropped (leaves cl) trig d d' /\
    (forall x, x ∈ trig <->
       exists s y, primary cl = true /\ s ∈ secondaries cl /\ clients d !! s = Some x /\
                   heap d !! x = Some y /\ ckind y <> Internal).
Proof.
  intros [W L] Hl R. destruct (primary cl) eqn:P.
  - pose proof (dropping_start d c cl (conj W L) Hl R P) as D.
    destruct (drop_secondaries 0 [c] _ _ _ (NoDup_elements _) D) as (d2 & T & E & D2 & R2 & HT).
    destruct (dropping_primary_gone _ T (name cl) d d2 c cl Hl eq_refl R2 D2) as (c2 & Hc2 & Rc2).
    exists (db_upd c (set_secondaries ∅) d2), T. split_and!.
    + unfold drop_client. rewrite (drop_primary 1 [] c cl d); [|done..|set_solver].
      by rewrite (bind_Done _ _ _ _ _ E).
    + split.
      * apply (core_set_secondaries c (fun _ => ∅)), D2.
      * apply (links_clear ∅ d2 c c2); [done|done|apply D2|]. apply (dg_links _ _ _ D2).
    + unfold leaves. rewrite P.
      replace T with (∅ ∪ (T ∪ ∅)) by set_solver.
      replace ({[name cl]} ∪ secondaries cl) with ({[name cl]} ∪ (secondaries cl ∪ ∅)) by set_solver.
      eapply dropped_trans; [apply dropped_forget|].
      eapply dropped_trans.
      * rewrite <- (list_to_set_elements_L (secondaries cl)). exact R2.
      * apply dropped_upd. intros y. split; [split; [by destruct y|cbn; set_solver]|done].
    + intros x. rewrite HT. setoid_rewrite elem_of_elements. split.
      * intros (s & y & Hs & [_ Hx]%clients_forget & (y0 & Hy0 & ->)%heap_forget & Hk).
        exists s, y0. split_and!; try done. by case_decide.
      * intros (s & y & _ & Hs & Hx & Hy & Hk).
        destruct (lw_down ∅ d L c cl s Hl R Hs) as (x' & y' & Hx' & Hy' & Py & _). simplify_eq.
        assert (x <> c) by (intros ->; congruence).
        exists s, y. split_and!; [done| | |done].
        -- apply clients_forget. split; [|done]. intros <-.
           pose proof (cw_registered d W c cl Hl R). congruence.
        -- apply heap_forget. exists y. by rewrite decide_False.
  - exists (unlink cl (forget c cl d)), ∅. split_and!.
    + unfold drop_client. apply drop_nonprimary; [done..|]. intros p _. set_solver.
    + split; [by apply unlink_core, forget_core|].
      replace (∅ : gset str) with (∅ ∖ {[ name cl ]} : gset str) by set_solver.
      by apply drop_nonprimary_links.
    + unfold leaves. rewrite P.
      replace (∅ : gset nat) with (∅ ∪ ∅ : gset nat) by set_solver.
      eapply dropped_trans; [apply dropped_forget|apply dropped_unlink].
    + set_solver.
Qed.

Lemma drop_client_idle d c cl :
  heap d !! c = Some cl -> registered cl = false -> drop_client c d = Done tt d.
Proof. apply drop_unregistered. Qed.

(** ** [insert_client] *)

(** A client object that was just created. *)
Definition newborn (cl : BusRtClient) : Prop := registered cl = false /\ secondaries cl = ∅.

(** The database after a successful [insert_client]. *)
Definition inserted (c : nat) (cl : BusRtClient) (pc : option nat) (d : BrokerDb) : BrokerDb :=
  let d := match pc with
           | Some pc => db_upd pc (fun p => set_secondaries ({[ name cl ]} ∪ secondaries p) p) d
           | None => d
           end in
  let d := set_broadcasts (bm_register_client (name cl) (handle c cl) (broadcasts d)) d in
  let d := set_subscriptions (snd (sm_register_client (handle c cl) (subscriptions d))) d in
  let d := set_subscriptions (snd (sm_subscribe BROKER_WARN_TOPIC (handle c cl) (subscriptions d))) d in
  let d := db_upd c (set_registered true) d in
  set_clients (<[ name cl := c ]> (clients d)) d.

Lemma insert_client_run d c cl :
  heap d !! c = Some cl ->
  insert_client c d =
    if primary cl then
      match clients d !! name cl with
      | None => Done tt (inserted c cl None d)
      | Some _ => Throw (Error_busy (lit "the client is already registred: " ++ name cl)) d
      end
    else
      match clients d !! primary_name cl with
      | None => Throw Error_not_registered d
      | Some p =>
          match clients d !! name cl with
          | None => Done tt (inserted c cl (Some p) d)
          | Some _ => Throw (Error_busy (lit "the client is already registred: " ++ name cl)) d
          end
      end.
Proof.
  intros Hl. unfold insert_client. rewrite (bind_Done _ _ _ _ _ (deref_Some _ _ _ Hl)).
  cbv [mbind prog_bind gets lift ok_or mret prog_ret throw].
  destruct (primary cl).
  - by destruct (clients d !! name cl).
  - destruct (clients d !! primary_name cl); [|done]. by destruct (clients d !! name cl).
Qed.

Section inserted.
Context (d : BrokerDb) (c : nat) (cl : BusRtClient) (pc : option nat).
Hypotheses (D : db_wf d) (Hl : heap d !! c = Some cl) (F : newborn cl)
  (Hfree : clients d !! name cl = None)
  (Hpc : pc = if primary cl then None else clients d !! primary_name cl)
  (Hsec : primary cl = false -> is_Some (clients d !! primary_name cl)).

Lemma heap_inserted x y' :
  heap (inserted c cl pc d) !! x = Some y' <->
  exists y, heap d !! x = Some y /\
    y' = if decide (c = x) then set_registered true y
         else if decide (pc = Some x) then set_secondaries ({[ name cl ]} ∪ secondaries y) y else y.
Proof using All.
  assert (Hne : pc <> Some c).
  { rewrite Hpc. destruct (primary cl); [done|]. intros (q & Hq & _ & Rq)%(cw_clients d (proj1 D)).
    destruct F. congruence. }
  unfold inserted. destruct pc as [p|].
  - etransitivity; [apply (heap_db_upd c (set_registered true) (db_upd p _ d))|].
    setoid_rewrite heap_db_upd. split.
    + intros (y & (y0 & Hy & ->) & ->). exists y0. split; [done|].
      repeat case_decide; congruence.
    + intros (y & Hy & ->). eexists. split; [eauto|]. repeat case_decide; congruence.
  - etransitivity; [apply (heap_db_upd c (set_registered true) d)|].
    split; intros (y & Hy & ->); exists y; (split; [done|]); by repeat case_decide.
Qed.

Lemma digest_free : sm_view (subscriptions d) !! digest cl = None /\ bm_view (broadcasts d) !! digest cl = None.
Proof using All.
  destruct D as [W _].
  assert (H : forall y x, heap d !! x = Some y -> registered y = true -> digest cl = digest y -> False).
  { intros y x Hy Ry E. assert (name cl = name y) by by eapply (digest_name d c x).
    pose proof (cw_registered d W x y Hy Ry). congruence. }
  split; apply eq_None_not_Some.
  - intros [[h ts] (y & Hy & Ry & _ & E)%(cw_subs_in d W)]. eauto.
  - intros [[h n] (y & Hy & Ry & _ & E & _)%(cw_names_in d W)]. eauto.
Qed.

Lemma inserted_subs :
  sm_view (subscriptions (inserted c cl pc d)) =
    <[ digest cl := (handle c cl, {[ BROKER_WARN_TOPIC ]}) ]> (sm_view (subscriptions d)).
Proof using All.
  destruct digest_free as [Hs _].
  set (d0 := match pc with Some p => db_upd p (fun p => set_secondaries ({[ name cl ]} ∪ secondaries p) p) d
             | None => d end).
  assert (E0 : subscriptions d0 = subscriptions d) by (unfold d0; by destruct pc).
  destruct (sm_register_new (key := ptr_digest) (handle c cl) (subscriptions d) Hs) as [_ E1].
  assert (E1' : sm_view (snd (sm_register_client (handle c cl) (subscriptions d)))
                  !! ptr_digest (handle c cl) = Some (handle c cl, ∅)).
  { rewrite E1. apply lookup_insert_eq. }
  destruct (sm_subscribe_known (key := ptr_digest) BROKER_WARN_TOPIC _ _ _ E1') as [_ E2].
  transitivity (sm_view (snd (sm_subscribe BROKER_WARN_TOPIC (handle c cl)
    (snd (sm_register_client (handle c cl) (subscriptions d0)))))); [done|].
  rewrite E0, E2, E1, insert_insert_eq. by rewrite union_empty_r_L.
Qed.

Lemma inserted_names :
  bm_view (broadcasts (inserted c cl pc d)) =
    <[ digest cl := (handle c cl, name cl) ]> (bm_view (broadcasts d)).
Proof using All.
  destruct digest_free as [_ Hb]. transitivity
    (bm_view (bm_register_client (name cl) (handle c cl) (broadcasts d))).
  { unfold inserted. by destruct pc. }
  by apply (bm_register_view (key := ptr_digest)).
Qed.

Lemma clients_inserted : clients (inserted c cl pc d) = <[ name cl := c ]> (clients d).
Proof. unfold inserted. by destruct pc. Qed.

(** The object the new registration makes of one that was registered before. *)
Lemma inserted_old x y :
  heap d !! x = Some y -> registered y = true ->
  exists y', heap (inserted c cl pc d) !! x = Some y' /\ registered y' = true /\
    name y' = name y /\ digest y' = digest y /\ primary y' = primary y /\
    primary_name y' = primary_name y /\ secondaries y ⊆ secondaries y' /\ name y <> name cl /\
    digest y <> digest cl.
Proof using All.
  intros Hy Ry. eexists. split; [apply heap_inserted; eauto|].
  destruct D as [W _], F as [Rf _].
  assert (c <> x) by (intros ->; congruence). rewrite decide_False by done.
  assert (Hn : name y <> name cl).
  { intros E. pose proof (cw_registered d W x y Hy Ry). congruence. }
  assert (digest y <> digest cl).
  { intros E. apply Hn. by eapply (digest_name d x c). }
  case_decide; cbn; split_and!; try done. set_solver.
Qed.

Lemma inserted_new x y' :
  heap (inserted c cl pc d) !! x = Some y' -> registered y' = true ->
  (x = c /\ y' = set_registered true cl) \/
  (x <> c /\ exists y, heap d !! x = Some y /\ registered y = true /\ name y' = name y /\
     digest y' = digest y /\ primary y' = primary y /\ primary_name y' = primary_name y /\
     (secondaries y' = secondaries y \/
      pc = Some x /\ secondaries y' = {[ name cl ]} ∪ secondaries y)).
Proof using All.
  intros (y & Hy & ->)%heap_inserted Ry. case_decide as Hc; [left; split; congruence|].
  right. split; [done|]. exists y. case_decide; cbn in *; naive_solver.
Qed.

Lemma handle_digest x (y y' : BusRtClient) : digest y' = digest y -> handle x y' = handle x y.
Proof. unfold handle. by intros ->. Qed.

Lemma inserted_core : core_wf (inserted c cl pc d).
Proof using All.
  pose proof D as [W _].
  assert (Hcn : heap (inserted c cl pc d) !! c = Some (set_registered true cl)).
  { apply heap_inserted. exists cl. by rewrite decide_True. }
  constructor.
  - intros x y' (y & Hy & _)%heap_inserted.
    replace (next_ptr (inserted c cl pc d)) with (next_ptr d) by (unfold inserted; by destruct pc).
    by apply (cw_next d W x y).
  - intros x y' (y & Hy & ->)%heap_inserted. apply (cw_ok d W) in Hy. by repeat case_decide.
  - intros n x. rewrite clients_inserted.
    intros [(<- & <-)|(Hn & (y & Hy & En & Ry)%(cw_clients d W))]%lookup_insert_Some; [eauto|].
    destruct (inserted_old x y Hy Ry) as (y' & Hy' & Ry' & En' & _). exists y'. by rewrite En'.
  - intros x y' Hy' Ry'. rewrite clients_inserted.
    destruct (inserted_new x y' Hy' Ry') as [[-> ->]|(Hx & y & Hy & Ry & En & _)].
    { apply lookup_insert_eq. }
    rewrite En. destruct (inserted_old x y Hy Ry) as (_ & _ & _ & _ & _ & _ & _ & _ & Hn & _).
    rewrite lookup_insert_ne by done. by apply (cw_registered d W).
  - rewrite inserted_subs. intros k h ts
      [(<- & [= <- <-])|(Hk & (y & Hy & Ry & Eh & Ek)%(cw_subs_in d W))]%lookup_insert_Some; [eauto|].
    destruct (inserted_old _ y Hy Ry) as (y' & Hy' & Ry' & _ & Ed & _). exists y'.
    rewrite (handle_digest _ _ _ Ed), Ed. done.
  - intros x y' Hy' Ry'. rewrite inserted_subs.
    destruct (inserted_new x y' Hy' Ry') as [[-> ->]|(Hx & y & Hy & Ry & _ & Ed & _)].
    { eexists. apply lookup_insert_eq. }
    destruct (inserted_old x y Hy Ry) as (_ & _ & _ & _ & _ & _ & _ & _ & _ & Hd).
    rewrite (handle_digest _ _ _ Ed), Ed, lookup_insert_ne by done. by apply (cw_subs_out d W).
  - rewrite inserted_names. intros k h n
      [(<- & [= <- <-])|(Hk & (y & Hy & Ry & Eh & Ek & En)%(cw_names_in d W))]%lookup_insert_Some; [eauto 6|].
    destruct (inserted_old _ y Hy Ry) as (y' & Hy' & Ry' & En' & Ed & _). exists y'.
    rewrite (handle_digest _ _ _ Ed), Ed, En'. done.
  - intros x y' Hy' Ry'. rewrite inserted_names.
    destruct (inserted_new x y' Hy' Ry') as [[-> ->]|(Hx & y & Hy & Ry & En & Ed & _)].
    { apply lookup_insert_eq. }
    destruct (inserted_old x y Hy Ry) as (_ & _ & _ & _ & _ & _ & _ & _ & _ & Hd).
    rewrite (handle_digest _ _ _ Ed), Ed, En, lookup_insert_ne by done. by apply (cw_names_out d W).
  - intros bus. replace (rpc_client (inserted c cl pc d)) with (rpc_client d)
      by (unfold inserted; by destruct pc).
    intros (y & Hy)%(cw_rpc d W). eexists. apply heap_inserted. eauto.
Qed.

Lemma inserted_links : links_wf ∅ (inserted c cl pc d).
Proof using All.
  pose proof D as [W L]. constructor.
  - intros x y' Hy' Ry' Py'. right. rewrite clients_inserted.
    destruct (inserted_new x y' Hy' Ry') as [[-> ->]|(Hx & y & Hy & Ry & En & Ed & Ep & Epn & _)].
    + cbn in Py'. cbn. destruct (Hsec Py') as [p Hp].
      destruct (cw_clients d W _ _ Hp) as (pcl & Hpl & Enp & Rp).
      exists p. eexists. split_and!.
      * apply lookup_insert_Some. right. split; [congruence|done].
      * apply heap_inserted. eauto.
      * rewrite Hpc, Py'. rewrite decide_False; [rewrite decide_True by done; cbn; set_solver|].
        intros ->. destruct F. congruence.
    + destruct (lw_up ∅ d L x y Hy Ry) as [?|(p & pcl & Hp & Hpl & Hin)]; [congruence|set_solver|].
      destruct (cw_clients d W _ _ Hp) as (pcl' & Hpl' & Enp & Rp). assert (pcl' = pcl) as -> by congruence.
      destruct (inserted_old p pcl Hpl Rp) as (pcl' & Hp' & _ & _ & _ & _ & _ & Hsub & Hnp & _).
      exists p, pcl'. rewrite Epn, En. split_and!; [|done|set_solver].
      apply lookup_insert_Some. right. split; [congruence|done].
  - intros p pcl' s Hp' Rp' Hin. rewrite clients_inserted.
    destruct (inserted_new p pcl' Hp' Rp') as [[-> ->]|(Hx & pcl & Hp & Rp & En & _ & _ & _ & Hs)].
    { destruct F as [_ Hf]. cbn in Hin. set_solver. }
    destruct (decide (s = name cl)) as [->|Hns].
    + destruct (decide (name cl ∈ secondaries pcl)) as [Hold|Hold].
      { destruct (lw_down ∅ d L p pcl _ Hp Rp Hold) as (z & zl & Hz & _). congruence. }
      destruct Hs as [Hs|[Hs _]]; [set_solver|]. rewrite Hpc in Hs.
      assert (P : primary cl = false) by (by destruct (primary cl)).
      rewrite P in Hs.
      destruct (cw_clients d W _ _ Hs) as (q & Hq & Enq & _). assert (q = pcl) as -> by congruence.
      exists c. eexists. split_and!; [apply lookup_insert_eq|apply heap_inserted; eauto| |];
        rewrite decide_True by done; cbn; congruence.
    + assert (Hold : s ∈ secondaries pcl) by (destruct Hs as [Hs|[_ Hs]]; set_solver).
      destruct (lw_down ∅ d L p pcl s Hp Rp Hold) as (z & zl & Hz & Hzl & Pz & Ez).
      destruct (cw_clients d W _ _ Hz) as (zl' & Hzl' & Enz & Rz). assert (zl' = zl) as -> by congruence.
      destruct (inserted_old z zl Hzl Rz) as (zl' & Hz' & _ & _ & _ & Ep & Epn & _).
      exists z, zl'. rewrite En, Ep, Epn. split_and!; try done.
      rewrite lookup_insert_ne by done. done.
Qed.

Lemma inserted_wf : db_wf (inserted c cl pc d).
Proof using All. split; [apply inserted_core|apply inserted_links]. Qed.
End inserted.
End facts.
