(* ===== verification/DbInv.v ===== *)
(** * Every operation of the broker keeps its database well formed

    [wf_on D]: the database satisfies [db_wf] and the client objects allocated are those of
    [D]. The delivery programs, [announce] and [unregister_client] keep it whichever way they
    end, and never panic. They do so for every property that implies it and that neither the
    bookkeeping nor the dropping of clients disturbs ([stable]), such as [wf_cur], which also
    says that one client has not been replaced by another of its name. *)
From S2P Require Export DbFacts.

(** What does not depend on the mutexes is kept by a program that runs under one. *)
Section locks.
Context {X : Externals} (I : BrokerDb -> Prop).

Lemma keeps_with_rpc_lock {A} (m : prog BrokerDb Error A) :
  (forall b d, I d -> I (set_rpc_lock b d)) -> keeps I m -> keeps I (with_rpc_lock m).
Proof.
  intros Hl Hm d Hd. unfold with_rpc_lock. destruct (rpc_lock d); [done|].
  specialize (Hm _ (Hl true d Hd)). destruct (m _); auto.
Qed.
Lemma keeps_with_bus_lock {A} (m : prog BrokerDb Error A) :
  (forall b d, I d -> I (set_bus_lock b d)) -> keeps I m -> keeps I (with_bus_lock m).
Proof.
  intros Hl Hm d Hd. unfold with_bus_lock. destruct (bus_lock d); [done|].
  specialize (Hm _ (Hl true d Hd)). destruct (m _); auto.
Qed.
End locks.

Section inv.
Context {X : Externals} `{!ExternalsLaws X}.

Definition wf_on (D : gset nat) (d : BrokerDb) : Prop := db_wf d /\ dom (heap d) = D.

(** The properties the programs of this file keep. *)
Record stable (D : gset nat) (I : BrokerDb -> Prop) : Prop := {
  st_wf d : I d -> wf_on D d;
  st_agree d d' : I d -> agree d d' -> dom (heap d') = dom (heap d) -> I d';
  st_drop c : c ∈ D -> preserves I (drop_client c);
}.

Lemma drop_client_wf_on D c : c ∈ D -> preserves (wf_on D) (drop_client c).
Proof.
  intros Hc d [W E]. rewrite <- E in Hc. apply elem_of_dom in Hc as [cl Hl].
  destruct (registered cl) eqn:R; [|by rewrite (drop_client_idle d c cl)].
  destruct (drop_client_Done d c cl W Hl R) as (d' & T & -> & W' & Hd & _).
  split; [done|]. by rewrite (dr_dom _ _ _ _ Hd).
Qed.

Lemma stable_wf_on D : stable D (wf_on D).
Proof.
  constructor; [done| |apply drop_client_wf_on].
  intros d d' [W E] A Hd. split; [by eapply agree_wf|congruence].
Qed.

(** The client at [c] is registered, or nobody is under its name. *)
Definition current (c : nat) (d : BrokerDb) : Prop :=
  exists cl, heap d !! c = Some cl /\ (registered cl = true \/ clients d !! name cl = None).

Definition wf_cur (D : gset nat) (c : nat) (d : BrokerDb) : Prop := wf_on D d /\ current c d.

Lemma stable_wf_cur D c : stable D (wf_cur D c).
Proof.
  constructor.
  - by intros d [].
  - intros d d' [W (cl & Hl & Hc)] A Hd. split; [by apply (st_agree _ _ (stable_wf_on D) d)|].
    destruct (ag_to _ _ A _ _ Hl) as (cl' & Hl' & (En & _ & _ & _ & Er & _)).
    exists cl'. split; [done|]. by rewrite En, Er, (ag_clients _ _ A).
  - intros x Hx d [W (cl & Hl & Hc)]. pose proof (drop_client_wf_on D x Hx d W) as Hw.
    destruct W as [D0 E]. rewrite <- E in Hx. apply elem_of_dom in Hx as [xl Hxl].
    destruct (registered xl) eqn:R; [|rewrite (drop_client_idle d x xl) by done].
    2: { split; [done|]. by exists cl. }
    destruct (drop_client_Done d x xl D0 Hxl R) as (d' & T & Ed & D' & Rd & _).
    rewrite Ed in *. split; [done|].
    destruct (dr_heap _ _ _ _ Rd _ _ Hl) as (cl' & Hl' & F & _). exists cl'. split; [done|].
    rewrite (proj1 (fixed_name _ _ F)). destruct (registered cl') eqn:Rc; [by left|right].
    rewrite (dr_clients _ _ _ _ Rd). case_decide as Hin; [done|].
    destruct Hc as [Hc|Hc]; [|done].
    destruct (clients d' !! name cl) as [y|] eqn:Ey.
    + destruct (cw_clients d' (proj1 D') _ _ Ey) as (yl & Hyl & Eny & Ry).
      rewrite (dr_clients _ _ _ _ Rd), decide_False in Ey by done.
      rewrite (cw_registered d (proj1 D0) c cl Hl Hc) in Ey. congruence.
    + by rewrite (dr_clients _ _ _ _ Rd), decide_False in Ey by done.
Qed.

Lemma agree_same_heap d d' :
  heap d' = heap d -> clients d' = clients d ->
  sm_view (subscriptions d') = sm_view (subscriptions d) ->
  bm_view (broadcasts d') = bm_view (broadcasts d) ->
  rpc_client d' = rpc_client d -> next_ptr d' = next_ptr d -> agree d d'.
Proof.
  intros Hh Hc Hs Hb Hr Hn. constructor; try done; intros c cl Hl; exists cl; by rewrite Hh in *.
Qed.

Section stable.
Context (D : gset nat) (I : BrokerDb -> Prop).
Hypothesis HI : stable D I.

Lemma preserves_agree (f : BrokerDb -> BrokerDb) :
  (forall d, agree d (f d)) -> (forall d, dom (heap (f d)) = dom (heap d)) ->
  preserves I (modify (E := Error) f).
Proof using All. intros Ha Hd. apply preserves_modify. intros d Hi. by apply (st_agree _ _ HI d). Qed.


Lemma preserves_upd c f : inert f -> preserves I (upd c f).
Proof using All.
  intros Hf. apply preserves_agree; intros d; [by apply agree_upd|apply dom_db_upd].
Qed.

Lemma preserves_count f :
  (exists fr ln, f = db_count_r fr ln \/ f = db_count_w fr ln) ->
  preserves I (modify (E := Error) f).
Proof using All. intros (fr & ln & [->| ->]); apply preserves_agree; intros d; try done; by apply agree_same_heap. Qed.

(** A program that reads the state first. *)
Lemma preserves_gets_bind {A B} (f : BrokerDb -> A) (k : A -> prog BrokerDb Error B) :
  (forall d, I d -> preserves I (k (f d))) -> preserves I (gets f ≫= k).
Proof using All. intros H d Hd. by apply (H d). Qed.

Lemma preserves_deref_bind {B} c (k : BusRtClient -> prog BrokerDb Error B) :
  c ∈ D -> (forall cl, preserves I (k cl)) -> preserves I (deref c ≫= k).
Proof using All.
  intros Hc Hk d Hi. destruct (st_wf _ _ HI d Hi) as [W E]. rewrite <- E in Hc. apply elem_of_dom in Hc as [cl Hl].
  rewrite (bind_Done _ _ _ _ _ (deref_Some _ _ _ Hl)). by apply Hk.
Qed.

Lemma preserves_drop_client c : c ∈ D -> preserves I (drop_client c).
Proof using All. apply HI. Qed.

Hint Resolve inert_set_tx inert_count_r inert_count_w inert_disconnected inert_has_exclusions
  inert_exclusions preserves_upd preserves_drop_client preserves_ret preserves_throw
  preserves_hang : core.
Hint Extern 1 (preserves _ (modify (db_count_r _ _))) => apply preserves_count; eauto : core.
Hint Extern 1 (preserves _ (modify (db_count_w _ _))) => apply preserves_count; eauto : core.
Hint Extern 1 (inert (set_tx _)) => apply (inert_set_tx (fun _ => _)) : core.

Lemma preserves_count_incoming c len : preserves I (count_incoming c len).
Proof using All. apply preserves_bind; auto. Qed.

(** ** Delivery *)

Section delivery.
Context (unregister : nat -> prog BrokerDb Error unit).
Hypothesis Hun : forall c, c ∈ D -> preserves I (unregister c).

Lemma preserves_safe_send tgt frame timeout :
  tgt ∈ D -> preserves I (safe_send_frame_with unregister tgt frame timeout).
Proof using All.
  intros Ht. unfold safe_send_frame_with. apply preserves_deref_bind; [done|]. intros t.
  destruct (ch_is_full (tx t)).
  - case_decide.
    + destruct (ch_send _ _ _); [auto..|]. apply preserves_bind; [auto|]. intros _.
      destruct timeout; auto.
    + apply preserves_bind; [auto|]. intros _. apply preserves_bind; [|auto].
      apply preserves_upd, inert_set_tx.
  - destruct (ch_send _ _ _); auto.
Qed.


Lemma preserves_send client target header buf pos len realtime timeout :
  client ∈ D -> preserves I (send_with unregister client target header buf pos len realtime timeout).
Proof using All.
  intros Hc. apply preserves_bind; [apply preserves_count_incoming|]. intros _.
  apply preserves_gets_bind. intros d Hi. destruct (st_wf _ _ HI d Hi) as [[W _] E]. destruct (clients d !! target) as [t|] eqn:Ht; [|auto].
  apply (cw_clients d W) in Ht as (y & Hy & _). apply elem_of_dom_2 in Hy. rewrite E in Hy.
  apply preserves_bind; [auto|]. intros _. apply preserves_bind; [auto|]. intros _.
  apply preserves_deref_bind; [done|]. intros from. by apply preserves_safe_send.
Qed.

Lemma preserves_deliver_all subs frame len timeout :
  (forall s, s ∈ subs -> ptr s ∈ D) ->
  preserves I (deliver_all unregister subs frame len timeout).
Proof using All.
  intros Hs. unfold deliver_all. destruct subs as [|s0 subs]; [auto|].
  apply preserves_bind; [auto|]. intros _. apply preserves_for_each. intros s Hin.
  apply preserves_bind; [auto|]. intros _. apply preserves_bind; [|auto].
  apply preserves_attempt, preserves_safe_send. by apply Hs.
Qed.

Lemma subscribers_in d topic s :
  I d -> s ∈ sm_get_subscribers (subscriptions d) topic -> ptr s ∈ D.
Proof using All.
  intros [[W _] <-]%(st_wf _ _ HI) (ts & m & Hv & _)%(sm_get_subscribers_spec (key := ptr_digest)).
  apply (cw_subs_in d W) in Hv as (y & Hy & _). by apply elem_of_dom_2 in Hy.
Qed.

Lemma by_mask_in d mask s :
  I d -> s ∈ bm_get_clients_by_mask (broadcasts d) mask -> ptr s ∈ D.
Proof using All.
  intros [[W _] <-]%(st_wf _ _ HI) (n & Hv & _)%(bm_get_spec (key := ptr_digest)).
  apply (cw_names_in d W) in Hv as (y & Hy & _). by apply elem_of_dom_2 in Hy.
Qed.

Lemma retain_sub f d l (s : BrokerClient ext_digest) : s ∈ retain f d l -> s ∈ l.
Proof using All. unfold retain. rewrite !list_elem_of_In, filter_In. by intros []. Qed.

Lemma preserves_broadcast client target header buf pos len realtime timeout :
  client ∈ D ->
  preserves I (send_broadcast_with unregister client target header buf pos len realtime timeout).
Proof using All.
  intros Hc. apply preserves_bind; [apply preserves_count_incoming|]. intros _.
  apply preserves_gets_bind. intros d Hd. apply preserves_deref_bind; [done|]. intros from.
  apply preserves_deliver_all. intros s. by apply by_mask_in.
Qed.

Lemma preserves_publish client topic header buf pos len realtime timeout :
  client ∈ D ->
  preserves I (publish_with unregister client topic header buf pos len realtime timeout).
Proof using All.
  intros Hc. apply preserves_bind; [apply preserves_count_incoming|]. intros _.
  apply preserves_gets_bind. intros d Hd. apply preserves_deref_bind; [done|]. intros from.
  apply preserves_deliver_all. intros s Hs%retain_sub. by eapply subscribers_in.
Qed.

Lemma preserves_publish_for client topic receiver header buf pos len realtime timeout :
  client ∈ D ->
  preserves I (publish_for_with unregister client topic receiver header buf pos len realtime timeout).
Proof using All.
  intros Hc. apply preserves_bind; [apply preserves_count_incoming|]. intros _.
  apply preserves_gets_bind. intros d Hd. apply preserves_deref_bind; [done|]. intros from.
  apply preserves_deliver_all. intros s Hs%retain_sub. by eapply subscribers_in.
Qed.

Lemma preserves_with_rpc_lock {A} (m : prog BrokerDb Error A) : preserves I m -> preserves I (with_rpc_lock m).
Proof using All.
  intros Hm d Hd. unfold with_rpc_lock. destruct (rpc_lock d); [done|].
  assert (Hl : forall b d, I d -> I (set_rpc_lock b d)).
  { intros b d0 Hi. apply (st_agree _ _ HI d0); [done| |done]. by apply agree_same_heap. }
  specialize (Hm _ (Hl true d Hd)). destruct (m _); [by apply Hl|by apply Hl|done..].
Qed.

Lemma preserves_with_bus_lock {A} (m : prog BrokerDb Error A) : preserves I m -> preserves I (with_bus_lock m).
Proof using All.
  intros Hm d Hd. unfold with_bus_lock. destruct (bus_lock d); [done|].
  assert (Hl : forall b d, I d -> I (set_bus_lock b d)).
  { intros b d0 Hi. apply (st_agree _ _ HI d0); [done| |done]. by apply agree_same_heap. }
  specialize (Hm _ (Hl true d Hd)). destruct (m _); [by apply Hl|by apply Hl|done..].
Qed.

Lemma bus_in d bus : I d -> rpc_client d = Some bus -> bus ∈ D.
Proof using All.
  intros Hd Hr. destruct (st_wf _ _ HI d Hd) as [[W _] <-]. apply (cw_rpc d W) in Hr. by apply elem_of_dom.
Qed.

Lemma preserves_announce_with event : preserves I (announce_with unregister event).
Proof using All.
  apply preserves_with_rpc_lock, preserves_gets_bind. intros d Hd.
  destruct (rpc_client d) as [bus|] eqn:Hr; [|apply preserves_ret].
  apply preserves_with_bus_lock, preserves_bind; [apply preserves_lift|]. intros payload.
  apply preserves_publish. by eapply bus_in.
Qed.
End delivery.

Lemma preserves_unregister_with announce c :
  (forall e, preserves I (announce e)) -> c ∈ D ->
  preserves I (unregister_client_with announce c).
Proof using All.
  intros Ha Hc. apply preserves_deref_bind; [done|]. intros cl.
  apply preserves_bind; [auto|]. intros _. apply preserves_when.
  apply preserves_bind; [|auto]. by apply preserves_attempt.
Qed.

Lemma preserves_announce_fuel n e : preserves I (announce_fuel n e).
Proof using All.
  revert e. induction n as [|n IH]; intros e; [apply preserves_hang|].
  apply preserves_announce_with. intros c Hc. by apply preserves_unregister_with.
Qed.

Lemma preserves_announce e : preserves I (announce e).
Proof using All. apply preserves_announce_fuel. Qed.

Lemma preserves_unregister_client c : c ∈ D -> preserves I (unregister_client c).
Proof using All. apply preserves_unregister_with, preserves_announce. Qed.
End stable.
End inv.

#[export] Hint Resolve stable_wf_on stable_wf_cur inert_set_tx inert_count_r inert_count_w
  inert_disconnected inert_has_exclusions inert_exclusions : core.
