(* ===== verification/InternalClient.v ===== *)
(** * The in-process client and the broker's registration interface ([src/broker.rs])

    [Client] is the handle an in-process client holds: its operations work directly on the
    broker database. A confirmation is a [oneshot] channel that already holds its value. The
    second part is [Broker::register_client], [register_secondary_for], [unregister_client] and
    [force_disconnect]. *)
From S2P Require Export Broker.

(** [OpConfirm]. *)
Definition OpConfirm : Type := option (result unit Error).

(** [make_confirm_channel!]. *)
Definition make_confirm_channel (qos : QoS) : OpConfirm :=
  if needs_ack qos then Some (Ok tt) else None.

Record Client := MkInternal {
  client_name : str;
  bus : nat;
  (** The event channel, until it is taken. *)
  event_rx : option unit;
  secondary_counter : Z;
}.

Section client.
Context {X : Externals}.

(** ** Subscriptions *)

(** One [subscribe] or [unsubscribe] of the subscription map for the client at [c]. *)
Definition sub_step
    (f : str -> BrokerClient ext_digest -> ext_submap -> bool * ext_submap) (c : nat) (topic : str)
    : prog BrokerDb Error unit :=
  deref c ≫= fun cl =>
  gets (fun d => f topic (handle c cl) (subscriptions d)) ≫= fun r =>
  modify (set_subscriptions (snd r)) ≫= fun _ =>
  if fst r : bool then mret tt else throw Error_not_registered.

Definition subscribe (c : nat) (topic : str) (qos : QoS) : prog BrokerDb Error OpConfirm :=
  sub_step sm_subscribe c topic ≫= fun _ => mret (make_confirm_channel qos).

Definition subscribe_bulk (c : nat) (topics : list str) (qos : QoS) : prog BrokerDb Error OpConfirm :=
  for_each topics (sub_step sm_subscribe c) ≫= fun _ => mret (make_confirm_channel qos).

Definition unsubscribe (c : nat) (topic : str) (qos : QoS) : prog BrokerDb Error OpConfirm :=
  sub_step sm_unsubscribe c topic ≫= fun _ => mret (make_confirm_channel qos).

Definition unsubscribe_bulk (c : nat) (topics : list str) (qos : QoS) : prog BrokerDb Error OpConfirm :=
  for_each topics (sub_step sm_unsubscribe c) ≫= fun _ => mret (make_confirm_channel qos).

(** ** Exclusions *)

(** Insert topics into the exclusion map; the flag is raised when there is one. *)
Definition exclude_topics (topics : list str) (cl : BusRtClient) : BusRtClient :=
  let cl := match topics with [] => cl | _ => set_has_exclusions true cl end in
  set_exclusions (foldl (fun m t => acl_insert t m) (exclusions cl) topics) cl.

(** Remove topics from the exclusion map; the flag is cleared when the map is empty. *)
Definition unexclude_topics (topics : list str) (cl : BusRtClient) : BusRtClient :=
  let cl := set_exclusions (foldl (fun m t => acl_remove t m) (exclusions cl) topics) cl in
  if acl_is_empty (exclusions cl) then set_has_exclusions false cl else cl.

Definition exclude (c : nat) (topic : str) (qos : QoS) : prog BrokerDb Error OpConfirm :=
  upd c (set_has_exclusions true) ≫= fun _ =>
  upd c (fun cl => set_exclusions (acl_insert topic (exclusions cl)) cl) ≫= fun _ =>
  mret (make_confirm_channel qos).

Definition unexclude (c : nat) (topic : str) (qos : QoS) : prog BrokerDb Error OpConfirm :=
  upd c (unexclude_topics [topic]) ≫= fun _ => mret (make_confirm_channel qos).

Definition exclude_bulk (c : nat) (topics : list str) (qos : QoS) : prog BrokerDb Error OpConfirm :=
  upd c (exclude_topics topics) ≫= fun _ => mret (make_confirm_channel qos).

Definition unexclude_bulk (c : nat) (topics : list str) (qos : QoS) : prog BrokerDb Error OpConfirm :=
  upd c (unexclude_topics topics) ≫= fun _ => mret (make_confirm_channel qos).

(** ** Sending; [get_timeout] of an internal client is [None] *)

Definition blen (bs : bytes) : Z := Z.of_nat (length bs).

Definition client_send (c : nat) (target : str) (payload : bytes) (qos : QoS)
    : prog BrokerDb Error OpConfirm :=
  send c target None payload 0 (blen payload) (is_realtime qos) None ≫= fun _ =>
  mret (make_confirm_channel qos).

Definition client_zc_send (c : nat) (target : str) (header payload : bytes) (qos : QoS)
    : prog BrokerDb Error OpConfirm :=
  send c target (Some header) payload 0 (blen payload + blen header) (is_realtime qos) None ≫= fun _ =>
  mret (make_confirm_channel qos).

Definition client_send_broadcast (c : nat) (target : str) (payload : bytes) (qos : QoS)
    : prog BrokerDb Error OpConfirm :=
  send_broadcast c target None payload 0 (blen payload) (is_realtime qos) None ≫= fun _ =>
  mret (make_confirm_channel qos).

Definition client_publish (c : nat) (topic : str) (payload : bytes) (qos : QoS)
    : prog BrokerDb Error OpConfirm :=
  publish c topic None payload 0 (blen payload) (is_realtime qos) None ≫= fun _ =>
  mret (make_confirm_channel qos).

Definition client_publish_for (c : nat) (topic receiver : str) (payload : bytes) (qos : QoS)
    : prog BrokerDb Error OpConfirm :=
  publish_for c topic receiver None payload 0 (blen payload) (is_realtime qos) None ≫= fun _ =>
  mret (make_confirm_channel qos).

Definition take_event_channel (cl : Client) : option unit * Client :=
  (event_rx cl, MkInternal (client_name cl) (bus cl) None (secondary_counter cl)).

(** [Client::unregister]: the flag is cleared before the broker is told. *)
Definition client_unregister (c : nat) : prog BrokerDb Error unit :=
  upd c (set_registered false) ≫= fun _ => unregister_client c.

(** [impl Drop for Client]. *)
Definition client_drop (c : nat) : prog BrokerDb Error unit := drop_client c.

(** ** The broker's interface *)

(** [Broker::create] and [set_queue_size]. *)
Definition broker_create (force : bool) : BrokerDb := BrokerDb_new force.

(** The client object of a connection, under the primary name its name stands for. *)
Definition new_client (nm : str) (queue_size : Z) (k : BusRtClientKind) (src prt : option str) : BusRtClient :=
  let client_primary_name :=
    match find_sub SECONDARY_SEP nm with Some pos => take pos nm | None => nm end in
  BusRtClient_new nm client_primary_name queue_size k src prt.

(** [Broker::register_client]. *)
Definition broker_register_client (queue_size : Z) (nm : str) : prog BrokerDb Error Client :=
  alloc (new_client nm queue_size Internal None None) ≫= fun c =>
  db_register_client c ≫= fun _ =>
  mret (MkInternal nm c (Some tt) 0).

(** [Broker::register_secondary_for]: the primary's handle as it is afterwards, and the result. *)
Definition register_secondary_for (queue_size : Z) (client : Client)
    : prog BrokerDb Error (Client * result Client Error) :=
  deref (bus client) ≫= fun cl =>
  if primary cl then
    let secondary_id := secondary_counter client in
    let secondary_name := name cl ++ SECONDARY_SEP ++ fmt_z secondary_id in
    let client := MkInternal (client_name client) (bus client) (event_rx client)
                    (u64_add secondary_id 1) in
    attempt (broker_register_client queue_size secondary_name) ≫= fun r => mret (client, r)
  else mret (client, Err (Error_not_supported (lit "not a primary client"))).

(** [Broker::unregister_client], [Broker::force_disconnect]. *)
Definition broker_unregister_client (client : Client) : prog BrokerDb Error unit :=
  unregister_client (bus client).
Definition force_disconnect (nm : str) : prog BrokerDb Error unit := trigger_disconnect nm.

(** [Broker::init_default_core_rpc]: the broker's own client becomes the one that announces. *)
Definition init_default_core_rpc (queue_size : Z) : prog BrokerDb Error unit :=
  broker_register_client queue_size BROKER_NAME ≫= fun client =>
  modify (set_core_rpc_client (bus client)).

(** Run [m] with the bus client of the core RPC client, whose mutex is held meanwhile; without an
    RPC client there is nothing to do. *)
Definition on_core (m : nat -> prog BrokerDb Error unit) : prog BrokerDb Error unit :=
  gets rpc_client ≫= fun rpc =>
  match rpc with
  | Some bus => with_bus_lock (m bus)
  | None => mret tt
  end.

(** [send_reply!] of the RPC layer, for the broker's own RPC client; the result of the sending is
    ignored. *)
Definition core_send_reply (target : str) (header payload : bytes) (qos : QoS) : prog BrokerDb Error unit :=
  on_core (fun bus => attempt (client_zc_send bus target header payload qos) ≫= fun _ => mret tt).
End client.
