(* ===== verification/Registry.v ===== *)
(** * Registration: who is in the database after each operation

    The theorems on [insert_client], [db_register_client] (with and without [force_register]),
    [unregister_client] and the in-process client's [unregister], from the facts of [DbFacts]
    and [DbInv]. *)
From S2P Require Export DbInv InternalClient.

Section registry.
Context {X : Externals} `{!ExternalsLaws X}.

Lemma new_client_ok nm q k src prt : client_ok (new_client nm q k src prt) /\ newborn (new_client nm q k src prt).
Proof. done. Qed.

Lemma db_new_wf force : db_wf (BrokerDb_new force).
Proof.
  split; constructor; cbn; try done.
  - intros k h ts. by rewrite sm_create_view.
  - intros k h n. by rewrite bm_create_view.
Qed.

(** [alloc] of an acceptable object keeps the invariant. *)
Definition allocated (cl : BusRtClient) (d : BrokerDb) : BrokerDb :=
  match alloc cl d with Done _ d' => d' | _ => d end.

Lemma heap_allocated cl d x y :
  heap (allocated cl d) !! x = Some y <->
  (x = next_ptr d /\ y = cl) \/ (x <> next_ptr d /\ heap d !! x = Some y).
Proof. unfold allocated. cbn. rewrite lookup_insert_Some. naive_solver. Qed.

Lemma allocated_wf cl d : db_wf d -> client_ok cl -> newborn cl -> db_wf (allocated cl d).
Proof.
  intros [W L] Hok [Hr Hs].
  assert (Hold : forall x y, heap d !! x = Some y -> heap (allocated cl d) !! x = Some y).
  { intros x y Hy. apply heap_allocated. right. split; [|done].
    pose proof (cw_next d W x y Hy). lia. }
  assert (Hreg : forall x y, heap (allocated cl d) !! x = Some y -> registered y = true -> heap d !! x = Some y).
  { intros x y [[_ ->]|[_ ?]]%heap_allocated ?; congruence. }
  split; constructor.
  - intros x y [[-> ->]|[_ Hy]]%heap_allocated; cbn; [lia|]. pose proof (cw_next d W x y Hy). lia.
  - intros x y [[-> ->]|[_ Hy]]%heap_allocated; [done|by apply (cw_ok d W x)].
  - intros n x (y & Hy & ? & ?)%(cw_clients d W). exists y. auto.
  - intros x y Hy Ry. apply (cw_registered d W x y); auto.
  - intros k h ts (y & Hy & ? & ? & ?)%(cw_subs_in d W). exists y. auto.
  - intros x y Hy Ry. apply (cw_subs_out d W x y); auto.
  - intros k h n (y & Hy & ? & ? & ? & ?)%(cw_names_in d W). exists y. auto 6.
  - intros x y Hy Ry. apply (cw_names_out d W x y); auto.
  - intros b (y & Hy)%(cw_rpc d W). exists y. auto.
  - intros x y Hy Ry Py. destruct (lw_up ∅ d L x y) as [?|(p & pcl & ? & ? & ?)]; auto.
    right. exists p, pcl. auto.
  - intros p pcl s Hp Rp Hin. destruct (lw_down ∅ d L p pcl s) as (x & y & ? & ? & ? & ?); auto.
    exists x, y. auto.
Qed.

(** ** [insert_client] *)

Lemma insert_client_wf d c cl :
  db_wf d -> heap d !! c = Some cl -> newborn cl ->
  match insert_client c d with
  | Done _ d' =>
      db_wf d' /\ dom (heap d') = dom (heap d) /\ rest d' = rest d /\
      clients d !! name cl = None /\ clients d' = <[ name cl := c ]> (clients d) /\
      sm_view (subscriptions d') =
        <[ digest cl := (handle c cl, {[ BROKER_WARN_TOPIC ]}) ]> (sm_view (subscriptions d)) /\
      (forall p, primary cl = false -> clients d !! primary_name cl = Some p ->
         exists pcl, heap d' !! p = Some pcl /\ name cl ∈ secondaries pcl)
  | Throw e d' =>
      d' = d /\
      (primary cl = false /\ clients d !! primary_name cl = None /\ e = Error_not_registered \/
       is_Some (clients d !! name cl) /\
       e = Error_busy (lit "the client is already registred: " ++ name cl))
  | _ => False
  end.
Proof.
  intros D Hl F. rewrite (insert_client_run d c cl Hl).
  assert (Hgood : forall pc, pc = (if primary cl then None else clients d !! primary_name cl) ->
      clients d !! name cl = None -> (primary cl = false -> is_Some (clients d !! primary_name cl)) ->
      db_wf (inserted c cl pc d) /\ dom (heap (inserted c cl pc d)) = dom (heap d) /\
      rest (inserted c cl pc d) = rest d /\
      clients d !! name cl = None /\ clients (inserted c cl pc d) = <[ name cl := c ]> (clients d) /\
      sm_view (subscriptions (inserted c cl pc d)) =
        <[ digest cl := (handle c cl, {[ BROKER_WARN_TOPIC ]}) ]> (sm_view (subscriptions d)) /\
      (forall p, primary cl = false -> clients d !! primary_name cl = Some p ->
         exists pcl, heap (inserted c cl pc d) !! p = Some pcl /\ name cl ∈ secondaries pcl)).
  { intros pc Hpc Hfree Hsec. split_and!.
    - by apply inserted_wf.
    - unfold inserted. destruct pc; cbn; by rewrite ?dom_alter_L.
    - unfold inserted. by destruct pc.
    - done.
    - by apply clients_inserted.
    - by apply inserted_subs.
    - intros p P Hp. destruct (cw_clients d (proj1 D) _ _ Hp) as (pcl & Hpl & _ & Rp).
      eexists. split; [apply heap_inserted; eauto; by intros ?|].
      rewrite decide_False by (intros ->; destruct F; congruence).
      rewrite Hpc, P, decide_True by done. cbn. set_solver. }
  destruct (primary cl) eqn:P.
  - destruct (clients d !! name cl) eqn:Ef; [by eauto 6|]. by apply Hgood.
  - destruct (clients d !! primary_name cl) eqn:Ep; [|by eauto 6].
    destruct (clients d !! name cl) eqn:Ef; [by eauto 6|]. apply Hgood; eauto.
Qed.

(** ** [replace_client] *)

(** Removing a registered client's name first changes nothing for [drop_client]. *)
Lemma drop_client_removed d c cl :
  heap d !! c = Some cl -> registered cl = true ->
  drop_client c (set_clients (delete (name cl) (clients d)) d) = drop_client c d.
Proof.
  intros Hl R. set (d1 := set_clients _ d).
  assert (Hf : forget c cl d1 = forget c cl d).
  { unfold forget, d1. cbn. by rewrite delete_delete_eq. }
  unfold drop_client. destruct (primary cl) eqn:P.
  - rewrite (drop_primary 1 [] c cl d1) by (done || set_solver).
    rewrite (drop_primary 1 [] c cl d) by (done || set_solver). by rewrite Hf.
  - rewrite (drop_nonprimary 1 [] c cl d1) by (done || set_solver).
    rewrite (drop_nonprimary 1 [] c cl d) by (done || set_solver). by rewrite Hf.
Qed.

Lemma agree_refl d : agree d d.
Proof. constructor; try done; intros c cl Hl; by exists cl. Qed.

(** The database once the previous holder of the name is out: the newcomer's object is as it
    was, the name is free, and the previous connection is told to close. *)
Lemma replace_prepared d c cl prev pcl :
  db_wf d -> heap d !! c = Some cl -> newborn cl -> primary cl = true ->
  clients d !! name cl = Some prev -> heap d !! prev = Some pcl ->
  exists d1,
    replace_client c (name cl) d = insert_client c d1 /\ db_wf d1 /\
    heap d1 !! c = Some cl /\ rest d1 = rest d /\ dom (heap d1) = dom (heap d) /\
    (forall n, clients d1 !! n = if decide (n ∈ leaves pcl) then None else clients d !! n) /\
    (exists pcl', heap d1 !! prev = Some pcl' /\ registered pcl' = false /\ disconnected pcl' = true).
Proof.
  intros D Hl F P Hprev Hpl.
  destruct (cw_clients d (proj1 D) _ _ Hprev) as (pcl' & Hpl' & Enp & Rp).
  assert (pcl' = pcl) as -> by congruence.
  destruct (drop_client_Done d prev pcl D Hpl Rp) as (d0 & T & E & D0 & R0 & HT).
  assert (Hpc : prev <> c) by (intros ->; destruct F; congruence).
  destruct (dr_heap _ _ _ _ R0 _ _ Hl) as (cl' & Hcl' & Fx & Dx).
  destruct (dr_heap _ _ _ _ R0 _ _ Hpl) as (pl' & Hpl0 & Fp & _).
  assert (Rpl : registered pl' = false).
  { destruct (registered pl') eqn:Er; [|done].
    pose proof (cw_registered d0 (proj1 D0) prev pl' Hpl0 Er) as Hc. rewrite (proj1 (fixed_name _ _ Fp)) in Hc.
    rewrite (dr_clients _ _ _ _ R0), decide_True in Hc; [done|]. unfold leaves. set_solver. }
  exists (db_upd prev (set_disconnected true) d0). split_and!.
  - unfold replace_client.
    rewrite (bind_Done (gets (fun d => clients d !! name cl)) _ d _ d eq_refl), Hprev.
    rewrite (bind_Done (modify _) _ d tt _ eq_refl).
    cbv [mbind prog_bind]. rewrite <- Enp.
    rewrite (drop_client_removed d prev pcl Hpl Rp). by rewrite E.
  - eapply agree_wf; [apply agree_upd, inert_disconnected|done].
  - apply heap_db_upd. exists cl'. rewrite decide_False by done. split; [done|].
    destruct F as [Fr Fs].
    rewrite bool_decide_false, orb_false_r in Dx.
    2: { rewrite HT. intros (s & y & _ & _ & Hs & Hy & _).
         destruct (cw_clients d (proj1 D) _ _ Hs) as (z & Hz & _ & Rz). congruence. }
    rewrite (fixed_newborn _ _ Fx Fr Fs), Dx. by destruct cl.
  - apply R0.
  - rewrite dom_db_upd. apply R0.
  - intros n. apply R0.
  - eexists. rewrite heap_db_upd. split; [eauto|]. rewrite decide_True by done. done.
Qed.

(** ** The operations *)

(** The announcement that ends [db_register_client] and [unregister_client]: only primaries
    are announced, and a failure to announce is ignored. *)
Definition announced (is_primary : bool) (event : BrokerEvent) : prog BrokerDb Error unit :=
  when is_primary (attempt (announce event) ≫= fun _ => mret tt).

Lemma db_register_client_run d c cl :
  heap d !! c = Some cl ->
  db_register_client c d =
    match insert_client c d with
    | Done _ d1 => announced (primary cl) (BrokerEvent_reg (name cl)) d1
    | Throw e d1 =>
        if bool_decide (kind e = Busy) && (primary cl && force_register d) then
          (replace_client c (name cl) ≫= fun _ => announced (primary cl) (BrokerEvent_reg (name cl))) d1
        else Throw e d1
    | Hang d1 => Hang d1
    | Panic => Panic
    end.
Proof.
  intros Hl. unfold db_register_client. rewrite (bind_Done _ _ _ _ _ (deref_Some _ _ _ Hl)).
  rewrite (bind_Done (gets force_register) _ d _ d eq_refl).
  cbv [mbind prog_bind attempt]. destruct (insert_client c d) as [a d1|e d1|d1|]; [done| |done..].
  destruct (bool_decide (kind e = Busy) && (primary cl && force_register d)); done.
Qed.

(** Registration when the name is free, or when it is not and must not be taken over. *)
Lemma db_register_client_new d c cl :
  db_wf d -> heap d !! c = Some cl -> newborn cl ->
  clients d !! name cl = None -> (primary cl = false -> is_Some (clients d !! primary_name cl)) ->
  exists d1,
    db_register_client c d = announced (primary cl) (BrokerEvent_reg (name cl)) d1 /\
    db_wf d1 /\ dom (heap d1) = dom (heap d) /\ clients d1 = <[ name cl := c ]> (clients d) /\
    rest d1 = rest d /\
    exists ts, sm_view (subscriptions d1) !! digest cl = Some (handle c cl, ts) /\ BROKER_WARN_TOPIC ∈ ts.
Proof.
  intros D Hl F Hfree Hp. pose proof (insert_client_wf d c cl D Hl F) as H.
  rewrite (db_register_client_run d c cl Hl).
  destruct (insert_client c d) as [[] d1|e d1|d1|]; [|exfalso|done..].
  - destruct H as (W & Hd & Hr & _ & Hc & Hs & _). exists d1. split_and!; try done.
    rewrite Hs. eexists. rewrite lookup_insert_eq. split; [done|]. set_solver.
  - destruct H as (_ & [(P & Hn & _)|([x Hx] & _)]); [|congruence].
    destruct (Hp P). congruence.
Qed.

Lemma db_register_client_taken d c cl e d1 :
  db_wf d -> heap d !! c = Some cl -> newborn cl -> insert_client c d = Throw e d1 ->
  bool_decide (kind e = Busy) && (primary cl && force_register d) = false ->
  db_register_client c d = Throw e d.
Proof.
  intros D Hl F E Hf. pose proof (insert_client_wf d c cl D Hl F) as H.
  rewrite (db_register_client_run d c cl Hl). rewrite E in *. rewrite Hf.
  by destruct H as [-> _].
Qed.

(** Take-over of a name, with [force_register]. *)
Lemma db_register_client_force d c cl prev pcl :
  db_wf d -> heap d !! c = Some cl -> newborn cl -> primary cl = true -> force_register d = true ->
  clients d !! name cl = Some prev -> heap d !! prev = Some pcl ->
  exists d1,
    db_register_client c d = announced true (BrokerEvent_reg (name cl)) d1 /\
    db_wf d1 /\ dom (heap d1) = dom (heap d) /\ clients d1 !! name cl = Some c /\
    (forall n, n <> name cl ->
       clients d1 !! n = if decide (n ∈ leaves pcl) then None else clients d !! n) /\
    (exists pcl', heap d1 !! prev = Some pcl' /\ registered pcl' = false /\ disconnected pcl' = true).
Proof.
  intros D Hl F P Hforce Hprev Hpl.
  destruct (replace_prepared d c cl prev pcl D Hl F P Hprev Hpl)
    as (d1 & Er & D1 & Hl1 & _ & Hdom & Hcl & (pcl' & Hp' & Rp' & Dp')).
  destruct (cw_clients d (proj1 D) _ _ Hprev) as (pcl0 & Hp0 & Enp & Rp).
  assert (pcl0 = pcl) as -> by congruence.
  pose proof (insert_client_wf d1 c cl D1 Hl1 F) as H1.
  pose proof (insert_client_run d c cl Hl) as H0. rewrite P, Hprev in H0.
  rewrite (db_register_client_run d c cl Hl), H0, P, Hforce. cbn [andb].
  rewrite bool_decide_true by done. cbn [andb]. unfold mbind, prog_bind. rewrite Er.
  pose proof (insert_client_run d1 c cl Hl1) as Hrun. rewrite P in Hrun.
  rewrite Hcl, decide_True in Hrun by (unfold leaves; set_solver). rewrite Hrun in *.
  destruct H1 as (W2 & Hd2 & _ & _ & Hc2 & _ & _).
  eexists. split; [reflexivity|]. split_and!; [done|congruence| | |].
  - rewrite Hc2. apply lookup_insert_eq.
  - intros n Hn. rewrite Hc2, lookup_insert_ne by done. apply Hcl.
  - exists pcl'. split; [|done]. apply heap_inserted; [done|done|done| |by rewrite P|congruence|].
    { rewrite Hcl, decide_True; [done|]. unfold leaves. set_solver. }
    exists pcl'. rewrite decide_False by (intros ->; destruct F; congruence).
    by rewrite decide_False.
Qed.

Lemma unregister_client_run d c cl :
  heap d !! c = Some cl ->
  unregister_client c d =
    match drop_client c d with
    | Done _ d1 => announced (primary cl && registered cl) (BrokerEvent_unreg (name cl)) d1
    | Throw e d1 => Throw e d1
    | Hang d1 => Hang d1
    | Panic => Panic
    end.
Proof.
  intros Hl. unfold unregister_client, unregister_client_with.
  by rewrite (bind_Done _ _ _ _ _ (deref_Some _ _ _ Hl)).
Qed.

Lemma unregister_client_idle d c cl :
  heap d !! c = Some cl -> registered cl = false -> unregister_client c d = Done tt d.
Proof.
  intros Hl R. rewrite (unregister_client_run d c cl Hl), (drop_client_idle d c cl Hl R), R.
  by rewrite andb_false_r.
Qed.
End registry.

(** C3: registering a client whose name is free (and, for a secondary, whose primary is
    registered) enters it, under its name, in the client table, the broadcast map and the
    subscription map, where it is subscribed to the broker's warnings, keeps the database well
    formed, and then announces it if it is a primary. A name that is taken goes to a primary
    if the broker has [force_register], and its holder is disconnected; without that option,
    and for a secondary, the attempt fails as busy and changes nothing. A secondary
    whose primary is not registered fails as not registered and changes nothing. *)
Theorem register_client_spec {X : Externals} `{!ExternalsLaws X} d c cl :
  db_wf d -> heap d !! c = Some cl -> newborn cl ->
  (clients d !! name cl = None ->
   (primary cl = false -> is_Some (clients d !! primary_name cl)) ->
   exists d1,
     db_register_client c d = announced (primary cl) (BrokerEvent_reg (name cl)) d1 /\
     db_wf d1 /\ clients d1 = <[ name cl := c ]> (clients d) /\
     exists ts, sm_view (subscriptions d1) !! digest cl = Some (handle c cl, ts) /\ BROKER_WARN_TOPIC ∈ ts) /\
  (is_Some (clients d !! name cl) -> primary cl && force_register d = false ->
   (primary cl = false -> is_Some (clients d !! primary_name cl)) ->
   db_register_client c d =
     Throw (Error_busy (lit "the client is already registred: " ++ name cl)) d) /\
  (forall prev, clients d !! name cl = Some prev -> primary cl && force_register d = true ->
   exists d1 pcl',
     db_register_client c d = announced true (BrokerEvent_reg (name cl)) d1 /\
     db_wf d1 /\ clients d1 !! name cl = Some c /\
     heap d1 !! prev = Some pcl' /\ disconnected pcl' = true) /\
  (primary cl = false -> clients d !! primary_name cl = None ->
   db_register_client c d = Throw Error_not_registered d).
Proof.
  intros D Hl F. split_and!.
  - intros Hf Hp. destruct (db_register_client_new d c cl D Hl F Hf Hp)
      as (d1 & ? & ? & _ & ? & _ & ?). exists d1. by split_and!.
  - intros [x Hx] Hnf Hp. eapply db_register_client_taken; [done..| |by rewrite Hnf, andb_false_r].
    rewrite (insert_client_run d c cl Hl), Hx. destruct (primary cl); [done|].
    destruct Hp as [p ->]; [done|]. done.
  - intros prev Hprev [P Hforce]%andb_true_iff.
    destruct (cw_clients d (proj1 D) _ _ Hprev) as (pcl & Hpl & _ & _).
    destruct (db_register_client_force d c cl prev pcl D Hl F P Hforce Hprev Hpl)
      as (d1 & E & W & _ & Hc & _ & (pcl' & Hp' & _ & Dp')). exists d1, pcl'. by split_and!.
  - intros P Hp. eapply db_register_client_taken; [done..| |by rewrite P, andb_false_r].
    by rewrite (insert_client_run d c cl Hl), P, Hp.
Qed.

(** C22: with [force_register] a primary client always gets its name: the previous holder is
    unregistered, its connection is told to close, it leaves together with its secondaries and
    nobody else does; and when the previous holder's own task later unregisters it, the new
    registration is not touched. *)
Theorem register_force_replaces {X : Externals} `{!ExternalsLaws X} d c cl prev pcl :
  db_wf d -> heap d !! c = Some cl -> newborn cl -> primary cl = true -> force_register d = true ->
  clients d !! name cl = Some prev -> heap d !! prev = Some pcl ->
  exists d1,
    db_register_client c d = announced true (BrokerEvent_reg (name cl)) d1 /\
    db_wf d1 /\ clients d1 !! name cl = Some c /\
    (forall n, n <> name cl ->
       clients d1 !! n = if decide (n ∈ secondaries pcl /\ primary pcl = true) then None else clients d !! n) /\
    (exists pcl', heap d1 !! prev = Some pcl' /\ disconnected pcl' = true) /\
    unregister_client prev d1 = Done tt d1.
Proof.
  intros D Hl F P Hforce Hprev Hpl.
  destruct (db_register_client_force d c cl prev pcl D Hl F P Hforce Hprev Hpl)
    as (d1 & E & W & _ & Hc & Hn & (pcl' & Hp' & Rp' & Dp')).
  destruct (cw_clients d (proj1 D) _ _ Hprev) as (pcl0 & Hp0 & Enp & Rp).
  assert (pcl0 = pcl) as -> by congruence.
  exists d1. split_and!; [done..| |eauto|by eapply unregister_client_idle].
  intros n Hne. rewrite (Hn n Hne). unfold leaves. repeat case_decide; try done; exfalso.
  - destruct (primary pcl); set_solver.
  - destruct (primary pcl); set_solver.
Qed.

(** C7: unregistering a registered client takes its name, its subscriptions and its broadcast
    name out of the database, with the names of its secondaries if it is a primary and nobody
    else's; the connections of its non-internal secondaries are told to close, and the
    departure of a primary is then announced. Unregistering it again does nothing. *)
Theorem unregister_client_spec {X : Externals} `{!ExternalsLaws X} d c cl :
  db_wf d -> heap d !! c = Some cl ->
  if registered cl then
    exists d1,
      unregister_client c d = announced (primary cl) (BrokerEvent_unreg (name cl)) d1 /\ db_wf d1 /\
      (forall n, clients d1 !! n =
         if decide (n = name cl \/ primary cl = true /\ n ∈ secondaries cl) then None else clients d !! n) /\
      sm_view (subscriptions d1) !! digest cl = None /\ bm_view (broadcasts d1) !! digest cl = None /\
      (forall s x y, primary cl = true -> s ∈ secondaries cl -> clients d !! s = Some x ->
         heap d !! x = Some y -> ckind y <> Internal ->
         exists y', heap d1 !! x = Some y' /\ registered y' = false /\ disconnected y' = true) /\
      unregister_client c d1 = Done tt d1
  else unregister_client c d = Done tt d.
Proof.
  intros D Hl. destruct (registered cl) eqn:R; [|by eapply unregister_client_idle].
  destruct (drop_client_Done d c cl D Hl R) as (d1 & T & E & D1 & R1 & HT).
  assert (Hgone : forall x y', heap d1 !! x = Some y' -> name y' ∈ leaves cl -> registered y' = false).
  { intros x y' Hy' Hin. destruct (registered y') eqn:Ry; [|done].
    pose proof (cw_registered d1 (proj1 D1) x y' Hy' Ry) as Hc.
    by rewrite (dr_clients _ _ _ _ R1), decide_True in Hc. }
  destruct (dr_heap _ _ _ _ R1 _ _ Hl) as (cl' & Hl' & F' & _).
  destruct (fixed_name _ _ F') as [En' _].
  assert (Rcl : registered cl' = false).
  { apply (Hgone c); [done|]. rewrite En'. unfold leaves. set_solver. }
  assert (Hdig : forall y x, heap d1 !! x = Some y -> registered y = true -> digest cl = digest y -> False).
  { intros y x Hy Ry Ed. assert (digest cl' = digest y) by by rewrite (proj1 F').
    assert (name cl' = name y) as En by by eapply (digest_name d1 c x); [apply D1|..].
    assert (registered y = false); [|congruence]. apply (Hgone x); [done|].
    rewrite <- En, En'. unfold leaves. set_solver. }
  exists d1. split_and!.
  - rewrite (unregister_client_run d c cl Hl), E, R. by rewrite andb_true_r.
  - done.
  - intros n. rewrite (dr_clients _ _ _ _ R1). unfold leaves.
    repeat case_decide; try done; exfalso; destruct (primary cl); set_solver.
  - apply eq_None_not_Some. intros [[h ts] (y & Hy & Ry & _ & Ed)%(cw_subs_in d1 (proj1 D1))]. eauto.
  - apply eq_None_not_Some. intros [[h n] (y & Hy & Ry & _ & Ed & _)%(cw_names_in d1 (proj1 D1))]. eauto.
  - intros s x y P Hs Hx Hy Hk. destruct (dr_heap _ _ _ _ R1 _ _ Hy) as (y' & Hy' & Fy & Dy).
    exists y'. split_and!; [done| |].
    + apply (Hgone x); [done|]. destruct (cw_clients d (proj1 D) _ _ Hx) as (z & Hz & <- & _).
      assert (z = y) as -> by congruence. rewrite (proj1 (fixed_name _ _ Fy)).
      unfold leaves. rewrite P. set_solver.
    + rewrite Dy, bool_decide_true, orb_true_r; [done|]. apply HT. eauto 8.
  - by eapply unregister_client_idle.
Qed.

(** The in-process client's own [unregister] does not unregister it: it clears the
    [registered] flag first, so the broker's [unregister_client] finds nothing to do. The name
    stays in the client table, a new registration under it is refused as busy, and dropping
    the client afterwards does not free it either. *)
Theorem client_unregister_keeps_name {X : Externals} `{!ExternalsLaws X} d c cl c' cl' :
  db_wf d -> heap d !! c = Some cl -> registered cl = true ->
  heap d !! c' = Some cl' -> c' <> c -> name cl' = name cl -> force_register d = false ->
  exists d1,
    client_unregister c d = Done tt d1 /\ clients d1 !! name cl = Some c /\
    client_drop c d1 = Done tt d1 /\
    (primary cl' = true -> db_register_client c' d1 =
       Throw (Error_busy (lit "the client is already registred: " ++ name cl)) d1).
Proof.
  intros [W _] Hl R Hl' Hne En Hf. set (d1 := db_upd c (set_registered false) d).
  assert (Hc1 : heap d1 !! c = Some (set_registered false cl)).
  { apply heap_db_upd. exists cl. by rewrite decide_True. }
  assert (Hc1' : heap d1 !! c' = Some cl').
  { apply heap_db_upd. exists cl'. by rewrite decide_False. }
  assert (Hn : clients d1 !! name cl = Some c) by by apply (cw_registered d W).
  exists d1. split_and!.
  - unfold client_unregister. rewrite (bind_Done (upd c _) _ d tt d1 eq_refl).
    by eapply unregister_client_idle.
  - done.
  - by eapply drop_client_idle.
  - intros P. rewrite (db_register_client_run d1 c' cl' Hc1').
    rewrite (insert_client_run d1 c' cl' Hc1'), P, En, Hn. cbn [kind Error_busy].
    change (force_register d1) with (force_register d). by rewrite Hf, andb_false_r.
Qed.
