(* ===== verification/Delivery.v ===== *)
(** * Delivery

    Who receives a frame that is sent, published or broadcast. [delivered] says which queues got
    the frame and that nothing else of the database changed; the theorems say who that is. *)
From S2P Require Export Registry.

Section delivery.
Context {X : Externals} `{!ExternalsLaws X}.

(** ** Runs of the simple steps *)

Lemma upd_run c f d : upd c f d = Done tt (db_upd c f d).
Proof. done. Qed.

Lemma agree_trans d1 d2 d3 : agree d1 d2 -> agree d2 d3 -> agree d1 d3.
Proof.
  intros A B. constructor.
  - intros c cl (cl2 & H2 & S2)%(ag_to _ _ A). destruct (ag_to _ _ B _ _ H2) as (cl3 & H3 & S3).
    exists cl3. split; [done|]. unfold similar in *. naive_solver congruence.
  - intros c cl (cl2 & H2 & S2)%(ag_from _ _ B). destruct (ag_from _ _ A _ _ H2) as (cl3 & H3 & S3).
    exists cl3. split; [done|]. unfold similar in *. naive_solver congruence.
  - by rewrite (ag_clients _ _ B), (ag_clients _ _ A).
  - by rewrite (ag_subs _ _ B), (ag_subs _ _ A).
  - by rewrite (ag_names _ _ B), (ag_names _ _ A).
  - by rewrite (ag_rpc _ _ B), (ag_rpc _ _ A).
  - by rewrite (ag_next _ _ B), (ag_next _ _ A).
Qed.

(** The queues of the clients in [to] got [frame], the other queues are as they were, and the
    registrations did not move. *)
Record delivered (to : gset nat) (frame : FrameData) (d d' : BrokerDb) : Prop := {
  dv_agree : agree d d';
  dv_queue x y : heap d !! x = Some y ->
    exists y', heap d' !! x = Some y' /\
      if decide (x ∈ to)
      then ch_items (tx y') = ch_items (tx y) ++ [frame]
      else tx y' = tx y;
  dv_kind x y y' : heap d !! x = Some y -> heap d' !! x = Some y' ->
    ckind y' = ckind y /\ port y' = port y;
  dv_lock : rpc_lock d' = rpc_lock d;
  dv_chan x y y' : heap d !! x = Some y -> heap d' !! x = Some y' ->
    ch_cap (tx y') = ch_cap (tx y) /\ ch_is_closed (tx y') = ch_is_closed (tx y);
  dv_cfg : bm_cfg (broadcasts d') = bm_cfg (broadcasts d);
}.

(** An update that leaves the queue alone. *)
Definition keeps_queue (f : BusRtClient -> BusRtClient) : Prop :=
  inert f /\ (forall cl, tx (f cl) = tx cl) /\ forall cl, ckind (f cl) = ckind cl /\ port (f cl) = port cl.

Lemma delivered_upd c f frame d : keeps_queue f -> delivered ∅ frame d (db_upd c f d).
Proof.
  intros (Hi & Ht & Hk). constructor; [by apply agree_upd| | |done| |done].
  - intros x y Hy. eexists. rewrite heap_db_upd. split; [eauto|].
    rewrite decide_False by set_solver. case_decide; [apply Ht|done].
  - intros x y y' Hy (z & Hz & ->)%heap_db_upd. simplify_eq. case_decide; [apply Hk|done].
  - intros x y y' Hy (z & Hz & ->)%heap_db_upd. simplify_eq. case_decide; [by rewrite Ht|done].
Qed.

Lemma delivered_same_heap frame d d' :
  heap d' = heap d -> rpc_lock d' = rpc_lock d -> broadcasts d' = broadcasts d -> agree d d' -> delivered ∅ frame d d'.
Proof.
  intros Hh Hl Hb A. constructor; [done| | |done| |by rewrite Hb].
  - intros x y Hy. exists y. rewrite Hh. by rewrite decide_False by set_solver.
  - intros x y y'. rewrite Hh. intros. by simplify_eq.
  - intros x y y'. rewrite Hh. intros. by simplify_eq.
Qed.

Lemma delivered_trans T1 T2 frame d1 d2 d3 :
  T1 ## T2 -> delivered T1 frame d1 d2 -> delivered T2 frame d2 d3 -> delivered (T1 ∪ T2) frame d1 d3.
Proof.
  intros Hd [A1 Q1 K1 L1 C1 B1] [A2 Q2 K2 L2 C2 B2]. constructor; [by eapply agree_trans| | |congruence| |congruence].
  - intros x y (y2 & H2 & E2)%Q1. destruct (Q2 _ _ H2) as (y3 & H3 & E3). exists y3. split; [done|].
    repeat case_decide; try congruence; set_solver.
  - intros x y y' Hy Hy'. destruct (Q1 _ _ Hy) as (y2 & H2 & _). destruct (K1 _ _ _ Hy H2), (K2 _ _ _ H2 Hy'). by split; etransitivity.
  - intros x y y' Hy Hy'. destruct (Q1 _ _ Hy) as (y2 & H2 & _). destruct (C1 _ _ _ Hy H2), (C2 _ _ _ H2 Hy'). by split; etransitivity.
Qed.

Lemma delivered_push c cl frame d :
  heap d !! c = Some cl -> ch_is_full (tx cl) = false -> ch_is_closed (tx cl) = false ->
  delivered {[ c ]} frame d (db_upd c (set_tx (ch_push frame (tx cl))) d).
Proof.
  intros Hl Hf Hc. constructor; [apply agree_upd, (inert_set_tx (fun _ => _))| | |done| |done].
  - intros x y Hy. eexists. rewrite heap_db_upd. split; [eauto|]. destruct (decide (c = x)) as [<-|E].
    + rewrite decide_True by set_solver. simplify_eq. by apply ch_push_spec.
    + by rewrite decide_False by set_solver.
  - intros x y y' Hy (z & Hz & ->)%heap_db_upd. simplify_eq. by case_decide.
  - intros x y y' Hy (z & Hz & ->)%heap_db_upd. simplify_eq. case_decide as E; [|done]. simplify_eq.
    destruct (ch_push_spec frame (tx cl) Hf Hc) as (_ & H1 & H2). cbn. by rewrite H1, H2, Hc.
Qed.

(** A queue is ready for a frame. *)
Definition ready (cl : BusRtClient) : Prop := ch_is_full (tx cl) = false /\ ch_is_closed (tx cl) = false.

Section sends.
Context (unregister : nat -> prog BrokerDb Error unit).

Lemma safe_send_ready c cl frame timeout d :
  heap d !! c = Some cl -> ready cl ->
  safe_send_frame_with unregister c frame timeout d =
    Done tt (db_upd c (set_tx (ch_push frame (tx cl))) d).
Proof.
  intros Hl [Hf Hc]. unfold safe_send_frame_with.
  rewrite (bind_Done _ _ _ _ _ (deref_Some _ _ _ Hl)), Hf. unfold ch_send. by rewrite Hc, Hf.
Qed.

Lemma deliver_loop subs frame len timeout d :
  NoDup (ptr <$> subs) ->
  (forall s, s ∈ subs -> exists y, heap d !! ptr s = Some y /\ ready y) ->
  exists d',
    for_each subs (fun sub : BrokerClient ext_digest =>
      upd (ptr sub) (count_w len) ≫= fun _ =>
      attempt (safe_send_frame_with unregister (ptr sub) frame timeout) ≫= fun _ => mret tt) d
    = Done tt d' /\ delivered (list_to_set (ptr <$> subs)) frame d d'.
Proof.
  revert d. induction subs as [|s subs IH]; intros d Hnd Hr.
  { exists d. split; [done|]. apply delivered_same_heap; [done..|apply agree_refl]. }
  cbn [fmap list_fmap] in Hnd. apply NoDup_cons in Hnd as [Hs Hnd].
  destruct (Hr s) as (y & Hy & Ry); [left|].
  set (d1 := db_upd (ptr s) (count_w len) d).
  assert (Hy1 : heap d1 !! ptr s = Some (count_w len y)).
  { apply heap_db_upd. exists y. by rewrite decide_True. }
  set (d2 := db_upd (ptr s) (set_tx (ch_push frame (tx (count_w len y)))) d1).
  assert (D12 : delivered {[ ptr s ]} frame d d2).
  { replace {[ ptr s ]} with (∅ ∪ {[ ptr s ]} : gset nat) by set_solver.
    eapply delivered_trans; [set_solver|apply delivered_upd|by apply delivered_push; [|apply Ry..]].
    split; [apply inert_count_w|done]. }
  destruct (IH d2) as (d3 & E3 & D3); [done| |].
  { intros s' Hin. destruct (Hr s') as (y' & Hy' & Ry'); [by right|]. exists y'. split; [|done].
    assert (ptr s <> ptr s') by (intros E; apply Hs; rewrite E; by apply list_elem_of_fmap_2).
    apply heap_db_upd. exists y'. rewrite decide_False by done. split; [|done].
    apply heap_db_upd. exists y'. by rewrite decide_False. }
  exists d3. split.
  - cbn [for_each]. unfold mbind at 1, prog_bind at 1.
    rewrite (bind_Done _ _ _ _ _ (upd_run _ _ _)). fold d1.
    rewrite (bind_Done _ _ _ _ _ (attempt_Done _ _ _ _ (safe_send_ready _ _ frame timeout _ Hy1 Ry))).
    exact E3.
  - cbn [fmap list_fmap list_to_set]. eapply delivered_trans; [|done|done].
    intros z ->%elem_of_singleton Hz%elem_of_list_to_set. done.
Qed.

Lemma deliver_all_ready subs frame len timeout d :
  NoDup (ptr <$> subs) ->
  (forall s, s ∈ subs -> exists y, heap d !! ptr s = Some y /\ ready y) ->
  exists d', deliver_all unregister subs frame len timeout d = Done tt d' /\
             delivered (list_to_set (ptr <$> subs)) frame d d'.
Proof.
  intros Hnd Hr. unfold deliver_all. destruct subs as [|s subs].
  { exists d. split; [done|]. apply delivered_same_heap; [done..|apply agree_refl]. }
  set (n := Z.of_nat (length (s :: subs))).
  destruct (deliver_loop (s :: subs) frame len timeout (db_count_w n (u64_mul len n) d)) as (d' & E & D');
    [done..|].
  exists d'. split; [exact E|].
  replace (list_to_set (ptr <$> s :: subs)) with (∅ ∪ list_to_set (ptr <$> s :: subs) : gset nat) by set_solver.
  eapply delivered_trans; [set_solver| |exact D'].
  apply delivered_same_heap; [done..|]. by apply agree_same_heap.
Qed.

Lemma count_incoming_run c len d :
  count_incoming c len d = Done tt (db_count_r 1 len (db_upd c (count_r len) d)).
Proof. done. Qed.

Lemma delivered_count_incoming c len frame d :
  delivered ∅ frame d (db_count_r 1 len (db_upd c (count_r len) d)).
Proof.
  replace ∅ with (∅ ∪ ∅ : gset nat) by set_solver.
  eapply delivered_trans; [set_solver|apply (delivered_upd c (count_r len))|].
  - split; [apply inert_count_r|done].
  - apply delivered_same_heap; [done..|]. by apply agree_same_heap.
Qed.
End sends.

(** ** Who the receivers are *)

(** The client object [y] at [x] is registered and one of its subscriptions fits the topic. *)
Definition subscribed (d : BrokerDb) (topic : str) (x : nat) (y : BusRtClient) : Prop :=
  registered y = true /\
  exists ts mask, sm_view (subscriptions d) !! digest y = Some (handle x y, ts) /\ mask ∈ ts /\
                  sm_fits (sm_cfg (subscriptions d)) mask topic = true.

(** The flag tells whether the map of exclusions can match anything. *)
Definition exclusions_ok (cl : BusRtClient) : Prop :=
  has_exclusions cl = false -> acl_masks (exclusions cl) = ∅.

(** The client excluded a mask the topic fits. *)
Definition excludes (cl : BusRtClient) (topic : str) : Prop :=
  exists mask, mask ∈ acl_masks (exclusions cl) /\ acl_fits (acl_cfg (exclusions cl)) mask topic = true.

(** Who a publication is for. *)
Definition receives (d : BrokerDb) (topic : str) (x : nat) (y : BusRtClient) : Prop :=
  subscribed d topic x y /\ ~ excludes y topic.

(** The shortcut over the flag decides the same as the search of the map. *)
Lemma retained_spec topic cl : exclusions_ok cl -> retained topic cl = true <-> ~ excludes cl topic.
Proof.
  intros Hok. unfold retained, excludes. rewrite orb_true_iff, !negb_true_iff. split.
  - intros [Hn|Hn] (m & Hm & Hf).
    + apply Hok in Hn. rewrite Hn in Hm. set_solver.
    + apply not_true_iff_false in Hn. apply Hn, acl_matches_spec. eauto.
  - intros Hn. right. apply not_true_iff_false. by intros Hm%acl_matches_spec.
Qed.

Lemma receives_retained d topic x y :
  (registered y = true -> exclusions_ok y) ->
  receives d topic x y <-> subscribed d topic x y /\ retained topic y = true.
Proof.
  intros Hok. unfold receives. split; intros [Hs Hr]; (split; [done|]);
    apply retained_spec; try done; apply Hok, Hs.
Qed.

(** The client object [y] at [x] is registered under a name the broadcast mask fits. *)
Definition named (d : BrokerDb) (mask : str) (y : BusRtClient) : Prop :=
  registered y = true /\ bm_fits (bm_cfg (broadcasts d)) mask (name y) = true.

Lemma subscriber_handle d topic s :
  db_wf d -> s ∈ sm_get_subscribers (subscriptions d) topic ->
  exists y, heap d !! ptr s = Some y /\ s = handle (ptr s) y /\ subscribed d topic (ptr s) y.
Proof.
  intros [W _] (ts & m & Hv & Hm & Hf)%(sm_get_subscribers_spec (key := ptr_digest)).
  destruct (cw_subs_in d W _ _ _ Hv) as (y & Hy & Ry & Eh & Ek).
  exists y. split_and!; [done..|]. split; [done|]. exists ts, m. rewrite <- Ek, <- Eh. done.
Qed.

Lemma subscribed_handle d topic x y :
  subscribed d topic x y -> handle x y ∈ sm_get_subscribers (subscriptions d) topic.
Proof.
  intros (_ & ts & m & Hv & Hm & Hf). apply (sm_get_subscribers_spec (key := ptr_digest)).
  exists ts, m. done.
Qed.

Lemma in_retain f d l (s : BrokerClient ext_digest) :
  s ∈ retain f d l <-> s ∈ l /\ exists y, heap d !! ptr s = Some y /\ f y = true.
Proof.
  unfold retain. rewrite !list_elem_of_In, filter_In. destruct (heap d !! ptr s); naive_solver.
Qed.

Lemma retained_ptr d f topic x :
  db_wf d ->
  x ∈ ptr <$> retain f d (sm_get_subscribers (subscriptions d) topic) <->
  exists y, heap d !! x = Some y /\ subscribed d topic x y /\ f y = true.
Proof.
  intros D. rewrite list_elem_of_fmap. split.
  - intros (s & -> & [Hs (y & Hy & Hf)]%in_retain).
    destruct (subscriber_handle d topic s D Hs) as (y' & Hy' & _ & Hsub).
    exists y. split_and!; [done| |done]. congruence.
  - intros (y & Hy & Hs & Hf). exists (handle x y). split; [done|].
    apply in_retain. split; [by apply subscribed_handle|]. eauto.
Qed.

Lemma handles_NoDup d (l : list (BrokerClient ext_digest)) :
  (forall s, s ∈ l -> exists y, heap d !! ptr s = Some y /\ s = handle (ptr s) y) ->
  NoDup (ptr_digest <$> l) -> NoDup (ptr <$> l).
Proof.
  induction l as [|s l IH]; intros Hl; [constructor|].
  cbn [fmap list_fmap]. intros [Hs Hnd]%NoDup_cons. apply NoDup_cons. split.
  - intros (s' & E & Hin)%list_elem_of_fmap. apply Hs. apply list_elem_of_fmap. exists s'. split; [|done].
    destruct (Hl s) as (y & Hy & ->); [left|]. destruct (Hl s') as (y' & Hy' & ->); [by right|].
    cbn in E |- *. congruence.
  - apply IH; [|done]. intros s' Hin. apply Hl. by right.
Qed.

Lemma NoDup_fmap_filter {A B} (g : A -> B) (P : A -> bool) l :
  NoDup (g <$> l) -> NoDup (g <$> List.filter P l).
Proof.
  induction l as [|a l IH]; [done|]. cbn [fmap list_fmap List.filter]. intros [Ha Hnd]%NoDup_cons.
  destruct (P a); [|by apply IH]. cbn [fmap list_fmap]. apply NoDup_cons. split; [|by apply IH].
  intros (b & E & Hb)%list_elem_of_fmap. apply Ha, list_elem_of_fmap. exists b. split; [done|].
  apply list_elem_of_In in Hb. apply filter_In in Hb as [Hb _]. by apply list_elem_of_In.
Qed.

Lemma retain_NoDup d f topic :
  db_wf d -> NoDup (ptr <$> retain f d (sm_get_subscribers (subscriptions d) topic)).
Proof.
  intros D. apply (handles_NoDup d).
  - intros s [Hs _]%in_retain. destruct (subscriber_handle d topic s D Hs) as (y & ? & ? & _). eauto.
  - apply NoDup_fmap_filter, sm_get_subscribers_NoDup.
Qed.

Lemma retain_counted f d c len l :
  (forall n cl, f (count_r n cl) = f cl) ->
  retain f (db_count_r 1 len (db_upd c (count_r len) d)) l = retain f d l.
Proof.
  intros Hf. unfold retain. apply List.filter_ext. intros s.
  change (heap (db_count_r 1 len (db_upd c (count_r len) d))) with (alter (count_r len) c (heap d)).
  destruct (decide (c = ptr s)) as [<-|Hn].
  - rewrite lookup_alter_eq. destruct (heap d !! c); cbn; [apply Hf|done].
  - by rewrite lookup_alter_ne.
Qed.

(** A frame published to the retained subscribers, all of which are ready, reaches exactly
    them. *)
Lemma publish_filtered unregister d c from f topic header buf pos len realtime timeout :
  db_wf d -> heap d !! c = Some from ->
  (forall n cl, f (count_r n cl) = f cl) ->
  (forall x y, heap d !! x = Some y -> subscribed d topic x y -> f y = true -> ready y) ->
  let frame := MkFrame FrameKind_Publish (Some (name from)) (Some topic) header buf pos realtime in
  exists d',
    (count_incoming c len ≫= fun _ =>
     gets (fun d => retain f d (sm_get_subscribers (subscriptions d) topic)) ≫= fun subs =>
     deref c ≫= fun from =>
     deliver_all unregister subs
       (MkFrame FrameKind_Publish (Some (name from)) (Some topic) header buf pos realtime)
       len timeout) d = Done tt d' /\
    delivered (list_to_set (ptr <$> retain f d (sm_get_subscribers (subscriptions d) topic))) frame d d' /\
    db_wf d' /\
    forall x y, heap d !! x = Some y ->
      exists y', heap d' !! x = Some y' /\
        (subscribed d topic x y /\ f y = true -> ch_items (tx y') = ch_items (tx y) ++ [frame]) /\
        (~ (subscribed d topic x y /\ f y = true) -> tx y' = tx y).
Proof.
  intros D Hc Hf Hready frame. set (d1 := db_count_r 1 len (db_upd c (count_r len) d)).
  set (subs := retain f d (sm_get_subscribers (subscriptions d) topic)).
  pose proof (delivered_count_incoming c len frame d) as D1. fold d1 in D1.
  assert (Hc1 : heap d1 !! c = Some (count_r len from)).
  { apply heap_db_upd. exists from. by rewrite decide_True. }
  assert (Hsubs : retain f d1 (sm_get_subscribers (subscriptions d1) topic) = subs)
    by by apply retain_counted.
  destruct (deliver_all_ready unregister subs frame len timeout d1) as (d' & E & D2).
  { by apply retain_NoDup. }
  { intros s Hs. assert (Hp : ptr s ∈ ptr <$> subs) by by apply list_elem_of_fmap_2.
    apply retained_ptr in Hp as (y & Hy & Hsub & Hfy); [|done].
    eexists. split; [apply heap_db_upd; eauto|]. pose proof (Hready _ _ Hy Hsub Hfy).
    by case_decide. }
  assert (Dv : delivered (list_to_set (ptr <$> subs)) frame d d').
  { replace (list_to_set (ptr <$> subs)) with (∅ ∪ list_to_set (ptr <$> subs) : gset nat) by set_solver.
    by eapply delivered_trans; [set_solver| |]. }
  exists d'. split_and!.
  - rewrite (bind_Done _ _ _ _ _ (count_incoming_run c len d)). fold d1.
    rewrite (bind_Done (gets _) _ d1 subs d1); [|unfold gets; by rewrite Hsubs].
    rewrite (bind_Done _ _ _ _ _ (deref_Some _ _ _ Hc1)). exact E.
  - exact Dv.
  - eapply agree_wf; [apply Dv|done].
  - intros x y Hy. destruct (dv_queue _ _ _ _ Dv x y Hy) as (y' & Hy' & Q). exists y'.
    split; [done|]. revert Q. unfold subs.
    case_decide as Hin; rewrite elem_of_list_to_set, (retained_ptr d f topic x D) in Hin; intros Q.
    + split; [done|]. intros Hn. destruct Hin as (z & Hz & Hsub). simplify_eq. naive_solver.
    + split; [|done]. intros Hs. destruct Hin. exists y. naive_solver.
Qed.
End delivery.

(** C4: [publish!]: when the queues of its receivers have room, a published frame is appended
    to the queue of every registered client that has a subscription fitting the topic and no
    exclusion that does, once each, and to no other queue; nobody's registration changes. (The
    flags of the exclusion maps must be sound, which [System.broker_invariant] establishes.) *)
Theorem publish_delivers {X : Externals} `{!ExternalsLaws X}
    d c from topic header buf pos len realtime timeout :
  db_wf d -> (forall x y, heap d !! x = Some y -> registered y = true -> exclusions_ok y) -> heap d !! c = Some from ->
  (forall x y, heap d !! x = Some y -> receives d topic x y -> ready y) ->
  let frame := MkFrame FrameKind_Publish (Some (name from)) (Some topic) header buf pos realtime in
  exists d',
    publish c topic header buf pos len realtime timeout d = Done tt d' /\ db_wf d' /\
    forall x y, heap d !! x = Some y ->
      exists y', heap d' !! x = Some y' /\
        (receives d topic x y -> ch_items (tx y') = ch_items (tx y) ++ [frame]) /\
        (~ receives d topic x y -> tx y' = tx y).
Proof.
  intros D Hok Hc Hr. destruct (publish_filtered unregister_client d c from (retained topic)
    topic header buf pos len realtime timeout D Hc) as (d' & E & _ & W & H); [done| |].
  { intros x y Hy Hs Hx. apply (Hr x y Hy), (receives_retained d topic x y (Hok x y Hy)). done. }
  exists d'. split_and!; [done..|]. intros x y Hy. destruct (H x y Hy) as (y' & Hy' & H1 & H2). exists y'.
  by rewrite (receives_retained d topic x y (Hok x y Hy)).
Qed.

(** [publish!] with a receiver: the same, restricted to the clients whose primary name is
    the receiver. *)
Theorem publish_for_delivers {X : Externals} `{!ExternalsLaws X}
    d c from topic receiver header buf pos len realtime timeout :
  db_wf d -> (forall x y, heap d !! x = Some y -> registered y = true -> exclusions_ok y) -> heap d !! c = Some from ->
  (forall x y, heap d !! x = Some y -> receives d topic x y -> primary_name y = receiver -> ready y) ->
  let frame := MkFrame FrameKind_Publish (Some (name from)) (Some topic) header buf pos realtime in
  exists d',
    publish_for c topic receiver header buf pos len realtime timeout d = Done tt d' /\ db_wf d' /\
    forall x y, heap d !! x = Some y ->
      exists y', heap d' !! x = Some y' /\
        (receives d topic x y /\ primary_name y = receiver ->
           ch_items (tx y') = ch_items (tx y) ++ [frame]) /\
        (~ (receives d topic x y /\ primary_name y = receiver) -> tx y' = tx y).
Proof.
  intros D Hok Hc Hr.
  destruct (publish_filtered unregister_client d c from
    (fun sub => bool_decide (primary_name sub = receiver) && retained topic sub)
    topic header buf pos len realtime timeout D Hc) as (d' & E & _ & W & H); [done| |].
  { intros x y Hy Hs [Hp%bool_decide_eq_true Hx]%andb_prop.
    apply (Hr x y Hy); [|done]. by apply (receives_retained d topic x y (Hok x y Hy)). }
  exists d'. split_and!; [done..|]. intros x y Hy. destruct (H x y Hy) as (y' & Hy' & H1 & H2). exists y'.
  rewrite (receives_retained d topic x y (Hok x y Hy)).
  rewrite andb_true_iff, bool_decide_eq_true in H1, H2.
  split; [done|]. split; [intros [[? ?] ?]; by apply H1|]. intros Hn. apply H2. naive_solver.
Qed.

Section more.
Context {X : Externals} `{!ExternalsLaws X}.

Lemma named_ptr d mask x :
  db_wf d ->
  x ∈ ptr <$> bm_get_clients_by_mask (broadcasts d) mask <->
  exists y, heap d !! x = Some y /\ named d mask y.
Proof.
  intros [W _]. rewrite list_elem_of_fmap. split.
  - intros (s & -> & (n & Hv & Hf)%(bm_get_spec (key := ptr_digest))).
    destruct (cw_names_in d W _ _ _ Hv) as (y & Hy & Ry & _ & _ & ->). exists y. done.
  - intros (y & Hy & Ry & Hf). exists (handle x y). split; [done|].
    apply (bm_get_spec (key := ptr_digest)). exists (name y). split; [|done].
    by apply (cw_names_out d W).
Qed.

Lemma named_NoDup d mask : db_wf d -> NoDup (ptr <$> bm_get_clients_by_mask (broadcasts d) mask).
Proof.
  intros [W _]. apply (handles_NoDup d).
  - intros s (n & Hv & Hf)%(bm_get_spec (key := ptr_digest)).
    destruct (cw_names_in d W _ _ _ Hv) as (y & Hy & Ry & Eh & _). eauto.
  - apply bm_get_NoDup.
Qed.

(** A broadcast whose receivers are ready. *)
Lemma broadcast_run d c from mask header buf pos len realtime timeout :
  db_wf d -> heap d !! c = Some from ->
  (forall x y, heap d !! x = Some y -> named d mask y -> ready y) ->
  exists d', send_broadcast c mask header buf pos len realtime timeout d = Done tt d' /\
    delivered (list_to_set (ptr <$> bm_get_clients_by_mask (broadcasts d) mask))
      (MkFrame FrameKind_Broadcast (Some (name from)) None header buf pos realtime) d d'.
Proof.
  intros D Hc Hready. set (frame := MkFrame _ _ _ _ _ _ _).
  set (d1 := db_count_r 1 len (db_upd c (count_r len) d)).
  set (subs := bm_get_clients_by_mask (broadcasts d) mask).
  pose proof (delivered_count_incoming c len frame d) as D1. fold d1 in D1.
  assert (Hc1 : heap d1 !! c = Some (count_r len from)).
  { apply heap_db_upd. exists from. by rewrite decide_True. }
  destruct (deliver_all_ready unregister_client subs frame len timeout d1) as (d' & E & D2).
  { by apply named_NoDup. }
  { intros s Hs. assert (Hp : ptr s ∈ ptr <$> subs) by by apply list_elem_of_fmap_2.
    apply named_ptr in Hp as (y & Hy & Hn); [|done].
    eexists. split; [apply heap_db_upd; eauto|]. pose proof (Hready _ _ Hy Hn). by case_decide. }
  exists d'. split.
  - unfold send_broadcast, send_broadcast_with.
    rewrite (bind_Done _ _ _ _ _ (count_incoming_run c len d)). fold d1.
    rewrite (bind_Done (gets _) _ d1 subs d1 eq_refl).
    rewrite (bind_Done _ _ _ _ _ (deref_Some _ _ _ Hc1)). exact E.
  - replace (list_to_set (ptr <$> subs)) with (∅ ∪ list_to_set (ptr <$> subs) : gset nat) by set_solver.
    by eapply delivered_trans; [set_solver| |].
Qed.
End more.

(** C23: [send_broadcast!]: when the queues of its receivers have room, a broadcast frame is
    appended to the queue of every registered client whose name the mask fits, once each, and
    to no other queue. *)
Theorem broadcast_delivers {X : Externals} `{!ExternalsLaws X}
    d c from mask header buf pos len realtime timeout :
  db_wf d -> heap d !! c = Some from ->
  (forall x y, heap d !! x = Some y -> named d mask y -> ready y) ->
  let frame := MkFrame FrameKind_Broadcast (Some (name from)) None header buf pos realtime in
  exists d',
    send_broadcast c mask header buf pos len realtime timeout d = Done tt d' /\ db_wf d' /\
    forall x y, heap d !! x = Some y ->
      exists y', heap d' !! x = Some y' /\
        (named d mask y -> ch_items (tx y') = ch_items (tx y) ++ [frame]) /\
        (~ named d mask y -> tx y' = tx y).
Proof.
  intros D Hc Hready frame. destruct (broadcast_run d c from mask header buf pos len realtime timeout D Hc Hready) as (d' & E & Dv).
  fold frame in Dv. exists d'. split_and!; [done|eapply agree_wf; [apply Dv|done]|].
  intros x y Hy. destruct (dv_queue _ _ _ _ Dv x y Hy) as (y' & Hy' & Q). exists y'. split; [done|]. revert Q.
  case_decide as Hin; rewrite elem_of_list_to_set, (named_ptr d mask x D) in Hin; intros Q.
  - split; [done|]. intros Hn. destruct Hin as (z & Hz & Hsub). simplify_eq. naive_solver.
  - split; [|done]. intros Hs. destruct Hin. exists y. naive_solver.
Qed.

(** C21: [send!]: a message to an unknown name is refused as not registered; to a client whose
    queue is ready it is appended there and to no other queue; to a client whose queue was
    closed it is an end-of-file error. In each case nobody's registration changes. *)
Theorem send_spec {X : Externals} `{!ExternalsLaws X}
    d c from target header buf pos len realtime timeout :
  db_wf d -> heap d !! c = Some from ->
  let frame := MkFrame FrameKind_Message (Some (name from)) None header buf pos realtime in
  match clients d !! target with
  | None =>
      exists d', send c target header buf pos len realtime timeout d = Throw Error_not_registered d' /\
                 db_wf d' /\ delivered ∅ frame d d'
  | Some t =>
      exists y, heap d !! t = Some y /\ name y = target /\
        (ready y -> exists d',
           send c target header buf pos len realtime timeout d = Done tt d' /\
           db_wf d' /\ delivered {[ t ]} frame d d') /\
        (ch_is_full (tx y) = false -> ch_is_closed (tx y) = true -> exists d',
           send c target header buf pos len realtime timeout d = Throw (MkError Eof None) d' /\
           db_wf d' /\ delivered ∅ frame d d')
  end.
Proof.
  intros D Hc frame. set (d1 := db_count_r 1 len (db_upd c (count_r len) d)).
  pose proof (delivered_count_incoming c len frame d) as D1. fold d1 in D1.
  assert (Hwf : forall T d', delivered T frame d d' -> db_wf d') by
    (intros T d' Dv; eapply agree_wf; [apply Dv|done]).
  assert (Hrun : send c target header buf pos len realtime timeout d =
    (gets (fun d => clients d !! target) ≫= fun tgt =>
     match tgt with
     | Some tgt => upd tgt (count_w len) ≫= fun _ => modify (db_count_w 1 len) ≫= fun _ =>
         deref c ≫= fun from => safe_send_frame tgt
           (MkFrame FrameKind_Message (Some (name from)) None header buf pos realtime) timeout
     | None => throw Error_not_registered end) d1) by done.
  rewrite (bind_Done (gets (fun d => clients d !! target)) _ d1 (clients d !! target) d1 eq_refl) in Hrun.
  destruct (clients d !! target) as [t|] eqn:Ht.
  - destruct (cw_clients d (proj1 D) _ _ Ht) as (y & Hy & En & Ry).
    exists y. split; [done|]. split; [done|].
    set (d2 := db_count_w 1 len (db_upd t (count_w len) d1)).
    assert (D2 : delivered ∅ frame d d2).
    { replace ∅ with (∅ ∪ (∅ ∪ ∅) : gset nat) by set_solver.
      eapply delivered_trans; [set_solver|exact D1|].
      eapply delivered_trans; [set_solver|apply (delivered_upd t (count_w len))|].
      - split; [apply inert_count_w|done].
      - apply delivered_same_heap; [done..|]. by apply agree_same_heap. }
    destruct (dv_queue _ _ _ _ D2 t y Hy) as (y2 & Hy2 & Q2).
    rewrite decide_False in Q2 by set_solver.
    destruct (ag_to _ _ (dv_agree _ _ _ _ D2) c from Hc) as (from2 & Hc2 & (Enf & _)).
    rewrite (bind_Done (upd t _) _ d1 tt _ eq_refl) in Hrun.
    rewrite (bind_Done (modify _) _ _ tt d2 eq_refl) in Hrun.
    rewrite (bind_Done _ _ _ _ _ (deref_Some _ _ _ Hc2)) in Hrun. rewrite Enf in Hrun.
    fold frame in Hrun. split.
    + intros Hr. exists (db_upd t (set_tx (ch_push frame (tx y2))) d2).
      assert (Hr2 : ready y2) by (unfold ready; by rewrite Q2).
      assert (Dv : delivered {[ t ]} frame d (db_upd t (set_tx (ch_push frame (tx y2))) d2)).
      { replace {[ t ]} with (∅ ∪ {[ t ]} : gset nat) by set_solver.
        eapply delivered_trans; [set_solver|exact D2|]. by apply delivered_push; [|apply Hr2..]. }
      split_and!; [|by eapply Hwf|done]. rewrite Hrun. by apply safe_send_ready.
    + intros Hf Hcl. exists d2. split_and!; [|by eapply Hwf|done]. rewrite Hrun.
      unfold safe_send_frame, safe_send_frame_with.
      rewrite (bind_Done _ _ _ _ _ (deref_Some _ _ _ Hy2)). rewrite Q2, Hf.
      unfold ch_send. by rewrite Hcl.
  - exists d1. split_and!; [|by eapply Hwf|done]. by rewrite Hrun.
Qed.
