(* ===== verification/Announce.v ===== *)
(** * Announcements and slow clients

    [announce] keeps the mutex of the RPC client while it publishes, and publishing may
    unregister a slow subscriber, which announces again. The fuel that ties this recursion is
    irrelevant ([announce_fuel_enough]), the recursion is a self-deadlock
    ([announce_slow_subscriber_deadlock]), and without an RPC client a slow client is dropped
    cleanly ([slow_client_dropped]). *)
From S2P Require Export Delivery.

Section locked.
Context {X : Externals} `{!ExternalsLaws X}.

(** Two programs that do the same from every state in which the RPC client's mutex is held,
    and leave it held. *)
Definition locked_eq {A} (m1 m2 : prog BrokerDb Error A) : Prop :=
  forall d, rpc_lock d = true ->
    m1 d = m2 d /\
    match m1 d with Done _ d' | Throw _ d' => rpc_lock d' = true | _ => True end.

Lemma locked_bind {A B} (m1 m2 : prog BrokerDb Error A) (f1 f2 : A -> prog BrokerDb Error B) :
  locked_eq m1 m2 -> (forall a, locked_eq (f1 a) (f2 a)) -> locked_eq (m1 ≫= f1) (m2 ≫= f2).
Proof.
  intros Hm Hf d Hd. unfold mbind, prog_bind. destruct (Hm d Hd) as [<- Hl].
  destruct (m1 d); try done. by apply Hf.
Qed.

Lemma locked_attempt {A} (m1 m2 : prog BrokerDb Error A) :
  locked_eq m1 m2 -> locked_eq (attempt m1) (attempt m2).
Proof. intros Hm d Hd. unfold attempt. destruct (Hm d Hd) as [<- Hl]. by destruct (m1 d). Qed.

Lemma locked_for_each {A} (l : list A) f1 f2 :
  (forall a, locked_eq (f1 a) (f2 a)) -> locked_eq (for_each l f1) (for_each l f2).
Proof. intros Hf. induction l as [|a l IH]; [done|]. cbn. by apply locked_bind. Qed.

Lemma locked_when b m1 m2 : locked_eq m1 m2 -> locked_eq (when b m1) (when b m2).
Proof. by destruct b. Qed.

Lemma locked_ret {A} (a : A) : locked_eq (mret a) (mret a).
Proof. done. Qed.
Lemma locked_throw {A} e : locked_eq (A := A) (throw e) (throw e).
Proof. done. Qed.
Lemma locked_hang {A} : locked_eq (A := A) hang hang.
Proof. done. Qed.
Lemma locked_gets {A} (f : BrokerDb -> A) : locked_eq (gets f) (gets f).
Proof. done. Qed.
Lemma locked_upd c f : locked_eq (upd c f) (upd c f).
Proof. done. Qed.
Lemma locked_deref c : locked_eq (deref c) (deref c).
Proof. intros d Hd. unfold deref. by destruct (heap d !! c). Qed.
Lemma locked_bus {A} (m1 m2 : prog BrokerDb Error A) :
  locked_eq m1 m2 -> locked_eq (with_bus_lock m1) (with_bus_lock m2).
Proof.
  intros Hm d Hd. unfold with_bus_lock. destruct (bus_lock d); [done|].
  destruct (Hm (set_bus_lock true d) Hd) as [<- Hl]. by destruct (m1 _).
Qed.
(** The outer lock: what runs while it is held may differ as [locked_eq] allows. *)
Lemma with_rpc_lock_ext {A} (m1 m2 : prog BrokerDb Error A) d :
  locked_eq m1 m2 -> with_rpc_lock m1 d = with_rpc_lock m2 d.
Proof.
  intros Hm. unfold with_rpc_lock. destruct (rpc_lock d); [done|].
  by destruct (Hm (set_rpc_lock true d) eq_refl) as [<- _].
Qed.
Lemma locked_lift {A} (r : result A Error) : locked_eq (lift r) (lift r).
Proof. by destruct r. Qed.
Lemma locked_modify f :
  (forall d, rpc_lock (f d) = rpc_lock d) -> locked_eq (modify f) (modify f).
Proof. intros Hf d Hd. split; [done|]. cbn. by rewrite Hf. Qed.
End locked.

Create HintDb locked.
#[export] Hint Resolve locked_ret locked_throw locked_hang locked_gets locked_upd locked_deref locked_lift : locked.
#[export] Hint Extern 1 (locked_eq (modify _) (modify _)) => (apply locked_modify; done) : locked.

Ltac locked :=
  repeat first
    [ assumption
    | solve [ eauto with locked ]
    | apply locked_bind; [|intros ?]
    | apply locked_attempt
    | apply locked_when
    | apply locked_bus
    | apply locked_for_each; intros ?
    | match goal with
      | |- locked_eq (match ?x with _ => _ end) _ => destruct x
      end ].

Section announce.
Context {X : Externals} `{!ExternalsLaws X}.

Lemma locked_drop_client_fuel n held c : locked_eq (drop_client_fuel n held c) (drop_client_fuel n held c).
Proof.
  revert held c. induction n as [|n IH]; intros held c; [done|].
  cbn [drop_client_fuel]. unfold drop_secondary. locked.
Qed.

Lemma rest_rpc (d d' : BrokerDb) : rest d' = rest d -> rpc_lock d' = rpc_lock d /\ rpc_client d' = rpc_client d.
Proof. unfold rest. by intros [= -> -> _]. Qed.

Lemma rest_bus (d d' : BrokerDb) : rest d' = rest d -> bus_lock d' = bus_lock d.
Proof. unfold rest. by intros [= _ _ ->]. Qed.

Section congruence.
Context (u1 u2 : nat -> prog BrokerDb Error unit).
Hypothesis Hu : forall c, locked_eq (u1 c) (u2 c).

Lemma locked_safe_send tgt frame timeout :
  locked_eq (safe_send_frame_with u1 tgt frame timeout) (safe_send_frame_with u2 tgt frame timeout).
Proof using Hu. unfold safe_send_frame_with. locked. Qed.

Lemma locked_publish c topic header buf pos len realtime timeout :
  locked_eq (publish_with u1 c topic header buf pos len realtime timeout)
            (publish_with u2 c topic header buf pos len realtime timeout).
Proof using Hu.
  unfold publish_with, count_incoming, deliver_all. locked; apply locked_safe_send.
Qed.

(** The announcement itself runs the publication with the mutex held. *)
Lemma announce_with_ext event d : announce_with u1 event d = announce_with u2 event d.
Proof using Hu.
  unfold announce_with. apply with_rpc_lock_ext, locked_bind; [done|]. intros [bus|]; [|done].
  apply locked_bus, locked_bind; [apply locked_lift|]. intros payload. apply locked_publish.
Qed.
End congruence.

Lemma announce_locked n event d : rpc_lock d = true -> announce_fuel n event d = Hang d.
Proof. intros Hl. destruct n; [done|]. cbn. unfold announce_with, with_rpc_lock. by rewrite Hl. Qed.

(** Without an RPC client there is nothing to announce to. *)
Lemma announce_silent u event d :
  rpc_client d = None -> rpc_lock d = false -> announce_with u event d = Done tt d.
Proof.
  intros Hc Hl. unfold announce_with, with_rpc_lock, mbind, prog_bind, gets. cbn. rewrite Hl, Hc. cbn.
  by destruct d; cbn in *; subst.
Qed.

Lemma locked_unregister n1 n2 c :
  locked_eq (unregister_client_with (announce_fuel n1) c) (unregister_client_with (announce_fuel n2) c).
Proof.
  unfold unregister_client_with, drop_client. pose proof locked_drop_client_fuel. locked.
  intros d Hd. by rewrite !announce_locked.
Qed.

(** An announcement while the RPC client or its bus client is in use. *)
Lemma announce_blocked event bus d :
  rpc_client d = Some bus -> rpc_lock d = true \/ bus_lock d = true -> announce event d = Hang (set_rpc_lock true d).
Proof.
  intros Hc Hb. destruct (rpc_lock d) eqn:Hr.
  - unfold announce. rewrite announce_locked by done. destruct d. cbn in *. by subst.
  - destruct Hb as [?|Hb]; [done|]. unfold announce. cbn [announce_fuel].
    unfold announce_with, with_rpc_lock, mbind, prog_bind, gets.
    rewrite Hr. cbn [set_rpc_lock rpc_client]. rewrite Hc. unfold with_bus_lock. cbn [set_rpc_lock bus_lock]. by rewrite Hb.
Qed.

(** Sending to a full queue meanwhile. *)
Lemma send_full_hangs d bus c from t y header buf pos len realtime :
  db_wf d -> rpc_client d = Some bus -> rpc_lock d = true \/ bus_lock d = true ->
  heap d !! c = Some from -> heap d !! t = Some y ->
  registered y = true -> primary y = true -> ckind y <> Internal -> ch_is_full (tx y) = true ->
  exists d', send c (name y) header buf pos len realtime None d = Hang d' /\
    rpc_lock d' = true /\ bus_lock d' = bus_lock d /\ rpc_client d' = Some bus /\ clients d' !! name y = None.
Proof.
  intros D Hrpc Hbl Hc Hy Hr Hp Hk Hfull.
  set (d1 := db_count_w 1 len (db_upd t (count_w len) (db_count_r 1 len (db_upd c (count_r len) d)))).
  assert (A : agree d d1).
  { eapply agree_trans; [apply (agree_upd c (count_r len)), inert_count_r|].
    eapply agree_trans; [by apply (agree_same_heap _ (db_count_r 1 len (db_upd c (count_r len) d)))|].
    eapply agree_trans; [apply (agree_upd t (count_w len)), inert_count_w|]. by apply agree_same_heap. }
  assert (Hx : forall x z, heap d !! x = Some z -> exists z', heap d1 !! x = Some z' /\ name z' = name z /\
    tx z' = tx z /\ ckind z' = ckind z /\ registered z' = registered z /\ primary z' = primary z).
  { intros x z Hz. eexists. split.
    - apply heap_db_upd. eexists. split; [apply heap_db_upd; eexists; split; [done|]|]; reflexivity.
    - by repeat case_decide. }
  destruct (Hx c from Hc) as (from1 & Hc1 & Ef & _). destruct (Hx t y Hy) as (y1 & Hy1 & En & Et & Ek & Er & Ep).
  destruct (drop_client_Done d1 t y1) as (d2 & T & Edrop & _ & R2 & _); [by eapply agree_wf|done|congruence|].
  destruct (rest_rpc _ _ (dr_rest _ _ _ _ R2)) as [El Ecl]. pose proof (rest_bus _ _ (dr_rest _ _ _ _ R2)) as Eb.
  exists (set_rpc_lock true d2). split_and!; [|done|exact Eb|by cbn; rewrite Ecl|].
  - unfold send, send_with. rewrite (bind_Done _ _ _ _ _ (count_incoming_run c len d)).
    rewrite (bind_Done (gets _) _ _ (Some t) (db_count_r 1 len (db_upd c (count_r len) d)));
      [|unfold gets; cbn; by rewrite (cw_registered d (proj1 D) t y)].
    rewrite (bind_Done (upd _ _) _ _ tt _ eq_refl), (bind_Done (modify _) _ _ tt d1 eq_refl).
    rewrite (bind_Done _ _ _ _ _ (deref_Some _ _ _ Hc1)). unfold safe_send_frame_with.
    rewrite (bind_Done _ _ _ _ _ (deref_Some _ _ _ Hy1)), Et, Hfull, decide_False by congruence.
    fold unregister_client. unfold mbind, prog_bind. rewrite (unregister_client_run d1 t y1 Hy1), Edrop.
    rewrite Ep, Er, Hp, Hr. cbn [andb]. unfold announced, when, mbind, prog_bind, attempt.
    by rewrite (announce_blocked _ bus d2); [|rewrite Ecl|rewrite El, Eb].
  - change (clients d2 !! name y = None). rewrite (dr_clients _ _ _ _ R2), decide_True; [done|].
    unfold leaves. rewrite En. set_solver.
Qed.
(** ** Announcing to slow and to ready subscribers *)

(** A frame for a slow primary, from within an announcement. *)
Lemma slow_send_hangs n t y frame d :
  db_wf d -> rpc_lock d = true -> heap d !! t = Some y ->
  registered y = true -> primary y = true -> ckind y <> Internal -> ch_is_full (tx y) = true ->
  exists d', safe_send_frame_with (unregister_client_with (announce_fuel n)) t frame None d = Hang d' /\ rpc_lock d' = true.
Proof.
  intros D Hl Hy Hr Hp Hk Hfull. destruct (drop_client_Done d t y D Hy Hr) as (d3 & T & Edrop & _ & R3 & _).
  assert (Hl3 : rpc_lock d3 = true) by by destruct (rest_rpc _ _ (dr_rest _ _ _ _ R3)) as [-> _].
  exists d3. split; [|done]. unfold safe_send_frame_with. rewrite (bind_Done _ _ _ _ _ (deref_Some _ _ _ Hy)).
  rewrite Hfull, decide_False by done.
  unfold unregister_client_with, mbind at 1, prog_bind at 1.
  rewrite (bind_Done _ _ _ _ _ (deref_Some _ _ _ Hy)), (bind_Done _ _ _ _ _ Edrop).
  rewrite Hp, Hr. cbn [andb when]. unfold mbind, prog_bind, attempt. by rewrite (announce_locked n _ d3 Hl3).
Qed.

Lemma for_each_app {S E A} (l1 l2 : list A) (f : A -> prog S E unit) s s1 :
  for_each l1 f s = Done tt s1 -> for_each (l1 ++ l2) f s = for_each l2 f s1.
Proof.
  revert s. induction l1 as [|x l1 IH]; intros s; [by intros [= <-]|]. cbn [app for_each]. unfold mbind, prog_bind.
  destruct (f x s) as [[]| | |]; [apply IH|done..].
Qed.

(** The receivers of an event up to the first slow one, which is a primary socket client. *)
Definition stuck_at (d : BrokerDb) (topic : str) (pre : list (BrokerClient ext_digest)) (s : BrokerClient ext_digest)
    (y : BusRtClient) : Prop :=
  (exists post, retain (retained topic) d (sm_get_subscribers (subscriptions d) topic) = pre ++ s :: post) /\
  (forall p, p ∈ pre -> exists z, heap d !! ptr p = Some z /\ ready z) /\
  heap d !! ptr s = Some y /\ registered y = true /\ primary y = true /\ ckind y <> Internal /\
  ch_is_full (tx y) = true.

Lemma deliver_all_slow n pre s post frame len y d :
  db_wf d -> rpc_lock d = true -> NoDup (ptr <$> pre ++ s :: post) ->
  (forall p, p ∈ pre -> exists z, heap d !! ptr p = Some z /\ ready z) ->
  heap d !! ptr s = Some y -> registered y = true -> primary y = true -> ckind y <> Internal -> ch_is_full (tx y) = true ->
  exists d', deliver_all (unregister_client_with (announce_fuel n)) (pre ++ s :: post) frame len None d = Hang d' /\
             rpc_lock d' = true.
Proof.
  intros D Hl Hnd Hpre Hy Hr Hp Hk Hfull. rewrite fmap_app in Hnd. apply NoDup_app in Hnd as (Hnd & Hdis & _).
  set (m := Z.of_nat (length (pre ++ s :: post))). set (d1 := db_count_w m (u64_mul len m) d).
  destruct (deliver_loop (unregister_client_with (announce_fuel n)) pre frame len None d1 Hnd Hpre) as (d2 & E2 & Dv).
  assert (Hs : ptr s ∉ (list_to_set (ptr <$> pre) : gset nat)).
  { intros Hin%elem_of_list_to_set. by apply (Hdis _ Hin), elem_of_cons; left. }
  destruct (dv_queue _ _ _ _ Dv (ptr s) y Hy) as (y2 & Hy2 & Q). rewrite decide_False in Q by done.
  destruct (dv_kind _ _ _ _ Dv (ptr s) y _ Hy Hy2) as [Ek _].
  destruct (ag_to _ _ (dv_agree _ _ _ _ Dv) (ptr s) y Hy) as (y2' & Hy2' & _ & _ & _ & Ep & Er & _).
  assert (y2' = y2) as -> by congruence.
  assert (W2 : db_wf d2) by (eapply agree_wf; [apply Dv|]; eapply agree_wf; [|exact D]; by apply agree_same_heap).
  destruct (slow_send_hangs n (ptr s) (count_w len y2) frame (db_upd (ptr s) (count_w len) d2)) as (d3 & Hsend & Hl3);
    [eapply agree_wf; [apply agree_upd, inert_count_w|done]| | |cbn; congruence..|].
  { change (rpc_lock d2 = true). by rewrite (dv_lock _ _ _ _ Dv). }
  { apply heap_db_upd. exists y2. by rewrite decide_True. }
  exists d3. split; [|done]. unfold deliver_all. fold m.
  destruct (pre ++ s :: post) as [|s0 l0] eqn:El; [by destruct pre|]. rewrite <- El.
  cbv iota. unfold mbind at 1, prog_bind at 1, modify. fold m d1. erewrite for_each_app by exact E2. cbn [for_each].
  unfold mbind at 1, prog_bind at 1. rewrite (bind_Done (upd _ _) _ _ tt _ eq_refl).
  unfold mbind at 1, prog_bind at 1, attempt. by rewrite Hsend.
Qed.

(** A publication within an announcement delivers to those and waits. *)
Lemma slow_publish_hangs n bus b topic payload pre s y d :
  db_wf d -> rpc_lock d = true -> heap d !! bus = Some b -> stuck_at d topic pre s y ->
  exists d', publish_with (unregister_client_with (announce_fuel n)) bus topic None payload 0
               (Z.of_nat (length payload)) false None d = Hang d' /\ rpc_lock d' = true.
Proof.
  intros D Hl Hb ([post Hsubs] & Hpre & Hy & Hr & Hp & Hk & Hfull). set (len := Z.of_nat (length payload)).
  set (d1 := db_count_r 1 len (db_upd bus (count_r len) d)).
  assert (Hx : forall x z, heap d !! x = Some z -> exists z', heap d1 !! x = Some z' /\
    (z' = z \/ z' = count_r len z)).
  { intros x z Hz. eexists. split; [apply heap_db_upd; eauto|]. case_decide; auto. }
  assert (Hb1 : heap d1 !! bus = Some (count_r len b)) by (apply heap_db_upd; exists b; by rewrite decide_True).
  pose proof (retain_NoDup d (retained topic) topic D) as Hnd. rewrite Hsubs in Hnd.
  destruct (Hx (ptr s) y Hy) as (y1 & Hy1 & E1).
  destruct (deliver_all_slow n pre s post (MkFrame FrameKind_Publish (Some (name (count_r len b))) (Some topic) None payload 0 false)
    len y1 d1) as (d' & E & Hl'); try done; try (by destruct E1 as [-> | ->]).
  - eapply agree_wf; [|exact D]. eapply agree_trans; [apply (agree_upd bus (count_r len)), inert_count_r|].
    by apply agree_same_heap.
  - intros p Hin. destruct (Hpre p Hin) as (z & Hz & Rz). destruct (Hx _ _ Hz) as (z' & Hz' & E).
    exists z'. split; [done|]. by destruct E as [-> | ->].
  - exists d'. split; [|done]. unfold publish_with. rewrite (bind_Done _ _ _ _ _ (count_incoming_run bus len _)). fold d1.
    rewrite (bind_Done (gets _) _ d1 (pre ++ s :: post) d1);
      [|unfold gets; rewrite <- Hsubs; f_equal; by apply (retain_counted _ d)].
    by rewrite (bind_Done _ _ _ _ _ (deref_Some _ _ _ Hb1)).
Qed.

(** The publication an announcement consists of. *)
Lemma announce_run event d bus payload :
  rpc_lock d = false -> bus_lock d = false -> rpc_client d = Some bus ->
  ext_event_to_vec (set_ev_t ext_now_ns event) = Ok payload ->
  announce event d =
    match publish_with (unregister_client_with (announce_fuel 1)) bus (ev_topic event) None payload 0
            (Z.of_nat (length payload)) false None (set_bus_lock true (set_rpc_lock true d)) with
    | Done _ d' => Done tt (set_rpc_lock false (set_bus_lock false d'))
    | Throw e d' => Throw e (set_rpc_lock false (set_bus_lock false d'))
    | Hang d' => Hang d'
    | Panic => Panic
    end.
Proof.
  intros Hl Hb Hrpc Hvec. unfold announce. cbn [announce_fuel]. unfold announce_with at 1, with_rpc_lock. rewrite Hl.
  unfold mbind at 1, prog_bind at 1, gets at 1. cbn [set_rpc_lock rpc_client]. rewrite Hrpc.
  unfold with_bus_lock. cbn [set_rpc_lock bus_lock]. rewrite Hb, Hvec.
  cbn [map_err lift announce_fuel]. rewrite (bind_Done (mret payload) _ _ payload _ eq_refl).
  by destruct (publish_with _ _ _ _ _ _ _ _ _ _) as [[]| | |].
Qed.

(** An announcement that meets a slow receiver. *)
Lemma announce_slow_hangs d event bus payload pre s y :
  db_wf d -> rpc_lock d = false -> rpc_client d = Some bus ->
  ext_event_to_vec (set_ev_t ext_now_ns event) = Ok payload -> stuck_at d (ev_topic event) pre s y ->
  exists d', announce event d = Hang d' /\ rpc_lock d' = true.
Proof.
  intros D Hlock Hrpc Hvec Hs. destruct (cw_rpc d (proj1 D) _ Hrpc) as [b Hb].
  destruct (bus_lock d) eqn:Hbl; [rewrite (announce_blocked event bus d); eauto|].
  rewrite (announce_run event d bus payload) by done.
  destruct (slow_publish_hangs 1 bus b (ev_topic event) payload pre s y (set_bus_lock true (set_rpc_lock true d)))
    as (d' & -> & Hl); try done; [|by eexists].
  eapply agree_wf; [|exact D]. by apply agree_same_heap.
Qed.

(** An announcement all of whose receivers are ready: it is published, registrations stay as
    they are, the mutexes are free again, and a queue changes by the announcement at most. *)
Lemma announce_ready d event bus payload :
  db_wf d -> rpc_lock d = false -> bus_lock d = false -> rpc_client d = Some bus ->
  ext_event_to_vec (set_ev_t ext_now_ns event) = Ok payload ->
  (forall x y, heap d !! x = Some y -> subscribed d (ev_topic event) x y -> retained (ev_topic event) y = true -> ready y) ->
  let frame := MkFrame FrameKind_Publish (name <$> heap d !! bus) (Some (ev_topic event)) None payload 0 false in
  exists d', announce event d = Done tt d' /\ db_wf d' /\ agree d d' /\ rpc_lock d' = false /\
    forall x y, heap d !! x = Some y ->
      exists y', heap d' !! x = Some y' /\
        (subscribed d (ev_topic event) x y -> retained (ev_topic event) y = true ->
           ch_items (tx y') = ch_items (tx y) ++ [frame]) /\
        ch_items (tx y') ∈ [ch_items (tx y); ch_items (tx y) ++ [frame]] /\
        ch_cap (tx y') = ch_cap (tx y) /\ ckind y' = ckind y /\ port y' = port y.
Proof.
  intros D Hl Hb Hrpc Hvec Hready. destruct (cw_rpc d (proj1 D) _ Hrpc) as [b Hbus]. rewrite Hbus. intros frame.
  rewrite (announce_run event d bus payload) by done. set (d0 := set_bus_lock true (set_rpc_lock true d)).
  assert (A : agree d d0) by by apply agree_same_heap.
  destruct (publish_filtered (unregister_client_with (announce_fuel 1)) d0 bus b (retained (ev_topic event)) (ev_topic event)
    None payload 0 (Z.of_nat (length payload)) false None) as (d' & E & Dv & W & Hq); try done.
  { by eapply agree_wf. }
  fold frame in Dv. set (d1 := set_rpc_lock false (set_bus_lock false d')).
  assert (A' : agree d' d1) by by apply agree_same_heap.
  unfold publish_with. rewrite E. exists d1. split_and!; [done|by eapply agree_wf| |done|].
  { eapply agree_trans; [exact A|]. eapply agree_trans; [apply Dv|done]. }
  intros x y Hy. destruct (Hq x y Hy) as (y' & Hy' & Hi & _). exists y'.
  destruct (dv_queue _ _ _ _ Dv x y Hy) as (y2 & Hy2 & Q), (dv_chan _ _ _ _ Dv _ _ _ Hy Hy'),
    (dv_kind _ _ _ _ Dv _ _ _ Hy Hy'). assert (y2 = y') as -> by congruence.
  split_and!; try done; [by auto|]. case_decide; rewrite Q; set_solver.
Qed.
End announce.

(** The fuel of [announce] is enough: any positive amount gives the same result from every
    state, because a nested announcement meets the mutex its caller holds. *)
Theorem announce_fuel_enough {X : Externals} `{!ExternalsLaws X} n event d :
  announce_fuel (S n) event d = announce event d.
Proof. exact (announce_with_ext _ _ (locked_unregister n 1) event d). Qed.

(** C28: announcing deadlocks on a slow subscriber: when the queues of some receivers of the event
    have room and the next is a registered primary client that is not internal and whose queue is
    full, the announcement unregisters it, the unregistration announces in turn, and waits for the
    mutex of the RPC client that the outer announcement holds: it never returns, and neither does
    any later announcement. *)
Theorem announce_slow_subscriber_deadlock {X : Externals} `{!ExternalsLaws X} d event bus payload pre s y :
  db_wf d -> rpc_lock d = false -> rpc_client d = Some bus ->
  ext_event_to_vec (set_ev_t ext_now_ns event) = Ok payload -> stuck_at d (ev_topic event) pre s y ->
  exists d', announce event d = Hang d' /\ forall event', announce event' d' = Hang d'.
Proof.
  intros D Hlock Hrpc Hvec Hs.
  destruct (announce_slow_hangs d event bus payload pre s y) as (d' & E & Hl); try done.
  exists d'. split; [done|]. intros event'. by apply announce_locked.
Qed.

(** A frame for a client whose queue is full is not delivered: if the client is not
    internal and no RPC client announces departures, the client is unregistered, its queue is
    closed, and the sender gets [NotDelivered]. *)
Theorem slow_client_dropped {X : Externals} `{!ExternalsLaws X} d t y frame timeout :
  db_wf d -> rpc_client d = None -> rpc_lock d = false ->
  heap d !! t = Some y -> ckind y <> Internal -> registered y = true -> ch_is_full (tx y) = true ->
  exists d', safe_send_frame t frame timeout d = Throw Error_not_delivered d' /\ db_wf d' /\
    clients d' !! name y = None /\
    exists y', heap d' !! t = Some y' /\ ch_is_closed (tx y') = true /\ ch_items (tx y') = ch_items (tx y).
Proof.
  intros D Hrpc Hlock Hy Hk Hr Hfull.
  destruct (drop_client_Done d t y D Hy Hr) as (d1 & T & E & D1 & R1 & _).
  destruct (dr_heap _ _ _ _ R1 _ _ Hy) as (y1 & Hy1 & F1 & _).
  destruct (rest_rpc _ _ (dr_rest _ _ _ _ R1)) as [El Ec].
  assert (Hun : unregister_client t d = Done tt d1).
  { rewrite (unregister_client_run d t y Hy), E. destruct (primary y && registered y); [|done].
    unfold announced, when, mbind, prog_bind, attempt, announce. cbn [announce_fuel]. by rewrite announce_silent by congruence. }
  exists (db_upd t (fun t => set_tx (ch_close (tx t)) t) d1). split_and!.
  - unfold safe_send_frame, safe_send_frame_with.
    rewrite (bind_Done _ _ _ _ _ (deref_Some _ _ _ Hy)), Hfull, decide_False by done.
    by rewrite (bind_Done _ _ _ _ _ Hun).
  - eapply agree_wf; [apply agree_upd, inert_set_tx|done].
  - change (clients d1 !! name y = None). rewrite (dr_clients _ _ _ _ R1), decide_True; [done|].
    unfold leaves. set_solver.
  - eexists. rewrite heap_db_upd. split; [eauto|]. rewrite decide_True by done.
    destruct (ch_close_spec (tx y1)) as (Hi & _ & Hc). cbn. split; [done|].
    rewrite Hi. by rewrite (proj1 F1).
Qed.
