(* ===== verification/Aaa.v ===== *)
(** * Access control ([ClientAaa], [src/broker.rs])

    The permissions of one client name: the hosts it may connect from, and for each kind of
    operation a map of masks with a flag for "anything". IP networks are those of the
    [ipnetwork] crate: a class. *)
From S2P Require Export External.

Class Networks := {
  net_addr : Type;
  net_network : Type;
  net_contains : net_network -> net_addr -> bool;
  (** ["0.0.0.0/0".parse()]. *)
  net_any_v4 : net_network;
  (** [Display] of an address. *)
  net_fmt : net_addr -> str;
}.

Section aaa.
Context {N : Networks} {M : Type} `{AclMapOps M}.

Record ClientAaa := MkAaa {
  hosts : list net_network;
  allow_p2p_map : M;
  allow_p2p_any : bool;
  allow_publish_map : M;
  allow_publish_any : bool;
  allow_subscribe_map : M;
  allow_subscribe_any : bool;
  allow_broadcast_map : M;
  allow_broadcast_any : bool;
}.

Definition peer_masks : M :=
  acl_match_any (lit "?") (acl_wildcard (lit "*") (acl_separator (lit ".") acl_new)).
Definition topic_masks : M :=
  acl_match_any (lit "+") (acl_wildcard (lit "#") (acl_separator (lit "/") acl_new)).

Definition ClientAaa_default : ClientAaa := {|
  hosts := [net_any_v4];
  allow_p2p_map := peer_masks;
  allow_p2p_any := true;
  allow_publish_map := topic_masks;
  allow_publish_any := true;
  allow_subscribe_map := topic_masks;
  allow_subscribe_any := true;
  allow_broadcast_map := peer_masks;
  allow_broadcast_any := true;
|}.

Definition hosts_allow (hs : list net_network) (a : ClientAaa) : ClientAaa :=
  MkAaa hs (allow_p2p_map a) (allow_p2p_any a) (allow_publish_map a) (allow_publish_any a)
    (allow_subscribe_map a) (allow_subscribe_any a) (allow_broadcast_map a) (allow_broadcast_any a).

(** The loop of the [allow_*_to] builders: insert the masks and note the one for anything. *)
Definition insert_masks (star : str) (masks : list str) (m : M) : bool * M :=
  foldl (fun '(any, m) mask => (any || bool_decide (mask = star), acl_insert mask m)) (false, m) masks.

Definition allow_p2p_to (masks : list str) (a : ClientAaa) : ClientAaa :=
  let '(any, m) := insert_masks (lit "*") masks (allow_p2p_map a) in
  MkAaa (hosts a) m any (allow_publish_map a) (allow_publish_any a)
    (allow_subscribe_map a) (allow_subscribe_any a) (allow_broadcast_map a) (allow_broadcast_any a).
Definition deny_p2p (a : ClientAaa) : ClientAaa :=
  MkAaa (hosts a) acl_new false (allow_publish_map a) (allow_publish_any a)
    (allow_subscribe_map a) (allow_subscribe_any a) (allow_broadcast_map a) (allow_broadcast_any a).

Definition allow_publish_to (masks : list str) (a : ClientAaa) : ClientAaa :=
  let '(any, m) := insert_masks (lit "#") masks (allow_publish_map a) in
  MkAaa (hosts a) (allow_p2p_map a) (allow_p2p_any a) m any
    (allow_subscribe_map a) (allow_subscribe_any a) (allow_broadcast_map a) (allow_broadcast_any a).
Definition deny_publish (a : ClientAaa) : ClientAaa :=
  MkAaa (hosts a) (allow_p2p_map a) (allow_p2p_any a) acl_new false
    (allow_subscribe_map a) (allow_subscribe_any a) (allow_broadcast_map a) (allow_broadcast_any a).

Definition allow_subscribe_to (masks : list str) (a : ClientAaa) : ClientAaa :=
  let '(any, m) := insert_masks (lit "#") masks (allow_subscribe_map a) in
  MkAaa (hosts a) (allow_p2p_map a) (allow_p2p_any a) (allow_publish_map a) (allow_publish_any a)
    m any (allow_broadcast_map a) (allow_broadcast_any a).
Definition deny_subscribe (a : ClientAaa) : ClientAaa :=
  MkAaa (hosts a) (allow_p2p_map a) (allow_p2p_any a) (allow_publish_map a) (allow_publish_any a)
    acl_new false (allow_broadcast_map a) (allow_broadcast_any a).

Definition allow_broadcast_to (masks : list str) (a : ClientAaa) : ClientAaa :=
  let '(any, m) := insert_masks (lit "*") masks (allow_broadcast_map a) in
  MkAaa (hosts a) (allow_p2p_map a) (allow_p2p_any a) (allow_publish_map a) (allow_publish_any a)
    (allow_subscribe_map a) (allow_subscribe_any a) m any.
Definition deny_broadcast (a : ClientAaa) : ClientAaa :=
  MkAaa (hosts a) (allow_p2p_map a) (allow_p2p_any a) (allow_publish_map a) (allow_publish_any a)
    (allow_subscribe_map a) (allow_subscribe_any a) acl_new false.

Definition connect_allowed (a : ClientAaa) (addr : net_addr) : bool :=
  existsb (fun h => net_contains h addr) (hosts a).

(** The tests of [handle_reader]; without an [aaa] everything is allowed. *)
Definition p2p_allowed (aaa : option ClientAaa) (target : str) : bool :=
  match aaa with
  | Some a => allow_p2p_any a || acl_matches (allow_p2p_map a) target
  | None => true
  end.
Definition publish_allowed (aaa : option ClientAaa) (topic : str) : bool :=
  match aaa with
  | Some a => allow_publish_any a || acl_matches (allow_publish_map a) topic
  | None => true
  end.
Definition subscribe_allowed (aaa : option ClientAaa) (topic : str) : bool :=
  match aaa with
  | Some a => allow_subscribe_any a || acl_matches (allow_subscribe_map a) topic
  | None => true
  end.
Definition broadcast_allowed (aaa : option ClientAaa) (target : str) : bool :=
  match aaa with
  | Some a => allow_broadcast_any a || acl_matches (allow_broadcast_map a) target
  | None => true
  end.

Context `{!AclMapLaws M}.

Lemma insert_masks_spec star masks m :
  let '(any, m') := insert_masks star masks m in
  any = bool_decide (star ∈ masks) /\ acl_masks m' = list_to_set masks ∪ acl_masks m /\
  acl_cfg m' = acl_cfg m.
Proof.
  unfold insert_masks.
  cut (forall b, let '(any, m') := foldl (fun '(any, m) mask =>
                (any || bool_decide (mask = star), acl_insert mask m)) (b, m) masks in
       any = b || bool_decide (star ∈ masks) /\ acl_masks m' = list_to_set masks ∪ acl_masks m /\
       acl_cfg m' = acl_cfg m); [intros Hc; apply (Hc false)|].
  revert m. induction masks as [|k masks IH]; intros m b; cbn.
  - rewrite bool_decide_false by set_solver. rewrite orb_false_r. split_and!; [done|set_solver|done].
  - specialize (IH (acl_insert k m) (b || bool_decide (k = star))).
    destruct (foldl _ _ _) as [any m']. destruct IH as (-> & Hm & Hc). split_and!.
    + rewrite <- orb_assoc. f_equal. repeat case_bool_decide; set_solver.
    + rewrite Hm, acl_masks_insert. set_solver.
    + by rewrite Hc, acl_cfg_insert.
Qed.

Lemma acl_matches_new topic : acl_matches acl_new topic = false.
Proof.
  apply not_true_is_false. intros (m & Hm & _)%acl_matches_spec. rewrite acl_masks_new in Hm. set_solver.
Qed.

Lemma peer_masks_empty : acl_masks peer_masks = ∅.
Proof. unfold peer_masks. by rewrite acl_masks_match_any, acl_masks_wildcard, acl_masks_separator, acl_masks_new. Qed.
Lemma topic_masks_empty : acl_masks topic_masks = ∅.
Proof. unfold topic_masks. by rewrite acl_masks_match_any, acl_masks_wildcard, acl_masks_separator, acl_masks_new. Qed.

(** What one [allow_*_to] over an empty map permits. *)
Lemma allowed_spec star masks m topic :
  acl_masks m = ∅ ->
  (let '(any, m') := insert_masks star masks m in any || acl_matches m' topic) = true <->
  star ∈ masks \/ exists k, k ∈ masks /\ acl_fits (acl_cfg m) k topic = true.
Proof.
  intros Hm. pose proof (insert_masks_spec star masks m) as Hs.
  destruct (insert_masks star masks m) as [any m']. destruct Hs as (-> & Hm' & Hc).
  rewrite orb_true_iff, bool_decide_eq_true, acl_matches_spec, Hm', Hm, Hc.
  setoid_rewrite elem_of_union. setoid_rewrite elem_of_list_to_set. set_solver.
Qed.
End aaa.
Arguments ClientAaa {N} M.

(** A client restricted with an [allow_*_to] builder may do exactly what a listed mask
    fits (and anything, when the mask for anything is listed); the other three kinds of
    operation keep their permissions. Denying one kind of operation refuses it for every
    target. A client without an entry is not restricted. *)
Theorem aaa_decisions {N : Networks} {M : Type} `{AclMapLaws M} (masks : list str) (t : str) :
  (p2p_allowed (Some (allow_p2p_to masks ClientAaa_default)) t = true <->
     lit "*" ∈ masks \/ exists k, k ∈ masks /\ acl_fits (acl_cfg (M := M) peer_masks) k t = true) /\
  (publish_allowed (Some (allow_publish_to masks ClientAaa_default)) t = true <->
     lit "#" ∈ masks \/ exists k, k ∈ masks /\ acl_fits (acl_cfg (M := M) topic_masks) k t = true) /\
  (subscribe_allowed (Some (allow_subscribe_to masks ClientAaa_default)) t = true <->
     lit "#" ∈ masks \/ exists k, k ∈ masks /\ acl_fits (acl_cfg (M := M) topic_masks) k t = true) /\
  (broadcast_allowed (Some (allow_broadcast_to masks ClientAaa_default)) t = true <->
     lit "*" ∈ masks \/ exists k, k ∈ masks /\ acl_fits (acl_cfg (M := M) peer_masks) k t = true) /\
  (forall a : ClientAaa M,
     p2p_allowed (Some (deny_p2p a)) t = false /\ publish_allowed (Some (deny_publish a)) t = false /\
     subscribe_allowed (Some (deny_subscribe a)) t = false /\
     broadcast_allowed (Some (deny_broadcast a)) t = false /\
     publish_allowed (Some (allow_p2p_to masks a)) t = publish_allowed (Some a) t /\
     publish_allowed (Some (deny_subscribe a)) t = publish_allowed (Some a) t) /\
  publish_allowed (M := M) None t = true.
Proof.
  split_and!.
  - rewrite <- (allowed_spec (lit "*") masks peer_masks t peer_masks_empty).
    unfold p2p_allowed, allow_p2p_to. cbn [ClientAaa_default allow_p2p_map]. by destruct (insert_masks _ _ _).
  - rewrite <- (allowed_spec (lit "#") masks topic_masks t topic_masks_empty).
    unfold publish_allowed, allow_publish_to. cbn [ClientAaa_default allow_publish_map]. by destruct (insert_masks _ _ _).
  - rewrite <- (allowed_spec (lit "#") masks topic_masks t topic_masks_empty).
    unfold subscribe_allowed, allow_subscribe_to. cbn [ClientAaa_default allow_subscribe_map]. by destruct (insert_masks _ _ _).
  - rewrite <- (allowed_spec (lit "*") masks peer_masks t peer_masks_empty).
    unfold broadcast_allowed, allow_broadcast_to. cbn [ClientAaa_default allow_broadcast_map]. by destruct (insert_masks _ _ _).
  - intros a. cbn. rewrite acl_matches_new. split_and!; try done.
    unfold allow_p2p_to. by destruct (insert_masks _ _ _).
  - done.
Qed.
