(* ===== verification/Peer.v ===== *)
(** * The broker's side of a connection ([src/broker.rs], [handle_peer] and its tasks)

    [read_packet] and [process_packet] are one turn of the loop of [handle_reader]; the
    packet's operation works on the database through the delivery programs of [Broker].
    [frame_writes] is what [handle_writer] writes for a frame, [pinger_tick] one turn of
    [handle_pinger], [finish_peer] the end of a connection. The dialogue up to the registration is
    in [Handshake]. *)
From S2P Require Export InternalClient Aaa Comm.

(** The parameters of [handle_reader]; the allocator of large buffers is the embedder's: it may
    refuse, and chooses the length of the buffer it returns. *)
Record ReaderParams {N : Networks} (M : Type) := MkReaderParams {
  rp_timeout : Z;
  rp_payload_size_limit : option Z;
  rp_aaa : option (ClientAaa M);
  rp_direct_alloc_limit : option Z;
  rp_async_allocator : option (str -> Z -> option Z);
}.
Arguments MkReaderParams {N M}.
Arguments rp_timeout {N M}.
Arguments rp_payload_size_limit {N M}.
Arguments rp_aaa {N M}.
Arguments rp_direct_alloc_limit {N M}.
Arguments rp_async_allocator {N M}.

Inductive packet_read :=
| PkNop (rest : source)
| Pk (op_id : bytes) (op : FrameOp) (qos : QoS) (len : Z) (buf : bytes) (rest : source)
| PkEof
| PkErr (e : Error)
| PkPanic.

Section reader.
Context {X : Externals} {N : Networks}.

(** ** Reading one packet *)

(** The length of the payload buffer. [None]: [unwrap] of a missing allocator. *)
Definition alloc_buf (p : ReaderParams ext_acl) (client_name : str) (len : Z) : option (result Z Error) :=
  match rp_direct_alloc_limit p with
  | Some limit =>
      if len >? limit then
        allocate ← rp_async_allocator p;
        Some (ok_or (allocate client_name len)
                (Error_io (lit "Refused to allocate " ++ fmt_z len ++ lit " bytes")))
      else Some (Ok len)
  | None => Some (Ok len)
  end.

(** The flag byte: the operation in the low six bits, the QoS in the high two. *)
Definition parse_flags (flags : byte) : result (FrameOp * QoS) Error :=
  let? op := FrameOp_try_from (u8 (Z.land (u8_val flags) 63)) in
  let? qos := QoS_try_from (u8 (Z.land (Z.shiftr (u8_val flags) 6) 63)) in
  Ok (op, qos).

Definition read_packet (p : ReaderParams ext_acl) (client_name : str) (src : source) : packet_read :=
  match read_exact 9 src with
  | ReadErr e => if decide (io_err_kind e = UnexpectedEof) then PkEof else PkErr (Error_from_io e)
  | ReadStall => PkErr Error_timeout
  | ReadOk header_buf src =>
      let flags := header_buf !!! 4%nat in
      if decide (flags = x00) then PkNop src else
      let op_id := take 4 header_buf in
      match parse_flags flags with
      | Err e => PkErr e
      | Ok (op, qos) =>
          let len := from_le_bytes (drop 5 header_buf) in
          let oversized := match rp_payload_size_limit p with Some limit => len >? limit | None => false end in
          if oversized then
            PkErr (Error_data (lit "Payload size " ++ fmt_z len ++ lit " exceeds the limit of "
                     ++ fmt_z (default 0 (rp_payload_size_limit p)) ++ lit " bytes"))
          else match alloc_buf p client_name len with
          | None => PkPanic
          | Some (Err e) => PkErr e
          | Some (Ok n) =>
              match read_exact n src with
              | ReadErr e => PkErr (Error_from_io e)
              | ReadStall => PkErr Error_timeout
              | ReadOk buf src => Pk op_id op qos len buf src
              end
          end
      end
  end.

(** ** Processing one packet *)

Section packet.
Context (p : ReaderParams ext_acl) (c : nat) (op_id : bytes) (qos : QoS).

(** [send_ack!]. *)
Definition send_ack (code : byte) (realtime : bool) : prog BrokerDb Error unit :=
  upd c (count_w 6) ≫= fun _ =>
  modify (db_count_w 1 6) ≫= fun _ =>
  deref c ≫= fun cl =>
  match ch_send (ext_room c)
          (MkFrame FrameKind_Prepared None None None ([OP_ACK] ++ op_id ++ [code]) 0 realtime) (tx cl) with
  | Sent q => upd c (set_tx q)
  | SendClosed => throw Error_from_send
  | SendBlocked q => upd c (set_tx q) ≫= fun _ => hang
  end.

Definition ack_if_needed (code : byte) : prog BrokerDb Error unit :=
  when (needs_ack qos) (send_ack code (is_realtime qos)).

(** [std::str::from_utf8(t)?]. *)
Definition utf8 (t : bytes) : prog BrokerDb Error str :=
  lift (map_err Error_from_utf8 (from_utf8 t)).

(** The topics of a subscription that the client may subscribe to. *)
Fixpoint allowed_topics (sp : list bytes) : prog BrokerDb Error (list str) :=
  match sp with
  | [] => mret []
  | t :: sp =>
      utf8 t ≫= fun topic =>
      if subscribe_allowed (rp_aaa p) topic then
        allowed_topics sp ≫= fun topics => mret (topic :: topics)
      else ack_if_needed ERR_ACCESS ≫= fun _ => allowed_topics sp
  end.

Definition sub_update (f : str -> BrokerClient ext_digest -> ext_submap -> bool * ext_submap) (topic : str)
    : prog BrokerDb Error unit :=
  deref c ≫= fun cl =>
  modify (fun d => set_subscriptions (snd (f topic (handle c cl) (subscriptions d))) d).

Definition subscribe_packet (len : Z) (buf : bytes) : prog BrokerDb Error unit :=
  count_incoming c len ≫= fun _ =>
  allowed_topics (split x00 buf) ≫= fun topics =>
  for_each topics (sub_update sm_subscribe) ≫= fun _ =>
  ack_if_needed RESPONSE_OK.

Definition exclude_packet (len : Z) (buf : bytes) : prog BrokerDb Error unit :=
  count_incoming c len ≫= fun _ =>
  for_each (split x00 buf) (fun t => utf8 t ≫= fun topic =>
    upd c (fun cl => set_exclusions (acl_insert topic (exclusions cl)) cl)) ≫= fun _ =>
  when (negb (bool_decide (split x00 buf = []))) (upd c (set_has_exclusions true)) ≫= fun _ =>
  ack_if_needed RESPONSE_OK.

Definition unexclude_packet (len : Z) (buf : bytes) : prog BrokerDb Error unit :=
  count_incoming c len ≫= fun _ =>
  for_each (split x00 buf) (fun t => utf8 t ≫= fun topic =>
    upd c (fun cl => set_exclusions (acl_remove topic (exclusions cl)) cl)) ≫= fun _ =>
  upd c (fun cl => if acl_is_empty (exclusions cl) then set_has_exclusions false cl else cl) ≫= fun _ =>
  ack_if_needed RESPONSE_OK.

Definition unsubscribe_packet (len : Z) (buf : bytes) : prog BrokerDb Error unit :=
  count_incoming c len ≫= fun _ =>
  for_each (split x00 buf) (fun t => utf8 t ≫= sub_update sm_unsubscribe) ≫= fun _ =>
  ack_if_needed RESPONSE_OK.

(** Target and payload position: [buf.splitn(2, ..)] twice [next()?]. *)
Definition split_target (buf : bytes) : result (str * Z) Error :=
  let sp := splitn 2 x00 buf in
  let? tgt := ok_or (sp !! 0%nat) (Error_data (lit "broken frame")) in
  let? target := map_err Error_from_utf8 (from_utf8 tgt) in
  let? _ := ok_or (sp !! 1%nat) (Error_data (lit "broken frame")) in
  Ok (target, Z.of_nat (length tgt) + 1).

Definition message_packet (target : str) (payload_pos : Z) (buf : bytes) : prog BrokerDb Error unit :=
  if p2p_allowed (rp_aaa p) target then
    attempt (send c target None buf payload_pos (blen buf) (is_realtime qos) (Some (rp_timeout p))) ≫= fun r =>
    match r with
    | Err e => ack_if_needed (ErrorKind_code (kind e))
    | Ok _ => ack_if_needed RESPONSE_OK
    end
  else ack_if_needed ERR_ACCESS.

Definition broadcast_packet (target : str) (payload_pos : Z) (buf : bytes) : prog BrokerDb Error unit :=
  if broadcast_allowed (rp_aaa p) target then
    send_broadcast c target None buf payload_pos (blen buf) (is_realtime qos) (Some (rp_timeout p)) ≫= fun _ =>
    ack_if_needed RESPONSE_OK
  else ack_if_needed ERR_ACCESS.

Definition publish_packet (target : str) (payload_pos : Z) (buf : bytes) : prog BrokerDb Error unit :=
  if publish_allowed (rp_aaa p) target then
    publish c target None buf payload_pos (blen buf) (is_realtime qos) (Some (rp_timeout p)) ≫= fun _ =>
    ack_if_needed RESPONSE_OK
  else ack_if_needed ERR_ACCESS.

Definition publish_for_packet (target : str) (payload_pos : Z) (buf : bytes) : prog BrokerDb Error unit :=
  match slice_from payload_pos buf with
  | None => panic
  | Some rest =>
      lift (split_target rest) ≫= fun '(receiver, pos) =>
      let payload_pos := payload_pos + pos in
      if publish_allowed (rp_aaa p) target then
        publish_for c target receiver None buf payload_pos (blen buf) (is_realtime qos)
          (Some (rp_timeout p)) ≫= fun _ =>
        ack_if_needed RESPONSE_OK
      else ack_if_needed ERR_ACCESS
  end.

Definition process_packet (op : FrameOp) (len : Z) (buf : bytes) : prog BrokerDb Error unit :=
  match op with
  | FrameOp_SubscribeTopic => subscribe_packet len buf
  | FrameOp_ExcludeTopic => exclude_packet len buf
  | FrameOp_UnexcludeTopic => unexclude_packet len buf
  | FrameOp_UnsubscribeTopic => unsubscribe_packet len buf
  | _ =>
      lift (split_target buf) ≫= fun '(target, payload_pos) =>
      match op with
      | FrameOp_Message => message_packet target payload_pos buf
      | FrameOp_Broadcast => broadcast_packet target payload_pos buf
      | FrameOp_PublishTopic => publish_packet target payload_pos buf
      | FrameOp_PublishTopicFor => publish_for_packet target payload_pos buf
      | _ => mret tt
      end
  end.
End packet.

(** [handle_reader]. Every turn consumes at least nine bytes: [reader_fuel] turns suffice. *)
Fixpoint handle_reader (fuel : nat) (p : ReaderParams ext_acl) (c : nat) (src : source)
    : prog BrokerDb Error unit :=
  match fuel with
  | O => hang
  | S fuel =>
      deref c ≫= fun cl =>
      match read_packet p (name cl) src with
      | PkEof => mret tt
      | PkErr e => throw e
      | PkPanic => panic
      | PkNop src => handle_reader fuel p c src
      | Pk op_id op qos len buf src =>
          process_packet p c op_id qos op len buf ≫= fun _ => handle_reader fuel p c src
      end
  end.

Definition reader_fuel (src : source) : nat := S (length (src_data src)).

(** ** [handle_pinger], [finish_peer!], [format_result!] *)

(** One turn of the pinger, after its sleep. *)
Definition pinger_tick (c : nat) : prog BrokerDb Error unit :=
  deref c ≫= fun cl =>
  if ch_is_full (tx cl) then throw (Error_io (lit "client queue overflow"))
  else match ch_send 0 new_nop (tx cl) with
       | Sent q => upd c (set_tx q)
       | SendClosed => throw Error_from_send
       | SendBlocked _ => hang
       end.

(** How [handle_peer] ends, whichever of its tasks ended first: the client is unregistered and
    its name is added to the error. *)
Definition format_result (client_name : str) (r : result unit Error) : result unit Error :=
  let client_msg := lit "[" ++ client_name ++ lit "]" in
  map_err (fun e => MkError (kind e)
    (Some (match message e with Some msg => msg ++ lit " " ++ client_msg | None => client_msg end))) r.

Definition finish_peer (c : nat) (r : result unit Error) : prog BrokerDb Error unit :=
  deref c ≫= fun cl =>
  unregister_client c ≫= fun _ => lift (format_result (name cl) r).
End reader.

(** ** [handle_writer] *)

(** The writes of one frame: [None] where the code panics (a payload position past the end of
    the buffer). *)
Definition frame_writes (f : FrameData) : option (list (bytes * Flush)) :=
  if decide (frame_kind f = FrameKind_Prepared) then
    Some [(frame_buf f, Flush_from (frame_realtime f))]
  else
    data ← payload f;
    let opt_nul (o : option str) := match o with Some s => s ++ [x00] | None => [] end in
    let frame_len :=
      blen (opt_nul (frame_sender f)) + blen (opt_nul (frame_topic f))
        + blen (default [] (frame_header f)) + blen (frame_buf f) - frame_payload_pos f in
    let head := [FrameKind_code (frame_kind f)] ++ to_le_bytes 4 frame_len
                  ++ [if frame_realtime f then x01 else x00]
                  ++ opt_nul (frame_sender f) ++ opt_nul (frame_topic f) in
    Some ([(head, Flush_No)]
            ++ match frame_header f with Some h => [(h, Flush_No)] | None => [] end
            ++ [(data, Flush_from (frame_realtime f))]).

Section writer.
Context {W : Type} `{BufWriterOps W}.

Fixpoint write_list (ws : list (bytes * Flush)) (t : TtlBufWriter W)
    : result unit io_error * TtlBufWriter W :=
  match ws with
  | [] => (Ok tt, t)
  | (data, flush) :: ws =>
      match write data flush t with
      | (Ok _, t) => write_list ws t
      | (Err e, t) => (Err e, t)
      end
  end.

(** [handle_writer] over the frames it receives until its queue closes. *)
Fixpoint handle_writer (frames : list FrameData) (t : TtlBufWriter W)
    : option (result unit Error * TtlBufWriter W) :=
  match frames with
  | [] => Some (Ok tt, t)
  | f :: frames =>
      ws ← frame_writes f;
      match write_list ws t with
      | (Ok _, t) => handle_writer frames t
      | (Err e, t) => Some (Err (Error_from_io e), t)
      end
  end.
End writer.
