(* ===== verification/Handshake.v ===== *)
(** * Connecting: [chat] ([src/ipc.rs]) against [handle_peer] ([src/broker.rs])

    Both sides of the dialogue that opens a connection, each as a program over its end of the
    socket: the bytes it will read and the bytes it has written. The broker's side also works
    on the database. *)
From S2P Require Export Peer Registry.
From S2P Require Import Announce Ipc.

Record conn := MkConn {
  cn_in : source;
  cn_out : bytes;
  (** What happens to the writes to come. *)
  cn_writes : list write_outcome;
}.

Section io.
Context {S : Type} (get : S -> conn) (put : conn -> S -> S).

Definition io_read_exact (n : Z) (timed : bool) : prog S Error bytes := fun s =>
  match read_exact n (cn_in (get s)) with
  | ReadOk data rest => Done data (put (MkConn rest (cn_out (get s)) (cn_writes (get s))) s)
  | ReadErr e => Throw (Error_from_io e) s
  | ReadStall => if timed then Throw Error_timeout s else Hang s
  end.

Definition io_write (data : bytes) : prog S Error unit := fun s =>
  let '(out, ws) := match cn_writes (get s) with [] => (WriteOk, []) | o :: ws => (o, ws) end in
  let s' := put (MkConn (cn_in (get s)) (cn_out (get s) ++ data) ws) s in
  match out with
  | WriteOk => Done tt s'
  | WriteErr e => Throw (Error_from_io e) s'
  | WriteElapsed => Throw Error_timeout s'
  | WriteCancelled => Hang s'
  end.
End io.

(** ** The client *)

Definition conn_read (n : Z) : prog conn Error bytes := io_read_exact id (fun c _ => c) n false.
Definition conn_write (data : bytes) : prog conn Error unit := io_write id (fun c _ => c) data.

(** [chat]; [connect] runs it under its own timeout. *)
Definition chat (name : str) : prog conn Error unit :=
  if blen name >? 65535 then throw (Error_data (lit "name too long")) else
  conn_read 3 ≫= fun buf =>
  if negb (bool_decide (buf !!! 0%nat = GREETINGS !!! 0%nat)) then
    throw (Error_not_supported (lit "Invalid greetings")) else
  if negb (from_le_bytes (drop 1 buf) =? PROTOCOL_VERSION) then
    throw (Error_not_supported (lit "Unsupported protocol version")) else
  conn_write buf ≫= fun _ =>
  conn_read 1 ≫= fun buf =>
  let code := buf !!! 0%nat in
  if negb (bool_decide (code = RESPONSE_OK)) then
    throw (MkError (ErrorKind_from_u8 code)
             (Some (lit "Server greetings response: " ++ fmt_z (u8_val code)))) else
  conn_write (to_le_bytes 2 (blen name)) ≫= fun _ =>
  conn_write name ≫= fun _ =>
  conn_read 1 ≫= fun buf =>
  let code := buf !!! 0%nat in
  if negb (bool_decide (code = RESPONSE_OK)) then
    throw (MkError (ErrorKind_from_u8 code)
             (Some (lit "Server registration response: " ++ fmt_z (u8_val code)))) else
  mret tt.

(** ** The broker *)

Section peer.
Context {X : Externals} {N : Networks}.

Record PeerParams := MkPeerParams {
  pp_queue_size : Z;
  pp_kind : BusRtClientKind;
  pp_source : option str;
  pp_source_port : option str;
  (** The address, unless it is a UNIX socket. *)
  pp_ip : option net_addr;
  pp_aaa_map : option (gmap str (ClientAaa ext_acl));
}.

Definition session : Type := BrokerDb * conn.

Definition on_db {A} (m : prog BrokerDb Error A) : prog session Error A := fun '(d, k) =>
  match m d with
  | Done a d => Done a (d, k)
  | Throw e d => Throw e (d, k)
  | Hang d => Hang (d, k)
  | Panic => Panic
  end.

Definition peer_read (n : Z) : prog session Error bytes :=
  io_read_exact snd (fun k s => (s.1, k)) n true.
Definition write_and_flush (data : bytes) : prog session Error unit :=
  io_write snd (fun k s => (s.1, k)) data.

Definition refuse {A} (code : byte) (e : Error) : prog session Error A :=
  write_and_flush [code] ≫= fun _ => throw e.

(** The permissions of the client, if there is a map of them. *)
Definition authorize (p : PeerParams) (client_name client_primary_name : str)
    : prog session Error (option (ClientAaa ext_acl)) :=
  match pp_aaa_map p with
  | None => mret None
  | Some aaa_map =>
      match aaa_map !! client_primary_name with
      | None => refuse ERR_ACCESS (Error_access (lit "Client not in AAA map: " ++ client_name))
      | Some a =>
          match pp_ip p with
          | Some addr =>
              if connect_allowed a addr then mret (Some a)
              else refuse ERR_ACCESS
                     (Error_access (lit "Client " ++ client_name
                        ++ lit " is not allowed to connect from " ++ net_fmt addr))
          | None => mret (Some a)
          end
      end
  end.

(** [handle_peer] up to the registration of the client. *)
Definition handshake (p : PeerParams) : prog session Error (nat * option (ClientAaa ext_acl)) :=
  write_and_flush (GREETINGS ++ to_le_bytes 2 PROTOCOL_VERSION) ≫= fun _ =>
  peer_read 3 ≫= fun buf =>
  if negb (bool_decide (buf !!! 0%nat = GREETINGS !!! 0%nat)) then
    refuse ERR_NOT_SUPPORTED (Error_not_supported (lit "invalid protocol")) else
  if negb (from_le_bytes (drop 1 buf) =? PROTOCOL_VERSION) then
    refuse ERR_NOT_SUPPORTED (Error_not_supported (lit "unsupported protocol version")) else
  write_and_flush [RESPONSE_OK] ≫= fun _ =>
  peer_read 2 ≫= fun buf =>
  peer_read (from_le_bytes buf) ≫= fun buf =>
  lift (map_err Error_from_utf8 (from_utf8 buf)) ≫= fun client_name =>
  if bool_decide (client_name = []) || starts_with (lit ".") client_name then
    refuse ERR_DATA (Error_data (lit "Invalid client name: " ++ client_name)) else
  let client := new_client client_name (pp_queue_size p) (pp_kind p) (pp_source p) (pp_source_port p) in
  authorize p client_name (primary_name client) ≫= fun aaa =>
  on_db (alloc client) ≫= fun c =>
  on_db (attempt (db_register_client c)) ≫= fun r =>
  match r with
  | Err e => refuse (ErrorKind_code (kind e)) e
  | Ok _ => write_and_flush [RESPONSE_OK] ≫= fun _ => mret (c, aaa)
  end.

(** The name a connection may use with these parameters, and the permissions it gets. *)
Definition authorized (p : PeerParams) (nm : str) (aaa : option (ClientAaa ext_acl)) : Prop :=
  is_str nm = true /\ nm <> [] /\ starts_with (lit ".") nm = false /\
  match pp_aaa_map p with
  | None => aaa = None
  | Some m => exists a, m !! before_sep nm = Some a /\ aaa = Some a /\
                        forall addr, pp_ip p = Some addr -> connect_allowed a addr = true
  end.

(** The registration a handshake performs. *)
Definition registration (p : PeerParams) (nm : str) : prog BrokerDb Error nat :=
  alloc (new_client nm (pp_queue_size p) (pp_kind p) (pp_source p) (pp_source_port p)) ≫= fun c =>
  db_register_client c ≫= fun _ => mret c.

(** *** What a program may do to the database *)

(** [m] ends with the database it started with, or with one in [R]; it ends normally only with
    a result in [Q]. *)
Definition touches {A} (R : BrokerDb -> BrokerDb -> Prop) (Q : BrokerDb -> A -> BrokerDb -> Prop)
    (m : prog session Error A) : Prop :=
  forall s, match m s with
            | Done a s' => Q s.1 a s'.1
            | Throw _ s' | Hang s' => s'.1 = s.1 \/ R s.1 s'.1
            | Panic => True
            end.

Lemma touches_bind {A B} R Q (m : prog session Error A) (f : A -> prog session Error B) :
  touches R (fun d _ d' => d' = d) m -> (forall a, touches R Q (f a)) -> touches R Q (m ≫= f).
Proof.
  intros Hm Hf s. unfold mbind, prog_bind. specialize (Hm s).
  destruct (m s) as [a s'|e s'|s'|]; [|done..]. specialize (Hf a s'). by rewrite Hm in Hf.
Qed.

Lemma touches_write R data : touches R (fun d _ d' => d' = d) (write_and_flush data).
Proof.
  intros [d k]. unfold write_and_flush, io_write.
  destruct (cn_writes _) as [|[]]; cbn; auto.
Qed.

Lemma touches_read R n : touches R (fun d _ d' => d' = d) (peer_read n).
Proof. intros [d k]. unfold peer_read, io_read_exact. destruct (read_exact _ _); cbn; auto. Qed.

Lemma touches_throw {A} R Q e : touches R Q (throw e : prog session Error A).
Proof. intros [d k]. cbn. auto. Qed.

Lemma touches_refuse {A} R Q code e : touches R Q (refuse code e : prog session Error A).
Proof. apply touches_bind; [apply touches_write|]. intros _. apply touches_throw. Qed.

Lemma touches_if {A} (b : bool) R Q (m1 m2 : prog session Error A) :
  (b = true -> touches R Q m1) -> (b = false -> touches R Q m2) -> touches R Q (if b then m1 else m2).
Proof. destruct b; auto. Qed.
Lemma touches_lift {A B} R Q (r : result A Error) (f : A -> prog session Error B) :
  (forall a, r = Ok a -> touches R Q (f a)) -> touches R Q (lift r ≫= f).
Proof. intros Hf s. destruct r as [a|e]; [by apply Hf|]. by left. Qed.

Lemma new_client_primary nm q k src prt : primary_name (new_client nm q k src prt) = before_sep nm.
Proof. done. Qed.

Lemma touches_authorize {A} R Q p nm q k src prt (f : option (ClientAaa ext_acl) -> prog session Error A) :
  (forall aaa,
     match pp_aaa_map p with
     | None => aaa = None
     | Some m => exists a, m !! before_sep nm = Some a /\ aaa = Some a /\
                           forall addr, pp_ip p = Some addr -> connect_allowed a addr = true
     end -> touches R Q (f aaa)) ->
  touches R Q (authorize p nm (primary_name (new_client nm q k src prt)) ≫= f).
Proof.
  intros Hf. unfold authorize. rewrite new_client_primary. 
  assert (Hr : forall code e, touches R Q ((refuse code e : prog session Error (option _)) ≫= f)).
  { intros code e s.
    unfold mbind, prog_bind.
    pose proof (touches_refuse (A := option (ClientAaa ext_acl)) R (fun _ _ _ => False) code e s) as Ht.
    by destruct (refuse code e s). }
  destruct (pp_aaa_map p) as [m|]; [|intros s; by apply Hf].
  destruct (m !! before_sep nm) as [a|]; [|apply Hr].
  destruct (pp_ip p) as [addr|] eqn:Eip.
  - destruct (connect_allowed a addr) eqn:Ec; [|apply Hr].
    intros s. apply Hf. exists a. split_and!; try done. by intros ? [= <-].
  - intros s. apply Hf. exists a. by split_and!.
Qed.

Lemma registration_run p nm d :
  let cl := new_client nm (pp_queue_size p) (pp_kind p) (pp_source p) (pp_source_port p) in
  registration p nm d =
    match db_register_client (next_ptr d) (allocated cl d) with
    | Done _ d1 => Done (next_ptr d) d1
    | Throw e d1 => Throw e d1
    | Hang d1 => Hang d1
    | Panic => Panic
    end.
Proof. done. Qed.

Lemma touches_register p nm aaa :
  authorized p nm aaa ->
  touches
    (fun d d' => exists nm aaa, authorized p nm aaa /\
       match registration p nm d with Done _ d1 | Throw _ d1 | Hang d1 => d' = d1 | Panic => False end)
    (fun d '(c, aaa) d' => exists nm, authorized p nm aaa /\ registration p nm d = Done c d')
    (on_db (alloc (new_client nm (pp_queue_size p) (pp_kind p) (pp_source p) (pp_source_port p))) ≫= fun c =>
     on_db (attempt (db_register_client c)) ≫= fun r =>
     match r with
     | Err e => refuse (ErrorKind_code (kind e)) e
     | Ok _ => write_and_flush [RESPONSE_OK] ≫= fun _ => mret (c, aaa)
     end).
Proof.
  intros Ha [d k]. set (cl := new_client _ _ _ _ _).
  pose proof (registration_run p nm d) as Hreg. cbv zeta in Hreg. fold cl in Hreg.
  unfold mbind, prog_bind, on_db, attempt.
  change (alloc cl d) with (Done (E := Error) (next_ptr d) (allocated cl d)). cbv beta iota.
  destruct (db_register_client (next_ptr d) (allocated cl d)) as [[] d1|e d1|d1|] eqn:E.
  - pose proof (touches_write (fun _ _ => False) [RESPONSE_OK] (d1, k)) as Ht.
    destruct (write_and_flush [RESPONSE_OK] (d1, k)) as [[] s'|e s'|s'|];
      cbn [fst snd] in *; [|right|right|done].
    + exists nm. split; [done|]. by rewrite Ht.
    + destruct Ht as [Ht|[]]. exists nm, aaa. split; [done|]. by rewrite Hreg.
    + destruct Ht as [Ht|[]]. exists nm, aaa. split; [done|]. by rewrite Hreg.
  - pose proof (touches_refuse (A := nat * option (ClientAaa ext_acl)) (fun _ _ => False) (fun _ _ _ => False)
      (ErrorKind_code (kind e)) e (d1, k)) as Ht.
    destruct (refuse _ _ _) as [|e' s'|s'|]; cbn [fst snd] in *; [done|right|right|done].
    + destruct Ht as [Ht|[]]. exists nm, aaa. split; [done|]. by rewrite Hreg.
    + destruct Ht as [Ht|[]]. exists nm, aaa. split; [done|]. by rewrite Hreg.
  - right. exists nm, aaa. split; [done|]. cbn [fst snd]. by rewrite Hreg.
  - done.
Qed.
End peer.

Create HintDb touches.
#[export] Hint Resolve touches_write touches_read touches_throw touches_refuse : touches.

(** The registrations a handshake may perform. *)
Definition registers {X : Externals} {N : Networks} (p : PeerParams) (d d' : BrokerDb) : Prop :=
  exists nm aaa, authorized p nm aaa /\
    match registration p nm d with Done _ d1 | Throw _ d1 | Hang d1 => d' = d1 | Panic => False end.

Lemma handshake_touches {X : Externals} {N : Networks} (p : PeerParams) :
  touches (registers p)
    (fun d '(c, aaa) d' => exists nm, authorized p nm aaa /\ registration p nm d = Done c d')
    (handshake p).
Proof.
  unfold handshake. apply touches_bind; [auto with touches|]. intros _.
  apply touches_bind; [auto with touches|]. intros buf.
  apply touches_if; [auto with touches|]. intros _. apply touches_if; [auto with touches|]. intros _.
  apply touches_bind; [auto with touches|]. intros _. apply touches_bind; [auto with touches|]. intros lenb.
  apply touches_bind; [auto with touches|]. intros nb. apply touches_lift.
  intros nm Enm. destruct (from_utf8 nb) as [nm'|] eqn:Eu; [|done]. injection Enm as <-.
  apply from_utf8_Ok in Eu as [-> Hstr].
  apply touches_if; [auto with touches|]. intros [Hne Hdot]%orb_false_elim.
  apply bool_decide_eq_false in Hne. apply touches_authorize. intros aaa Ha.
  apply (touches_register p nb aaa). by split_and!.
Qed.

(** C8: whatever a connecting peer sends, the handshake changes the database only by
    registering one client, and only under a name that is valid UTF-8, not empty, without a
    leading dot and, when there is an access map, listed there (by its primary name) for the
    peer's address; it succeeds only if that registration did, with the permissions of that
    entry. *)
Theorem handshake_authorized {X : Externals} {N : Networks} (p : PeerParams) (s : session) :
  match handshake p s with
  | Done (c, aaa) s' => exists nm, authorized p nm aaa /\ registration p nm s.1 = Done c s'.1
  | Throw _ s' | Hang s' => s'.1 = s.1 \/ registers p s.1 s'.1
  | Panic => True
  end.
Proof. pose proof (handshake_touches p s) as H. by destruct (handshake p s) as [[c aaa] s'|e s'|s'|]. Qed.

(** Run the next instruction of a program by the lemma that says what it does. *)
Ltac run_step lem := etransitivity; [apply bind_Done; apply lem; try reflexivity|cbv beta].

Section runs.
Context {X : Externals} {N : Networks}.

Lemma peer_read_app n a b e out ws (d : BrokerDb) :
  n = blen a -> peer_read n (d, MkConn (Source (a ++ b) e) out ws) = Done a (d, MkConn (Source b e) out ws).
Proof. intros Hn. unfold peer_read, io_read_exact. cbn. by rewrite read_exact_app_eq. Qed.

Lemma peer_read_all a e out ws (d : BrokerDb) :
  peer_read (blen a) (d, MkConn (Source a e) out ws) = Done a (d, MkConn (Source [] e) out ws).
Proof. rewrite <- (app_nil_r a) at 2. by apply peer_read_app. Qed.

Lemma peer_write_ok data i out ws (d : BrokerDb) :
  write_and_flush data (d, MkConn i out (WriteOk :: ws)) = Done tt (d, MkConn i (out ++ data) ws).
Proof. done. Qed.

Lemma peer_write_default data i out (d : BrokerDb) :
  write_and_flush data (d, MkConn i out []) = Done tt (d, MkConn i (out ++ data) []).
Proof. done. Qed.

Lemma conn_read_app n a b e out ws :
  n = blen a -> conn_read n (MkConn (Source (a ++ b) e) out ws) = Done a (MkConn (Source b e) out ws).
Proof. intros Hn. unfold conn_read, io_read_exact. cbn. by rewrite read_exact_app_eq. Qed.

Lemma conn_write_default data i out :
  conn_write data (MkConn i out []) = Done tt (MkConn i (out ++ data) []).
Proof. done. Qed.

Lemma authorize_Done p nm q k src prt aaa s :
  authorized p nm aaa -> authorize p nm (primary_name (new_client nm q k src prt)) s = Done aaa s.
Proof.
  intros (_ & _ & _ & Ha). unfold authorize. rewrite new_client_primary.
  destruct (pp_aaa_map p) as [m|]; [|by subst].
  destruct Ha as (a & -> & -> & Hip). destruct (pp_ip p) as [addr|]; [|done].
  by rewrite (Hip addr).
Qed.

Definition greeting : bytes := GREETINGS ++ to_le_bytes 2 PROTOCOL_VERSION.

(** What a client with this name sends to open a connection. *)
Definition client_hello (nm : str) : bytes := greeting ++ to_le_bytes 2 (blen nm) ++ nm.

Lemma length_prefix (nm : str) : blen nm <= 65535 -> from_le_bytes (to_le_bytes 2 (blen nm)) = blen nm.
Proof. intros H. apply from_to_le_bytes_small. unfold blen in *. change (256 ^ Z.of_nat 2) with 65536. lia. Qed.

(** The broker's side up to the registration, for a peer that may connect. *)
Lemma handshake_prefix p nm aaa d e :
  authorized p nm aaa -> blen nm <= 65535 -> forall ws,
  handshake p (d, MkConn (Source (client_hello nm) e) [] (WriteOk :: WriteOk :: ws)) =
    (on_db (alloc (new_client nm (pp_queue_size p) (pp_kind p) (pp_source p) (pp_source_port p))) ≫= fun c =>
     on_db (attempt (db_register_client c)) ≫= fun r =>
     match r with
     | Err e => refuse (ErrorKind_code (kind e)) e
     | Ok _ => write_and_flush [RESPONSE_OK] ≫= fun _ => mret (c, aaa)
     end) (d, MkConn (Source [] e) (greeting ++ [RESPONSE_OK]) ws).
Proof.
  intros Ha Hlen ws. pose proof Ha as (Hs & Hne & Hdot & _). unfold handshake, client_hello.
  run_step peer_write_ok.
  run_step (peer_read_app 3 greeting). cbn [app].
  run_step peer_write_ok.
  run_step (peer_read_app 2 (to_le_bytes 2 (blen nm))).
  rewrite length_prefix by done.
  run_step (peer_read_all nm).
  rewrite (from_utf8_str nm Hs). cbn [map_err lift].
  etransitivity; [apply (bind_Done (mret nm)); reflexivity|cbv beta].
  rewrite bool_decide_false by done. rewrite Hdot. cbn [orb].
  by run_step (authorize_Done p nm (pp_queue_size p) (pp_kind p) (pp_source p) (pp_source_port p) aaa).
Qed.

Context `{!ExternalsLaws X}.

(** Registration without announcements. *)
Lemma registration_Done p nm d :
  db_wf d -> clients d !! nm = None -> (before_sep nm <> nm -> is_Some (clients d !! before_sep nm)) ->
  rpc_client d = None -> rpc_lock d = false ->
  exists c d', alloc (new_client nm (pp_queue_size p) (pp_kind p) (pp_source p) (pp_source_port p)) d
                 = Done c (allocated (new_client nm (pp_queue_size p) (pp_kind p) (pp_source p) (pp_source_port p)) d) /\
    db_register_client c (allocated (new_client nm (pp_queue_size p) (pp_kind p) (pp_source p) (pp_source_port p)) d)
      = Done tt d' /\
    db_wf d' /\ clients d' = <[ nm := c ]> (clients d).
Proof.
  intros D Hfree Hp Hrpc Hlock. set (cl := new_client _ _ _ _ _).
  destruct (new_client_ok nm (pp_queue_size p) (pp_kind p) (pp_source p) (pp_source_port p)) as [Hok Hnew].
  pose proof (allocated_wf cl d D Hok Hnew) as D0.
  assert (Hl : heap (allocated cl d) !! next_ptr d = Some cl) by (apply heap_allocated; auto).
  destruct (db_register_client_new (allocated cl d) (next_ptr d) cl D0 Hl Hnew)
    as (d1 & E & D1 & _ & Hc & Hrest & _).
  - done.
  - intros Hprim. apply Hp. apply bool_decide_eq_false in Hprim. intros E. apply Hprim.
    change (nm = before_sep nm). done.
  - exists (next_ptr d), d1. split_and!; [done| |done|done]. rewrite E.
    destruct (primary cl); [|done].
    destruct (rest_rpc _ _ Hrest) as [El Er].
    unfold announced, when, mbind, prog_bind, attempt, announce. cbn [announce_fuel].
    by rewrite announce_silent; [|rewrite Er|rewrite El].
Qed.
End runs.

(** What a broker writes to a client it accepts, and the client's side of the dialogue. *)
Definition broker_answers : bytes := greeting ++ [RESPONSE_OK] ++ [RESPONSE_OK].

Lemma chat_accepted nm e :
  blen nm <= 65535 ->
  chat nm (MkConn (Source broker_answers e) [] []) = Done tt (MkConn (Source [] e) (client_hello nm) []).
Proof.
  intros Hlen. unfold chat.
  destruct (blen nm >? 65535) eqn:Eg; [apply Z.gtb_lt in Eg; lia|]. unfold broker_answers.
  run_step (conn_read_app 3 greeting). cbn [app].
  run_step conn_write_default.
  run_step (conn_read_app 1 [RESPONSE_OK]).
  run_step conn_write_default.
  run_step conn_write_default.
  run_step (conn_read_app 1 [RESPONSE_OK]).
  cbn. unfold client_hello. done.
Qed.

(** C19: the two ends of the connection dialogue agree: fed with what the other writes, [chat]
    and [handle_peer] both succeed, write exactly that, and leave nothing unread; and the
    broker ends up with the client registered under its name. (For a name that may connect and
    is free, and without announcements.) *)
Theorem handshake_roundtrip {X : Externals} {N : Networks} `{!ExternalsLaws X} p d nm aaa e1 e2 :
  db_wf d -> authorized p nm aaa -> blen nm <= 65535 -> clients d !! nm = None ->
  (before_sep nm <> nm -> is_Some (clients d !! before_sep nm)) ->
  rpc_client d = None -> rpc_lock d = false ->
  chat nm (MkConn (Source broker_answers e1) [] []) = Done tt (MkConn (Source [] e1) (client_hello nm) []) /\
  exists c d',
    handshake p (d, MkConn (Source (client_hello nm) e2) [] [WriteOk; WriteOk])
      = Done (c, aaa) (d', MkConn (Source [] e2) broker_answers []) /\
    db_wf d' /\ clients d' = <[ nm := c ]> (clients d).
Proof.
  intros D Ha Hlen Hfree Hp Hrpc Hlock. split; [by apply chat_accepted|].
  destruct (registration_Done p nm d D Hfree Hp Hrpc Hlock) as (c & d' & Ea & Er & D' & Hc).
  exists c, d'. split_and!; [|done|done].
  rewrite (handshake_prefix p nm aaa d e2 Ha Hlen).
  unfold mbind, prog_bind, on_db, attempt. rewrite Ea, Er. rewrite peer_write_default. done.
Qed.

(** A handshake whose very last write fails leaves the client registered: the error is
    returned from the middle of [handle_peer], before anything would unregister the client, and
    the name stays taken by a connection that no longer exists. *)
Theorem handshake_leaks_registration {X : Externals} {N : Networks} `{!ExternalsLaws X} p d nm aaa e io :
  db_wf d -> authorized p nm aaa -> blen nm <= 65535 -> clients d !! nm = None ->
  (before_sep nm <> nm -> is_Some (clients d !! before_sep nm)) ->
  rpc_client d = None -> rpc_lock d = false ->
  exists c d' k,
    handshake p (d, MkConn (Source (client_hello nm) e) [] [WriteOk; WriteOk; WriteErr io])
      = Throw (Error_from_io io) (d', k) /\
    db_wf d' /\ clients d' !! nm = Some c.
Proof.
  intros D Ha Hlen Hfree Hp Hrpc Hlock.
  destruct (registration_Done p nm d D Hfree Hp Hrpc Hlock) as (c & d' & Ea & Er & D' & Hc).
  exists c, d'. eexists. split_and!; [|done|by rewrite Hc, lookup_insert_eq].
  rewrite (handshake_prefix p nm aaa d e Ha Hlen).
  unfold mbind, prog_bind, on_db, attempt. rewrite Ea, Er. done.
Qed.
