(* ===== verification/Rpc.v ===== *)
(** * The RPC layer ([src/rpc/mod.rs], [src/rpc/async_client.rs])

    [RpcEvent]: how a frame is read as an RPC event, whether its RPC part travels in the
    frame's header (in-process clients) or in front of its payload (sockets). [processor_step]
    is one turn of the client's frame processor, [call_begin] to [call_finish] the stages of
    [RpcClient::call]. Where the code would panic (an index out of range) the result is
    [None]. *)
From S2P Require Export Lib.

Definition RPC_NOTIFICATION : byte := x00.
Definition RPC_REQUEST : byte := x01.
Definition RPC_REPLY : byte := x11.
Definition RPC_ERROR : byte := x12.

Definition RPC_ERROR_CODE_NOT_FOUND : Z := -32001.
Definition RPC_ERROR_CODE_PARSE : Z := -32700.
Definition RPC_ERROR_CODE_INVALID_REQUEST : Z := -32600.
Definition RPC_ERROR_CODE_METHOD_NOT_FOUND : Z := -32601.
Definition RPC_ERROR_CODE_INVALID_METHOD_PARAMS : Z := -32602.
Definition RPC_ERROR_CODE_INTERNAL : Z := -32603.

Inductive RpcEventKind := Notification | Request | Reply | ErrorReply.

#[export] Instance RpcEventKind_eq_dec : EqDecision RpcEventKind.
Proof. solve_decision. Defined.

(** [impl fmt::Display for RpcEventKind]. *)
Definition RpcEventKind_fmt (k : RpcEventKind) : str :=
  lit match k with
      | Notification => "notifcation"
      | Request => "request"
      | Reply => "reply"
      | ErrorReply => "error reply"
      end.

(** ** Events *)

Record RpcEvent := MkRpcEvent {
  ev_kind : RpcEventKind;
  ev_frame : FrameData;
  ev_payload_pos : Z;
  ev_use_header : bool;
}.

(** [&buf[a..b]]. *)
Definition slice (a b : Z) (buf : bytes) : option bytes :=
  if (0 <=? a) && (a <=? b) && (b <=? Z.of_nat (length buf))
  then Some (take (Z.to_nat (b - a)) (drop (Z.to_nat a) buf))
  else None.

Definition len (b : bytes) : Z := Z.of_nat (length b).

(** [impl TryFrom<Frame> for RpcEvent]. *)
Definition RpcEvent_try_from (frame : FrameData) : option (result RpcEvent Error) :=
  body_header ← match frame_header frame with
                | Some h => Some (h, true)
                | None => p ← payload frame; Some (p, false)
                end;
  let '(body, use_header) := body_header : bytes * bool in
  match body with
  | [] => Some (Err (Error_data (lit "Empty RPC frame")))
  | code :: _ =>
      if decide (code = RPC_NOTIFICATION) then
        Some (Ok (MkRpcEvent Notification frame (if use_header then 0 else 1) false))
      else if decide (code = RPC_REQUEST) then
        if len body <? 6 then Some (Err (Error_data (lit "Invalid RPC frame"))) else
        if use_header then Some (Ok (MkRpcEvent Request frame 0 true))
        else
          rest ← slice_from 5 body;
          let sp := splitn 2 x00 rest in
          Some (
            let? method := ok_or (sp !! 0%nat) (Error_data (lit "No RPC method")) in
            let payload_pos := 6 + len method in
            let? _ := ok_or (sp !! 1%nat) (Error_data (lit "No RPC params block")) in
            Ok (MkRpcEvent Request frame payload_pos false))
      else if decide (code = RPC_REPLY) then
        if len body <? 5 then Some (Err (Error_data (lit "Invalid RPC frame"))) else
        Some (Ok (MkRpcEvent Reply frame (if use_header then 0 else 5) use_header))
      else if decide (code = RPC_ERROR) then
        if len body <? 7 then Some (Err (Error_data (lit "Invalid RPC frame"))) else
        Some (Ok (MkRpcEvent ErrorReply frame (if use_header then 0 else 7) use_header))
      else Some (Err (Error_data (lit "Unsupported RPC frame code " ++ fmt_z (u8_val code))))
  end.

(** [RpcEvent::sender], [RpcEvent::primary_sender]. *)
Definition event_sender (ev : RpcEvent) : option str := sender (ev_frame ev).
Definition event_primary_sender (ev : RpcEvent) : option str := primary_sender (ev_frame ev).

(** [RpcEvent::payload]. *)
Definition event_payload (ev : RpcEvent) : option bytes :=
  p ← payload (ev_frame ev); slice_from (ev_payload_pos ev) p.

(** The bytes the RPC part of the event is in. *)
Definition rpc_part (ev : RpcEvent) : option bytes :=
  if ev_use_header ev then frame_header (ev_frame ev) else payload (ev_frame ev).

(** [RpcEvent::id]. *)
Definition event_id (ev : RpcEvent) : option Z :=
  b ← rpc_part ev; from_le_bytes <$> slice 1 5 b.

Definition is_response_required (ev : RpcEvent) : option bool :=
  id ← event_id ev; Some (negb (id =? 0)).

(** [RpcEvent::method]. *)
Definition event_method (ev : RpcEvent) : option bytes :=
  if ev_use_header ev then h ← frame_header (ev_frame ev); slice 5 (len h - 1) h
  else p ← payload (ev_frame ev); slice 5 (ev_payload_pos ev - 1) p.

(** [RpcEvent::parse_method]. *)
Definition event_parse_method (ev : RpcEvent) : option (result str Error) :=
  m ← event_method ev; Some (map_err Error_from_utf8 (from_utf8 m)).

(** [RpcEvent::code]: a little-endian [i16]. *)
Definition event_code (ev : RpcEvent) : option Z :=
  if decide (ev_kind ev = ErrorReply) then
    b ← rpc_part ev; c ← slice 5 7 b; Some (sign_of 2 (from_le_bytes c))
  else Some 0.

(** ** Errors *)

Record RpcError := MkRpcError {
  rpc_code : Z;
  rpc_data : option bytes;
}.

(** The texts of errors: [v] is what the value displays as. *)
Definition rpc_err_str (v : str) : option bytes := Some v.
Definition convert_data (v : str) : bytes := v.

(** [impl fmt::Display for RpcError]. *)
Definition RpcError_fmt (e : RpcError) : str := lit "rpc error code: " ++ fmt_z (rpc_code e).

(** [impl TryFrom<&RpcEvent> for RpcError]. *)
Definition RpcError_try_from (ev : RpcEvent) : option (result RpcError Error) :=
  if decide (ev_kind ev = ErrorReply) then
    code ← event_code ev;
    data ← event_payload ev;
    Some (Ok (MkRpcError code (Some data)))
  else Some (Err (Error_data (lit "not a RPC error"))).

Definition RpcError_method (err : option bytes) : RpcError := MkRpcError RPC_ERROR_CODE_METHOD_NOT_FOUND err.
Definition RpcError_not_found (err : option bytes) : RpcError := MkRpcError RPC_ERROR_CODE_NOT_FOUND err.
Definition RpcError_params (err : option bytes) : RpcError := MkRpcError RPC_ERROR_CODE_INVALID_METHOD_PARAMS err.
Definition RpcError_parse (err : option bytes) : RpcError := MkRpcError RPC_ERROR_CODE_PARSE err.
Definition RpcError_invalid (err : option bytes) : RpcError := MkRpcError RPC_ERROR_CODE_INVALID_REQUEST err.
Definition RpcError_internal (err : option bytes) : RpcError := MkRpcError RPC_ERROR_CODE_INTERNAL err.

(** [impl From<Error> for RpcError]. *)
Definition RpcError_from_Error (e : Error) : RpcError :=
  MkRpcError (-32000 - u8_val (ErrorKind_code (kind e))) None.

(** [impl From<std::io::Error> for RpcError]. *)
Definition RpcError_from_io (e : io_error) : RpcError := RpcError_internal (Some (io_err_text e)).

Definition RpcResult : Type := result (option bytes) RpcError.

(** [prepare_call_payload]. *)
Definition prepare_call_payload (method : str) (id_bytes : bytes) : bytes :=
  [RPC_REQUEST] ++ id_bytes ++ method ++ [x00].

(** ** The client's processor *)

Record ProcessorOptions := MkOptions {
  blocking_notifications : bool;
  blocking_frames : bool;
}.

(** What the processor does with a frame; [blocking]: it waits for the handler before the next
    turn, instead of giving it a task of its own. *)
Inductive rpc_action :=
| HandleNotification (ev : RpcEvent) (blocking : bool)
| HandleCall (ev : RpcEvent) (reply_to : option (str * Z)) (qos : QoS)
| HandleFrame (f : FrameData) (blocking : bool)
| Resolve (tx : nat) (ev : RpcEvent)
| Orphaned (id : Z)
| LogError (e : Error).

(** Pending calls: the id each one is registered under, and its [oneshot] channel. *)
Record RpcState := MkRpcState {
  call_id : Z;
  calls : gmap Z nat;
  next_tx : nat;
}.

Definition RpcState_new : RpcState := MkRpcState 0 ∅ 0.

(** One turn of [processor]. [None]: a panic. *)
Definition processor_step (opts : ProcessorOptions) (frame : FrameData) (s : RpcState) : option (rpc_action * RpcState) :=
  if decide (frame_kind frame = FrameKind_Message) then
    r ← RpcEvent_try_from frame;
    match r with
    | Err e => Some (LogError e, s)
    | Ok event =>
        match ev_kind event with
        | Notification => Some (HandleNotification event (blocking_notifications opts), s)
        | Request =>
            id ← event_id event;
            reply_to ← (if 0 <? id then from ← sender frame; Some (Some (from, id)) else Some None);
            let qos := if frame_realtime frame then QoS_RealtimeProcessed else QoS_Processed in
            Some (HandleCall event reply_to qos, s)
        | Reply | ErrorReply =>
            id ← event_id event;
            match calls s !! id with
            | Some tx => Some (Resolve tx event, MkRpcState (call_id s) (delete id (calls s)) (next_tx s))
            | None => Some (Orphaned id, s)
            end
        end
    end
  else Some (HandleFrame frame (blocking_frames opts), s).

(** The header and payload [send_reply!] sends for the result of a call. *)
Definition reply_parts (id : Z) (res : RpcResult) : bytes * bytes :=
  match res with
  | Ok v => ([RPC_REPLY] ++ to_le_bytes 4 id, default [] v)
  | Err e => ([RPC_ERROR] ++ to_le_bytes 4 id ++ to_le_bytes 2 (rpc_code e), default [] (rpc_data e))
  end.

(** ** Calls *)

(** Call ids wrap past [u32::MAX] to 1: zero means that no reply is wanted. *)
Definition next_call_id (id : Z) : Z := if id =? 2 ^ 32 - 1 then 1 else id + 1.

(** [notify] and [call0]: the header that is sent in front of the data. *)
Definition notify_header : bytes := [RPC_NOTIFICATION].
Definition call0_header (method : str) : bytes := prepare_call_payload method [x00; x00; x00; x00].

(** [call], up to the sending: take an id and register the call under it. *)
Definition call_begin (method : str) (s : RpcState) : (bytes * Z * nat) * RpcState :=
  let id := next_call_id (call_id s) in
  let tx := next_tx s in
  ((prepare_call_payload method (to_le_bytes 4 id), id, tx),
   MkRpcState id (<[ id := tx ]> (calls s)) (S tx)).

(** [unwrap_or_cancel!]: a failure to send withdraws the call. *)
Definition call_cancel (id : Z) (e : Error) (s : RpcState) : RpcError * RpcState :=
  (RpcError_from_Error e, MkRpcState (call_id s) (delete id (calls s)) (next_tx s)).

(** What [call] returns for the event it was waiting for. *)
Definition call_finish (ev : RpcEvent) : option (result RpcEvent RpcError) :=
  r ← RpcError_try_from ev;
  match r with
  | Ok e => Some (Err e)
  | Err _ => Some (Ok ev)
  end.

(** *** Interleavings *)

(** What happens to the pending calls: a call is registered, one is withdrawn, and the processor
    takes the next frame. *)
Inductive rpc_op :=
| BeginCall (method : str)
| CancelCall (id : Z) (e : Error)
| TakeFrame (f : FrameData).

(** The calls that were resolved, in order. *)
Fixpoint rpc_run (opts : ProcessorOptions) (ops : list rpc_op) (s : RpcState) : option (list nat * RpcState) :=
  match ops with
  | [] => Some ([], s)
  | BeginCall method :: ops => rpc_run opts ops (call_begin method s).2
  | CancelCall id e :: ops => rpc_run opts ops (call_cancel id e s).2
  | TakeFrame f :: ops =>
      '(action, s) ← processor_step opts f s;
      '(txs, s) ← rpc_run opts ops s;
      Some (match action with Resolve tx _ => tx :: txs | _ => txs end, s)
  end.

(** ** Facts *)

Lemma len_app (a b : bytes) : len (a ++ b) = len a + len b.
Proof. unfold len. rewrite length_app. lia. Qed.

Lemma slice_Some a b buf : 0 <= a <= b -> b <= len buf -> is_Some (slice a b buf).
Proof.
  intros Ha Hb. unfold slice. change (Z.of_nat (length buf)) with (len buf).
  rewrite !(proj2 (Z.leb_le _ _)) by lia. eauto.
Qed.

Lemma slice_app (x y z : bytes) : slice (len x) (len x + len y) (x ++ y ++ z) = Some y.
Proof.
  unfold slice. rewrite !(proj2 (Z.leb_le _ _)) by (unfold len; rewrite ?length_app; lia). cbn [andb].
  unfold len. rewrite Nat2Z.id. replace (Z.to_nat (Z.of_nat (length x) + Z.of_nat (length y) - Z.of_nat (length x)))
    with (length y) by lia.
  by rewrite drop_app_length, take_app_length.
Qed.

Lemma slice_from_app_eq n (a b : bytes) : n = len a -> slice_from n (a ++ b) = Some b.
Proof. intros ->. apply slice_from_app. Qed.

Lemma slice_app_eq a b (x y z : bytes) : a = len x -> b = len x + len y -> slice a b (x ++ y ++ z) = Some y.
Proof. intros -> ->. apply slice_app. Qed.

(** The RPC part [head] and the data arrive in one of the two ways a frame can carry them. *)
Definition carried (head data : bytes) (f : FrameData) : Prop :=
  (frame_header f = Some head /\ payload f = Some data) \/
  (frame_header f = None /\ payload f = Some (head ++ data)).

(** What the slices of a request frame read, whatever follows the RPC part. *)
Section RequestSlices.
Context (method id_bytes : bytes) (Hid : length id_bytes = 4%nat).

Lemma request_long_enough tail : (len (prepare_call_payload method id_bytes ++ tail) <? 6) = false.
Proof using Hid.
  apply Z.ltb_ge. unfold prepare_call_payload. rewrite !len_app. unfold len at 2. rewrite Hid.
  change (len [RPC_REQUEST]) with 1. change (len [x00]) with 1. unfold len. lia.
Qed.

Lemma request_id_slice tail : slice 1 5 (prepare_call_payload method id_bytes ++ tail) = Some id_bytes.
Proof using Hid.
  unfold prepare_call_payload. rewrite <- !app_assoc. apply slice_app_eq; [done|]. unfold len. by rewrite Hid.
Qed.

Lemma request_method_slice tail :
  slice 5 (5 + len method) (prepare_call_payload method id_bytes ++ tail) = Some method.
Proof using Hid.
  unfold prepare_call_payload.
  replace (([RPC_REQUEST] ++ id_bytes ++ method ++ [x00]) ++ tail)
    with (([RPC_REQUEST] ++ id_bytes) ++ method ++ [x00] ++ tail) by by rewrite <- !app_assoc.
  apply slice_app_eq; rewrite len_app; unfold len; rewrite Hid; done.
Qed.

Lemma request_after_id tail :
  slice_from 5 (prepare_call_payload method id_bytes ++ tail) = Some (method ++ x00 :: tail).
Proof using Hid.
  unfold prepare_call_payload.
  replace (([RPC_REQUEST] ++ id_bytes ++ method ++ [x00]) ++ tail)
    with (([RPC_REQUEST] ++ id_bytes) ++ method ++ x00 :: tail) by by rewrite <- !app_assoc.
  apply slice_from_app_eq. unfold len. cbn. by rewrite Hid.
Qed.
End RequestSlices.

Lemma carried_request method id_bytes data f :
  length id_bytes = 4%nat -> x00 ∉ method ->
  carried (prepare_call_payload method id_bytes) data f ->
  exists ev, RpcEvent_try_from f = Some (Ok ev) /\ ev_kind ev = Request /\ ev_frame ev = f /\
    event_id ev = Some (from_le_bytes id_bytes) /\ event_method ev = Some method /\
    event_payload ev = Some data.
Proof.
  intros Hid Hm Hc.
  pose proof (request_long_enough method id_bytes Hid) as Hl.
  pose proof (request_id_slice method id_bytes Hid) as Hs1.
  pose proof (request_method_slice method id_bytes Hid) as Hs5.
  destruct Hc as [[Hh Hp]|[Hh Hp]].
  - eexists. split_and!.
    + unfold RpcEvent_try_from. rewrite Hh. cbn [mbind option_bind].
      specialize (Hl []). rewrite app_nil_r in Hl. unfold prepare_call_payload at 1. cbn [app].
      rewrite decide_False, decide_True by done. by rewrite Hl.
    + done.
    + done.
    + unfold event_id, rpc_part. cbn [ev_use_header ev_frame]. rewrite Hh. cbn [mbind option_bind].
      specialize (Hs1 []). rewrite app_nil_r in Hs1. by rewrite Hs1.
    + unfold event_method. cbn [ev_use_header ev_frame]. rewrite Hh. cbn [mbind option_bind].
      specialize (Hs5 []). rewrite app_nil_r in Hs5.
      replace (len (prepare_call_payload method id_bytes) - 1) with (5 + len method); [done|].
      unfold prepare_call_payload. rewrite !len_app. unfold len. rewrite Hid. cbn. lia.
    + unfold event_payload. cbn. rewrite Hp. cbn. apply slice_from_0.
  - eexists. split_and!.
    + unfold RpcEvent_try_from. rewrite Hh, Hp. cbn [mbind option_bind].
      pose proof (request_after_id method id_bytes Hid data) as E5.
      specialize (Hl data). set (b := prepare_call_payload method id_bytes ++ data) in *.
      assert (Eb : exists tl, b = RPC_REQUEST :: tl) by (eexists; reflexivity).
      destruct Eb as [tl Eb]. rewrite Eb in *. rewrite decide_False, decide_True by done. rewrite Hl, E5.
      cbn [mbind option_bind]. by rewrite splitn2_app.
    + done.
    + done.
    + unfold event_id, rpc_part. cbn [ev_use_header ev_frame]. rewrite Hp. cbn [mbind option_bind]. by rewrite Hs1.
    + unfold event_method. cbn [ev_use_header ev_frame ev_payload_pos]. rewrite Hp. cbn [mbind option_bind].
      replace (6 + len method - 1) with (5 + len method) by lia. apply Hs5.
    + unfold event_payload. cbn [ev_frame ev_payload_pos]. rewrite Hp. cbn [mbind option_bind].
      apply slice_from_app_eq. unfold prepare_call_payload. rewrite !len_app. unfold len. rewrite Hid. cbn. lia.
Qed.

Lemma len_cons_ge n c (a b : bytes) : (n <=? 1 + len a) = true -> (len (c :: a ++ b) <? n) = false.
Proof.
  intros H%Z.leb_le. apply Z.ltb_ge. unfold len in *. cbn [length]. rewrite length_app. lia.
Qed.

Lemma reply_id_slice id tl :
  slice 1 5 ([RPC_REPLY] ++ to_le_bytes 4 id ++ tl) = Some (to_le_bytes 4 id) /\
  slice 1 5 ([RPC_ERROR] ++ to_le_bytes 4 id ++ tl) = Some (to_le_bytes 4 id).
Proof. split; by apply slice_app_eq. Qed.

(** What reading the answer [res] to the call [id] back from the frame [f] gives. *)
Definition reads_back (id : Z) (res : result (option bytes) RpcError) (f : FrameData) : Prop :=
  exists ev, RpcEvent_try_from f = Some (Ok ev) /\ (ev_kind ev = Reply \/ ev_kind ev = ErrorReply) /\
    event_id ev = Some id /\ event_payload ev = Some (reply_parts id res).2 /\
    call_finish ev = Some match res with
                          | Ok _ => Ok ev
                          | Err e => Err (MkRpcError (rpc_code e) (Some (default [] (rpc_data e))))
                          end.

Lemma carried_ok_reply id v f :
  0 <= id < 2 ^ 32 -> carried (reply_parts id (Ok v)).1 (reply_parts id (Ok v)).2 f -> reads_back id (Ok v) f.
Proof.
  intros Hid Hc. unfold reads_back. cbn [reply_parts fst snd] in *.
  pose proof (from_to_le_bytes_small 4 id Hid) as E1.
  destruct (reply_id_slice id []) as [E2 _]. destruct (reply_id_slice id (default [] v)) as [E3 _].
  rewrite app_nil_r in E2.
  destruct Hc as [[Hh Hp]|[Hh Hp]].
  - exists (MkRpcEvent Reply f 0 true). split_and!; [|by left| | |done].
    + unfold RpcEvent_try_from. by rewrite Hh.
    + unfold event_id, rpc_part. cbn [ev_use_header ev_frame]. rewrite Hh. cbn [mbind option_bind].
      rewrite E2. cbn [fmap option_fmap option_map]. by rewrite E1.
    + unfold event_payload. cbn [ev_frame ev_payload_pos]. rewrite Hp. cbn. apply slice_from_0.
  - exists (MkRpcEvent Reply f 5 false). rewrite <- app_assoc in Hp. split_and!; [|by left| | |done].
    + unfold RpcEvent_try_from. rewrite Hh, Hp. cbn [mbind option_bind app].
      rewrite decide_False, decide_False, decide_True by done. by rewrite len_cons_ge.
    + unfold event_id, rpc_part. cbn [ev_use_header ev_frame]. rewrite Hp. cbn [mbind option_bind].
      rewrite E3. cbn [fmap option_fmap option_map]. by rewrite E1.
    + unfold event_payload. cbn [ev_frame ev_payload_pos]. rewrite Hp. cbn [mbind option_bind].
      by apply (slice_from_app_eq 5 ([RPC_REPLY] ++ to_le_bytes 4 id)).
Qed.

Lemma carried_error_reply id e f :
  0 <= id < 2 ^ 32 -> - 2 ^ 15 <= rpc_code e < 2 ^ 15 ->
  carried (reply_parts id (Err e)).1 (reply_parts id (Err e)).2 f -> reads_back id (Err e) f.
Proof.
  intros Hid Hcode Hc. unfold reads_back. cbn [reply_parts fst snd] in *.
  set (cb := to_le_bytes 2 (rpc_code e)) in *.
  assert (Ecode : sign_of 2 (from_le_bytes cb) = rpc_code e).
  { apply sign_of_to_le_bytes. change (256 ^ Z.of_nat 2) with (2 * 2 ^ 15). lia. }
  pose proof (from_to_le_bytes_small 4 id Hid) as E1.
  destruct (reply_id_slice id cb) as [_ E2]. destruct (reply_id_slice id (cb ++ default [] (rpc_data e))) as [_ E3].
  assert (E5 : forall tl, slice 5 7 (([RPC_ERROR] ++ to_le_bytes 4 id) ++ cb ++ tl) = Some cb)
    by (intros tl; by apply slice_app_eq).
  assert (E6 : forall tl, slice_from 7 (([RPC_ERROR] ++ to_le_bytes 4 id ++ cb) ++ tl) = Some tl)
    by (intros tl; by apply slice_from_app_eq).
  destruct Hc as [[Hh Hp]|[Hh Hp]].
  - exists (MkRpcEvent ErrorReply f 0 true).
    assert (Hpay : event_payload (MkRpcEvent ErrorReply f 0 true) = Some (default [] (rpc_data e))).
    { unfold event_payload. cbn [ev_frame ev_payload_pos]. rewrite Hp. cbn. apply slice_from_0. }
    split_and!; [|by right| |done|].
    + unfold RpcEvent_try_from. by rewrite Hh.
    + unfold event_id, rpc_part. cbn [ev_use_header ev_frame]. rewrite Hh. cbn [mbind option_bind].
      rewrite E2. cbn [fmap option_fmap option_map]. by rewrite E1.
    + unfold call_finish, RpcError_try_from, event_code. rewrite Hpay. unfold rpc_part.
      cbn [ev_kind ev_use_header ev_frame]. rewrite !decide_True by done. rewrite Hh. cbn [mbind option_bind].
      specialize (E5 []). rewrite app_nil_r, <- app_assoc in E5. rewrite E5. cbn [mbind option_bind]. by rewrite Ecode.
  - exists (MkRpcEvent ErrorReply f 7 false). rewrite <- !app_assoc in Hp.
    assert (Hpay : event_payload (MkRpcEvent ErrorReply f 7 false) = Some (default [] (rpc_data e))).
    { unfold event_payload. cbn [ev_frame ev_payload_pos]. rewrite Hp. cbn [mbind option_bind].
      specialize (E6 (default [] (rpc_data e))). by rewrite <- !app_assoc in E6. }
    split_and!; [|by right| |done|].
    + unfold RpcEvent_try_from. rewrite Hh, Hp. cbn [mbind option_bind app].
      rewrite decide_False, decide_False, decide_False, decide_True by done.
      by rewrite (app_assoc (to_le_bytes 4 id) cb), len_cons_ge.
    + unfold event_id, rpc_part. cbn [ev_use_header ev_frame]. rewrite Hp. cbn [mbind option_bind].
      rewrite E3. cbn [fmap option_fmap option_map]. by rewrite E1.
    + unfold call_finish, RpcError_try_from, event_code. rewrite Hpay. unfold rpc_part.
      cbn [ev_kind ev_use_header ev_frame]. rewrite !decide_True by done. rewrite Hp. cbn [mbind option_bind].
      specialize (E5 (default [] (rpc_data e))). rewrite <- !app_assoc in E5. rewrite E5. cbn [mbind option_bind]. by rewrite Ecode.
Qed.

(** Reading back a reply: its kind, id, result and data. *)
Lemma carried_reply id res f :
  0 <= id < 2 ^ 32 ->
  match res with Ok _ => True | Err e => - 2 ^ 15 <= rpc_code e < 2 ^ 15 end ->
  carried (reply_parts id res).1 (reply_parts id res).2 f ->
  exists ev, RpcEvent_try_from f = Some (Ok ev) /\ (ev_kind ev = Reply \/ ev_kind ev = ErrorReply) /\
    event_id ev = Some id /\ event_payload ev = Some (reply_parts id res).2 /\
    call_finish ev = Some match res with
                          | Ok _ => Ok ev
                          | Err e => Err (MkRpcError (rpc_code e) (Some (default [] (rpc_data e))))
                          end.
Proof. destruct res as [v|e]; intros Hid Hcode Hc; [by apply carried_ok_reply|by apply carried_error_reply]. Qed.

(** What an event read from the frame [f] promises: its payload, code and, by its kind, its id
    and method are readable. *)
Definition readable (f : FrameData) (ev : RpcEvent) : Prop :=
  ev_frame ev = f /\ is_Some (event_payload ev) /\ is_Some (event_code ev) /\
  (ev_kind ev <> Notification -> is_Some (event_id ev)) /\
  (ev_kind ev = Request -> is_Some (event_method ev)).

(** The part of a frame an event's fields are read from: its header, or its payload [p]. *)
Section Readable.
Context (f : FrameData) (p body : bytes) (uh : bool).
Context (Hp : payload f = Some p)
        (Hb : uh = true /\ frame_header f = Some body \/ uh = false /\ body = p).

Lemma body_part k pos : rpc_part (MkRpcEvent k f pos uh) = Some body.
Proof using Hp Hb. unfold rpc_part. cbn. destruct Hb as [[-> ->]|[-> ->]]; done. Qed.

Lemma body_payload k pos u : 0 <= pos <= len p -> is_Some (event_payload (MkRpcEvent k f pos u)).
Proof using Hp. intros Hpos. unfold event_payload. cbn. rewrite Hp. cbn. rewrite slice_from_Some by done. eauto. Qed.

Lemma body_payload_at k pos u : 0 <= pos <= len body ->
  is_Some (event_payload (MkRpcEvent k f (if uh then 0 else pos) u)).
Proof using Hp Hb.
  intros Hpos. assert (0 <= len p) by (unfold len; lia).
  apply body_payload. destruct Hb as [[-> _]|[-> <-]]; lia.
Qed.

Lemma body_id k pos : 5 <= len body -> is_Some (event_id (MkRpcEvent k f pos uh)).
Proof using Hp Hb. intros Hl. unfold event_id. rewrite body_part. cbn. apply fmap_is_Some, slice_Some; lia. Qed.

Lemma body_code k pos : 7 <= len body -> is_Some (event_code (MkRpcEvent k f pos uh)).
Proof using Hp Hb.
  intros Hl. unfold event_code. case_decide; [|eauto]. rewrite body_part. cbn.
  destruct (slice_Some 5 7 body) as [c ->]; [lia..|]. eauto.
Qed.
End Readable.

(** A request read from the payload: its method is the bytes up to the first NUL, its parameters
    what follows. *)
Lemma payload_request_readable f p :
  payload f = Some p -> 6 <= len p ->
  exists rest, slice_from 5 p = Some rest /\
    forall ev,
      (let? method := ok_or (splitn 2 x00 rest !! 0%nat) (Error_data (lit "No RPC method")) in
       let? _ := ok_or (splitn 2 x00 rest !! 1%nat) (Error_data (lit "No RPC params block")) in
       Ok (MkRpcEvent Request f (6 + len method) false)) = Ok ev -> readable f ev.
Proof.
  intros Hp Hl. exists (drop (Z.to_nat 5) p).
  split; [apply slice_from_Some; change (Z.of_nat (length p)) with (len p); lia|].
  set (rest := drop (Z.to_nat 5) p).
  assert (Hrl : len rest = len p - 5) by (unfold rest, len in *; rewrite length_drop; lia).
  pose proof (split_once_spec x00 rest) as Hsp. cbn [splitn].
  destruct (split_once x00 rest) as [m [t|]]; cbn; [|done]. intros ev [= <-]. destruct Hsp as [Hr _].
  assert (Hm : len m + 1 <= len rest) by (rewrite Hr, len_app; unfold len; cbn; lia).
  assert (0 <= len m) by (unfold len; lia).
  split_and!; try done.
  - apply (body_payload f p Hp). lia.
  - intros _. apply (body_id f p p false); [done|by right|lia].
  - intros _. unfold event_method. cbn. rewrite Hp. cbn. apply slice_Some; lia.
Qed.

(** Of a message frame that is an event, everything its kind promises can be read. *)
Lemma rpc_event_readable f :
  frame_wf f ->
  exists r, RpcEvent_try_from f = Some r /\ forall ev, r = Ok ev -> readable f ev.
Proof.
  intros Hwf. destruct (payload_wf f Hwf) as [p Hp]. unfold RpcEvent_try_from.
  set (hdr := match frame_header f with Some h => Some (h, true) | None => p ← payload f; Some (p, false) end).
  assert (Hb : exists body uh, hdr = Some (body, uh) /\
     (uh = true /\ frame_header f = Some body \/ uh = false /\ body = p)).
  { unfold hdr. destruct (frame_header f) as [h|]; [by eauto 8|]. rewrite Hp. cbn. eauto 8. }
  destruct Hb as (body & uh & -> & Hb). cbn [mbind option_bind].
  destruct body as [|code body']; [by eexists|]. set (body := code :: body') in *.
  assert (Hlen : 1 <= len body) by (unfold body, len; cbn; lia).
  case_decide.
  { eexists. split; [done|]. intros ev [= <-]. split_and!; try done.
    apply (body_payload_at f p body uh); [done..|lia]. }
  case_decide.
  { destruct (len body <? 6) eqn:El; [by eexists|]. apply Z.ltb_ge in El. destruct uh.
    - eexists. split; [done|]. intros ev [= <-]. destruct Hb as [[_ Hh]|[? _]]; [|done]. split_and!; try done.
      + apply (body_payload f p Hp). unfold len. lia.
      + intros _. apply (body_id f p body true); [done|by left|lia].
      + intros _. unfold event_method. cbn. rewrite Hh. cbn. apply slice_Some; lia.
    - destruct Hb as [[? _]|[_ ->]]; [done|].
      destruct (payload_request_readable f p Hp El) as (rest & -> & Hev). by eexists. }
  case_decide.
  { destruct (len body <? 5) eqn:El; [by eexists|]. apply Z.ltb_ge in El.
    eexists. split; [done|]. intros ev [= <-]. split_and!; try done.
    - apply (body_payload_at f p body uh); [done..|lia].
    - intros _. apply (body_id f p body uh); [done..|lia]. }
  case_decide; [|by eexists].
  destruct (len body <? 7) eqn:El; [by eexists|]. apply Z.ltb_ge in El.
  eexists. split; [done|]. intros ev [= <-]. split_and!; try done.
  - apply (body_payload_at f p body uh); [done..|lia].
  - apply (body_code f p body uh); [done..|lia].
  - intros _. apply (body_id f p body uh); [done..|lia].
Qed.

Lemma processor_step_total opts f s :
  frame_wf f -> is_Some (frame_sender f) -> is_Some (processor_step opts f s).
Proof.
  intros Hwf [from Hfrom]. destruct (rpc_event_readable f Hwf) as (r & Er & Hev).
  unfold processor_step. case_decide; [|eauto]. rewrite Er. cbn [mbind option_bind].
  destruct r as [ev|]; [|eauto]. destruct (Hev ev eq_refl) as (_ & _ & _ & Hid & _).
  destruct (ev_kind ev) eqn:Ek; [eauto| | |];
    (destruct Hid as [id Hid]; [done|]; rewrite Hid; cbn [mbind option_bind]).
  + destruct (0 <? id); [|eauto]. unfold sender. rewrite Hfrom. cbn. eauto.
  + destruct (calls s !! id); eauto.
  + destruct (calls s !! id); eauto.
Qed.

(** Reading RPC events never panics, whatever the peer sent: every message frame is an
    event or an error, and of an event the payload and the code can be read, of every event
    but a notification the call id, and of a request the method. (The code says "should not
    panic" in four places.) *)
Theorem rpc_event_no_panic opts f s :
  frame_wf f -> is_Some (frame_sender f) ->
  is_Some (processor_step opts f s) /\
  exists r, RpcEvent_try_from f = Some r /\
    forall ev, r = Ok ev ->
      is_Some (event_payload ev) /\ is_Some (event_code ev) /\
      (ev_kind ev <> Notification -> is_Some (event_id ev)) /\
      (ev_kind ev = Request -> is_Some (event_method ev)).
Proof.
  intros Hwf Hfrom. split; [by apply processor_step_total|].
  destruct (rpc_event_readable f Hwf) as (r & Er & Hev).
  exists r. split; [done|]. intros ev ->. by destruct (Hev ev eq_refl) as (_ & ? & ? & ? & ?).
Qed.

(** What the processor makes of a request and of a reply, over either transport. *)
Lemma processor_request opts method params from id f s :
  1 <= id < 2 ^ 32 -> x00 ∉ method -> frame_kind f = FrameKind_Message -> frame_sender f = Some from ->
  carried (prepare_call_payload method (to_le_bytes 4 id)) params f ->
  exists ev, processor_step opts f s = Some (HandleCall ev (Some (from, id))
       (if frame_realtime f then QoS_RealtimeProcessed else QoS_Processed), s) /\
     event_method ev = Some method /\ event_payload ev = Some params.
Proof.
  intros Hid Hm Hk Hs Hc.
  destruct (carried_request _ _ _ _ (length_to_le_bytes 4 id) Hm Hc) as (ev & E & Ek & Ef & Ei & Em & Ep).
  exists ev. split_and!; [|done|done]. unfold processor_step. rewrite decide_True by done.
  rewrite E. cbn [mbind option_bind]. rewrite Ek, Ei. cbn [mbind option_bind].
  rewrite from_to_le_bytes_small by lia. rewrite (proj2 (Z.ltb_lt _ _)) by lia.
  unfold sender. rewrite Hs. done.
Qed.

Lemma processor_reply opts id res g s tx :
  0 <= id < 2 ^ 32 -> match res with Ok _ => True | Err e => - 2 ^ 15 <= rpc_code e < 2 ^ 15 end ->
  calls s !! id = Some tx ->
  frame_kind g = FrameKind_Message -> carried (reply_parts id res).1 (reply_parts id res).2 g ->
  exists ev, processor_step opts g s =
       Some (Resolve tx ev, MkRpcState (call_id s) (delete id (calls s)) (next_tx s)) /\
     event_payload ev = Some (reply_parts id res).2 /\
     call_finish ev = Some match res with
                           | Ok _ => Ok ev
                           | Err e => Err (MkRpcError (rpc_code e) (Some (default [] (rpc_data e))))
                           end.
Proof.
  intros Hid Hcode Htx Hk Hc. destruct (carried_reply id res g Hid Hcode Hc) as (ev & E & Ek & Ei & Ep & Ec).
  exists ev. split_and!; [|done|done]. unfold processor_step. rewrite decide_True by done.
  rewrite E. cbn [mbind option_bind].
  destruct Ek as [-> | ->]; rewrite Ei; cbn [mbind option_bind]; by rewrite Htx.
Qed.

Lemma next_call_id_range id : 0 <= id < 2 ^ 32 -> 1 <= next_call_id id < 2 ^ 32.
Proof. unfold next_call_id. intros H. destruct (_ =? _) eqn:E; [lia|]. apply Z.eqb_neq in E. lia. Qed.

(** An RPC call and its answer, over either transport in each direction: the callee's
    processor hands its handler the method and the parameters of the call and keeps the
    caller's name and the call's id for the reply; the reply it builds from the handler's
    result resolves, in the caller, the call it answers (whose id is never zero) and no other,
    and the call returns that result: the payload, or the error code and data. *)
Theorem rpc_call_roundtrip opts method params from res s1 s1' hdr id tx s2 f g :
  0 <= call_id s1 < 2 ^ 32 -> x00 ∉ method ->
  match res with Ok _ => True | Err e => - 2 ^ 15 <= rpc_code e < 2 ^ 15 end ->
  call_begin method s1 = ((hdr, id, tx), s1') ->
  frame_kind f = FrameKind_Message -> frame_sender f = Some from -> carried hdr params f ->
  frame_kind g = FrameKind_Message -> carried (reply_parts id res).1 (reply_parts id res).2 g ->
  id <> 0 /\ calls s1' !! id = Some tx /\
  (exists ev, processor_step opts f s2 = Some (HandleCall ev (Some (from, id))
       (if frame_realtime f then QoS_RealtimeProcessed else QoS_Processed), s2) /\
     event_method ev = Some method /\ event_payload ev = Some params) /\
  (exists ev, processor_step opts g s1' =
       Some (Resolve tx ev, MkRpcState (call_id s1') (delete id (calls s1')) (next_tx s1')) /\
     event_payload ev = Some (reply_parts id res).2 /\
     call_finish ev = Some match res with
                           | Ok _ => Ok ev
                           | Err e => Err (MkRpcError (rpc_code e) (Some (default [] (rpc_data e))))
                           end).
Proof.
  intros Hr Hm Hcode Hb Hkf Hsf Hcf Hkg Hcg. unfold call_begin in Hb. injection Hb as <- <- <- <-.
  pose proof (next_call_id_range (call_id s1) ltac:(lia)) as Hid.
  split_and!; [lia|apply lookup_insert_eq|by apply processor_request|].
  apply processor_reply; [lia|done|apply lookup_insert_eq|done|done].
Qed.

(** Pending calls have distinct channels, all of them handed out. *)
Definition calls_ok (s : RpcState) : Prop :=
  (forall id tx, calls s !! id = Some tx -> (tx < next_tx s)%nat) /\
  (forall i j tx, calls s !! i = Some tx -> calls s !! j = Some tx -> i = j).

Lemma call_begin_ok method s : calls_ok s -> calls_ok (call_begin method s).2.
Proof.
  intros [Hlt Hinj]. split; cbn.
  - intros id tx [[_ <-]|[_ H]]%lookup_insert_Some; [lia|]. apply Hlt in H. lia.
  - intros i j tx Hi Hj. apply lookup_insert_Some in Hi as [[<- <-]|[Hi H]];
      apply lookup_insert_Some in Hj as [[<- E]|[Hj H']]; try done.
    + apply Hlt in H'. lia.
    + apply Hlt in H. lia.
    + by eapply Hinj.
Qed.

Lemma calls_delete_ok id s : calls_ok s -> calls_ok (MkRpcState (call_id s) (delete id (calls s)) (next_tx s)).
Proof.
  intros [Hlt Hinj]. split; cbn.
  - intros i tx [_ H]%lookup_delete_Some. by eapply Hlt.
  - intros i j tx [_ H]%lookup_delete_Some [_ H']%lookup_delete_Some. by eapply Hinj.
Qed.

(** A turn of the processor resolves a pending call and removes it, or leaves the calls alone. *)
Lemma processor_step_calls opts f s action s' :
  processor_step opts f s = Some (action, s') ->
  match action with
  | Resolve tx _ => exists id, calls s !! id = Some tx /\
                               s' = MkRpcState (call_id s) (delete id (calls s)) (next_tx s)
  | _ => s' = s
  end.
Proof.
  unfold processor_step. intros H. case_decide; [|by simplify_eq].
  destruct (RpcEvent_try_from f) as [[ev|e]|]; cbn in H; [|by simplify_eq|done].
  destruct (ev_kind ev); [by simplify_eq| | |].
  - destruct (event_id ev) as [id|]; cbn in H; [|done].
    destruct (if 0 <? id then _ else _); cbn in H; by simplify_eq.
  - destruct (event_id ev) as [id|]; cbn in H; [|done].
    destruct (calls s !! id) eqn:E; simplify_eq; [by exists id|done].
  - destruct (event_id ev) as [id|]; cbn in H; [|done].
    destruct (calls s !! id) eqn:E; simplify_eq; [by exists id|done].
Qed.

(** What remains to be resolved was pending or has not been registered yet. *)
Lemma rpc_run_resolves opts ops : forall s txs s',
  calls_ok s -> rpc_run opts ops s = Some (txs, s') ->
  NoDup txs /\ calls_ok s' /\ (next_tx s <= next_tx s')%nat /\
  (forall tx, tx ∈ txs -> (exists id, calls s !! id = Some tx) \/ (next_tx s <= tx)%nat) /\
  (forall id tx, calls s' !! id = Some tx ->
     (tx ∉ txs) /\ ((exists id, calls s !! id = Some tx) \/ (next_tx s <= tx)%nat)).
Proof.
  induction ops as [|[method|id e|f] ops IH]; intros s txs s' Hok Hrun; cbn in Hrun.
  - simplify_eq. split_and!; [constructor|done|lia|set_solver|]. intros id tx H. split; [set_solver|eauto].
  - destruct (IH _ _ _ (call_begin_ok method s Hok) Hrun) as (Hnd & Hok' & Hle & Hin & Hout). cbn in *.
    assert (Hback : forall tx, (exists i, <[next_call_id (call_id s):=next_tx s]> (calls s) !! i = Some tx) \/
        (S (next_tx s) <= tx)%nat -> (exists i, calls s !! i = Some tx) \/ (next_tx s <= tx)%nat).
    { intros tx [[i [[_ <-]|[_ H]]%lookup_insert_Some]|H]; [right; lia|eauto|right; lia]. }
    split_and!; [done|done|lia|by auto|]. intros i tx H. destruct (Hout i tx H). auto.
  - destruct (IH _ _ _ (calls_delete_ok id s Hok) Hrun) as (Hnd & Hok' & Hle & Hin & Hout). cbn in *.
    assert (Hback : forall tx, (exists i, delete id (calls s) !! i = Some tx) \/ (next_tx s <= tx)%nat ->
        (exists i, calls s !! i = Some tx) \/ (next_tx s <= tx)%nat).
    { intros tx [[i [_ H]%lookup_delete_Some]|H]; eauto. }
    split_and!; [done|done|lia|by auto|]. intros i tx H. destruct (Hout i tx H). auto.
  - destruct (processor_step opts f s) as [[action s1]|] eqn:E; cbn in Hrun; [|done].
    apply processor_step_calls in E.
    destruct (rpc_run opts ops s1) as [[txs1 s2]|] eqn:Er; cbn in Hrun; [|done].
    destruct action as [?|?|?|tx ev|?|?]; simplify_eq; try (by eapply IH).
    destruct E as (id & Hid & ->). destruct (IH _ _ _ (calls_delete_ok id s Hok) Er) as (Hnd & Hok' & Hle & Hin & Hout).
    cbn in *.
    assert (Hnot : forall tx', (exists i, delete id (calls s) !! i = Some tx') \/ (next_tx s <= tx')%nat ->
        tx' <> tx /\ ((exists i, calls s !! i = Some tx') \/ (next_tx s <= tx')%nat)).
    { intros tx' [[i [Hne H]%lookup_delete_Some]|H].
      - split; [intros ->|eauto]. destruct Hok as [_ Hinj]. by apply Hne, (Hinj id i tx).
      - split; [intros ->|auto]. apply Hok in Hid. lia. }
    split_and!; [|done|done| |].
    + constructor; [|done]. intros H. by destruct (Hnot tx (Hin tx H)).
    + intros tx' [->|H]%elem_of_cons; [eauto|]. by apply Hnot, Hin.
    + intros i tx' H. destruct (Hout i tx' H) as [H1 H2]. destruct (Hnot tx' H2). set_solver.
Qed.

(** Whatever a client calls, withdraws and receives, in any order, its processor never
    panics, no call is resolved twice, and none that was resolved is still pending. *)
Theorem rpc_resolves_once opts ops :
  (forall f, TakeFrame f ∈ ops -> frame_wf f /\ is_Some (frame_sender f)) ->
  exists txs s, rpc_run opts ops RpcState_new = Some (txs, s) /\ NoDup txs /\
    forall id tx, calls s !! id = Some tx -> tx ∉ txs.
Proof.
  intros Hf.
  assert (Htot : forall s, is_Some (rpc_run opts ops s)).
  { induction ops as [|[method|id e|f] ops IH]; intros s; cbn; [eauto|apply IH; intros f Hin; apply Hf; by right..|].
    destruct (Hf f) as [Hw Hs]; [left|]. destruct (processor_step_total opts f s Hw Hs) as [[a s1] ->]. cbn.
    destruct (IH ltac:(intros g Hg; apply Hf; by right) s1) as [[txs s2] ->]. eauto. }
  destruct (Htot RpcState_new) as [[txs s] E]. exists txs, s. split; [done|].
  destruct (rpc_run_resolves opts ops RpcState_new txs s) as (Hnd & _ & _ & _ & Hout); [by split|done|].
  split; [done|]. intros id tx H. by destruct (Hout id tx H).
Qed.

(** A call of a socket client, its request as the callee gets it, and the reply as it comes
    back. *)
Definition request_frame : FrameData :=
  MkFrame FrameKind_Message (Some (lit "caller")) None None
    (prepare_call_payload (lit "echo") (to_le_bytes 4 1) ++ lit "hi") 0 false.
Definition reply_frame : FrameData :=
  MkFrame FrameKind_Message (Some (lit "callee")) None (Some ([RPC_REPLY] ++ to_le_bytes 4 1)) (lit "hi") 0 false.

Lemma rpc_event_no_panic_witness : is_Some (processor_step (MkOptions false false) request_frame RpcState_new).
Proof. apply (rpc_event_no_panic (MkOptions false false) request_frame RpcState_new); [split; cbn; lia|by eexists]. Defined.

Lemma rpc_call_roundtrip_witness :
  exists ev, processor_step (MkOptions false false) reply_frame (call_begin (lit "echo") RpcState_new).2
      = Some (Resolve 0 ev, MkRpcState 1 ∅ 1) /\
    event_payload ev = Some (lit "hi") /\ call_finish ev = Some (Ok ev).
Proof.
  destruct (rpc_call_roundtrip (MkOptions false false) (lit "echo") (lit "hi") (lit "caller") (Ok (Some (lit "hi"))) RpcState_new
    (call_begin (lit "echo") RpcState_new).2 (call_begin (lit "echo") RpcState_new).1.1.1 1 0 RpcState_new
    request_frame reply_frame) as (_ & _ & _ & ev & E & Hp & Hf).
  - done.
  - apply (bool_decide_eq_true _). by vm_compute.
  - done.
  - done.
  - done.
  - done.
  - right. by vm_compute.
  - done.
  - left. by vm_compute.
  - exists ev. split_and!; [exact E|exact Hp|exact Hf].
Defined.

(** Two calls, of which one is answered twice. *)
Lemma rpc_resolves_once_witness :
  rpc_run (MkOptions false false)
    [BeginCall (lit "a"); BeginCall (lit "b"); TakeFrame reply_frame; TakeFrame reply_frame] RpcState_new
    = Some ([0%nat], MkRpcState 2 {[ 2 := 1%nat ]} 2) /\ NoDup [0%nat].
Proof.
  destruct (rpc_resolves_once (MkOptions false false)
    [BeginCall (lit "a"); BeginCall (lit "b"); TakeFrame reply_frame; TakeFrame reply_frame]) as (txs & s & E & Hnd & _).
  - intros f Hf. rewrite !elem_of_cons, elem_of_nil in Hf. destruct Hf as [H|[H|[H|[H|[]]]]];
      [discriminate H|discriminate H|injection H as ->..]; (split; [split; cbn; lia|by eexists]).
  - vm_compute in E. injection E as <- <-. by split.
Defined.
