(* ===== verification/Fifo.v ===== *)
(** * Commands from a fifo ([src/broker.rs], [send_fifo_cmd])

    Shell scripts write lines into a named pipe, and the broker's RPC client carries them out:
    publications, messages, broadcasts, notifications and calls without a reply. The mutex of the
    RPC client is held while a line is carried out. [fifo_commands] says what each line does,
    [fifo_slow_target_deadlock] what a slow receiver does to the fifo. *)
From S2P Require Export InternalClient Announce Rpc.

Definition BROKER_RPC_NOT_INIT_ERR : str := lit "broker core RPC client not initialized".

(** ** [str::trim] *)

(** The encodings of the white space of Unicode. *)
Definition white : list bytes :=
  [[x09]; [x0a]; [x0b]; [x0c]; [x0d]; [x20]; [xc2; x85]; [xc2; xa0]; [xe1; x9a; x80]]
    ++ ((fun b => [xe2; x80; b]) <$>
         [x80; x81; x82; x83; x84; x85; x86; x87; x88; x89; x8a; xa8; xa9; xaf])
    ++ [[xe2; x81; x9f]; [xe3; x80; x80]].

Definition strip_one (ws : list bytes) (s : bytes) : option bytes := head (omap (fun w => strip_prefix w s) ws).

Fixpoint strip_all (fuel : nat) (ws : list bytes) (s : bytes) : bytes :=
  match fuel with
  | O => s
  | S fuel => match strip_one ws s with Some s => strip_all fuel ws s | None => s end
  end.

Definition trim_start (s : str) : str := strip_all (length s) white s.
Definition trim_end (s : str) : str := reverse (strip_all (length s) (reverse <$> white) (reverse s)).
Definition trim (s : str) : str := trim_end (trim_start s).

Section fifo.
Context {X : Externals}.

(** [send_fifo_cmd]. *)
Definition send_fifo_cmd (line : str) : prog BrokerDb Error unit :=
  let cmd := trim line in
  with_rpc_lock (
    gets rpc_client ≫= fun c =>
    match c with
    | None => throw (Error_not_supported BROKER_RPC_NOT_INIT_ERR)
    | Some bus =>
        match strip_prefix (lit "=") cmd with
        | Some s =>
            let sp := split x20 s in
            lift (ok_or (sp !! 0%nat) (Error_data (lit "topic not specified"))) ≫= fun topic =>
            lift (ok_or (sp !! 1%nat) (Error_data (lit "payload not specified"))) ≫= fun payload =>
            with_bus_lock (client_publish bus topic payload QoS_No) ≫= fun _ => mret tt
        | None =>
            let sp := split x20 line in
            lift (ok_or (sp !! 0%nat) (Error_data (lit "target not specified"))) ≫= fun target =>
            lift (ok_or (sp !! 1%nat) (Error_data (lit "payload not specified"))) ≫= fun payload =>
            match strip_prefix (lit ".") payload with
            | Some s => with_bus_lock (client_zc_send bus target notify_header s QoS_No) ≫= fun _ => mret tt
            | None =>
                match strip_prefix (lit ":") payload with
                | Some method =>
                    lift (str_to_params_map (drop 2 sp)) ≫= fun params =>
                    lift (map_err Error_data (pa_to_vec params)) ≫= fun data =>
                    with_bus_lock (client_zc_send bus target (call0_header method) data QoS_No) ≫= fun _ =>
                    mret tt
                | None =>
                    if bool_decide (x2a ∈ target \/ x3f ∈ target) then
                      with_bus_lock (client_send_broadcast bus target payload QoS_No) ≫= fun _ => mret tt
                    else with_bus_lock (client_send bus target payload QoS_No) ≫= fun _ => mret tt
                end
            end
        end
    end).

(** The lines of the pipe, one after the other; errors are only logged. *)
Definition fifo_lines (lines : list str) : prog BrokerDb Error unit :=
  for_each lines (fun line => attempt (send_fifo_cmd line) ≫= fun _ => mret tt).

(** [spawn_fifo]: refused without an RPC client. [pipe] is the outcome of creating the pipe, whose
    lines the spawned service then carries out ([fifo_lines]). *)
Definition spawn_fifo (pipe : result unit Error) : prog BrokerDb Error unit :=
  with_rpc_lock (gets rpc_client) ≫= fun c =>
  match c with
  | None => throw (Error_not_supported BROKER_RPC_NOT_INIT_ERR)
  | Some _ => lift pipe
  end.
End fifo.

(** ** Trimming *)

Lemma strip_prefix_Some p s s' : strip_prefix p s = Some s' -> s = p ++ s'.
Proof.
  unfold strip_prefix. destruct (starts_with p s) eqn:Es; [|done]. intros [= <-].
  apply starts_with_spec in Es as [x ->]. by rewrite drop_app_length.
Qed.

(** A byte no encoding of white space begins or ends with, nor contains. *)
Definition graphic (b : byte) : bool := (33 <=? u8_val b) && (u8_val b <=? 126).

Lemma white_graphic c w : graphic c = true -> w ∈ white ++ (reverse <$> white) -> (c ∉ w) /\ w <> [].
Proof.
  intros Hc Hw.
  assert (Hall : Forall (fun w => Forall (fun b => graphic b = false) w /\ w <> []) (white ++ (reverse <$> white))).
  { apply (bool_decide_eq_true _). by vm_compute. }
  rewrite Forall_forall in Hall. destruct (Hall w Hw) as [Hf Hne]. split; [|done].
  intros Hin. rewrite Forall_forall in Hf. specialize (Hf c Hin). congruence.
Qed.

(** A prefix without [c] ends before [c]. *)
Lemma starts_with_before w r c x : c ∉ w -> starts_with w (r ++ c :: x) = true -> exists r', r = w ++ r'.
Proof.
  revert w. induction r as [|b r IH]; intros [|a w] Hw Hs; [by exists []|..|by eexists|].
  - apply andb_true_iff in Hs as [->%bool_decide_eq_true _]. set_solver.
  - apply andb_true_iff in Hs as [->%bool_decide_eq_true Hs]. destruct (IH w) as [r' ->]; [set_solver|done|].
    by exists r'.
Qed.

Lemma strip_one_Some ws s s' : strip_one ws s = Some s' -> exists w, w ∈ ws /\ strip_prefix w s = Some s'.
Proof.
  unfold strip_one. intros H. assert (Hin : s' ∈ omap (fun w => strip_prefix w s) ws).
  { destruct (omap _ ws); [done|]. injection H as ->. left. }
  by apply list_elem_of_omap in Hin.
Qed.

(** Stripping stops before a graphic byte. *)
Lemma strip_all_before fuel ws r c x :
  graphic c = true -> (forall w, w ∈ ws -> w ∈ white ++ (reverse <$> white)) ->
  exists pre r', r = pre ++ r' /\ strip_all fuel ws (r ++ c :: x) = r' ++ c :: x.
Proof.
  intros Hc Hws. revert r. induction fuel as [|fuel IH]; intros r; [by exists [], r|]. cbn [strip_all].
  destruct (strip_one ws (r ++ c :: x)) as [s'|] eqn:E; [|by exists [], r].
  apply strip_one_Some in E as (w & Hw & Hp). unfold strip_prefix in Hp.
  destruct (starts_with w (r ++ c :: x)) eqn:Es; [|done]. injection Hp as <-.
  destruct (starts_with_before w r c x) as [r1 ->]; [by eapply white_graphic, Hws|done|].
  rewrite <- app_assoc, drop_app_length. destruct (IH r1) as (pre & r' & -> & ->).
  exists (w ++ pre), r'. by rewrite <- app_assoc.
Qed.

Lemma trim_start_graphic c x : graphic c = true -> trim_start (c :: x) = c :: x.
Proof.
  intros Hc. destruct (strip_all_before (length (c :: x)) white [] c x Hc) as (pre & r' & Hr & E).
  - intros w Hw. apply elem_of_app. by left.
  - unfold trim_start. cbn [app] in E. rewrite E. by destruct pre, r'.
Qed.

Lemma trim_end_graphic c x r : graphic c = true ->
  exists r' post, r = r' ++ post /\ trim_end (x ++ c :: r) = x ++ c :: r'.
Proof.
  intros Hc.
  destruct (strip_all_before (length (x ++ c :: r)) (reverse <$> white) (reverse r) c (reverse x) Hc) as (pre & r' & Hr & E).
  - intros w Hw. apply elem_of_app. by right.
  - exists (reverse r'), (reverse pre). split; [by rewrite <- reverse_app, <- Hr, reverse_involutive|].
    unfold trim_end. replace (reverse (x ++ c :: r)) with (reverse r ++ c :: reverse x)
      by (rewrite reverse_app, reverse_cons, <- app_assoc; done).
    rewrite E. rewrite reverse_app, reverse_cons, reverse_involutive. by rewrite <- app_assoc.
Qed.

Lemma strip_all_subset fuel ws s b : b ∈ strip_all fuel ws s -> b ∈ s.
Proof.
  revert s. induction fuel as [|fuel IH]; intros s; [done|]. cbn [strip_all].
  destruct (strip_one ws s) as [s'|] eqn:E; [|done]. intros Hb%IH.
  apply strip_one_Some in E as (w & _ & ->%strip_prefix_Some). apply elem_of_app. by right.
Qed.

Lemma trim_end_subset s b : b ∈ trim_end s -> b ∈ s.
Proof.
  unfold trim_end. rewrite elem_of_reverse. intros Hb%strip_all_subset. by rewrite elem_of_reverse in Hb.
Qed.

Lemma trim_subset s b : b ∈ trim s -> b ∈ s.
Proof. unfold trim, trim_start. intros Hb%trim_end_subset. by apply strip_all_subset in Hb. Qed.

(** Spaces at the end are trimmed. *)
Lemma strip_spaces fuel n s :
  (n <= fuel)%nat ->
  strip_all fuel (reverse <$> white) (replicate n x20 ++ s) = strip_all (fuel - n) (reverse <$> white) s.
Proof.
  revert fuel. induction n as [|n IH]; intros fuel Hn; [by rewrite Nat.sub_0_r|].
  destruct fuel as [|fuel]; [lia|].
  change (strip_all fuel (reverse <$> white) (replicate n x20 ++ s)
    = strip_all (fuel - n) (reverse <$> white) s).
  apply IH. lia.
Qed.

Lemma trim_end_spaces s n b : b ∈ trim_end (s ++ replicate n x20) -> b ∈ s.
Proof.
  unfold trim_end.
  rewrite elem_of_reverse, reverse_app, length_app, length_replicate, reverse_replicate, strip_spaces by lia.
  intros Hb%strip_all_subset. by rewrite elem_of_reverse in Hb.
Qed.

(** ** Lines *)

(** A word of a line, that is not the last one or ends with something to see. *)
Definition word (w : str) : Prop := x20 ∉ w.
Definition tail (r : str) : Prop := r = [] \/ exists more, r = x20 :: more.

Lemma split_words w1 w2 r :
  word w1 -> word w2 -> tail r ->
  split x20 (w1 ++ x20 :: w2 ++ r) !! 0%nat = Some w1 /\ split x20 (w1 ++ x20 :: w2 ++ r) !! 1%nat = Some w2 /\
  drop 2 (split x20 (w1 ++ x20 :: w2 ++ r)) = match r with [] => [] | _ :: more => split x20 more end.
Proof.
  intros H1 H2 Hr. rewrite split_app by done. destruct Hr as [->|[more ->]].
  - by rewrite app_nil_r, split_none.
  - by rewrite split_app.
Qed.

Lemma strip_prefix_app p s : strip_prefix p (p ++ s) = Some s.
Proof. unfold strip_prefix. by rewrite starts_with_app, drop_app_length. Qed.

Lemma trim_topic w1 p c r :
  graphic c = true -> tail r -> exists r',
    tail r' /\ strip_prefix (lit "=") (trim (lit "=" ++ w1 ++ x20 :: (p ++ [c]) ++ r)) = Some (w1 ++ x20 :: (p ++ [c]) ++ r').
Proof.
  intros Hc Hr. unfold trim.
  change (lit "=" ++ w1 ++ x20 :: (p ++ [c]) ++ r) with (x3d :: w1 ++ x20 :: (p ++ [c]) ++ r).
  rewrite trim_start_graphic by done.
  replace (x3d :: w1 ++ x20 :: (p ++ [c]) ++ r) with ((lit "=" ++ w1 ++ x20 :: p) ++ c :: r)
    by (cbn; rewrite <- !app_assoc; done).
  destruct (trim_end_graphic c (lit "=" ++ w1 ++ x20 :: p) r Hc) as (r' & post & -> & ->).
  exists r'. split.
  - destruct Hr as [Hr|[more Hr]]; [left; by destruct r'|]. destruct r' as [|b r']; [by left|].
    right. injection Hr as -> _. by eexists.
  - rewrite <- !app_assoc. apply (strip_prefix_app (lit "=")).
Qed.

Lemma trim_target b w : graphic b = true -> b <> x3d -> strip_prefix (lit "=") (trim (b :: w)) = None.
Proof.
  intros Hb Hne. unfold trim. rewrite trim_start_graphic by done.
  destruct (trim_end_graphic b [] w Hb) as (r' & post & _ & E). cbn [app] in E. rewrite E.
  unfold strip_prefix. destruct (starts_with (lit "=") _) eqn:Es; [|done].
  apply starts_with_spec in Es as [s Hs]. by injection Hs as -> _.
Qed.

(** ** What a line does *)

Section lines.
Context {X : Externals} `{!ExternalsLaws X}.

(** The sending of a command: both mutexes are held meanwhile. *)
Definition core_sends (op : prog BrokerDb Error OpConfirm) : prog BrokerDb Error unit :=
  with_rpc_lock (with_bus_lock op ≫= fun _ => mret tt).

Lemma with_core {A} (k : option nat -> prog BrokerDb Error A) c d :
  rpc_client d = c -> with_rpc_lock (gets rpc_client ≫= k) d = with_rpc_lock (k c) d.
Proof. intros <-. done. Qed.

Lemma lift_Ok {A B} (a : A) (k : A -> prog BrokerDb Error B) : with_rpc_lock (lift (Ok a) ≫= k) = with_rpc_lock (k a).
Proof. done. Qed.

Lemma with_rpc_lock_throw {A} e d : rpc_lock d = false -> with_rpc_lock (throw e : prog BrokerDb Error A) d = Throw e d.
Proof. intros Hl. unfold with_rpc_lock. rewrite Hl. destruct d. cbn in *. by subst. Qed.

Lemma fifo_no_payload w bus d :
  rpc_client d = Some bus -> rpc_lock d = false ->
  (strip_prefix (lit "=") (trim w) = None -> word w) ->
  (forall s, strip_prefix (lit "=") (trim w) = Some s -> word s) ->
  send_fifo_cmd w d = Throw (Error_data (lit "payload not specified")) d.
Proof.
  intros Hbus Hl Hw Hs. unfold send_fifo_cmd. cbv zeta. rewrite (with_core _ (Some bus)) by done.
  destruct (strip_prefix (lit "=") (trim w)) as [s|];
    [rewrite split_none by (by apply Hs)|rewrite split_none by (by apply Hw)];
    exact (with_rpc_lock_throw _ d Hl).
Qed.

(** A line that is not a publication, as far as its target and payload. *)
Lemma fifo_target b t payload r bus d :
  rpc_client d = Some bus -> graphic b = true -> b <> x3d -> word (b :: t) -> word payload -> tail r ->
  send_fifo_cmd ((b :: t) ++ x20 :: payload ++ r) d =
    match strip_prefix (lit ".") payload with
    | Some s => core_sends (client_zc_send bus (b :: t) notify_header s QoS_No) d
    | None =>
        match strip_prefix (lit ":") payload with
        | Some method =>
            with_rpc_lock (
              lift (str_to_params_map (match r with [] => [] | _ :: more => split x20 more end)) ≫= fun params =>
              lift (map_err Error_data (pa_to_vec params)) ≫= fun data =>
              with_bus_lock (client_zc_send bus (b :: t) (call0_header method) data QoS_No) ≫= fun _ => mret tt) d
        | None =>
            if bool_decide (x2a ∈ b :: t \/ x3f ∈ b :: t)
            then core_sends (client_send_broadcast bus (b :: t) payload QoS_No) d
            else core_sends (client_send bus (b :: t) payload QoS_No) d
        end
    end.
Proof.
  intros Hbus Hb Hne Hw1 Hw2 Hr. unfold send_fifo_cmd. cbv zeta. rewrite (with_core _ (Some bus)) by done.
  destruct (split_words (b :: t) payload r Hw1 Hw2 Hr) as (-> & -> & ->).
  cbn [app]. rewrite trim_target by done. cbn [ok_or]. rewrite !lift_Ok.
  destruct (strip_prefix (lit ".") payload); [done|]. destruct (strip_prefix (lit ":") payload); [done|].
  by case_bool_decide.
Qed.
End lines.

(** C24: what a line of a fifo does, while the broker's RPC client [bus] is there:
    [=TOPIC MESSAGE] publishes the first word of the message; [TARGET .TEXT] notifies the target;
    [TARGET :METHOD NAME=VALUE ..] calls the method with the parameters, without a reply;
    [TARGET MESSAGE] broadcasts to a mask (a target with [*] or [?]) and sends to anybody else,
    again the first word of the message only. A line without a space, [=TOPIC] with nothing
    but spaces behind it, a call whose parameters cannot be read or encoded, and without
    an RPC client every line, is an error that sends nothing. *)
Theorem fifo_commands {X : Externals} `{!ExternalsLaws X} d bus :
  rpc_client d = Some bus ->
  (forall topic p c r, word topic -> word (p ++ [c]) -> graphic c = true -> tail r ->
     send_fifo_cmd (lit "=" ++ topic ++ x20 :: (p ++ [c]) ++ r) d
       = core_sends (client_publish bus topic (p ++ [c]) QoS_No) d) /\
  (forall b t payload r, graphic b = true -> b <> x3d -> word (b :: t) -> word payload -> tail r ->
     let target := b :: t in
     let line payload := target ++ x20 :: payload ++ r in
     send_fifo_cmd (line (lit "." ++ payload)) d
       = core_sends (client_zc_send bus target [RPC_NOTIFICATION] payload QoS_No) d /\
     (forall params data,
        str_to_params_map (match r with [] => [] | _ :: more => split x20 more end) = Ok params ->
        pa_to_vec params = Ok data ->
        send_fifo_cmd (line (lit ":" ++ payload)) d
          = core_sends (client_zc_send bus target ([RPC_REQUEST; x00; x00; x00; x00] ++ payload ++ [x00]) data QoS_No) d) /\
     (forall e, rpc_lock d = false ->
        str_to_params_map (match r with [] => [] | _ :: more => split x20 more end) = Err e ->
        send_fifo_cmd (line (lit ":" ++ payload)) d = Throw e d) /\
     (forall params e, rpc_lock d = false ->
        str_to_params_map (match r with [] => [] | _ :: more => split x20 more end) = Ok params ->
        pa_to_vec params = Err e ->
        send_fifo_cmd (line (lit ":" ++ payload)) d = Throw (Error_data e) d) /\
     (strip_prefix (lit ".") payload = None -> strip_prefix (lit ":") payload = None ->
        send_fifo_cmd (line payload) d
          = if bool_decide (x2a ∈ target \/ x3f ∈ target)
            then core_sends (client_send_broadcast bus target payload QoS_No) d
            else core_sends (client_send bus target payload QoS_No) d)) /\
  (forall w, word w -> rpc_lock d = false ->
     send_fifo_cmd w d = Throw (Error_data (lit "payload not specified")) d) /\
  (forall topic n, word topic -> rpc_lock d = false ->
     send_fifo_cmd (lit "=" ++ topic ++ replicate n x20) d
       = Throw (Error_data (lit "payload not specified")) d) /\
  (forall line d', rpc_client d' = None -> rpc_lock d' = false ->
     send_fifo_cmd line d' = Throw (Error_not_supported BROKER_RPC_NOT_INIT_ERR) d').
Proof.
  intros Hbus. split_and!.
  - intros topic p c r Ht Hp Hc Hr. unfold send_fifo_cmd. cbv zeta. rewrite (with_core _ (Some bus)) by done.
    destruct (trim_topic topic p c r Hc Hr) as (r' & Hr' & ->).
    destruct (split_words topic (p ++ [c]) r' Ht Hp Hr') as (-> & -> & _). cbn [ok_or]. by rewrite !lift_Ok.
  - intros b t payload r Hb Hne Hw1 Hw2 Hr target line. unfold line, target. split_and!.
    + rewrite (fifo_target b t (lit "." ++ payload) r bus) by (try done; by apply not_elem_of_cons).
      by rewrite strip_prefix_app.
    + intros params data Hp Hd.
      rewrite (fifo_target b t (lit ":" ++ payload) r bus) by (try done; by apply not_elem_of_cons).
      change (strip_prefix (lit ".") (lit ":" ++ payload)) with (@None bytes). rewrite strip_prefix_app, Hp, lift_Ok, Hd.
      cbn [map_err]. by rewrite lift_Ok.
    + intros e Hl Hp.
      rewrite (fifo_target b t (lit ":" ++ payload) r bus) by (try done; by apply not_elem_of_cons).
      change (strip_prefix (lit ".") (lit ":" ++ payload)) with (@None bytes).
      rewrite strip_prefix_app, Hp. exact (with_rpc_lock_throw _ d Hl).
    + intros params e Hl Hp Hd.
      rewrite (fifo_target b t (lit ":" ++ payload) r bus) by (try done; by apply not_elem_of_cons).
      change (strip_prefix (lit ".") (lit ":" ++ payload)) with (@None bytes).
      rewrite strip_prefix_app, Hp, lift_Ok, Hd. exact (with_rpc_lock_throw _ d Hl).
    + intros H1 H2. rewrite (fifo_target b t payload r bus) by done. by rewrite H1, H2.
  - intros w Hw Hl. apply (fifo_no_payload w bus); [done..|].
    intros s E%strip_prefix_Some Hs. apply Hw, trim_subset. rewrite E. set_solver.
  - intros topic n Ht Hl. apply (fifo_no_payload _ bus); [done..| |];
      change (lit "=" ++ topic ++ replicate n x20) with (x3d :: topic ++ replicate n x20);
      unfold trim; rewrite trim_start_graphic by done.
    + intros E. exfalso.
      destruct (trim_end_graphic x3d [] (topic ++ replicate n x20)) as (r' & post & _ & Er); [done|].
      cbn [app] in Er. by rewrite Er in E.
    + intros s E%strip_prefix_Some Hs.
      assert (x20 ∈ x3d :: topic) as Hin by (apply (trim_end_spaces _ n); cbn [app]; rewrite E; set_solver).
      apply elem_of_cons in Hin as [?|?]; done.
  - intros line d' Hn Hl. unfold send_fifo_cmd. cbv zeta. rewrite (with_core _ None) by done.
    exact (with_rpc_lock_throw _ d' Hl).
Qed.

(** A fifo line for a client whose queue is full (a registered primary that is not internal)
    deadlocks: the target is unregistered, which is announced, and the announcement waits for the
    mutex of the RPC client that the line holds. No later line of any fifo is carried out, and
    nothing is announced any more. *)
Theorem fifo_slow_target_deadlock {X : Externals} `{!ExternalsLaws X} d bus t y b w payload r :
  db_wf d -> rpc_client d = Some bus -> rpc_lock d = false -> bus_lock d = false ->
  heap d !! t = Some y -> registered y = true -> primary y = true -> ckind y <> Internal ->
  ch_is_full (tx y) = true ->
  name y = b :: w -> graphic b = true -> b <> x3d -> word (name y) -> word payload -> tail r ->
  x2a ∉ name y -> x3f ∉ name y ->
  strip_prefix (lit ".") payload = None -> strip_prefix (lit ":") payload = None ->
  exists d', send_fifo_cmd (name y ++ x20 :: payload ++ r) d = Hang d' /\ clients d' !! name y = None /\
    (forall line, send_fifo_cmd line d' = Hang d') /\ (forall event, announce event d' = Hang d').
Proof.
  intros D Hrpc Hrl Hbl Hy Hreg Hp Hk Hfull Hn Hb Hne Hw Hw2 Hr Hm1 Hm2 H1 H2.
  destruct (cw_rpc d (proj1 D) _ Hrpc) as [core Hcore].
  set (d0 := set_bus_lock true (set_rpc_lock true d)).
  destruct (send_full_hangs d0 bus bus core t y None payload 0 (InternalClient.blen payload) (is_realtime QoS_No))
    as (d' & E & Hl & _ & _ & Hcl); try done; [eapply agree_wf; [|exact D]; by apply agree_same_heap|by left|].
  exists d'. split_and!; [|done| |intros event; by apply announce_locked].
  - rewrite Hn in *. rewrite (fifo_target b w payload r bus d) by done. rewrite H1, H2, bool_decide_false by tauto.
    unfold core_sends, with_rpc_lock. rewrite Hrl. unfold mbind at 1, prog_bind at 1, with_bus_lock.
    cbn [set_rpc_lock bus_lock]. rewrite Hbl. unfold client_send, mbind, prog_bind. fold d0. by rewrite E.
  - intros line. unfold send_fifo_cmd, with_rpc_lock. cbv zeta. by rewrite Hl.
Qed.
