(* ===== verification/Exclusions.v ===== *)
(** * The flag of the exclusion maps

    [publish!] searches a subscriber's exclusions only when the flag [has_exclusions] is raised.
    [flags_ok]: the flag of every registered client is raised whenever its map can match
    anything. Every operation keeps it, except that a packet with exclusions can end in an error
    before it raises the flag: then the connection ends, and the client with it. *)
From S2P Require Export Peer Delivery.

Section flags.
Context {X : Externals} `{!ExternalsLaws X}.

(** The flags of the registered clients and of those in [P], except [but], are sound. *)
Definition flags_but (P : nat -> Prop) (but : option nat) (d : BrokerDb) : Prop :=
  forall x y, heap d !! x = Some y -> registered y = true \/ P x -> but <> Some x -> exclusions_ok y.

Definition flags_ok (d : BrokerDb) : Prop := flags_but (fun _ => False) None d.

(** An update that neither registers a client nor spoils its flag. *)
Definition mild (f : BusRtClient -> BusRtClient) : Prop :=
  forall cl, (exclusions_ok cl -> exclusions_ok (f cl)) /\ (registered (f cl) = true -> registered cl = true).

Lemma mild_set_tx f : mild (fun cl => set_tx (f cl) cl).
Proof. by intros cl. Qed.
Lemma mild_set_tx_const q : mild (set_tx q).
Proof. by intros cl. Qed.
Lemma mild_count_r n : mild (count_r n).
Proof. by intros cl. Qed.
Lemma mild_count_w n : mild (count_w n).
Proof. by intros cl. Qed.
Lemma mild_disconnected v : mild (set_disconnected v).
Proof. by intros cl. Qed.
Lemma mild_secondaries f : mild (fun cl => set_secondaries (f cl) cl).
Proof. by intros cl. Qed.
Lemma mild_secondaries_const v : mild (set_secondaries v).
Proof. by intros cl. Qed.
Lemma mild_unregistered : mild (set_registered false).
Proof. by intros cl. Qed.

Lemma exclude_topics_ok topics cl : exclusions_ok cl -> exclusions_ok (exclude_topics topics cl).
Proof. intros Hok. destruct topics as [|t topics]; [|done]. unfold exclusions_ok, exclude_topics. by destruct cl. Qed.

Lemma removed_masks ts m : acl_masks (foldl (fun m t => acl_remove t m) m ts) ⊆ acl_masks m.
Proof.
  revert m. induction ts as [|t ts IH]; intros m; cbn; [done|]. etransitivity; [apply IH|].
  rewrite acl_masks_remove. set_solver.
Qed.

Lemma unexclude_topics_ok topics cl : exclusions_ok cl -> exclusions_ok (unexclude_topics topics cl).
Proof.
  intros Hok. unfold exclusions_ok, unexclude_topics.
  destruct (acl_is_empty _) eqn:E; cbn in *; intros Hf; [by apply acl_is_empty_spec|].
  apply Hok in Hf. pose proof (removed_masks topics (exclusions cl)). set_solver.
Qed.

Lemma mild_exclude_topics topics : mild (exclude_topics topics).
Proof. intros cl. split; [apply exclude_topics_ok|]. unfold exclude_topics. by destruct topics. Qed.
Lemma mild_unexclude_topics topics : mild (unexclude_topics topics).
Proof.
  intros cl. split; [apply unexclude_topics_ok|]. unfold unexclude_topics. by destruct (acl_is_empty _).
Qed.

(** A new client object excludes nothing. *)
Lemma new_client_flag nm q k src prt : exclusions_ok (new_client nm q k src prt).
Proof.
  intros _. unfold new_client, BusRtClient_new. cbn.
  by rewrite acl_masks_wildcard, acl_masks_match_any, acl_masks_separator, acl_masks_new.
Qed.
End flags.

#[export] Hint Resolve mild_set_tx mild_set_tx_const mild_count_r mild_count_w mild_disconnected
  mild_secondaries mild_secondaries_const mild_unregistered mild_exclude_topics mild_unexclude_topics : keeps.
#[export] Hint Extern 1 (mild (fun _ => set_tx _ _)) => (by intros cl) : keeps.
#[export] Hint Extern 1 (mild (fun _ => set_secondaries _ _)) => (by intros cl) : keeps.
#[export] Hint Extern 1 (keeps _ (modify _)) => (apply keeps_modify; intros d Hd; exact Hd) : keeps.

Section programs.
Context {X : Externals} `{!ExternalsLaws X} (P : nat -> Prop) (but : option nat).

Lemma keeps_upd c f : mild f -> keeps (flags_but P but) (upd c f).
Proof.
  intros Hf d Hd x y Hy Hor Hne. apply heap_db_upd in Hy as (y0 & Hy0 & ->).
  case_decide; [|by eapply Hd]. apply Hf. eapply Hd; [done| |done].
  destruct Hor as [Hr|?]; [left; by apply Hf|by right].
Qed.

Lemma keeps_deref c : keeps (flags_but P but) (deref c).
Proof. intros d Hd. unfold deref. by destruct (heap d !! c). Qed.
Hint Resolve keeps_upd keeps_deref : keeps.

Lemma keeps_drop_client_fuel n held c : keeps (flags_but P but) (drop_client_fuel n held c).
Proof.
  revert held c. induction n as [|n IH]; intros held c; [apply keeps_hang|].
  cbn [drop_client_fuel]. unfold drop_secondary. keep.
Qed.

Lemma keeps_drop_client c : keeps (flags_but P but) (drop_client c).
Proof. apply keeps_drop_client_fuel. Qed.
Hint Resolve keeps_drop_client : keeps.

Section delivery.
Context (u : nat -> prog BrokerDb Error unit).
Hypothesis Hu : forall c, keeps (flags_but P but) (u c).

Lemma keeps_safe_send tgt frame timeout : keeps (flags_but P but) (safe_send_frame_with u tgt frame timeout).
Proof using All. unfold safe_send_frame_with. keep. Qed.
Hint Resolve keeps_safe_send : keeps.

Lemma keeps_deliver_all subs frame len timeout : keeps (flags_but P but) (deliver_all u subs frame len timeout).
Proof using All. unfold deliver_all. keep. Qed.
Hint Resolve keeps_deliver_all : keeps.

Lemma keeps_send c target header buf pos len realtime timeout :
  keeps (flags_but P but) (send_with u c target header buf pos len realtime timeout).
Proof using All. unfold send_with, count_incoming. keep. Qed.
Lemma keeps_broadcast c target header buf pos len realtime timeout :
  keeps (flags_but P but) (send_broadcast_with u c target header buf pos len realtime timeout).
Proof using All. unfold send_broadcast_with, count_incoming. keep. Qed.
Lemma keeps_publish c topic header buf pos len realtime timeout :
  keeps (flags_but P but) (publish_with u c topic header buf pos len realtime timeout).
Proof using All. unfold publish_with, count_incoming. keep. Qed.
Lemma keeps_publish_for c topic receiver header buf pos len realtime timeout :
  keeps (flags_but P but) (publish_for_with u c topic receiver header buf pos len realtime timeout).
Proof using All. unfold publish_for_with, count_incoming. keep. Qed.

Lemma keeps_announce_with event : keeps (flags_but P but) (announce_with u event).
Proof using All.
  apply keeps_with_rpc_lock; [done|]. keep. apply keeps_with_bus_lock; [done|]. keep.
Qed.
End delivery.

Lemma keeps_announce_fuel n event : keeps (flags_but P but) (announce_fuel n event).
Proof.
  revert event. induction n as [|n IH]; intros event; [apply keeps_hang|]. apply keeps_announce_with.
  intros c. unfold unregister_client_with. keep.
Qed.
Lemma keeps_announce event : keeps (flags_but P but) (announce event).
Proof. apply keeps_announce_fuel. Qed.
Hint Resolve keeps_announce : keeps.

Lemma keeps_unregister c : keeps (flags_but P but) (unregister_client c).
Proof. unfold unregister_client, unregister_client_with. keep. Qed.
Hint Resolve keeps_unregister : keeps.

Lemma keeps_announced b event : keeps (flags_but P but) (announced b event).
Proof. unfold announced. keep. Qed.

(** Registration: the flag of the newcomer must be sound already. *)
Lemma keeps_insert_client c : P c -> but <> Some c -> keeps (flags_but P but) (insert_client c).
Proof.
  intros Hc Hb. unfold insert_client. keep. intros d Hd x y Hy Hor Hne.
  apply heap_db_upd in Hy as (y0 & Hy0 & ->). case_decide as E; [subst x|by eapply Hd].
  assert (exclusions_ok y0) by (eapply Hd; eauto). done.
Qed.

Lemma keeps_db_register_client c : P c -> but <> Some c -> keeps (flags_but P but) (db_register_client c).
Proof.
  intros Hc Hb. pose proof (keeps_insert_client c Hc Hb). unfold db_register_client, replace_client. keep.
Qed.
End programs.

#[export] Hint Resolve keeps_upd keeps_deref keeps_drop_client keeps_announce keeps_unregister
  keeps_announced : keeps.

(** ** Packets *)

Section packets.
Context {X : Externals} `{!ExternalsLaws X} {N : Networks}.

(** Registration of a new object. *)
Lemma register_flags nm q k src prt d :
  let cl := new_client nm q k src prt in
  flags_ok d ->
  match db_register_client (next_ptr d) (allocated cl d) with
  | Done _ d' | Throw _ d' | Hang d' => flags_ok d'
  | Panic => True
  end.
Proof.
  intros cl Hd. pose proof (keeps_db_register_client (eq (next_ptr d)) None (next_ptr d) eq_refl ltac:(done)
    (allocated cl d)) as H.
  assert (H0 : flags_but (eq (next_ptr d)) None (allocated cl d)).
  { intros x y [[-> ->]|[Hne Hy]]%heap_allocated Hor _; [apply new_client_flag|].
    destruct Hor as [Hr|<-]; [|done]. eapply Hd; eauto. }
  specialize (H H0). destruct (db_register_client _ _); try done;
    intros x y Hy [Hr|[]] Hne; eapply H; eauto.
Qed.

Lemma keeps_ack P but c op_id qos code : keeps (flags_but P but) (ack_if_needed c op_id qos code).
Proof. unfold ack_if_needed, send_ack. keep. Qed.
Hint Resolve keeps_ack : keeps.

Lemma keeps_utf8 P but t : keeps (flags_but P but) (utf8 (X := X) t).
Proof. apply keeps_lift. Qed.
Hint Resolve keeps_utf8 : keeps.

Lemma mild_remove topic : mild (fun cl => set_exclusions (acl_remove topic (exclusions cl)) cl).
Proof.
  intros cl. split; [|done]. intros Hok Hf. cbn. rewrite acl_masks_remove. apply Hok in Hf. set_solver.
Qed.

Lemma mild_clear : mild (fun cl => if acl_is_empty (exclusions cl) then set_has_exclusions false cl else cl).
Proof.
  intros cl. destruct (acl_is_empty (exclusions cl)) eqn:E; [|done]. split; [|done].
  intros _ _. by apply acl_is_empty_spec.
Qed.
Hint Resolve mild_remove mild_clear : keeps.

Lemma keeps_allowed_topics P but p c op_id qos sp : keeps (flags_but P but) (allowed_topics p c op_id qos sp).
Proof. induction sp as [|t sp IH]; [apply keeps_ret|]. cbn [allowed_topics]. keep. Qed.
Hint Resolve keeps_allowed_topics : keeps.

(** Every packet but one with exclusions. *)
Lemma keeps_process_packet P but p c op_id qos op len buf :
  op <> FrameOp_ExcludeTopic -> keeps (flags_but P but) (process_packet p c op_id qos op len buf).
Proof.
  intros Hop. pose proof (keeps_unregister P but) as Hu.
  pose proof (keeps_send P but _ Hu). pose proof (keeps_broadcast P but _ Hu).
  pose proof (keeps_publish P but _ Hu). pose proof (keeps_publish_for P but _ Hu).
  unfold process_packet. destruct op; try done;
    unfold subscribe_packet, unexclude_packet, unsubscribe_packet, count_incoming, sub_update,
      message_packet, broadcast_packet, publish_packet, publish_for_packet,
      send, send_broadcast, publish, publish_for; keep; eauto.
Qed.

(** *** Exclusions *)

Lemma keeps_upd_but c f :
  (forall cl, registered (f cl) = registered cl) -> keeps (flags_but (fun _ => False) (Some c)) (upd c f).
Proof.
  intros Hf d Hd x y Hy Hor Hne. apply heap_db_upd in Hy as (y0 & Hy0 & ->).
  case_decide as E; [by subst|]. by eapply Hd.
Qed.

Lemma flags_raised c d :
  flags_but (fun _ => False) (Some c) d -> flags_ok (db_upd c (set_has_exclusions true) d).
Proof.
  intros Hd x y Hy Hor _. apply heap_db_upd in Hy as (y0 & Hy0 & ->).
  case_decide as E; [by intros ?|]. eapply Hd; [done..|]. by intros [= ->].
Qed.

Lemma exclude_packet_flags c op_id qos len buf d :
  flags_ok d ->
  match exclude_packet c op_id qos len buf d with
  | Done _ d' | Hang d' => flags_ok d'
  | Throw _ d' => flags_but (fun _ => False) (Some c) d'
  | Panic => True
  end.
Proof.
  intros Hd. unfold exclude_packet. rewrite (bind_Done _ _ _ _ _ (count_incoming_run c len d)).
  set (d1 := db_count_r 1 len (db_upd c (count_r len) d)).
  assert (H1 : flags_but (fun _ => False) (Some c) d1).
  { intros x y Hy Hor Hne. apply heap_db_upd in Hy as (y0 & Hy0 & ->).
    case_decide; [by subst|]. by eapply Hd. }
  match goal with |- context [(?m ≫= ?k) d1] => set (loop := m); set (rest := k) end.
  assert (Hl : keeps (flags_but (fun _ => False) (Some c)) loop).
  { apply keeps_for_each. intros t. apply keeps_bind; [apply keeps_utf8|]. intros topic. by apply keeps_upd_but. }
  assert (Hh : forall d', loop d1 <> Hang d').
  { intros d'. unfold loop. clear. generalize d1. induction (split x00 buf) as [|t ts IH]; intros d0; [done|].
    cbn [for_each]. unfold mbind, prog_bind, utf8. destruct (from_utf8 t); cbn; [apply IH|done]. }
  specialize (Hl d1 H1). unfold mbind, prog_bind. destruct (loop d1) as [[] d2|e d2|d2|] eqn:E; try done.
  - unfold rest. rewrite bool_decide_false by apply split_nonempty. cbn [negb when].
    rewrite (bind_Done (upd c _) _ _ tt _ eq_refl). apply flags_raised in Hl.
    pose proof (keeps_ack (fun _ => False) None c op_id qos RESPONSE_OK _ Hl) as H.
    destruct (ack_if_needed c op_id qos RESPONSE_OK _) as [| | |]; try done.
    intros x y Hy Hor _. by eapply H.
  - by destruct (Hh d2).
Qed.

(** The end of a connection: whatever the client's flag was, the client is gone. *)
Lemma finish_flags c r d :
  db_wf d -> is_Some (heap d !! c) -> flags_but (fun _ => False) (Some c) d ->
  match finish_peer c r d with Done _ d' | Throw _ d' | Hang d' => flags_ok d' | Panic => True end.
Proof.
  intros D [cl Hl] Hd. unfold finish_peer. rewrite (bind_Done _ _ _ _ _ (deref_Some _ _ _ Hl)).
  assert (Hgo : forall d1 cl1, heap d1 !! c = Some cl1 -> registered cl1 = false ->
    flags_but (fun _ => False) (Some c) d1 -> flags_ok d1).
  { intros d1 cl1 H1 R1 F x y Hy [Hr|[]] _. eapply F; [done|by left|]. intros [= <-]. congruence. }
  assert (Hu : match unregister_client c d with Done _ d' | Throw _ d' | Hang d' => flags_ok d' | Panic => True end).
  { rewrite (unregister_client_run d c cl Hl). destruct (registered cl) eqn:R.
    - destruct (drop_client_Done d c cl D Hl R) as (d1 & T & E & D1 & R1 & _).
      pose proof (keeps_drop_client (fun _ => False) (Some c) c d Hd) as F1. rewrite E in *.
      destruct (dr_heap _ _ _ _ R1 _ _ Hl) as (cl1 & H1 & F & _).
      pose proof (keeps_announced (fun _ => False) None (primary cl && true) (BrokerEvent_unreg (name cl)) d1) as Ha.
      cut (flags_ok d1); [intros Hok; specialize (Ha Hok); by destruct (announced _ _ d1)|].
      apply (Hgo d1 cl1); [done| |done]. destruct (registered cl1) eqn:Rc; [|done].
      pose proof (cw_registered d1 (proj1 D1) c cl1 H1 Rc) as Hc.
      rewrite (proj1 (fixed_name _ _ F)), (dr_clients _ _ _ _ R1), decide_True in Hc; [done|].
      unfold leaves. set_solver.
    - rewrite (drop_client_idle d c cl Hl R), andb_false_r. by apply (Hgo d cl). }
  unfold mbind, prog_bind. destruct (unregister_client c d); [|done..].
  by destruct (format_result (name cl) r).
Qed.

(** What an exclusion packet and its removal leave of the flags; after an exclusion that ends in
    an error, so does the connection. *)
Lemma exclusion_packets_flags c op_id qos len buf d :
  flags_ok d ->
  (match exclude_packet c op_id qos len buf d with Done _ d' | Hang d' => flags_ok d' | _ => True end) /\
  (match unexclude_packet c op_id qos len buf d with
   | Done _ d' | Throw _ d' | Hang d' => flags_ok d' | Panic => True end).
Proof.
  intros Hd. split.
  - pose proof (exclude_packet_flags c op_id qos len buf d Hd). by destruct (exclude_packet _ _ _ _ _ _).
  - assert (Hk : keeps (flags_but (fun _ => False) None) (unexclude_packet c op_id qos len buf)).
    { unfold unexclude_packet, count_incoming. keep.
      apply keeps_modify. by intros d' Hd'. }
    specialize (Hk d Hd). by destruct (unexclude_packet _ _ _ _ _ _).
Qed.
End packets.

(** ** Publications without the shortcut *)

(** The specification of [publish!]: the exclusions of every subscriber are searched, whatever
    the flag says. *)
Section search.
Context {X : Externals} `{!ExternalsLaws X}.

Definition publish_by_search (unregister : nat -> prog BrokerDb Error unit) (client : nat)
    (pick : BusRtClient -> bool) (topic : str) (header : option bytes) (buf : bytes)
    (payload_pos len : Z) (realtime : bool) (timeout : option Z) : prog BrokerDb Error unit :=
  count_incoming client len ≫= fun _ =>
  gets (fun d =>
    retain (fun sub => pick sub && negb (acl_matches (exclusions sub) topic)) d
      (sm_get_subscribers (subscriptions d) topic)) ≫= fun subs =>
  deref client ≫= fun from =>
  deliver_all unregister subs
    (MkFrame FrameKind_Publish (Some (name from)) (Some topic) header buf payload_pos realtime)
    len timeout.

Lemma retained_searched topic cl :
  exclusions_ok cl -> retained topic cl = negb (acl_matches (exclusions cl) topic).
Proof.
  intros Hok. apply eq_true_iff_eq. rewrite (retained_spec _ _ Hok), negb_true_iff, <- not_true_iff_false.
  unfold excludes. by rewrite <- acl_matches_spec.
Qed.

(** The subscribers the shortcut retains are those the search does. *)
Lemma retain_searched pick topic c len d :
  (forall n cl, pick (count_r n cl) = pick cl) -> db_wf d -> flags_ok d ->
  let d1 := db_count_r 1 len (db_upd c (count_r len) d) in
  let subs := sm_get_subscribers (subscriptions d1) topic in
  retain (fun sub => pick sub && retained topic sub) d1 subs =
  retain (fun sub => pick sub && negb (acl_matches (exclusions sub) topic)) d1 subs.
Proof.
  intros Hp D F d1 subs. change (sm_get_subscribers _ _) with (sm_get_subscribers (subscriptions d) topic) in subs.
  unfold d1.
  rewrite !retain_counted by (intros; rewrite Hp; done). unfold retain.
  assert (Hin : forall s, In s subs -> s ∈ sm_get_subscribers (subscriptions d) topic)
    by (intros s; by rewrite <- list_elem_of_In).
  clearbody subs. induction subs as [|s l IH]; [done|]. cbn [List.filter].
  rewrite IH by (intros; apply Hin; by right).
  destruct (subscriber_handle d topic s D) as (y & Hy & _ & [Hr _]); [apply Hin; by left|].
  rewrite Hy, (retained_searched topic y); [done|]. eapply F; [done|by left|done].
Qed.

Lemma publish_searched unregister c topic header buf pos len realtime timeout d :
  db_wf d -> flags_ok d ->
  publish_with unregister c topic header buf pos len realtime timeout d =
  publish_by_search unregister c (fun _ => true) topic header buf pos len realtime timeout d.
Proof.
  intros D F. unfold publish_with, publish_by_search, gets.
  rewrite !(bind_Done _ _ _ _ _ (count_incoming_run c len d)). unfold mbind, prog_bind.
  change (retained topic) with (fun sub => true && retained topic sub).
  by rewrite (retain_searched (fun _ => true) topic c len d ltac:(done) D F).
Qed.

Lemma publish_for_searched unregister c topic receiver header buf pos len realtime timeout d :
  db_wf d -> flags_ok d ->
  publish_for_with unregister c topic receiver header buf pos len realtime timeout d =
  publish_by_search unregister c (fun sub => bool_decide (primary_name sub = receiver)) topic
    header buf pos len realtime timeout d.
Proof.
  intros D F. unfold publish_for_with, publish_by_search, gets.
  rewrite !(bind_Done _ _ _ _ _ (count_incoming_run c len d)). unfold mbind, prog_bind.
  by rewrite (retain_searched (fun sub => bool_decide (primary_name sub = receiver)) topic c len d
    ltac:(done) D F).
Qed.
End search.
