(* ===== verification/PeerFacts.v ===== *)
(** * Facts about the broker's side of a connection

    Packets keep the database well formed, the reader loop is total, denied packets have no
    effect, and exclusion packets do what the in-process operations do. *)
From S2P Require Export Peer Delivery Exclusions.

(** The payload starts inside the packet. *)
Lemma split_target_pos buf target pos : split_target buf = Ok (target, pos) -> 0 <= pos <= blen buf.
Proof.
  unfold split_target, blen. pose proof (split_once_spec x00 buf) as Hsp. unfold splitn.
  destruct (split_once x00 buf) as [h [t|]]; cbn; [|by destruct (from_utf8 h)].
  destruct (from_utf8 h); cbn; [|done]. intros [= _ <-]. destruct Hsp as [-> _].
  rewrite length_app. cbn [length]. lia.
Qed.

Section peer.
Context {X : Externals} `{!ExternalsLaws X} {N : Networks}.

(** ** Invariants *)

Section stable.
Context (D : gset nat) (I : BrokerDb -> Prop) (c : nat).
Hypotheses (HI : stable D I) (Hc : c ∈ D).

Lemma preserves_send_ack op_id code realtime : preserves I (send_ack c op_id code realtime).
Proof using HI Hc.
  unfold send_ack. apply preserves_bind; [by eapply preserves_upd|]. intros _.
  apply preserves_bind; [eapply preserves_count; eauto|]. intros _.
  eapply preserves_deref_bind; [done..|]. intros cl.
  destruct (ch_send _ _ _) as [q| |q]; [|apply preserves_throw|].
  - eapply preserves_upd; [done|]. apply (inert_set_tx (fun _ => q)).
  - apply preserves_bind; [|intros _; apply preserves_hang].
    eapply preserves_upd; [done|]. apply (inert_set_tx (fun _ => q)).
Qed.

Lemma preserves_ack op_id qos code : preserves I (ack_if_needed c op_id qos code).
Proof using HI Hc. apply preserves_when, preserves_send_ack. Qed.

Lemma preserves_utf8 t : preserves I (utf8 (X := X) t).
Proof. apply preserves_lift. Qed.

Lemma preserves_allowed_topics p op_id qos sp : preserves I (allowed_topics p c op_id qos sp).
Proof using HI Hc.
  induction sp as [|t sp IH]; [apply preserves_ret|]. cbn [allowed_topics].
  apply preserves_bind; [apply preserves_utf8|]. intros topic.
  destruct (subscribe_allowed _ _); (apply preserves_bind; [|intros ?]);
    [done|apply preserves_ret|apply preserves_ack|done].
Qed.

Lemma preserves_exclude_packet op_id qos len buf : preserves I (exclude_packet c op_id qos len buf).
Proof using HI Hc.
  apply preserves_bind; [by eapply preserves_count_incoming|]. intros _.
  apply preserves_bind.
  { apply preserves_for_each. intros t _. apply preserves_bind; [apply preserves_utf8|]. intros topic.
    eapply preserves_upd; [done|]. apply (inert_exclusions (fun cl => acl_insert topic (exclusions cl))). }
  intros _. apply preserves_bind; [|intros _; apply preserves_ack].
  apply preserves_when. eapply preserves_upd; [done|]. apply inert_has_exclusions.
Qed.

Lemma preserves_unexclude_packet op_id qos len buf : preserves I (unexclude_packet c op_id qos len buf).
Proof using HI Hc.
  apply preserves_bind; [by eapply preserves_count_incoming|]. intros _.
  apply preserves_bind.
  { apply preserves_for_each. intros t _. apply preserves_bind; [apply preserves_utf8|]. intros topic.
    eapply preserves_upd; [done|]. apply (inert_exclusions (fun cl => acl_remove topic (exclusions cl))). }
  intros _. apply preserves_bind; [|intros _; apply preserves_ack].
  eapply preserves_upd; [done|]. intros cl. by destruct (acl_is_empty _).
Qed.

Lemma preserves_message_packet p op_id qos target pos buf :
  preserves I (message_packet p c op_id qos target pos buf).
Proof using HI Hc.
  unfold message_packet. destruct (p2p_allowed _ _); [|apply preserves_ack].
  apply preserves_bind.
  - apply preserves_attempt. eapply preserves_send; [done| |done]. intros x Hx.
    by eapply preserves_unregister_client.
  - intros [?|?]; apply preserves_ack.
Qed.

Lemma preserves_broadcast_packet p op_id qos target pos buf :
  preserves I (broadcast_packet p c op_id qos target pos buf).
Proof using HI Hc.
  unfold broadcast_packet. destruct (broadcast_allowed _ _); [|apply preserves_ack].
  apply preserves_bind; [|intros _; apply preserves_ack].
  eapply preserves_broadcast; [done| |done]. intros x Hx. by eapply preserves_unregister_client.
Qed.

Lemma preserves_publish_packet p op_id qos target pos buf :
  preserves I (publish_packet p c op_id qos target pos buf).
Proof using HI Hc.
  unfold publish_packet. destruct (publish_allowed _ _); [|apply preserves_ack].
  apply preserves_bind; [|intros _; apply preserves_ack].
  eapply preserves_publish; [done| |done]. intros x Hx. by eapply preserves_unregister_client.
Qed.

Lemma preserves_publish_for_packet p op_id qos target pos buf :
  is_Some (slice_from pos buf) -> preserves I (publish_for_packet p c op_id qos target pos buf).
Proof using HI Hc.
  intros Hs. unfold publish_for_packet. destruct Hs as [rest ->].
  apply preserves_bind; [apply preserves_lift|]. intros [receiver pos'].
  destruct (publish_allowed _ _); [|apply preserves_ack].
  apply preserves_bind; [|intros _; apply preserves_ack].
  eapply preserves_publish_for; [done| |done]. intros x Hx. by eapply preserves_unregister_client.
Qed.
End stable.

(** *** Subscriptions *)

(** The entry of a client that has not been replaced, in the subscription map. *)
Lemma sub_entry d c cl :
  db_wf d -> heap d !! c = Some cl -> registered cl = true \/ clients d !! name cl = None ->
  sm_view (subscriptions d) !! digest cl = None \/
  exists ts, sm_view (subscriptions d) !! digest cl = Some (handle c cl, ts).
Proof.
  intros [W _] Hl Hcur. destruct (sm_view (subscriptions d) !! digest cl) as [[h ts]|] eqn:E; [|by left].
  right. destruct (cw_subs_in d W _ _ _ E) as (y & Hy & Ry & -> & Ed).
  assert (En : name cl = name y) by by eapply (digest_name d c (ptr h)).
  pose proof (cw_registered d W _ y Hy Ry) as Hc.
  destruct Hcur as [R|Hn]; [|congruence].
  assert (c = ptr h) as Ec by by eapply (registered_inj d c (ptr h)).
  exists ts. rewrite Ec in Hl |- *. by simplify_eq.
Qed.

(** An update of the subscription map that only changes the topics of known clients. *)
Lemma core_set_subscriptions d m :
  (forall k, fst <$> sm_view m !! k = fst <$> sm_view (subscriptions d) !! k) ->
  db_wf d -> db_wf (set_subscriptions m d).
Proof.
  intros Hm [W L]. split; constructor; try apply W; try apply L.
  - intros k h ts Hk. change (subscriptions (set_subscriptions m d)) with m in Hk.
    specialize (Hm k). rewrite Hk in Hm. cbn in Hm. symmetry in Hm.
    apply fmap_Some in Hm as ([h' ts'] & Hk' & ->). by apply (cw_subs_in d W) in Hk'.
  - intros x y Hy Ry. destruct (cw_subs_out d W x y Hy Ry) as [ts Hts].
    change (subscriptions (set_subscriptions m d)) with m.
    specialize (Hm (digest y)). rewrite Hts in Hm. cbn in Hm.
    apply fmap_Some in Hm as ([h' ts'] & Hk' & E). cbn in E. subst. eauto.
Qed.

(** What [subscribe] and [unsubscribe] of the map have in common. *)
Definition topic_update (f : str -> BrokerClient ext_digest -> ext_submap -> bool * ext_submap) : Prop :=
  forall t h m,
    (sm_view m !! ptr_digest h = None -> sm_view (snd (f t h m)) = sm_view m) /\
    (forall ts, sm_view m !! ptr_digest h = Some (h, ts) ->
       exists ts', sm_view (snd (f t h m)) = <[ ptr_digest h := (h, ts') ]> (sm_view m)).

Lemma subscribe_topic_update : topic_update sm_subscribe.
Proof.
  intros t h m. split.
  - intros Hn. by apply (sm_subscribe_unknown (key := ptr_digest)).
  - intros ts Ht. eexists. by apply (sm_subscribe_known (key := ptr_digest)).
Qed.

Lemma unsubscribe_topic_update : topic_update sm_unsubscribe.
Proof.
  intros t h m. split.
  - intros Hn. by apply (sm_unsubscribe_unknown (key := ptr_digest)).
  - intros ts Ht. eexists. by apply (sm_unsubscribe_known (key := ptr_digest)).
Qed.

Lemma topic_update_wf D c f t d cl :
  topic_update f -> wf_cur D c d -> heap d !! c = Some cl ->
  wf_cur D c (set_subscriptions (snd (f t (handle c cl) (subscriptions d))) d).
Proof.
  intros Hf [[W E] (cl' & Hl' & Hcur)] Hl. assert (cl' = cl) as -> by congruence. split; [split; [|done]|by exists cl].
  apply core_set_subscriptions; [|done]. intros k.
  destruct (Hf t (handle c cl) (subscriptions d)) as [H1 H2].
  destruct (sub_entry d c cl W Hl Hcur) as [Hn|[ts Hts]].
  - by rewrite H1.
  - destruct (H2 ts Hts) as [ts' ->]. destruct (decide (k = digest cl)) as [->|Hne].
    + change (digest cl) with (ptr_digest (handle c cl)) at 1. rewrite lookup_insert_eq, Hts. done.
    + by rewrite lookup_insert_ne.
Qed.

Lemma preserves_topic_update D c f t :
  topic_update f ->
  preserves (wf_cur D c) (deref c ≫= fun cl =>
    modify (fun d => set_subscriptions (snd (f t (handle c cl) (subscriptions d))) d)).
Proof.
  intros Hf d Hd. pose proof Hd as [_ (cl & Hl & _)].
  rewrite (bind_Done _ _ _ _ _ (deref_Some _ _ _ Hl)). by apply topic_update_wf.
Qed.

Lemma preserves_subscribe_packet D c p op_id qos len buf :
  c ∈ D -> preserves (wf_cur D c) (subscribe_packet p c op_id qos len buf).
Proof.
  intros Hc. pose proof (stable_wf_cur D c) as HI.
  apply preserves_bind; [by eapply preserves_count_incoming|]. intros _.
  apply preserves_bind; [by eapply preserves_allowed_topics|]. intros topics.
  apply preserves_bind; [|intros _; by eapply preserves_ack].
  apply preserves_for_each. intros t _. apply preserves_topic_update, subscribe_topic_update.
Qed.

Lemma preserves_unsubscribe_packet D c op_id qos len buf :
  c ∈ D -> preserves (wf_cur D c) (unsubscribe_packet c op_id qos len buf).
Proof.
  intros Hc. pose proof (stable_wf_cur D c) as HI.
  apply preserves_bind; [by eapply preserves_count_incoming|]. intros _.
  apply preserves_bind; [|intros _; by eapply preserves_ack].
  apply preserves_for_each. intros t _. apply preserves_bind; [apply preserves_utf8|]. intros topic.
  apply preserves_topic_update, unsubscribe_topic_update.
Qed.

Lemma preserves_process_packet D c p op_id qos op len buf :
  c ∈ D -> preserves (wf_cur D c) (process_packet p c op_id qos op len buf).
Proof.
  intros Hc. pose proof (stable_wf_cur D c) as HI.
  assert (Hslice : forall target pos, split_target buf = Ok (target, pos) -> is_Some (slice_from pos buf)).
  { intros target pos Hsp%split_target_pos. rewrite slice_from_Some by done. eauto. }
  unfold process_packet.
  assert (Hrest : preserves (wf_cur D c)
    (lift (split_target buf) ≫= fun '(target, payload_pos) =>
      match op with
      | FrameOp_Message => message_packet p c op_id qos target payload_pos buf
      | FrameOp_Broadcast => broadcast_packet p c op_id qos target payload_pos buf
      | FrameOp_PublishTopic => publish_packet p c op_id qos target payload_pos buf
      | FrameOp_PublishTopicFor => publish_for_packet p c op_id qos target payload_pos buf
      | _ => mret tt
      end)).
  { destruct (split_target buf) as [[target pos]|e] eqn:E; [|apply preserves_throw].
    change (preserves (wf_cur D c)
      match op with
      | FrameOp_Message => message_packet p c op_id qos target pos buf
      | FrameOp_Broadcast => broadcast_packet p c op_id qos target pos buf
      | FrameOp_PublishTopic => publish_packet p c op_id qos target pos buf
      | FrameOp_PublishTopicFor => publish_for_packet p c op_id qos target pos buf
      | _ => mret tt
      end).
    destruct op; try apply preserves_ret.
    - by eapply preserves_message_packet.
    - by eapply preserves_broadcast_packet.
    - by eapply preserves_publish_packet.
    - eapply preserves_publish_for_packet; [done..|by eapply Hslice]. }
  destruct op; try exact Hrest; try done.
  - by apply preserves_subscribe_packet.
  - by apply preserves_unsubscribe_packet.
  - by eapply preserves_exclude_packet.
  - by eapply preserves_unexclude_packet.
Qed.

(** ** The reader loop *)

Lemma read_packet_consumes p nm src :
  match read_packet p nm src with
  | PkNop rest | Pk _ _ _ _ _ rest => (length (src_data rest) + 9 <= length (src_data src))%nat
  | PkPanic => exists limit, rp_direct_alloc_limit p = Some limit /\ rp_async_allocator p = None
  | _ => True
  end.
Proof.
  unfold read_packet. destruct (read_exact 9 src) as [hb r1|e|] eqn:E; [|by case_decide|done].
  apply read_exact_ReadOk_length in E; [|lia].
  case_decide; [lia|]. destruct (parse_flags _) as [[op qos]|e]; [|done].
  destruct (match rp_payload_size_limit p with Some _ => _ | None => _ end); [done|].
  unfold alloc_buf. destruct (rp_direct_alloc_limit p) as [limit|] eqn:El.
  - destruct (_ >? limit).
    + destruct (rp_async_allocator p) as [al|] eqn:Ea; cbn; [|eauto].
      destruct (al _ _) as [n|]; cbn; [|done].
      destruct (read_exact n r1) as [b r2| |] eqn:E2; [|done..].
      unfold read_exact in E2. destruct (n <=? _); [|by destruct (src_end r1)].
      injection E2 as <- <-. cbn. rewrite length_drop. lia.
    + destruct (read_exact _ r1) as [b r2| |] eqn:E2; [|done..].
      pose proof (from_le_bytes_range (drop 5 hb)). apply read_exact_ReadOk_length in E2; lia.
  - destruct (read_exact _ r1) as [b r2| |] eqn:E2; [|done..].
    pose proof (from_le_bytes_range (drop 5 hb)). apply read_exact_ReadOk_length in E2; lia.
Qed.

Lemma handle_reader_more p c : forall n m src d,
  (length (src_data src) < n)%nat -> (n <= m)%nat ->
  handle_reader m p c src d = handle_reader n p c src d.
Proof.
  induction n as [|n IH]; intros m src d Hn Hm; [lia|]. destruct m as [|m]; [lia|].
  cbn [handle_reader]. unfold mbind, prog_bind, deref. destruct (heap d !! c) as [cl|]; [|done].
  pose proof (read_packet_consumes p (name cl) src) as Hcons.
  destruct (read_packet p (name cl) src) as [r|op_id op qos len buf r| | |]; [|..|done|done|done].
  - apply IH; lia.
  - destruct (process_packet _ _ _ _ _ _ _ d); [apply IH; lia|done..].
Qed.

Lemma preserves_handle_reader D p c : c ∈ D ->
  (forall limit, rp_direct_alloc_limit p = Some limit -> is_Some (rp_async_allocator p)) ->
  forall n src, preserves (wf_cur D c) (handle_reader n p c src).
Proof.
  intros Hc Halloc. pose proof (stable_wf_cur D c) as HI.
  induction n as [|n IH]; intros src; [apply preserves_hang|]. cbn [handle_reader].
  eapply preserves_deref_bind; [done..|]. intros cl.
  pose proof (read_packet_consumes p (name cl) src) as Hr.
  destruct (read_packet p (name cl) src); [apply IH| |apply preserves_ret|apply preserves_throw|].
  - apply preserves_bind; [by apply preserves_process_packet|]. intros _. apply IH.
  - destruct Hr as (limit & Hl & Hn). destruct (Halloc limit Hl) as [al ?]. congruence.
Qed.

(** ** Packets and the in-process operations *)

Lemma db_upd_compose c f g d : db_upd c f (db_upd c g d) = db_upd c (fun cl => f (g cl)) d.
Proof. unfold db_upd, set_heap. cbn. f_equal. apply alter_alter_eq. Qed.

Lemma db_upd_ext c f g d : (forall cl, f cl = g cl) -> db_upd c f d = db_upd c g d.
Proof. intros H. unfold db_upd. f_equal. by apply alter_ext. Qed.

(** A loop of updates of one client is one update. *)
Lemma for_each_upd (c : nat) (g : bytes -> BusRtClient -> BusRtClient) (topics : list bytes) d :
  Forall (fun t => is_str t = true) topics ->
  for_each topics (fun t => utf8 t ≫= fun topic => upd c (g topic)) d =
    Done tt (db_upd c (fun cl => foldl (fun cl t => g t cl) cl topics) d).
Proof.
  revert d. induction topics as [|t topics IH]; intros d Hs; cbn [for_each].
  - unfold db_upd, set_heap. cbn. rewrite alter_id by done. by destruct d.
  - inversion Hs; subst. unfold mbind at 1, prog_bind at 1. unfold mbind at 1, prog_bind at 1.
    unfold utf8. rewrite from_utf8_str by done. cbn [map_err lift mret prog_ret]. rewrite upd_run.
    rewrite IH by done. by rewrite db_upd_compose.
Qed.

Lemma foldl_exclusions (f : str -> ext_acl -> ext_acl) topics cl :
  foldl (fun cl t => set_exclusions (f t (exclusions cl)) cl) cl topics =
  set_exclusions (foldl (fun m t => f t m) (exclusions cl) topics) cl.
Proof.
  revert cl. induction topics as [|t topics IH]; intros cl; cbn [foldl]; [by destruct cl|].
  by rewrite IH.
Qed.

(** Neither the database nor any other client changed; this client's queue and counters may. *)
Definition only_self (c : nat) (d d' : BrokerDb) : Prop :=
  agree d d' /\ subscriptions d' = subscriptions d /\ broadcasts d' = broadcasts d /\
  forall x y, x <> c -> heap d !! x = Some y -> heap d' !! x = Some y.

Lemma only_self_refl c d : only_self c d d.
Proof. split; [apply agree_refl|done]. Qed.

Lemma only_self_upd c f d : inert f -> only_self c d (db_upd c f d).
Proof.
  intros Hf. split_and!; [by apply agree_upd|done..|]. intros x y Hx Hy. apply heap_db_upd. exists y.
  by rewrite decide_False.
Qed.

Lemma only_self_trans c d1 d2 d3 : only_self c d1 d2 -> only_self c d2 d3 -> only_self c d1 d3.
Proof.
  intros (A1 & S1 & B1 & H1) (A2 & S2 & B2 & H2). split_and!; [by eapply agree_trans|congruence..|].
  intros x y Hx Hy. auto.
Qed.

Lemma only_self_count c fr ln d : only_self c d (db_count_w fr ln d).
Proof. split; [by apply agree_same_heap|done]. Qed.

Lemma ack_only_self c op_id qos code d :
  is_Some (heap d !! c) ->
  match ack_if_needed c op_id qos code d with
  | Done _ d' | Throw _ d' | Hang d' => only_self c d d'
  | Panic => False
  end.
Proof.
  intros [cl Hl]. unfold ack_if_needed, when. destruct (needs_ack qos); [|apply only_self_refl].
  unfold send_ack. set (d1 := db_count_w 1 6 (db_upd c (count_w 6) d)).
  assert (H1 : only_self c d d1).
  { eapply only_self_trans; [apply only_self_upd, inert_count_w|apply only_self_count]. }
  assert (Hl1 : heap d1 !! c = Some (count_w 6 cl)).
  { apply heap_db_upd. exists cl. by rewrite decide_True. }
  rewrite (bind_Done (upd c _) _ d tt _ eq_refl), (bind_Done (modify _) _ _ tt d1 eq_refl).
  rewrite (bind_Done _ _ _ _ _ (deref_Some _ _ _ Hl1)).
  destruct (ch_send _ _ _) as [q| |q]; [|done|];
    (eapply only_self_trans; [exact H1|]); apply only_self_upd, (inert_set_tx (fun _ => q)).
Qed.
End peer.

(** C5: whatever bytes a peer sends, the broker's reader does not panic (provided an allocator is
    configured with its limit) and keeps the database well formed, whether it ends, fails or
    waits (a packet may wait for ever, see [announce_slow_subscriber_deadlock]); its loop takes
    at most one turn more than there are bytes. *)
Theorem handle_reader_safe {X : Externals} `{!ExternalsLaws X} {N : Networks} p c cl src d :
  db_wf d -> heap d !! c = Some cl -> registered cl = true ->
  (forall limit, rp_direct_alloc_limit p = Some limit -> is_Some (rp_async_allocator p)) ->
  match handle_reader (reader_fuel src) p c src d with
  | Done _ d' | Throw _ d' | Hang d' => db_wf d'
  | Panic => False
  end /\
  forall fuel, (reader_fuel src <= fuel)%nat ->
    handle_reader fuel p c src d = handle_reader (reader_fuel src) p c src d.
Proof.
  intros W Hl R Halloc. split.
  - pose proof (preserves_handle_reader (dom (heap d)) p c ltac:(by apply elem_of_dom_2 in Hl) Halloc
      (reader_fuel src) src d) as H.
    destruct (handle_reader _ _ _ _ d); apply H; (split; [done|]; exists cl; auto).
  - intros fuel Hf. apply handle_reader_more; unfold reader_fuel in *; lia.
Qed.

(** C27: a packet whose operation the client's permissions refuse for its target has no effect
    on anybody else: no queue, counter or registration but the sender's own changes (it gets
    the refusal, if it asked for an acknowledgement). *)
Theorem denied_packet_isolated {X : Externals} `{!ExternalsLaws X} {N : Networks}
    p c op_id qos op len buf target pos d :
  split_target buf = Ok (target, pos) -> is_Some (heap d !! c) ->
  match op with
  | FrameOp_Message => p2p_allowed (rp_aaa p) target
  | FrameOp_Broadcast => broadcast_allowed (rp_aaa p) target
  | FrameOp_PublishTopic | FrameOp_PublishTopicFor => publish_allowed (rp_aaa p) target
  | _ => true
  end = false ->
  match process_packet p c op_id qos op len buf d with
  | Done _ d' | Throw _ d' | Hang d' => only_self c d d'
  | Panic => is_Some (slice_from pos buf) -> False
  end.
Proof.
  intros Ht Hc Hdeny.
  pose proof (ack_only_self c op_id qos ERR_ACCESS d Hc) as Hack.
  assert (Hgo : forall (P : Prop) (m : prog BrokerDb Error unit), m d = ack_if_needed c op_id qos ERR_ACCESS d ->
    match m d with Done _ d' | Throw _ d' | Hang d' => only_self c d d' | Panic => P end).
  { intros P m ->. by destruct (ack_if_needed _ _ _ _ d). }
  assert (Hrun : forall k, (lift (split_target buf) ≫= k : prog BrokerDb Error unit) d = k (target, pos) d)
    by (intros k; by rewrite Ht).
  destruct op; try done; unfold process_packet; rewrite Hrun; cbv beta iota.
  - apply Hgo. unfold message_packet. by rewrite Hdeny.
  - apply Hgo. unfold broadcast_packet. by rewrite Hdeny.
  - apply Hgo. unfold publish_packet. by rewrite Hdeny.
  - unfold publish_for_packet. destruct (slice_from pos buf) as [rest|]; [|by intros []].
    destruct (split_target rest) as [[receiver pos']|e]; [|apply only_self_refl].
    apply Hgo. transitivity ((if publish_allowed (rp_aaa p) target
      then publish_for c target receiver None buf (pos + pos') (blen buf) (is_realtime qos)
             (Some (rp_timeout p)) ≫= fun _ => ack_if_needed c op_id qos RESPONSE_OK
      else ack_if_needed c op_id qos ERR_ACCESS) d); [done|]. by rewrite Hdeny.
Qed.

(** C36: an exclusion (or its removal) received from a socket has the effect of the in-process
    operation on the same topics, followed by the acknowledgement, if one is wanted. It
    keeps the flags sound ([flags_ok]; every reachable database has sound flags), and with sound flags
    the shortcut of [publish!] over the flag [has_exclusions] makes no difference: a publication
    does exactly what one does that searches the exclusions of every subscriber. *)
Theorem exclusion_packets_equiv {X : Externals} `{!ExternalsLaws X} {N : Networks} c op_id qos len buf d :
  Forall (fun t => is_str t = true) (split x00 buf) ->
  exclude_packet c op_id qos len buf d =
    (count_incoming c len ≫= fun _ => exclude_bulk c (split x00 buf) qos ≫= fun _ =>
     ack_if_needed c op_id qos RESPONSE_OK) d /\
  unexclude_packet c op_id qos len buf d =
    (count_incoming c len ≫= fun _ => unexclude_bulk c (split x00 buf) qos ≫= fun _ =>
     ack_if_needed c op_id qos RESPONSE_OK) d /\
  (db_wf d -> flags_ok d ->
   (match exclude_packet c op_id qos len buf d with Done _ d' | Hang d' => flags_ok d' | _ => True end) /\
   (match unexclude_packet c op_id qos len buf d with
    | Done _ d' | Throw _ d' | Hang d' => flags_ok d' | Panic => True end) /\
   forall unregister from topic header payload pos size realtime timeout,
     publish_with unregister from topic header payload pos size realtime timeout d =
       publish_by_search unregister from (fun _ => true) topic header payload pos size realtime timeout d /\
     forall receiver,
       publish_for_with unregister from topic receiver header payload pos size realtime timeout d =
       publish_by_search unregister from (fun sub => bool_decide (primary_name sub = receiver))
         topic header payload pos size realtime timeout d).
Proof.
  intros Hs. apply (proj2 (and_assoc _ _ _)). split.
  2: { intros D F. destruct (exclusion_packets_flags c op_id qos len buf d F) as [H1 H2].
       split_and!; [done..|]. intros. split; [by apply publish_searched|].
       intros. by apply publish_for_searched. }
  unfold exclude_packet, exclude_bulk, unexclude_packet, unexclude_bulk.
  rewrite !(bind_Done _ _ _ _ _ (count_incoming_run c len d)).
  rewrite (bind_Done _ _ _ _ _ (for_each_upd c (fun t cl => set_exclusions (acl_insert t (exclusions cl)) cl) _ _ Hs)).
  rewrite (bind_Done _ _ _ _ _ (for_each_upd c (fun t cl => set_exclusions (acl_remove t (exclusions cl)) cl) _ _ Hs)).
  rewrite bool_decide_false by apply split_nonempty. cbn [negb when]. split.
  - unfold mbind, prog_bind. cbn. rewrite db_upd_compose. f_equal.
    apply db_upd_ext. intros cl. rewrite foldl_exclusions. unfold exclude_topics.
    pose proof (split_nonempty x00 buf). by destruct (split x00 buf).
  - unfold mbind, prog_bind. cbn. rewrite db_upd_compose. f_equal.
    apply db_upd_ext. intros cl. by rewrite foldl_exclusions.
Qed.
