(* ===== verification/Subscriptions.v ===== *)
(** * Facts about subscriptions

    What the operations of the in-process client and the packets of a connection do to the
    subscription map: the topics of the client change as asked (for a packet: as far as its
    permissions go), and nothing else does. *)
From S2P Require Export PeerFacts.

Section subscriptions.
Context {X : Externals} `{!ExternalsLaws X} {N : Networks}.

(** The client's entry now has the topics [ts]; no other entry changed. *)
Definition resubscribed (c : nat) (cl : BusRtClient) (ts : gset str) (m m' : ext_submap) : Prop :=
  sm_view m' = <[ digest cl := (handle c cl, ts) ]> (sm_view m) /\ sm_cfg m' = sm_cfg m.

Lemma resubscribed_refl c cl ts m : sm_view m !! digest cl = Some (handle c cl, ts) -> resubscribed c cl ts m m.
Proof. intros Hm. split; [by rewrite insert_id|done]. Qed.

Lemma resubscribed_trans c cl ts1 ts2 m1 m2 m3 :
  resubscribed c cl ts1 m1 m2 -> resubscribed c cl ts2 m2 m3 -> resubscribed c cl ts2 m1 m3.
Proof. intros [E1 C1] [E2 C2]. split; [by rewrite E2, E1, insert_insert_eq|congruence]. Qed.

Lemma resubscribed_entry c cl ts m m' :
  resubscribed c cl ts m m' -> sm_view m' !! digest cl = Some (handle c cl, ts).
Proof. intros [-> _]. apply lookup_insert_eq. Qed.

Lemma resubscribed_ext c cl ts ts' m m' : ts = ts' -> resubscribed c cl ts m m' -> resubscribed c cl ts' m m'.
Proof. by intros ->. Qed.

(** An operation of the map that changes the topics of a known client by [g] and reports so, and
    reports a client that is not known. *)
Definition topic_op (f : str -> BrokerClient ext_digest -> ext_submap -> bool * ext_submap)
    (g : str -> gset str -> gset str) : Prop :=
  forall t c cl m,
    (forall ts, sm_view m !! digest cl = Some (handle c cl, ts) ->
       fst (f t (handle c cl) m) = true /\ resubscribed c cl (g t ts) m (snd (f t (handle c cl) m))) /\
    (sm_view m !! digest cl = None ->
       fst (f t (handle c cl) m) = false /\ sm_view (snd (f t (handle c cl) m)) = sm_view m).

Lemma subscribe_op : topic_op sm_subscribe (fun t ts => {[ t ]} ∪ ts).
Proof.
  intros t c cl m. split.
  - intros ts Hm. destruct (sm_subscribe_known (key := ptr_digest) t (handle c cl) m ts Hm).
    split; [done|]. split; [done|]. apply (sm_subscribe_cfg (key := ptr_digest)).
  - intros Hm. by apply (sm_subscribe_unknown (key := ptr_digest)).
Qed.

Lemma unsubscribe_op : topic_op sm_unsubscribe (fun t ts => ts ∖ {[ t ]}).
Proof.
  intros t c cl m. split.
  - intros ts Hm. destruct (sm_unsubscribe_known (key := ptr_digest) t (handle c cl) m ts Hm).
    split; [done|]. split; [done|]. apply (sm_unsubscribe_cfg (key := ptr_digest)).
  - intros Hm. by apply (sm_unsubscribe_unknown (key := ptr_digest)).
Qed.

Lemma foldl_union (topics : list str) (ts : gset str) :
  foldl (fun ts t => {[ t ]} ∪ ts) ts topics = ts ∪ list_to_set topics.
Proof. revert ts. induction topics as [|t topics IH]; intros ts; cbn; [set_solver|]. rewrite IH. set_solver. Qed.

Lemma foldl_difference (topics : list str) (ts : gset str) :
  foldl (fun ts t => ts ∖ {[ t ]}) ts topics = ts ∖ list_to_set topics.
Proof. revert ts. induction topics as [|t topics IH]; intros ts; cbn; [set_solver|]. rewrite IH. set_solver. Qed.

(** ** Runs *)

Section runs.
Context (g : str -> gset str -> gset str) (c : nat) (cl : BusRtClient).

(** A loop of steps each of which changes the client's topics by [g]. *)
Lemma for_each_topics {A} (step : A -> prog BrokerDb Error unit) (topic : A -> str) l :
  (forall a d ts, a ∈ l -> heap d !! c = Some cl -> sm_view (subscriptions d) !! digest cl = Some (handle c cl, ts) ->
     exists m, step a d = Done tt (set_subscriptions m d) /\ resubscribed c cl (g (topic a) ts) (subscriptions d) m) ->
  forall d ts, heap d !! c = Some cl -> sm_view (subscriptions d) !! digest cl = Some (handle c cl, ts) ->
  exists m, for_each l step d = Done tt (set_subscriptions m d) /\
            resubscribed c cl (foldl (fun ts t => g t ts) ts (topic <$> l)) (subscriptions d) m.
Proof.
  intros Hstep. induction l as [|a l IH]; intros d ts Hl Hm; cbn [for_each fmap list_fmap foldl].
  - exists (subscriptions d). split; [by destruct d|]. by apply resubscribed_refl.
  - destruct (Hstep a d ts ltac:(set_solver) Hl Hm) as (m1 & E1 & R1).
    destruct (IH ltac:(set_solver) (set_subscriptions m1 d) (g (topic a) ts)) as (m & E & R);
      [done|by eapply resubscribed_entry|].
    exists m. rewrite (bind_Done _ _ _ _ _ E1). split; [exact E|].
    eapply resubscribed_trans; [exact R1|exact R].
Qed.

Context (f : str -> BrokerClient ext_digest -> ext_submap -> bool * ext_submap).
Hypothesis Hf : topic_op f g.

Lemma sub_step_known t d ts :
  heap d !! c = Some cl -> sm_view (subscriptions d) !! digest cl = Some (handle c cl, ts) ->
  exists m, sub_step f c t d = Done tt (set_subscriptions m d) /\ resubscribed c cl (g t ts) (subscriptions d) m.
Proof using Hf.
  intros Hl Hm. exists (snd (f t (handle c cl) (subscriptions d))).
  destruct (proj1 (Hf t c cl (subscriptions d)) ts Hm) as [Ef R]. split; [|done].
  unfold sub_step. rewrite (bind_Done _ _ _ _ _ (deref_Some _ _ _ Hl)).
  unfold mbind, prog_bind, gets, modify. by rewrite Ef.
Qed.

Lemma sub_update_known t d ts :
  heap d !! c = Some cl -> sm_view (subscriptions d) !! digest cl = Some (handle c cl, ts) ->
  exists m, sub_update c f t d = Done tt (set_subscriptions m d) /\ resubscribed c cl (g t ts) (subscriptions d) m.
Proof using Hf.
  intros Hl Hm. exists (snd (f t (handle c cl) (subscriptions d))).
  destruct (proj1 (Hf t c cl (subscriptions d)) ts Hm) as [Ef R]. split; [|done].
  unfold sub_update. by rewrite (bind_Done _ _ _ _ _ (deref_Some _ _ _ Hl)).
Qed.

Lemma sub_step_unknown t ts d :
  heap d !! c = Some cl -> sm_view (subscriptions d) !! digest cl = None ->
  exists m, for_each (t :: ts) (sub_step f c) d = Throw Error_not_registered (set_subscriptions m d) /\
            sm_view m = sm_view (subscriptions d).
Proof using Hf.
  intros Hl Hm. exists (snd (f t (handle c cl) (subscriptions d))).
  destruct (proj2 (Hf t c cl (subscriptions d)) Hm) as [Ef R]. split; [|done].
  cbn [for_each]. unfold sub_step, mbind, prog_bind, deref. rewrite Hl. unfold gets, modify. by rewrite Ef.
Qed.
End runs.

(** The entry of a client: its topics if it is registered, nothing if its name is free. *)
Lemma registered_entry d c cl :
  db_wf d -> heap d !! c = Some cl -> registered cl = true ->
  exists ts, sm_view (subscriptions d) !! digest cl = Some (handle c cl, ts).
Proof. intros [W _] Hl R. by apply (cw_subs_out d W). Qed.

Lemma gone_entry d c cl :
  db_wf d -> heap d !! c = Some cl -> clients d !! name cl = None ->
  sm_view (subscriptions d) !! digest cl = None.
Proof.
  intros [W _] Hl Hn. destruct (sm_view (subscriptions d) !! digest cl) as [[h ts]|] eqn:E; [|done].
  destruct (cw_subs_in d W _ _ _ E) as (y & Hy & Ry & -> & Ed).
  assert (En : name cl = name y) by by eapply (digest_name d c (ptr h)).
  pose proof (cw_registered d W _ y Hy Ry). congruence.
Qed.

(** ** Packets *)

(** In the database, only the topics of the client changed: to [ts]; and maybe its own queue and
    counters. *)
Definition resubscribes (c : nat) (cl : BusRtClient) (ts : gset str) (d d' : BrokerDb) : Prop :=
  resubscribed c cl ts (subscriptions d) (subscriptions d') /\ clients d' = clients d /\
  broadcasts d' = broadcasts d /\
  (exists cl', heap d' !! c = Some cl' /\ similar cl cl') /\
  forall x y, x <> c -> heap d !! x = Some y -> heap d' !! x = Some y.

Lemma resubscribes_self c cl ts d d' :
  heap d !! c = Some cl -> sm_view (subscriptions d) !! digest cl = Some (handle c cl, ts) ->
  only_self c d d' -> resubscribes c cl ts d d'.
Proof.
  intros Hl Hm (A & S & B & H). split_and!; [|apply A|done| |done].
  - rewrite S. by apply resubscribed_refl.
  - by apply (ag_to _ _ A).
Qed.

Lemma resubscribes_map c cl ts d m :
  heap d !! c = Some cl -> resubscribed c cl ts (subscriptions d) m ->
  resubscribes c cl ts d (set_subscriptions m d).
Proof. intros Hl R. split_and!; [done..| |done]. by exists cl. Qed.

Lemma resubscribes_trans c cl ts1 ts2 d1 d2 d3 cl2 :
  similar cl cl2 -> resubscribes c cl ts1 d1 d2 -> resubscribes c cl2 ts2 d2 d3 -> resubscribes c cl ts2 d1 d3.
Proof.
  intros S (R1 & C1 & B1 & H1 & O1) (R2 & C2 & B2 & (cl3 & H2 & S3) & O2).
  split_and!; [|congruence..| |auto].
  - eapply resubscribed_trans; [exact R1|]. destruct R2 as [R2 F2]. split; [|done].
    rewrite R2, (handle_similar _ _ _ S). by destruct S as (_ & -> & _).
  - exists cl3. split; [done|]. unfold similar in *. naive_solver congruence.
Qed.

(** A second step from wherever the first one led. *)
Lemma resubscribes_step c cl ts d d1 :
  resubscribes c cl ts d d1 ->
  exists cl1, heap d1 !! c = Some cl1 /\ sm_view (subscriptions d1) !! digest cl1 = Some (handle c cl1, ts) /\
    forall d2 ts2, resubscribes c cl1 ts2 d1 d2 -> resubscribes c cl ts2 d d2.
Proof.
  intros R. pose proof R as (Rm & _ & _ & (cl1 & Hl1 & S) & _). exists cl1. split_and!; [done|..].
  - apply resubscribed_entry in Rm. rewrite (handle_similar _ _ _ S). by destruct S as (_ & -> & _).
  - intros d2 ts2 R2. by eapply resubscribes_trans.
Qed.

(** The outcomes of a packet: finished with the topics [ts1], or broken off at some set of topics
    between [lo] and [hi]. *)
Definition topics_end (c : nat) (cl : BusRtClient) (ts1 lo hi : gset str) (d : BrokerDb)
    {A} (r : outcome BrokerDb Error A) : Prop :=
  match r with
  | Done _ d' => resubscribes c cl ts1 d d'
  | Throw _ d' | Hang d' => exists ts', lo ⊆ ts' /\ ts' ⊆ hi /\ resubscribes c cl ts' d d'
  | Panic => False
  end.

Lemma count_only_self c len d : only_self c d (db_count_r 1 len (db_upd c (count_r len) d)).
Proof.
  eapply only_self_trans; [apply only_self_upd, inert_count_r|].
  split_and!; [by apply agree_same_heap|done..].
Qed.

(** Refusals only touch the sender. *)
Lemma allowed_topics_run p c op_id qos sp : forall d, is_Some (heap d !! c) ->
  match allowed_topics p c op_id qos sp d with
  | Done topics d' => only_self c d d' /\ topics = filter (fun t => subscribe_allowed (rp_aaa p) t = true) sp
  | Throw _ d' | Hang d' => only_self c d d'
  | Panic => False
  end.
Proof.
  induction sp as [|t sp IH]; intros d Hc; cbn [allowed_topics]; [split; [apply only_self_refl|done]|].
  unfold mbind, prog_bind, utf8. destruct (from_utf8 t) as [t'|e] eqn:Eu; cbn [map_err lift mret prog_ret throw]; [|apply only_self_refl].
  apply from_utf8_Ok in Eu as [-> _]. destruct (subscribe_allowed (rp_aaa p) t) eqn:Ea.
  - specialize (IH d Hc). destruct (allowed_topics p c op_id qos sp d); [|done..].
    destruct IH as [Ho ->]. split; [done|]. by rewrite filter_cons_True.
  - pose proof (ack_only_self c op_id qos ERR_ACCESS d Hc) as Hack.
    destruct (ack_if_needed c op_id qos ERR_ACCESS d) as [[] d1|e d1|d1|]; [|done..].
    assert (Hc1 : is_Some (heap d1 !! c)).
    { destruct Hc as [cl Hl]. destruct (ag_to _ _ (proj1 Hack) _ _ Hl) as (cl1 & H1 & _). by eexists. }
    specialize (IH d1 Hc1). destruct (allowed_topics p c op_id qos sp d1);
      [destruct IH as [Ho ->]; split; [|by rewrite filter_cons_False by congruence]|..|done];
      by eapply only_self_trans.
Qed.

(** The final acknowledgement. *)
Lemma ack_end c cl ts lo hi op_id qos code d d1 :
  lo ⊆ ts -> ts ⊆ hi -> resubscribes c cl ts d d1 ->
  topics_end c cl ts lo hi d (ack_if_needed c op_id qos code d1).
Proof.
  intros Hlo Hhi R. destruct (resubscribes_step _ _ _ _ _ R) as (cl1 & Hl1 & Hm1 & Hgo).
  pose proof (ack_only_self c op_id qos code d1 ltac:(by eexists)) as Hack.
  unfold topics_end. destruct (ack_if_needed c op_id qos code d1); [|..|done];
    [|exists ts; split_and!; [done..|]|exists ts; split_and!; [done..|]]; by apply Hgo, resubscribes_self.
Qed.

Lemma unsubscribe_loop c l : forall d cl ts,
  heap d !! c = Some cl -> sm_view (subscriptions d) !! digest cl = Some (handle c cl, ts) ->
  topics_end c cl (ts ∖ list_to_set l) (ts ∖ list_to_set l) ts d
    (for_each l (fun t => utf8 t ≫= sub_update c sm_unsubscribe) d).
Proof.
  induction l as [|t l IH]; intros d cl ts Hl Hm; cbn [for_each].
  - assert (E : ts ∖ list_to_set [] = ts) by (cbn; set_solver). rewrite E.
    apply resubscribes_self; [done..|apply only_self_refl].
  - unfold mbind at 1, prog_bind at 1, mbind at 1, prog_bind at 1, utf8.
    destruct (from_utf8 t) as [t'|e] eqn:Eu; cbn [map_err lift mret prog_ret throw].
    + apply from_utf8_Ok in Eu as [-> _].
      destruct (sub_update_known _ c cl _ unsubscribe_op t d ts Hl Hm) as (m & -> & R).
      apply resubscribes_map in R; [|done]. destruct (resubscribes_step _ _ _ _ _ R) as (cl1 & Hl1 & Hm1 & Hgo).
      specialize (IH _ cl1 _ Hl1 Hm1).
      assert (E : ts ∖ list_to_set (t :: l) = (ts ∖ {[ t ]}) ∖ list_to_set l) by (cbn; set_solver). rewrite E.
      unfold topics_end in *. destruct (for_each l _ _); [by apply Hgo|..|done];
        destruct IH as (ts' & Hlo & Hhi & R'); exists ts'; (split_and!; [done|set_solver|by apply Hgo]).
    + exists ts. split_and!; [set_solver|done|]. apply resubscribes_self; [done..|apply only_self_refl].
Qed.
End subscriptions.

(** The topics of a subscription packet that the client may subscribe to. *)
Definition permitted {X : Externals} {N : Networks} (p : ReaderParams ext_acl) (buf : bytes) : gset str :=
  list_to_set (filter (fun t => subscribe_allowed (rp_aaa p) t = true) (split x00 buf)).

(** Subscribing a registered client adds the topics to its entry of the subscription map,
    unsubscribing removes them, and both succeed and change nothing else in the broker; a client
    that left gets [not_registered] for its first topic, and nothing changes. *)
Theorem subscribe_spec {X : Externals} `{!ExternalsLaws X} c cl topics qos d :
  db_wf d -> heap d !! c = Some cl ->
  (registered cl = true -> exists ts m1 m2,
     sm_view (subscriptions d) !! digest cl = Some (handle c cl, ts) /\
     subscribe_bulk c topics qos d = Done (make_confirm_channel qos) (set_subscriptions m1 d) /\
     resubscribed c cl (ts ∪ list_to_set topics) (subscriptions d) m1 /\
     unsubscribe_bulk c topics qos d = Done (make_confirm_channel qos) (set_subscriptions m2 d) /\
     resubscribed c cl (ts ∖ list_to_set topics) (subscriptions d) m2) /\
  (clients d !! name cl = None -> topics <> [] -> exists m1 m2,
     subscribe_bulk c topics qos d = Throw Error_not_registered (set_subscriptions m1 d) /\
     sm_view m1 = sm_view (subscriptions d) /\
     unsubscribe_bulk c topics qos d = Throw Error_not_registered (set_subscriptions m2 d) /\
     sm_view m2 = sm_view (subscriptions d)).
Proof.
  intros D Hl. split.
  - intros R. destruct (registered_entry d c cl D Hl R) as [ts Hm].
    destruct (for_each_topics (fun t ts => {[ t ]} ∪ ts) c cl (sub_step sm_subscribe c) id topics) with (2 := Hl) (3 := Hm)
      as (m1 & E1 & R1); [intros; by apply (sub_step_known _ c cl _ subscribe_op)|].
    destruct (for_each_topics (fun t ts => ts ∖ {[ t ]}) c cl (sub_step sm_unsubscribe c) id topics) with (2 := Hl) (3 := Hm)
      as (m2 & E2 & R2); [intros; by apply (sub_step_known _ c cl _ unsubscribe_op)|].
    rewrite list_fmap_id, foldl_union in R1. rewrite list_fmap_id, foldl_difference in R2.
    exists ts, m1, m2. unfold subscribe_bulk, unsubscribe_bulk.
    by rewrite (bind_Done _ _ _ _ _ E1), (bind_Done _ _ _ _ _ E2).
  - intros Hn Ht. pose proof (gone_entry d c cl D Hl Hn) as Hm. destruct topics as [|t topics]; [done|].
    destruct (sub_step_unknown _ c cl _ subscribe_op t topics d Hl Hm) as (m1 & E1 & V1).
    destruct (sub_step_unknown _ c cl _ unsubscribe_op t topics d Hl Hm) as (m2 & E2 & V2).
    exists m1, m2. unfold subscribe_bulk, unsubscribe_bulk, mbind at 1 2, prog_bind at 1 2. by rewrite E1, E2.
Qed.

(** C26: a subscription packet adds the topics the client's permissions allow, and no others; a
    packet that unsubscribes removes its topics; whatever the outcome, no other client's topics,
    registration, queue or counters change, a broken-off subscription loses no topic and a
    broken-off removal adds none. *)
Theorem subscription_packets_spec {X : Externals} `{!ExternalsLaws X} {N : Networks} p c cl op_id qos len buf ts d :
  heap d !! c = Some cl -> sm_view (subscriptions d) !! digest cl = Some (handle c cl, ts) ->
  topics_end c cl (ts ∪ permitted p buf) ts (ts ∪ permitted p buf) d
    (subscribe_packet p c op_id qos len buf d) /\
  topics_end c cl (ts ∖ list_to_set (split x00 buf)) (ts ∖ list_to_set (split x00 buf)) ts d
    (unsubscribe_packet c op_id qos len buf d).
Proof.
  intros Hl Hm. unfold subscribe_packet, unsubscribe_packet.
  rewrite !(bind_Done _ _ _ _ _ (count_incoming_run c len d)).
  pose proof (resubscribes_self c cl ts d _ Hl Hm (count_only_self c len d)) as Rc.
  destruct (resubscribes_step _ _ _ _ _ Rc) as (cl1 & Hl1 & Hm1 & Hgo1).
  set (d1 := db_count_r 1 len (db_upd c (count_r len) d)) in *. split.
  - pose proof (allowed_topics_run p c op_id qos (split x00 buf) d1 ltac:(by eexists)) as Ha.
    unfold mbind at 1, prog_bind at 1.
    destruct (allowed_topics p c op_id qos (split x00 buf) d1) as [topics d2|e d2|d2|]; [|..|done];
      [|exists ts; split_and!; [done|set_solver|by apply Hgo1, resubscribes_self]..].
    destruct Ha as [Ho ->]. pose proof (resubscribes_self c cl1 ts d1 d2 Hl1 Hm1 Ho) as R2.
    apply Hgo1 in R2. destruct (resubscribes_step _ _ _ _ _ R2) as (cl2 & Hl2 & Hm2 & Hgo2).
    destruct (for_each_topics (fun t ts => {[ t ]} ∪ ts) c cl2 (sub_update c sm_subscribe) id
      (filter (fun t => subscribe_allowed (rp_aaa p) t = true) (split x00 buf))) with (2 := Hl2) (3 := Hm2)
      as (m & E & R); [intros; by apply (sub_update_known _ c cl2 _ subscribe_op)|].
    rewrite list_fmap_id, foldl_union in R. rewrite (bind_Done _ _ _ _ _ E).
    apply ack_end; [set_solver|done|]. by apply Hgo2, resubscribes_map.
  - unfold mbind at 1, prog_bind at 1. pose proof (unsubscribe_loop c (split x00 buf) d1 cl1 ts Hl1 Hm1) as Hu.
    destruct (for_each _ _ d1) as [[] d2|e d2|d2|]; [|..|done];
      [|destruct Hu as (ts' & ? & ? & Hu); exists ts'; split_and!; [done..|by apply Hgo1]..].
    apply ack_end; [done|set_solver|by apply Hgo1].
Qed.
