(* ===== verification/Wire.v ===== *)
(** * The wire format, end to end

    What a socket client writes is what the broker's reader parses, and what the broker's
    writer writes is what the client's reader delivers; acknowledgements resolve the
    confirmation they answer. *)
From S2P Require Export Peer.
From S2P Require Ipc.
Import Ipc (frame_flags, prepare_frame_buf, zc_frame_buf, target_frame_buf, receiver_frame_buf,
  plain_frame_buf, bulk_payload).

(** ** From the client to the broker *)

Lemma parse_frame_flags op qos : parse_flags (frame_flags op qos) = Ok (op, qos).
Proof. by destruct op, qos. Qed.

Lemma frame_flags_zero op qos : frame_flags op qos = x00 <-> op = FrameOp_Nop /\ qos = QoS_No.
Proof. split; [by destruct op, qos|by intros [-> ->]]. Qed.

Lemma blen_app (a b : bytes) : blen (a ++ b) = blen a + blen b.
Proof. unfold blen. rewrite length_app. lia. Qed.

Lemma blen_cons (x : byte) (a : bytes) : blen (x :: a) = 1 + blen a.
Proof. unfold blen. cbn [length]. lia. Qed.

(** Arithmetic on lengths of concatenations. *)
Ltac blen_lia :=
  change Ipc.blen with blen in *;
  repeat (rewrite blen_app || rewrite blen_cons || change (blen []) with 0); lia.

Lemma u32_roundtrip z : 0 <= z < 2 ^ 32 -> from_le_bytes (to_le_bytes 4 z) = z.
Proof. intros H. by apply from_to_le_bytes_small. Qed.

Section client_to_broker.
Context {X : Externals} {N : Networks}.

(** The reader accepts packets of this length. *)
Definition accepts (p : ReaderParams ext_acl) (client_name : str) (len : Z) : Prop :=
  len < 2 ^ 32 /\
  match rp_payload_size_limit p with Some limit => len <= limit | None => True end /\
  alloc_buf p client_name len = Some (Ok len).

(** One packet: nine bytes of header and a body of the length they state. *)
Lemma read_packet_frame p nm id op qos body rest e :
  op <> FrameOp_Nop -> accepts p nm (blen body) ->
  read_packet p nm (Source (prepare_frame_buf id op qos ++ to_le_bytes 4 (blen body) ++ body ++ rest) e)
  = Pk (to_le_bytes 4 id) op qos (blen body) body (Source rest e).
Proof.
  intros Hop (Hlen & Hlim & Halloc). unfold read_packet.
  replace (prepare_frame_buf id op qos ++ to_le_bytes 4 (blen body) ++ body ++ rest)
    with ((to_le_bytes 4 id ++ [frame_flags op qos] ++ to_le_bytes 4 (blen body)) ++ body ++ rest)
    by (unfold prepare_frame_buf; by rewrite <- !app_assoc).
  rewrite read_exact_app_eq by done.
  set (hb := to_le_bytes 4 id ++ [frame_flags op qos] ++ to_le_bytes 4 (blen body)).
  change (hb !!! 4%nat) with (frame_flags op qos).
  change (take 4 hb) with (to_le_bytes 4 id). change (drop 5 hb) with (to_le_bytes 4 (blen body)).
  rewrite decide_False by (intros [? _]%frame_flags_zero; done).
  rewrite parse_frame_flags, u32_roundtrip by (unfold blen in *; lia).
  replace (match rp_payload_size_limit p with Some limit => blen body >? limit | None => false end) with false.
  - rewrite Halloc, read_exact_app_eq by done. done.
  - destruct (rp_payload_size_limit p) as [l|]; [|done]. symmetry. rewrite Z.gtb_ltb. apply Z.ltb_ge. lia.
Qed.

Lemma split_target_app (target payload : bytes) :
  is_str target = true -> x00 ∉ target ->
  split_target (target ++ x00 :: payload) = Ok (target, blen target + 1).
Proof.
  intros Hs Hn. unfold split_target. rewrite splitn2_app by done. cbn.
  by rewrite from_utf8_str.
Qed.

Lemma slice_target (target payload : bytes) :
  slice_from (blen target + 1) (target ++ x00 :: payload) = Some payload.
Proof.
  replace (target ++ x00 :: payload) with ((target ++ [x00]) ++ payload) by by rewrite <- app_assoc.
  replace (blen target + 1) with (blen (target ++ [x00])) by by rewrite blen_app.
  apply slice_from_app.
Qed.
End client_to_broker.

(** C6: what a socket client writes for [send], [zc_send], [send_broadcast], [publish] and
    [publish_for] is read by the broker as one packet with the same operation, QoS and frame
    id, whose target (and receiver) is the one given and whose payload is the header followed
    by the payload; the reader is left exactly behind the frame. *)
Theorem client_frames_parsed {X : Externals} {N : Networks} (p : ReaderParams ext_acl)
    nm id op qos (target receiver header payload rest : bytes) e :
  op <> FrameOp_Nop -> is_str target = true -> x00 ∉ target ->
  is_str receiver = true -> x00 ∉ receiver ->
  (forall b, blen b <= blen target + blen receiver + blen header + blen payload + 2 -> accepts p nm (blen b)) ->
  let sent_as (frame body : bytes) :=
    read_packet p nm (Source (frame ++ payload ++ rest) e)
    = Pk (to_le_bytes 4 id) op qos (blen body) body (Source rest e) in
  (exists body, sent_as (target_frame_buf id target payload op qos) body /\
     split_target body = Ok (target, blen target + 1) /\
     slice_from (blen target + 1) body = Some payload) /\
  (exists body, sent_as (zc_frame_buf id target header payload op qos) body /\
     split_target body = Ok (target, blen target + 1) /\
     slice_from (blen target + 1) body = Some (header ++ payload)) /\
  (exists body recv_part, sent_as (receiver_frame_buf id target receiver payload op qos) body /\
     split_target body = Ok (target, blen target + 1) /\
     slice_from (blen target + 1) body = Some recv_part /\
     split_target recv_part = Ok (receiver, blen receiver + 1) /\
     slice_from (blen target + 1 + (blen receiver + 1)) body = Some payload).
Proof.
  intros Hop Hs Hn Hs2 Hn2 Hacc sent_as. subst sent_as. cbv beta.
  assert (Hpos : forall b : bytes, 0 <= blen b) by (intros b; unfold blen; lia).
  pose proof (Hpos receiver). pose proof (Hpos header). pose proof (Hpos payload). pose proof (Hpos target).
  assert (Hgo : forall frame body,
    frame ++ payload ++ rest = prepare_frame_buf id op qos ++ to_le_bytes 4 (blen body) ++ body ++ rest ->
    accepts p nm (blen body) ->
    read_packet p nm (Source (frame ++ payload ++ rest) e)
    = Pk (to_le_bytes 4 id) op qos (blen body) body (Source rest e)).
  { intros frame body -> Hb. by apply read_packet_frame. }
  split_and!.
  - exists (target ++ x00 :: payload). split_and!; [|by apply split_target_app|apply slice_target].
    apply Hgo; [|apply Hacc; blen_lia]. unfold target_frame_buf.
    replace (blen (target ++ x00 :: payload)) with (Ipc.blen target + Ipc.blen payload + 1) by blen_lia.
    by rewrite <- !app_assoc.
  - exists (target ++ x00 :: header ++ payload). split_and!; [|by apply split_target_app|apply slice_target].
    apply Hgo; [|apply Hacc; blen_lia]. unfold zc_frame_buf.
    replace (blen (target ++ x00 :: header ++ payload))
      with (Ipc.blen target + Ipc.blen payload + Ipc.blen header + 1) by blen_lia.
    repeat (cbn; rewrite <- !app_assoc). done.
  - exists (target ++ x00 :: receiver ++ x00 :: payload), (receiver ++ x00 :: payload).
    split_and!; [|by apply split_target_app|apply slice_target|by apply split_target_app|].
    + apply Hgo; [|apply Hacc; blen_lia]. unfold receiver_frame_buf.
      replace (blen (target ++ x00 :: receiver ++ x00 :: payload))
        with (Ipc.blen target + Ipc.blen receiver + Ipc.blen payload + 2) by blen_lia.
      repeat (cbn; rewrite <- ?app_assoc). done.
    + replace (target ++ x00 :: receiver ++ x00 :: payload)
        with ((target ++ x00 :: receiver ++ [x00]) ++ payload) by (rewrite <- app_assoc; cbn; by rewrite <- app_assoc).
      replace (blen target + 1 + (blen receiver + 1)) with (blen (target ++ x00 :: receiver ++ [x00])) by blen_lia.
      apply slice_from_app.
Qed.

(** ** Bulk operations *)

Lemma bulk_fold (acc : bytes) ts :
  acc <> [] ->
  foldl (fun payload topic => (match payload with [] => payload | _ => payload ++ [x00] end) ++ topic) acc ts
  = acc ++ mjoin ((fun t => x00 :: t) <$> ts).
Proof.
  revert acc. induction ts as [|t ts IH]; intros acc Ha; cbn; [by rewrite app_nil_r|].
  rewrite IH; [|by destruct acc].
  destruct acc; [done|]. rewrite <- !app_assoc. done.
Qed.

Lemma split_join (t : bytes) ts :
  x00 ∉ t -> Forall (fun s => x00 ∉ s) ts ->
  split x00 (t ++ mjoin ((fun t => x00 :: t) <$> ts)) = t :: ts.
Proof.
  revert t. induction ts as [|s ts IH]; intros t Ht Hts; cbn.
  - rewrite app_nil_r. by apply split_none.
  - inversion Hts; subst. rewrite split_app by done. by rewrite IH.
Qed.

(** The payload of a bulk operation is split by the broker into exactly the topics given,
    when none holds a NUL byte and the first is not empty; an empty list of topics, however,
    is received as one topic with an empty name. *)
Theorem bulk_topics_roundtrip (t : str) (ts : list str) :
  t <> [] -> Forall (fun s => x00 ∉ s) (t :: ts) ->
  split x00 (bulk_payload (t :: ts)) = t :: ts /\ split x00 (bulk_payload []) = [[]].
Proof.
  intros Hne Hn. split; [|done]. inversion Hn; subst. unfold bulk_payload. cbn [foldl app].
  rewrite bulk_fold by done. by apply split_join.
Qed.

(** ** From the broker to the client *)

Lemma payload_length f data :
  payload f = Some data -> frame_wf f /\ blen data = blen (frame_buf f) - frame_payload_pos f.
Proof.
  unfold payload, slice_from. destruct (_ && _) eqn:E; [|done].
  apply andb_prop in E as [E1%Z.leb_le E2%Z.leb_le]. intros [= <-]. split; [done|].
  unfold blen. rewrite length_drop. lia.
Qed.

(** The bytes of a frame, as [handle_writer] writes them. *)
Definition frame_bytes (f : FrameData) : option bytes := (fun ws => mjoin (ws.*1)) <$> frame_writes f.

(** The body of a frame on the wire. *)
Definition frame_body (f : FrameData) (s data : bytes) : bytes :=
  s ++ x00 :: match frame_topic f with Some t => t ++ [x00] | None => [] end
    ++ default [] (frame_header f) ++ data.

Lemma frame_bytes_run f s data :
  frame_kind f <> FrameKind_Prepared -> frame_sender f = Some s -> payload f = Some data ->
  frame_bytes f = Some ([FrameKind_code (frame_kind f)] ++ to_le_bytes 4 (blen (frame_body f s data))
    ++ [if frame_realtime f then x01 else x00] ++ frame_body f s data).
Proof.
  intros Hk Hs Hp. destruct (payload_length f data Hp) as [_ Hlen].
  unfold frame_bytes, frame_writes. rewrite decide_False by done. rewrite Hp, Hs. cbn. f_equal.
  assert (E : blen (s ++ [x00]) + blen (match frame_topic f with Some s => s ++ [x00] | None => [] end)
                + blen (default [] (frame_header f)) + blen (frame_buf f) - frame_payload_pos f
              = blen (frame_body f s data)).
  { unfold frame_body. blen_lia. }
  rewrite E. unfold frame_body. destruct (frame_header f), (frame_topic f); cbn;
    rewrite <- ?app_assoc; cbn; rewrite <- ?app_assoc, ?app_nil_r; done.
Qed.

(** The kinds of frames that carry a payload. *)
Definition carries (f : FrameData) : Prop :=
  match frame_kind f with
  | FrameKind_Message | FrameKind_Broadcast => frame_topic f = None
  | FrameKind_Publish => exists t, frame_topic f = Some t /\ is_str t = true /\ x00 ∉ t
  | _ => False
  end.

Lemma kind_roundtrip k :
  k <> FrameKind_Prepared -> FrameKind_try_from (FrameKind_code k) = Ok k.
Proof. by destruct k. Qed.

Lemma parse_body_plain k s tail :
  k <> FrameKind_Publish -> is_str s = true -> x00 ∉ s ->
  Ipc.parse_body k (s ++ x00 :: tail) = Ok (Some s, None, blen s + 1).
Proof.
  intros Hk Hs Hn. unfold Ipc.parse_body. rewrite decide_False by done.
  rewrite splitn2_app by done. cbn. by rewrite from_utf8_str.
Qed.

Lemma parse_body_publish s t tail :
  is_str s = true -> x00 ∉ s -> is_str t = true -> x00 ∉ t ->
  Ipc.parse_body FrameKind_Publish (s ++ x00 :: t ++ x00 :: tail) = Ok (Some s, Some t, blen s + blen t + 2).
Proof.
  intros Hs Hn Ht Hnt. unfold Ipc.parse_body. rewrite decide_True by done.
  rewrite splitn3_app by done. cbn. rewrite (from_utf8_str s) by done. cbn. by rewrite from_utf8_str.
Qed.

Section broker_to_client.
Context {Q : Type} `{ChannelOps FrameData Q}.

(** One turn of the client's reader over a frame on the wire. *)
Lemma handle_read_frame room (c : Ipc.Client Q) k rt body rest e sender topic pos :
  k <> FrameKind_Prepared -> k <> FrameKind_Acknowledge -> k <> FrameKind_Nop ->
  blen body < 2 ^ 32 ->
  Ipc.parse_body k body = Ok (sender, topic, pos) ->
  ch_is_full (Ipc.events c) = false -> ch_is_closed (Ipc.events c) = false ->
  Ipc.incoming c = Source ([FrameKind_code k] ++ to_le_bytes 4 (blen body)
                     ++ [if rt : bool then x01 else x00] ++ body ++ rest) e ->
  Ipc.handle_read_one room c =
    Done tt (Ipc.set_events (ch_push (MkFrame k sender topic None body pos rt) (Ipc.events c))
               (Ipc.set_incoming (Source rest e) c)).
Proof.
  intros Hk1 Hk2 Hk3 Hlen Hparse Hfull Hclosed Hin.
  unfold Ipc.handle_read_one, mbind, prog_bind, Ipc.read. rewrite Hin.
  set (hb := [FrameKind_code k] ++ to_le_bytes 4 (blen body) ++ [if rt then x01 else x00]).
  replace ([FrameKind_code k] ++ to_le_bytes 4 (blen body) ++ [if rt then x01 else x00] ++ body ++ rest)
    with (hb ++ body ++ rest) by (unfold hb; by rewrite <- !app_assoc).
  rewrite read_exact_app_eq by done.
  change (hb !!! 0%nat) with (FrameKind_code k). rewrite kind_roundtrip by done.
  change (take 4 (drop 1 hb)) with (to_le_bytes 4 (blen body)).
  rewrite u32_roundtrip by (unfold blen in *; lia).
  change (hb !!! 5%nat) with (if rt then x01 else x00).
  cbn [lift mret prog_ret].
  assert (Hrt : bool_decide ((if rt then x01 else x00) <> x00) = rt) by by destruct rt.
  rewrite Hrt. unfold Ipc.deliver, ch_send.
  destruct k; try done; cbn [Ipc.incoming Ipc.set_incoming];
    rewrite (read_exact_app_eq _ body rest e) by done; rewrite Hparse; cbn; by rewrite Hclosed, Hfull.
Qed.

(** The acknowledgement the broker sends for a frame id. *)
Lemma handle_read_ack room (c : Ipc.Client Q) id code rest e :
  0 <= id < 2 ^ 32 ->
  Ipc.incoming c = Source ([OP_ACK] ++ to_le_bytes 4 id ++ [code] ++ rest) e ->
  Ipc.handle_read_one room c = Ipc.acknowledge id code (Ipc.set_incoming (Source rest e) c).
Proof.
  intros Hid Hin. unfold Ipc.handle_read_one, mbind, prog_bind, Ipc.read. rewrite Hin.
  set (hb := [OP_ACK] ++ to_le_bytes 4 id ++ [code]).
  replace ([OP_ACK] ++ to_le_bytes 4 id ++ [code] ++ rest) with (hb ++ rest)
    by (unfold hb; by rewrite <- !app_assoc).
  rewrite read_exact_app_eq by done.
  change (hb !!! 0%nat) with OP_ACK. change (FrameKind_try_from OP_ACK) with (@Ok FrameKind Error FrameKind_Acknowledge).
  change (take 4 (drop 1 hb)) with (to_le_bytes 4 id). rewrite u32_roundtrip by done.
  cbn [lift mret prog_ret]. change (hb !!! 5%nat) with code. done.
Qed.
End broker_to_client.

(** C11: a frame the broker writes to a client arrives: the client's reader delivers one frame
    of the same kind with the same sender, topic and real-time flag, whose payload is the
    frame's header followed by its payload, and is left exactly behind it. (For a sender and a
    topic without NUL bytes, and a client with room in its event queue.) *)
Theorem broker_frames_delivered {Q : Type} `{ChannelOps FrameData Q} room (c : Ipc.Client Q)
    f s data bs rest e :
  carries f -> frame_sender f = Some s -> is_str s = true -> x00 ∉ s ->
  payload f = Some data -> blen (frame_body f s data) < 2 ^ 32 ->
  ch_is_full (Ipc.events c) = false -> ch_is_closed (Ipc.events c) = false ->
  frame_bytes f = Some bs -> Ipc.incoming c = Source (bs ++ rest) e ->
  exists f',
    Ipc.handle_read_one room c =
      Done tt (Ipc.set_events (ch_push f' (Ipc.events c)) (Ipc.set_incoming (Source rest e) c)) /\
    frame_kind f' = frame_kind f /\ sender f' = Some s /\ frame_topic f' = frame_topic f /\
    frame_realtime f' = frame_realtime f /\
    payload f' = Some (default [] (frame_header f) ++ data).
Proof.
  intros Hc Hs Hstr Hn Hp Hlen Hfull Hclosed Hb Hin.
  assert (Hk : frame_kind f <> FrameKind_Prepared /\ frame_kind f <> FrameKind_Acknowledge /\
               frame_kind f <> FrameKind_Nop).
  { unfold carries in Hc. by destruct (frame_kind f). }
  destruct Hk as (Hk1 & Hk2 & Hk3).
  rewrite (frame_bytes_run f s data) in Hb by done. injection Hb as <-.
  replace (([FrameKind_code (frame_kind f)] ++ to_le_bytes 4 (blen (frame_body f s data))
    ++ [if frame_realtime f then x01 else x00] ++ frame_body f s data) ++ rest)
    with ([FrameKind_code (frame_kind f)] ++ to_le_bytes 4 (blen (frame_body f s data))
      ++ [if frame_realtime f then x01 else x00] ++ frame_body f s data ++ rest) in Hin
    by (by rewrite <- !app_assoc).
  destruct (frame_topic f) as [t|] eqn:Et.
  - assert (Hpub : frame_kind f = FrameKind_Publish /\ is_str t = true /\ x00 ∉ t).
    { unfold carries in Hc. destruct (frame_kind f); try congruence; try done.
      destruct Hc as (t' & E & ? & ?). by simplify_eq. }
    destruct Hpub as (Ek & Ht & Hnt).
    exists (MkFrame (frame_kind f) (Some s) (Some t) None (frame_body f s data)
              (blen s + blen t + 2) (frame_realtime f)).
    split_and!; [eapply handle_read_frame; try done| | | | |]; cbn; try done.
    + rewrite Ek. unfold frame_body. rewrite Et, <- app_assoc. by apply parse_body_publish.
    + unfold payload. cbn. unfold frame_body. rewrite Et, <- app_assoc. cbn.
      replace (s ++ x00 :: t ++ x00 :: default [] (frame_header f) ++ data)
        with ((s ++ x00 :: t ++ [x00]) ++ default [] (frame_header f) ++ data)
        by (rewrite <- app_assoc; cbn; by rewrite <- app_assoc).
      replace (blen s + blen t + 2) with (blen (s ++ x00 :: t ++ [x00])) by blen_lia.
      apply slice_from_app.
  - assert (Hk4 : frame_kind f <> FrameKind_Publish).
    { intros E. unfold carries in Hc. rewrite E in Hc. destruct Hc as (t & ? & _). congruence. }
    exists (MkFrame (frame_kind f) (Some s) None None (frame_body f s data)
              (blen s + 1) (frame_realtime f)).
    split_and!; [eapply handle_read_frame; try done| | | | |]; cbn; try done.
    + unfold frame_body. rewrite Et. by apply parse_body_plain.
    + unfold payload. cbn. unfold frame_body. rewrite Et. cbn. apply slice_target.
Qed.

(** The acknowledgement [send_ack!] builds for a packet resolves, in the client that sent
    the packet, the confirmation registered under its frame id, with the result its code
    stands for; every other pending confirmation stays pending. *)
Theorem ack_resolves_confirmation {Q : Type} `{ChannelOps FrameData Q} room (c : Ipc.Client Q)
    id tx code bs rest e :
  0 <= id < 2 ^ 32 -> Ipc.responses c !! id = Some tx ->
  frame_bytes (MkFrame FrameKind_Prepared None None None ([OP_ACK] ++ to_le_bytes 4 id ++ [code]) 0 false)
    = Some bs ->
  Ipc.incoming c = Source (bs ++ rest) e ->
  exists c', Ipc.handle_read_one room c = Done tt c' /\
    Ipc.confirms c' = <[ tx := to_busrt_result code ]> (Ipc.confirms c) /\
    Ipc.responses c' = delete id (Ipc.responses c) /\ Ipc.incoming c' = Source rest e.
Proof.
  intros Hid Htx Hb Hin. unfold frame_bytes, frame_writes in Hb. cbn -[to_le_bytes] in Hb.
  injection Hb as <-.
  rewrite (handle_read_ack room c id code rest e); [|done|].
  - unfold Ipc.acknowledge, modify. cbn [Ipc.responses Ipc.set_incoming]. rewrite Htx.
    eexists. by split_and!.
  - by rewrite Hin.
Qed.

(** A client name with a NUL byte, which the broker accepts, makes others misread who sent
    a message: they see the part before the NUL as the sender, and the rest of the name as the
    beginning of the payload. *)
Theorem nul_name_spoofs_sender {Q : Type} `{ChannelOps FrameData Q} room (c : Ipc.Client Q)
    f victim tail data bs rest e :
  frame_kind f = FrameKind_Message -> frame_topic f = None -> frame_header f = None ->
  frame_sender f = Some (victim ++ x00 :: tail) -> is_str victim = true -> x00 ∉ victim ->
  payload f = Some data -> blen (frame_body f (victim ++ x00 :: tail) data) < 2 ^ 32 ->
  ch_is_full (Ipc.events c) = false -> ch_is_closed (Ipc.events c) = false ->
  frame_bytes f = Some bs -> Ipc.incoming c = Source (bs ++ rest) e ->
  exists f',
    Ipc.handle_read_one room c =
      Done tt (Ipc.set_events (ch_push f' (Ipc.events c)) (Ipc.set_incoming (Source rest e) c)) /\
    sender f' = Some victim /\ payload f' = Some (tail ++ x00 :: data).
Proof.
  intros Hk Ht Hh Hs Hstr Hn Hp Hlen Hfull Hclosed Hb Hin.
  rewrite (frame_bytes_run f (victim ++ x00 :: tail) data) in Hb by (done || by rewrite Hk).
  injection Hb as <-.
  assert (Eb : frame_body f (victim ++ x00 :: tail) data = victim ++ x00 :: tail ++ x00 :: data).
  { unfold frame_body. rewrite Ht, Hh. cbn. by rewrite <- app_assoc. }
  rewrite Eb in *. rewrite Hk in Hin.
  eexists. split_and!.
  - eapply (handle_read_frame room c FrameKind_Message (frame_realtime f) _ rest e); try done.
    + by apply parse_body_plain.
  - done.
  - apply slice_target.
Qed.
