(* ===== verification/IpcFacts.v ===== *)
(** * Facts about the socket client

    Frame ids, what a send leaves behind when it succeeds and when it does not, and the reader
    loop: the fuel of [handle_read] is enough, and the reader never panics. *)
From S2P Require Export Ipc.

(** ** Frame ids *)

Lemma next_frame_id_range id : 0 <= id < 2 ^ 32 -> 1 <= next_frame_id id < 2 ^ 32.
Proof. unfold next_frame_id. intros H. destruct (id =? 2 ^ 32 - 1) eqn:E; [lia|]. apply Z.eqb_neq in E. lia. Qed.

Lemma iter_frame_id n :
  Nat.iter (S n) next_frame_id 0 = Z.of_nat n mod (2 ^ 32 - 1) + 1.
Proof.
  induction n as [|n IH]; [done|].
  change (Nat.iter (S (S n)) next_frame_id 0) with (next_frame_id (Nat.iter (S n) next_frame_id 0)).
  rewrite IH.
  pose proof (Z.mod_pos_bound (Z.of_nat n) (2 ^ 32 - 1)) as Hb.
  unfold next_frame_id. destruct (_ =? _) eqn:E.
  - apply Z.eqb_eq in E.
    assert (Em : Z.of_nat n mod (2 ^ 32 - 1) = 2 ^ 32 - 2) by lia.
    replace (Z.of_nat (S n)) with (Z.of_nat n + 1) by lia.
    rewrite <- Z.add_mod_idemp_l, Em by lia. done.
  - apply Z.eqb_neq in E.
    replace (Z.of_nat (S n)) with (Z.of_nat n + 1) by lia.
    rewrite <- Z.add_mod_idemp_l by lia. rewrite (Z.mod_small (_ + 1)); lia.
Qed.

(** C32: the ids of the frames a client sends: the first is 1, zero (which the broker would
    take for no frame) is never used, every id fits 32 bits, and two of any 2^32-1 consecutive
    frames have different ids. *)
Theorem frame_ids_distinct (n m : nat) :
  (1 <= n)%nat -> (n < m)%nat -> Z.of_nat m - Z.of_nat n < 2 ^ 32 - 1 ->
  1 <= Nat.iter n next_frame_id 0 < 2 ^ 32 /\
  Nat.iter n next_frame_id 0 <> Nat.iter m next_frame_id 0.
Proof.
  intros Hn Hm Hd. destruct n as [|n]; [lia|]. destruct m as [|m]; [lia|].
  rewrite !iter_frame_id. split; [pose proof (Z.mod_pos_bound (Z.of_nat n) (2 ^ 32 - 1)); lia|].
  intros E. apply (f_equal (fun z => z - 1)) in E. rewrite !Z.add_simpl_r in E.
  pose proof (Z_div_mod_eq_full (Z.of_nat n) (2 ^ 32 - 1)).
  pose proof (Z_div_mod_eq_full (Z.of_nat m) (2 ^ 32 - 1)).
  assert (Z.of_nat m - Z.of_nat n = (2 ^ 32 - 1) * (Z.of_nat m / (2 ^ 32 - 1) - Z.of_nat n / (2 ^ 32 - 1))) by lia.
  destruct (Z_lt_le_dec 0 (Z.of_nat m / (2 ^ 32 - 1) - Z.of_nat n / (2 ^ 32 - 1))); nia.
Qed.

Section client.
Context {Q : Type} `{ChannelOps FrameData Q}.

(** What a [write] does to the client, seen from its caller. *)
Lemma send_data_run data flush (c : Client Q) :
  match send_data data flush c with
  | Done _ c' =>
      written c' = written c ++ [(data, flush)] /\ connected c' = connected c /\
      responses c' = responses c /\ frame_id c' = frame_id c /\ confirms c' = confirms c /\
      next_confirm c' = next_confirm c
  | Throw _ c' => connected c' = false /\ reader_aborted c' = true
  | Hang _ => True
  | Panic => False
  end.
Proof. unfold send_data. by destruct (writes c) as [|[]]. Qed.

(** *** The reader *)

Definition pending (c : Client Q) : nat := length (src_data (incoming c)).

Lemma read_consumes n timed (c : Client Q) :
  0 <= n ->
  match read n timed c with
  | Done data c' => Z.of_nat (pending c) = n + Z.of_nat (pending c') /\ blen data = n
  | Throw _ c' | Hang c' => c' = c
  | Panic => False
  end.
Proof.
  intros Hn. unfold read, pending. destruct (read_exact n (incoming c)) as [data rest| |] eqn:E; [|done|by destruct timed].
  split.
  - by apply (read_exact_ReadOk_length n (incoming c) data rest).
  - by apply read_exact_ReadOk in E as [? _].
Qed.

Lemma deliver_pending room f (c : Client Q) :
  match deliver room f c with
  | Done _ c' | Throw _ c' | Hang c' => pending c' = pending c
  | Panic => False
  end.
Proof. unfold deliver. by destruct (ch_send _ _ _). Qed.

(** One turn consumes at least the six bytes of the header, and does not panic. *)
Lemma handle_read_one_consumes room (c : Client Q) :
  match handle_read_one room c with
  | Done _ c' => (pending c' + 6 <= pending c)%nat
  | Throw _ _ | Hang _ => True
  | Panic => False
  end.
Proof.
  unfold handle_read_one, mbind, prog_bind.
  pose proof (read_consumes 6 false c ltac:(lia)) as H1.
  destruct (read 6 false c) as [buf c1| | |]; [|done..]. destruct H1 as [H1 _].
  destruct (FrameKind_try_from _) as [k|]; [|done]. cbn [lift mret prog_ret].
  assert (Hbody : match (read (from_le_bytes (take 4 (drop 1 buf))) true ≫= fun buf0 =>
      lift (parse_body k buf0) ≫= fun '(sender, topic, payload_pos) =>
      deliver room (MkFrame k sender topic None buf0 payload_pos (bool_decide (buf !!! 5%nat <> x00)))) c1 with
    | Done _ c' => (pending c' + 6 <= pending c)%nat | Panic => False | _ => True end).
  { unfold mbind, prog_bind.
    pose proof (read_consumes (from_le_bytes (take 4 (drop 1 buf))) true c1
      ltac:(pose proof (from_le_bytes_range (take 4 (drop 1 buf))); lia)) as H2.
    destruct (read _ true c1) as [body c2| | |]; [|done..]. destruct H2 as [H2 _].
    pose proof (from_le_bytes_range (take 4 (drop 1 buf))).
    destruct (parse_body k body) as [[[sender topic] pos]|]; [|done]. cbn [lift mret prog_ret].
    pose proof (deliver_pending room (MkFrame k sender topic None body pos (bool_decide (buf !!! 5%nat <> x00))) c2) as H3.
    destruct (deliver _ _ c2); [lia|done..]. }
  destruct k; try exact Hbody; [|cbn; lia].
  cbn. destruct (responses c1 !! _); cbn; unfold pending in *; cbn in *; lia.
Qed.

Lemma handle_read_more room : forall n m (c : Client Q),
  (pending c < n)%nat -> (n <= m)%nat -> handle_read m room c = handle_read n room c.
Proof.
  induction n as [|n IH]; intros m c Hn Hm; [lia|]. destruct m as [|m]; [lia|].
  cbn [handle_read]. unfold mbind, prog_bind. pose proof (handle_read_one_consumes room c) as Hc.
  destruct (handle_read_one room c) as [[] c'| | |]; [|done..]. apply IH; lia.
Qed.

Lemma handle_read_no_return room : forall n (c : Client Q),
  match handle_read n room c with Done _ _ | Panic => False | _ => True end.
Proof.
  induction n as [|n IH]; intros c; [done|]. cbn [handle_read]. unfold mbind, prog_bind.
  pose proof (handle_read_one_consumes room c) as Hc.
  destruct (handle_read_one room c) as [[] c'| | |]; [apply IH|done..].
Qed.
End client.

(** C12: a send either hands the whole frame to the transport, in two writes, and, if a
    confirmation is requested, registers exactly one under the frame's id; or it does not
    return normally (an error, a timeout, or the caller dropping the future at any point),
    and then the client is marked disconnected and its reader stopped. *)
Theorem send_all_or_disconnect {Q : Type} `{ChannelOps FrameData Q} buf payload qos (c : Client Q) :
  match send_frame_and_confirm buf payload qos c with
  | Done rx c' =>
      written c' = written c ++ [(buf, Flush_No); (payload, Flush_from (is_realtime qos))] /\
      connected c' = connected c /\ frame_id c' = frame_id c /\
      (if needs_ack qos
       then rx = Some (next_confirm c) /\ responses c' = <[ frame_id c := next_confirm c ]> (responses c)
       else rx = None /\ responses c' = responses c)
  | Throw _ c' | Hang c' => connected c' = false /\ reader_aborted c' = true
  | Panic => False
  end.
Proof.
  unfold send_frame_and_confirm.
  set (c1 := if needs_ack qos
             then set_responses (<[ frame_id c := next_confirm c ]> (responses c))
                    (set_next_confirm (S (next_confirm c)) c)
             else c).
  assert (Hrun : forall k : option nat -> prog (Client Q) Error (option nat),
    (gets (fun c => (next_confirm c, frame_id c)) ≫= fun '(tx, id) =>
     (if needs_ack qos then
        modify (fun c => set_responses (<[ id := tx ]> (responses c)) (set_next_confirm (S tx) c)) ≫= fun _ =>
        mret (Some tx)
      else mret None) ≫= k) c = k (if needs_ack qos then Some (next_confirm c) else None) c1).
  { intros k. unfold c1. by destruct (needs_ack qos). }
  rewrite Hrun. clear Hrun.
  assert (H1 : written c1 = written c /\ connected c1 = connected c /\ frame_id c1 = frame_id c /\
     if needs_ack qos then responses c1 = <[ frame_id c := next_confirm c ]> (responses c)
     else responses c1 = responses c) by (unfold c1; by destruct (needs_ack qos)).
  destruct H1 as (Hw & Hc & Hi & Hr).
  unfold mbind at 1, prog_bind at 1, with_frame_write_guard, mbind at 1, prog_bind at 1.
  pose proof (send_data_run buf Flush_No c1) as Hs.
  destruct (send_data buf Flush_No c1) as [[] c2|e c2|c2|]; [|done..].
  destruct Hs as (Hw2 & Hc2 & Hr2 & Hi2 & _).
  pose proof (send_data_run payload (Flush_from (is_realtime qos)) c2) as Hs.
  destruct (send_data payload _ c2) as [[] c3|e c3|c3|]; [|done..].
  destruct Hs as (Hw3 & Hc3 & Hr3 & Hi3 & _). cbn [mret prog_ret].
  split_and!; [by rewrite Hw3, Hw2, Hw, <- app_assoc|congruence|congruence|].
  destruct (needs_ack qos); split; congruence.
Qed.

(** C31: the reader task terminates on every finite input, without panicking: it ends with the
    error that stopped it, marking the client disconnected, or waits for more bytes or for
    room in the event queue. A number of turns one above the number of bytes is always
    enough; more turns change nothing. *)
Theorem reader_task_total {Q : Type} `{ChannelOps FrameData Q} room (c : Client Q) :
  (forall fuel, (length (src_data (incoming c)) < fuel)%nat ->
     handle_read fuel room c = handle_read (S (length (src_data (incoming c)))) room c) /\
  match reader_task (S (length (src_data (incoming c)))) room c with
  | Done _ c' => connected c' = false
  | Hang _ => True
  | Throw _ _ | Panic => False
  end.
Proof.
  split.
  - intros fuel Hf. apply handle_read_more; unfold pending; lia.
  - unfold reader_task. pose proof (handle_read_no_return room (S (length (src_data (incoming c)))) c).
    by destruct (handle_read _ room c).
Qed.
