(* ===== verification/System.v ===== *)
(** * The broker as a transition system

    Every operation a connection, an in-process client or the owner of the broker performs on
    the database is a step; a run is any interleaving of such steps, each of which may end
    normally, with an error, or blocked. The theorem of the file is the invariant of all
    reachable databases, and that no step panics. [Client::unregister] is not among the steps:
    it breaks the invariant ([Registry.client_unregister_keeps_name]). A packet of a connection
    whose name another connection has meanwhile taken over is not either: such a connection has
    been told to close, and until it does its topic operations would reach the entry of the new
    one. *)
From S2P Require Export Announce Handshake PeerFacts Exclusions Fifo.

Section system.
Context {X : Externals} {N : Networks}.

Inductive op :=
| Connect (p : PeerParams) (k : conn)
| Packet (p : ReaderParams ext_acl) (c : nat) (op_id : bytes) (qos : QoS) (fop : FrameOp) (len : Z) (buf : bytes)
| Ping (c : nat)
| WriterTakes (c : nat)
| Finish (c : nat) (r : result unit Error)
| Register (queue_size : Z) (nm : str)
| RegisterSecondary (queue_size : Z) (client : Client)
| Unregister (client : Client)
| ForceDisconnect (nm : str)
| DropClient (c : nat)
| InitCoreRpc (queue_size : Z)
| Subscribe (c : nat) (topics : list str) (qos : QoS)
| Unsubscribe (c : nat) (topics : list str) (qos : QoS)
| Exclude (c : nat) (topics : list str) (qos : QoS)
| Unexclude (c : nat) (topics : list str) (qos : QoS)
| Send (c : nat) (target : str) (header payload : bytes) (qos : QoS)
| Broadcast (c : nat) (mask : str) (payload : bytes) (qos : QoS)
| Publish (c : nat) (topic : str) (payload : bytes) (qos : QoS)
| PublishFor (c : nat) (topic receiver : str) (payload : bytes) (qos : QoS)
| CoreReply (target : str) (header payload : bytes) (qos : QoS)
| FifoLine (line : str).

Definition ignore {S E A} (m : prog S E A) : prog S E unit := m ≫= fun _ => mret tt.

(** A handshake, as far as the database is concerned. *)
Definition connect (p : PeerParams) (k : conn) : prog BrokerDb Error unit := fun d =>
  match handshake p (d, k) with
  | Done _ s => Done tt s.1
  | Throw e s => Throw e s.1
  | Hang s => Hang s.1
  | Panic => Panic
  end.

(** The writer task (or the owner of the event channel) takes the next frame. *)
Definition writer_takes (c : nat) : prog BrokerDb Error unit :=
  deref c ≫= fun cl =>
  match ch_recv (tx cl) with
  | Some (_, q) => upd c (set_tx q)
  | None => hang
  end.

(** A packet; one that ends in an error ends the connection. *)
Definition packet (p : ReaderParams ext_acl) (c : nat) (op_id : bytes) (qos : QoS) (fop : FrameOp) (len : Z)
    (buf : bytes) : prog BrokerDb Error unit := fun d =>
  match process_packet p c op_id qos fop len buf d with
  | Throw e d => finish_peer c (Err e) d
  | r => r
  end.

Definition run_op (o : op) : prog BrokerDb Error unit :=
  match o with
  | Connect p k => connect p k
  | Packet p c op_id qos fop len buf => packet p c op_id qos fop len buf
  | Ping c => pinger_tick c
  | WriterTakes c => writer_takes c
  | Finish c r => finish_peer c r
  | Register q nm => ignore (broker_register_client q nm)
  | RegisterSecondary q client => ignore (register_secondary_for q client)
  | Unregister client => broker_unregister_client client
  | ForceDisconnect nm => force_disconnect nm
  | DropClient c => client_drop c
  | InitCoreRpc q => init_default_core_rpc q
  | Subscribe c topics qos => ignore (subscribe_bulk c topics qos)
  | Unsubscribe c topics qos => ignore (unsubscribe_bulk c topics qos)
  | Exclude c topics qos => ignore (exclude_bulk c topics qos)
  | Unexclude c topics qos => ignore (unexclude_bulk c topics qos)
  | Send c target header payload qos => ignore (client_zc_send c target header payload qos)
  | Broadcast c mask payload qos => ignore (client_send_broadcast c mask payload qos)
  | Publish c topic payload qos => ignore (client_publish c topic payload qos)
  | PublishFor c topic receiver payload qos => ignore (client_publish_for c topic receiver payload qos)
  | CoreReply target header payload qos => core_send_reply target header payload qos
  | FifoLine line => send_fifo_cmd line
  end.

(** Who may perform a step: the holder of an [Arc] of an allocated client, and for the topics
    of a client one whose name nobody else has taken. A queue size is positive:
    [async_channel::bounded] panics for zero. *)
Definition enabled (o : op) (d : BrokerDb) : Prop :=
  match o with
  | Packet p c _ _ _ _ _ =>
      current c d
  | Subscribe c _ _ | Unsubscribe c _ _ => current c d
  | Ping c | WriterTakes c | Finish c _ | DropClient c
  | Exclude c _ _ | Unexclude c _ _ | Send c _ _ _ _ | Broadcast c _ _ _ | Publish c _ _ _
  | PublishFor c _ _ _ _ => is_Some (heap d !! c)
  | RegisterSecondary q client => 0 < q /\ is_Some (heap d !! bus client)
  | Unregister client => is_Some (heap d !! bus client)
  | Connect p _ => 0 < pp_queue_size p
  | Register q _ | InitCoreRpc q => 0 < q
  | ForceDisconnect _ | CoreReply _ _ _ _ | FifoLine _ => True
  end.

(** The database a program leaves, however it ends. *)
Definition leaves_db {A} (m : prog BrokerDb Error A) (d d' : BrokerDb) : Prop :=
  match m d with
  | Done _ d1 | Throw _ d1 | Hang d1 => d' = d1
  | Panic => False
  end.

Inductive step (d d' : BrokerDb) : Prop :=
| step_op o : enabled o d -> leaves_db (run_op o) d d' -> step d d'.

Definition reachable (force : bool) (d : BrokerDb) : Prop := rtc step (broker_create force) d.
End system.

(** ** Runs *)

Section runs.
Context {X : Externals} {N : Networks}.

#[export] Instance current_dec c d : Decision (current c d).
Proof.
  destruct (heap d !! c) as [cl|] eqn:E.
  - destruct (decide (registered cl = true \/ clients d !! name cl = None)) as [H|H].
    + left. by exists cl.
    + right. intros (cl' & H' & Hc). by simplify_eq.
  - right. intros (cl' & H' & _). congruence.
Defined.

#[export] Instance enabled_dec o d : Decision (enabled o d).
Proof. destruct o; cbn [enabled]; apply _. Defined.

(** A run of operations, each of which must be enabled. *)
Fixpoint run_ops (os : list op) (d : BrokerDb) : option BrokerDb :=
  match os with
  | [] => Some d
  | o :: os =>
      if decide (enabled o d) then
        match run_op o d with
        | Done _ d | Throw _ d | Hang d => run_ops os d
        | Panic => None
        end
      else None
  end.

Lemma run_ops_steps os d d' : run_ops os d = Some d' -> rtc step d d'.
Proof.
  revert d. induction os as [|o os IH]; intros d; cbn; [intros [= <-]; apply rtc_refl|].
  case_decide as He; [|done]. intros Hr.
  destruct (run_op o d) as [[] d1|e d1|d1|] eqn:E; [..|done];
    (eapply rtc_l; [exists o; [done|]; unfold leaves_db; by rewrite E|by apply IH]).
Qed.
End runs.

Section invariant.
Context {X : Externals} `{!ExternalsLaws X} {N : Networks}.

Lemma preserves_announced D I b e : stable D I -> preserves I (announced b e).
Proof.
  intros HI. apply preserves_when, preserves_bind; [|intros; apply preserves_ret].
  by eapply preserves_attempt, preserves_announce.
Qed.

(** Registration of a new object, however it ends. *)
Lemma register_wf d c cl :
  db_wf d -> heap d !! c = Some cl -> newborn cl ->
  match db_register_client c d with
  | Done _ d' | Throw _ d' | Hang d' => wf_on (dom (heap d)) d'
  | Panic => False
  end.
Proof.
  intros D Hl F. pose proof (preserves_announced _ _ (primary cl) (BrokerEvent_reg (name cl))
    (stable_wf_on (dom (heap d)))) as Ha.
  rewrite (db_register_client_run d c cl Hl). pose proof (insert_client_wf d c cl D Hl F) as H.
  destruct (insert_client c d) as [[] d1|e d1|d1|] eqn:E; [|..|done|done].
  - apply Ha. destruct H as (W & Hd & _). by split.
  - destruct H as [-> H]. destruct (bool_decide (kind e = Busy) && (primary cl && force_register d)) eqn:Eb;
      [|done].
    apply andb_true_iff in Eb as [Ek [P Hf]%andb_true_iff].
    destruct H as [(P' & _)|[[prev Hprev] _]]; [congruence|].
    destruct (cw_clients d (proj1 D) _ _ Hprev) as (pcl & Hpl & _).
    destruct (db_register_client_force d c cl prev pcl D Hl F P Hf Hprev Hpl)
      as (d2 & E2 & W2 & Hd2 & _).
    rewrite (db_register_client_run d c cl Hl), E, Ek, P, Hf in E2. cbn [andb] in E2.
    rewrite P. rewrite E2. rewrite P in Ha. apply Ha. by split.
Qed.

Lemma alloc_register_wf cl d :
  db_wf d -> client_ok cl -> newborn cl ->
  match db_register_client (next_ptr d) (allocated cl d) with
  | Done _ d' | Throw _ d' | Hang d' => db_wf d' /\ is_Some (heap d' !! next_ptr d)
  | Panic => False
  end.
Proof.
  intros D Hok Hn. pose proof (allocated_wf cl d D Hok Hn) as W.
  assert (Hl : heap (allocated cl d) !! next_ptr d = Some cl) by (apply heap_allocated; auto).
  pose proof (register_wf _ _ cl W Hl Hn) as H.
  assert (Hc : forall d', wf_on (dom (heap (allocated cl d))) d' ->
    db_wf d' /\ is_Some (heap d' !! next_ptr d)).
  { intros d' [W' Hd]. split; [done|]. apply elem_of_dom. rewrite Hd. by apply elem_of_dom_2 in Hl. }
  by destruct (db_register_client _ _); auto.
Qed.

Lemma broker_register_wf q nm d :
  db_wf d ->
  match broker_register_client q nm d with
  | Done client d' => db_wf d' /\ is_Some (heap d' !! bus client)
  | Throw _ d' | Hang d' => db_wf d'
  | Panic => False
  end.
Proof.
  intros D. destruct (new_client_ok nm q Internal None None) as [Hok Hn].
  pose proof (alloc_register_wf _ d D Hok Hn) as H. unfold broker_register_client.
  rewrite (bind_Done (alloc _) _ d (next_ptr d) _ eq_refl). unfold mbind, prog_bind.
  fold (allocated (new_client nm q Internal None None) d).
  by destruct (db_register_client _ _) as [[] d'|e d'|d'|]; [|destruct H..].
Qed.

End invariant.

(** The handshake keeps what registering a new object keeps. *)
Section handshakes.
Context {X : Externals} {N : Networks} (I : BrokerDb -> Prop).
Hypothesis Hreg : forall nm q k src prt d,
  0 < q -> I d ->
  match db_register_client (next_ptr d) (allocated (new_client nm q k src prt) d) with
  | Done _ d' | Throw _ d' | Hang d' => I d'
  | Panic => False
  end.

Definition session_inv (s : session) : Prop := I s.1.

Lemma preserves_write data : preserves session_inv (write_and_flush data).
Proof. intros [d k] D. unfold write_and_flush, io_write. by destruct (cn_writes _) as [|[]]. Qed.

Lemma preserves_read n : preserves session_inv (peer_read n).
Proof. intros [d k] D. unfold peer_read, io_read_exact. by destruct (read_exact _ _). Qed.

Lemma preserves_refuse {A} code e : preserves session_inv (refuse code e : prog session Error A).
Proof. apply preserves_bind; [apply preserves_write|]. intros _. apply preserves_throw. Qed.

Lemma preserves_authorize p nm pn : preserves session_inv (authorize p nm pn).
Proof.
  pose proof (@preserves_refuse (option (ClientAaa ext_acl))). unfold authorize.
  destruct (pp_aaa_map p) as [m|]; [|apply preserves_ret]. destruct (m !! pn); [|done].
  destruct (pp_ip p); [|apply preserves_ret]. destruct (connect_allowed _ _); [apply preserves_ret|done].
Qed.

Lemma preserves_handshake p : 0 < pp_queue_size p -> preserves session_inv (handshake p).
Proof using Hreg.
  intros Hq.
  pose proof preserves_write. pose proof preserves_read. pose proof preserves_authorize.
  pose proof (@preserves_refuse (nat * option (ClientAaa ext_acl))).
  unfold handshake. apply preserves_bind; [done|]. intros _. apply preserves_bind; [done|]. intros buf.
  case_match; [done|]. case_match; [done|].
  apply preserves_bind; [done|]. intros _. apply preserves_bind; [done|]. intros buf2.
  apply preserves_bind; [done|]. intros buf3. apply preserves_bind; [apply preserves_lift|]. intros nm.
  case_match; [done|]. cbv zeta. apply preserves_bind; [done|]. intros aaa [d k] D.
  pose proof (Hreg nm (pp_queue_size p) (pp_kind p) (pp_source p) (pp_source_port p) d Hq D) as Hr.
  set (cl := new_client _ _ _ _ _) in *. unfold mbind, prog_bind, on_db, attempt.
  change (alloc cl d) with (Done (E := Error) (next_ptr d) (allocated cl d)). cbv beta iota.
  destruct (db_register_client (next_ptr d) (allocated cl d)) as [[] d1|e d1|d1|]; [|..|done].
  - pose proof (preserves_write [RESPONSE_OK] (d1, k) Hr) as Hw.
    by destruct (write_and_flush [RESPONSE_OK] (d1, k)).
  - exact (@preserves_refuse (nat * option (ClientAaa ext_acl)) (ErrorKind_code (kind e)) e (d1, k) Hr).
  - exact Hr.
Qed.

Lemma preserves_connect p k : 0 < pp_queue_size p -> preserves I (connect p k).
Proof using Hreg.
  intros Hq d D. unfold connect. pose proof (preserves_handshake p Hq (d, k) D) as H.
  by destruct (handshake p (d, k)).
Qed.
End handshakes.

Section steps.
Context {X : Externals} `{!ExternalsLaws X} {N : Networks}.

(** ** The other operations *)

Lemma preserves_ignore {S E A} (I : S -> Prop) (m : prog S E A) : preserves I m -> preserves I (ignore m).
Proof. intros Hm. apply preserves_bind; [done|]. intros _. apply preserves_ret. Qed.

Lemma preserves_sub_step D c f t :
  topic_update f -> preserves (wf_cur D c) (sub_step f c t).
Proof.
  intros Hf d Hd. pose proof Hd as [_ (cl & Hl & _)]. unfold sub_step.
  rewrite (bind_Done _ _ _ _ _ (deref_Some _ _ _ Hl)).
  rewrite (bind_Done (gets _) _ d _ d eq_refl), (bind_Done (modify _) _ d tt _ eq_refl).
  pose proof (topic_update_wf D c f t d cl Hf Hd Hl) as H.
  by destruct (fst _).
Qed.

(** [I] holds of any program that keeps the well-formedness of databases with these objects. *)
Lemma preserves_wf_cur {A} (m : prog BrokerDb Error A) c d :
  db_wf d -> current c d -> preserves (wf_cur (dom (heap d)) c) m ->
  match m d with Done _ d' | Throw _ d' | Hang d' => db_wf d' | Panic => False end.
Proof. intros D Hc Hm. specialize (Hm d (conj (conj D eq_refl) Hc)). by destruct (m d); [destruct Hm as [[]]..|]. Qed.

Lemma preserves_wf_on {A} (m : prog BrokerDb Error A) d :
  db_wf d -> preserves (wf_on (dom (heap d))) m ->
  match m d with Done _ d' | Throw _ d' | Hang d' => db_wf d' | Panic => False end.
Proof. intros D Hm. specialize (Hm d (conj D eq_refl)). by destruct (m d); [destruct Hm..|]. Qed.

Lemma inert_exclude_topics topics : inert (exclude_topics topics).
Proof. intros cl. unfold exclude_topics. by destruct topics. Qed.
Lemma inert_unexclude_topics topics : inert (unexclude_topics topics).
Proof. intros cl. unfold unexclude_topics. by destruct (acl_is_empty _). Qed.

(** A line from a fifo, with whatever the bus client is asked to send. *)
Lemma preserves_fifo D I line :
  stable D I -> (forall x, x ∈ D -> preserves I (unregister_client x)) -> preserves I (send_fifo_cmd line).
Proof.
  intros HI Hun. eapply preserves_with_rpc_lock; [done..|].
  eapply preserves_gets_bind; [done|]. intros d Hd. destruct (rpc_client d) as [bus|] eqn:Hr; [|apply preserves_throw].
  assert (Hb : bus ∈ D) by by eapply bus_in.
  assert (Hop : forall m : prog BrokerDb Error OpConfirm, preserves I m ->
    preserves I (with_bus_lock m ≫= fun _ => mret tt)).
  { intros m Hm. apply preserves_bind; [by eapply preserves_with_bus_lock|]. intros _. apply preserves_ret. }
  assert (Hc : forall m : prog BrokerDb Error unit, preserves I m -> forall qos,
    preserves I (m ≫= fun _ => mret (make_confirm_channel qos))).
  { intros m Hm qos. apply preserves_bind; [done|]. intros _. apply preserves_ret. }
  destruct (strip_prefix (lit "=") (trim line)); cbv zeta;
    (apply preserves_bind; [apply preserves_lift|]; intros w1; apply preserves_bind; [apply preserves_lift|]; intros w2).
  - apply Hop, Hc. by eapply preserves_publish.
  - destruct (strip_prefix (lit ".") w2); [apply Hop, Hc; by eapply preserves_send|].
    destruct (strip_prefix (lit ":") w2).
    + apply preserves_bind; [apply preserves_lift|]. intros params.
      apply preserves_bind; [apply preserves_lift|]. intros data. apply Hop, Hc. by eapply preserves_send.
    + case_bool_decide; apply Hop, Hc; [by eapply preserves_broadcast|by eapply preserves_send].
Qed.

(** The operations on known client objects keep [wf_on]. *)
Lemma preserves_simple_ops D o d :
  dom (heap d) = D -> enabled o d ->
  match o with
  | Ping _ | WriterTakes _ | Finish _ _ | DropClient _ | Unregister _ | ForceDisconnect _
  | Exclude _ _ _ | Unexclude _ _ _ | Send _ _ _ _ _ | Broadcast _ _ _ _ | Publish _ _ _ _
  | PublishFor _ _ _ _ _ | CoreReply _ _ _ _ | FifoLine _ => preserves (wf_on D) (run_op o)
  | _ => True
  end.
Proof.
  intros HD He. pose proof (stable_wf_on D) as HI.
  assert (Hin : forall c, is_Some (heap d !! c) -> c ∈ D) by (intros c Hc; rewrite <- HD; by apply elem_of_dom).
  assert (Hun : forall x, x ∈ D -> preserves (wf_on D) (unregister_client x))
    by (intros x Hx; by eapply preserves_unregister_client).
  destruct o; try done; cbn [enabled run_op] in *; try (apply Hin in He).
  - (* Ping *) eapply preserves_deref_bind; [done..|]. intros cl.
    destruct (ch_is_full _); [apply preserves_throw|]. destruct (ch_send _ _ _) as [q| |q]; [|apply preserves_throw|apply preserves_hang].
    eapply preserves_upd; [done|]. apply (inert_set_tx (fun _ => q)).
  - (* WriterTakes *) eapply preserves_deref_bind; [done..|]. intros cl.
    destruct (ch_recv _) as [[f q]|]; [|apply preserves_hang].
    eapply preserves_upd; [done|]. apply (inert_set_tx (fun _ => q)).
  - (* Finish *) eapply preserves_deref_bind; [done..|]. intros cl.
    apply preserves_bind; [by apply Hun|]. intros _. apply preserves_lift.
  - by apply Hun.
  - (* ForceDisconnect *) unfold force_disconnect, trigger_disconnect.
    eapply preserves_gets_bind; [done|]. intros d1 Hd1. destruct (clients d1 !! nm) as [c|] eqn:Hc; [|apply preserves_throw].
    destruct Hd1 as [[W _] <-]. apply (cw_clients d1 W) in Hc as (y & Hy & _). apply elem_of_dom_2 in Hy.
    eapply preserves_deref_bind; [done..|]. intros cl. case_decide; [apply preserves_throw|].
    eapply preserves_upd; [done|]. apply inert_disconnected.
  - by eapply preserves_drop_client.
  - apply preserves_ignore, preserves_bind; [|intros _; apply preserves_ret].
    eapply preserves_upd; [done|]. apply inert_exclude_topics.
  - apply preserves_ignore, preserves_bind; [|intros _; apply preserves_ret].
    eapply preserves_upd; [done|]. apply inert_unexclude_topics.
  - apply preserves_ignore, preserves_bind; [|intros _; apply preserves_ret]. by eapply preserves_send.
  - apply preserves_ignore, preserves_bind; [|intros _; apply preserves_ret]. by eapply preserves_broadcast.
  - apply preserves_ignore, preserves_bind; [|intros _; apply preserves_ret]. by eapply preserves_publish.
  - apply preserves_ignore, preserves_bind; [|intros _; apply preserves_ret]. by eapply preserves_publish_for.
  - (* CoreReply *) eapply preserves_gets_bind; [done|]. intros d1 Hd1.
    destruct (rpc_client d1) as [bus|] eqn:Hr; [|apply preserves_ret].
    eapply preserves_with_bus_lock; [done|exact Hun|]. apply preserves_bind; [|intros _; apply preserves_ret].
    apply preserves_attempt, preserves_bind; [|intros _; apply preserves_ret].
    eapply preserves_send; [done|exact Hun|]. by eapply bus_in.
  - (* FifoLine *) by eapply preserves_fifo.
Qed.

(** [init_default_core_rpc]: the new client object is there when it becomes the bus client. *)
Lemma init_core_rpc_wf q d :
  db_wf d -> match init_default_core_rpc q d with
             | Done _ d' | Throw _ d' | Hang d' => db_wf d' | Panic => False end.
Proof.
  intros D. pose proof (broker_register_wf q BROKER_NAME d D) as H.
  unfold init_default_core_rpc, mbind, prog_bind.
  destruct (broker_register_client q BROKER_NAME d) as [client d'|e d'|d'|]; [|done..].
  destruct H as [[W L] Hb]. cbn. split; constructor; try apply W; try apply L.
  by intros b [= <-].
Qed.

(** The invariant of the reachable databases. *)
Definition good (d : BrokerDb) : Prop := db_wf d /\ flags_ok d.

Lemma new_client_good nm q k src prt d :
  good d ->
  match db_register_client (next_ptr d) (allocated (new_client nm q k src prt) d) with
  | Done _ d' | Throw _ d' | Hang d' => good d'
  | Panic => False
  end.
Proof.
  intros [D F]. destruct (new_client_ok nm q k src prt) as [Hok Hn].
  pose proof (alloc_register_wf _ d D Hok Hn) as Hw. pose proof (register_flags nm q k src prt d F) as Hf.
  destruct (db_register_client _ _); [split; [apply Hw|done]..|done].
Qed.

Lemma packet_good p c op_id qos fop len buf d :
  good d -> current c d ->
  match packet p c op_id qos fop len buf d with
  | Done _ d' | Throw _ d' | Hang d' => good d'
  | Panic => False
  end.
Proof.
  intros [D F] Hc. pose proof Hc as (cl & Hl & _). apply elem_of_dom_2 in Hl as Hin.
  pose proof (preserves_process_packet (dom (heap d)) c p op_id qos fop len buf Hin d
    (conj (conj D eq_refl) Hc)) as Hw.
  assert (Hf : match process_packet p c op_id qos fop len buf d with
    | Done _ d' | Hang d' => flags_ok d'
    | Throw _ d' => flags_but (fun _ => False) (Some c) d'
    | Panic => True end).
  { destruct (decide (fop = FrameOp_ExcludeTopic)) as [->|Hop]; [by apply exclude_packet_flags|].
    pose proof (keeps_process_packet (fun _ => False) None p c op_id qos fop len buf Hop d F) as H.
    destruct (process_packet _ _ _ _ _ _ _ d); try done. intros x y Hy Hor _. by eapply H. }
  unfold packet. destruct (process_packet p c op_id qos fop len buf d) as [[] d1|e d1|d1|]; [|..|done].
  - split; [apply Hw|done].
  - destruct Hw as [[D1 E1] (cl1 & Hl1 & _)].
    pose proof (preserves_simple_ops _ (Finish c (Err e)) d1 eq_refl (mk_is_Some _ _ Hl1)) as Hp.
    pose proof (preserves_wf_on _ d1 D1 Hp) as Hw1. cbn [run_op] in Hw1.
    pose proof (finish_flags c (Err e) d1 D1 (mk_is_Some _ _ Hl1) Hf) as Hf1.
    by destruct (finish_peer c (Err e) d1).
  - split; [apply Hw|done].
Qed.

Lemma broker_register_good q nm d :
  good d -> match broker_register_client q nm d with
            | Done _ d' | Throw _ d' | Hang d' => good d' | Panic => False end.
Proof.
  intros G. pose proof (new_client_good nm q Internal None None d G) as H. unfold broker_register_client.
  rewrite (bind_Done (alloc _) _ d (next_ptr d) _ eq_refl). unfold mbind, prog_bind.
  fold (allocated (new_client nm q Internal None None) d). by destruct (db_register_client _ _).
Qed.

(** The operations that neither register an object nor bring a packet keep the flags. *)
Lemma keeps_simple_ops o :
  match o with
  | Connect _ _ | Packet _ _ _ _ _ _ _ | Register _ _ | RegisterSecondary _ _ | InitCoreRpc _ => True
  | _ => keeps flags_ok (run_op o)
  end.
Proof.
  pose proof (keeps_unregister (fun _ => False) None) as Hu.
  pose proof (keeps_send _ _ _ Hu). pose proof (keeps_broadcast _ _ _ Hu).
  pose proof (keeps_publish _ _ _ Hu). pose proof (keeps_publish_for _ _ _ Hu).
  unfold flags_ok. destruct o; try done; cbn [run_op];
    unfold ignore, core_send_reply, on_core, send_fifo_cmd, client_send, pinger_tick, writer_takes, finish_peer, broker_unregister_client, force_disconnect,
      trigger_disconnect, client_drop, subscribe_bulk, unsubscribe_bulk, sub_step, exclude_bulk, unexclude_bulk,
      client_zc_send, client_send_broadcast, client_publish, client_publish_for,
      send, send_broadcast, publish, publish_for; keep; eauto.
  - (* CoreReply *) apply keeps_with_bus_lock; [done|]. keep.
  - (* FifoLine *) apply keeps_with_rpc_lock; [done|]. keep; (apply keeps_with_bus_lock; [done|]; keep).
Qed.

Lemma run_op_wf o d :
  db_wf d -> enabled o d ->
  match o with
  | Connect _ _ | Packet _ _ _ _ _ _ _ | Register _ _ | RegisterSecondary _ _ | InitCoreRpc _ => True
  | _ => match run_op o d with Done _ d' | Throw _ d' | Hang d' => db_wf d' | Panic => False end
  end.
Proof.
  intros D He. pose proof (preserves_simple_ops _ o d eq_refl He) as H.
  destruct o; try done; try (by apply preserves_wf_on); cbn [run_op enabled] in *.
  - apply (preserves_wf_cur _ c); [done..|]. apply preserves_ignore, preserves_bind; [|intros _; apply preserves_ret].
    apply preserves_for_each. intros t _. apply preserves_sub_step, subscribe_topic_update.
  - apply (preserves_wf_cur _ c); [done..|]. apply preserves_ignore, preserves_bind; [|intros _; apply preserves_ret].
    apply preserves_for_each. intros t _. apply preserves_sub_step, unsubscribe_topic_update.
Qed.

Lemma run_op_good o d :
  good d -> enabled o d ->
  match run_op o d with Done _ d' | Throw _ d' | Hang d' => good d' | Panic => False end.
Proof.
  intros G He. pose proof (run_op_wf o d (proj1 G) He) as Hw. pose proof (keeps_simple_ops o) as Hk.
  assert (Hboth : match run_op o d with Done _ d' | Throw _ d' | Hang d' => db_wf d' | Panic => False end ->
    keeps flags_ok (run_op o) ->
    match run_op o d with Done _ d' | Throw _ d' | Hang d' => good d' | Panic => False end).
  { intros H1 H2. specialize (H2 d (proj2 G)). by destruct (run_op o d). }
  destruct o; try (by apply Hboth); clear Hboth Hw Hk; cbn [run_op enabled] in *.
  - apply preserves_connect; [|done..]. intros. by apply new_client_good.
  - by apply packet_good.
  - pose proof (broker_register_good queue_size nm d G) as Hr. unfold ignore, mbind, prog_bind.
    by destruct (broker_register_client _ _ _).
  - destruct He as [_ [cl Hl]]. unfold ignore, register_secondary_for.
    unfold mbind at 1, prog_bind at 1. rewrite (bind_Done _ _ _ _ _ (deref_Some _ _ _ Hl)).
    destruct (primary cl); [|done]. cbv zeta. unfold mbind, prog_bind, attempt.
    pose proof (broker_register_good queue_size
      (name cl ++ SECONDARY_SEP ++ fmt_z (secondary_counter client)) d G) as Hr.
    by destruct (broker_register_client _ _ d).
  - pose proof (broker_register_good queue_size BROKER_NAME d G) as Hr.
    pose proof (init_core_rpc_wf queue_size d (proj1 G)) as Hw.
    unfold init_default_core_rpc, mbind, prog_bind in *.
    destruct (broker_register_client _ _ _); try done. split; [done|apply Hr].
Qed.

Lemma step_good d d' : good d -> step d d' -> good d'.
Proof.
  intros D [o He Hr]. pose proof (run_op_good o d D He) as H. unfold leaves_db in Hr.
  destruct (run_op o d); by subst.
Qed.

Lemma reachable_good force d : reachable force d -> good d.
Proof.
  intros Hr. assert (H0 : good (BrokerDb_new force)) by (split; [apply db_new_wf|done]).
  unfold reachable, broker_create in Hr. induction Hr; eauto using step_good.
Qed.
End steps.

(** C1: in every database an interleaving of operations leads to, the registered clients are
    those of the client table, each under its own name and no two under the same one; exactly
    they have an entry in the subscription map and in the broadcast map; a registered
    secondary's primary is registered and knows it; a registered client that excludes anything
    has its flag raised; and no operation panics there. *)
Theorem broker_invariant {X : Externals} `{!ExternalsLaws X} {N : Networks} force d :
  reachable force d ->
  (forall n c, clients d !! n = Some c <->
     exists cl, heap d !! c = Some cl /\ registered cl = true /\ name cl = n) /\
  (forall k h ts, sm_view (subscriptions d) !! k = Some (h, ts) ->
     exists cl, heap d !! ptr h = Some cl /\ registered cl = true /\ k = ext_sha256 (name cl)) /\
  (forall k h n, bm_view (broadcasts d) !! k = Some (h, n) ->
     clients d !! n = Some (ptr h) /\ k = ext_sha256 n) /\
  (forall c cl, heap d !! c = Some cl -> registered cl = true ->
     (exists ts, sm_view (subscriptions d) !! digest cl = Some (handle c cl, ts)) /\
     bm_view (broadcasts d) !! digest cl = Some (handle c cl, name cl) /\
     (primary cl = false -> exists p pcl, clients d !! primary_name cl = Some p /\
        heap d !! p = Some pcl /\ name cl ∈ secondaries pcl) /\
     exclusions_ok cl) /\
  forall o, enabled o d -> run_op o d <> Panic.
Proof.
  intros G%reachable_good. pose proof G as [D F]. pose proof D as [W L]. split_and!.
  - intros n c. split; [|intros (cl & Hl & R & <-); by apply (cw_registered d W)].
    intros (cl & Hl & ? & ?)%(cw_clients d W). eauto.
  - intros k h ts (cl & Hl & R & _ & ->)%(cw_subs_in d W). exists cl. split_and!; try done.
    by apply (cw_ok d W) in Hl as [-> _].
  - intros k h n (cl & Hl & R & _ & -> & ->)%(cw_names_in d W). split; [by apply (cw_registered d W)|].
    by apply (cw_ok d W) in Hl as [-> _].
  - intros c cl Hl R. split_and!; [by apply (cw_subs_out d W)|by apply (cw_names_out d W)| |].
    + intros P. destruct (lw_up ∅ d L c cl) as [?|?]; [done..|set_solver|done].
    + eapply F; [done|by left|done].
  - intros o He Hp. pose proof (run_op_good o d G He) as H. by rewrite Hp in H.
Qed.
