(* ===== verification/Typed.v ===== *)
(** * What the queues hold

    [typed known d]: the clients of [d] have known names, no queue holds more frames than it has
    room for, and every frame in a queue has the shape its receiver relies on: an acknowledgement,
    a ping, or a frame from a known sender whose payload lies inside its buffer, with a topic
    exactly if it was published. Every operation keeps it ([queues_typed]); so the task that writes
    a connection's queue to its socket cannot panic ([frame_writes]). *)
From S2P Require Export System.

Section typed.
Context {X : Externals} `{!ExternalsLaws X}.

Definition frame_typed (known : str -> Prop) (f : FrameData) : Prop :=
  match frame_kind f with
  | FrameKind_Prepared =>
      exists op_id code realtime,
        f = MkFrame FrameKind_Prepared None None None ([OP_ACK] ++ op_id ++ [code]) 0 realtime
  | FrameKind_Nop => f = new_nop
  | FrameKind_Acknowledge => False
  | FrameKind_Publish => frame_wf f /\ is_Some (frame_topic f) /\ exists s, frame_sender f = Some s /\ known s
  | _ => frame_wf f /\ frame_topic f = None /\ exists s, frame_sender f = Some s /\ known s
  end.

Definition queue_typed (known : str -> Prop) (q : ext_queue) : Prop :=
  Z.of_nat (length (ch_items q)) <= ch_cap q /\ forall f, f ∈ ch_items q -> frame_typed known f.

Definition client_typed (known : str -> Prop) (cl : BusRtClient) : Prop :=
  known (name cl) /\ queue_typed known (tx cl).

(** Known names are names of client objects. *)
Definition typed (known : str -> Prop) (d : BrokerDb) : Prop :=
  (forall n, known n -> exists c cl, heap d !! c = Some cl /\ name cl = n) /\
  forall c cl, heap d !! c = Some cl -> client_typed known cl.

Lemma frame_typed_mono (k1 k2 : str -> Prop) f :
  (forall n, k1 n -> k2 n) -> frame_typed k1 f -> frame_typed k2 f.
Proof. intros Hk. unfold frame_typed. destruct (frame_kind f); naive_solver. Qed.

Lemma queue_typed_mono (k1 k2 : str -> Prop) q :
  (forall n, k1 n -> k2 n) -> queue_typed k1 q -> queue_typed k2 q.
Proof. intros Hk [Hc Hq]. split; [done|]. eauto using frame_typed_mono. Qed.

(** The task that writes a queue to its socket handles every typed frame. *)
Lemma frame_typed_writes known f : frame_typed known f -> is_Some (frame_writes f).
Proof.
  intros Hf. unfold frame_writes. case_decide as Hk; [done|].
  assert (Hw : frame_wf f).
  { unfold frame_typed in Hf. destruct (frame_kind f); [done|naive_solver..|]. by subst f. }
  destruct (payload_wf f Hw) as [data ->]. done.
Qed.

(** ** Queues *)

Lemma recv_typed known q f q' :
  queue_typed known q -> ch_recv q = Some (f, q') -> frame_typed known f /\ queue_typed known q'.
Proof.
  intros [Hc Hq] (Hi & Hcap & _)%ch_recv_Some. rewrite Hi in Hc, Hq. split; [apply Hq; set_solver|].
  split; [rewrite Hcap; cbn in Hc; lia|]. set_solver.
Qed.

Lemma drain_typed known n q : queue_typed known q -> queue_typed known (ch_drain n q).
Proof.
  revert q. induction n as [|n IH]; intros q Hq; [done|]. cbn.
  destruct (ch_recv q) as [[f q']|] eqn:E; [|done]. apply IH. by eapply recv_typed.
Qed.

Lemma push_typed known f q :
  queue_typed known q -> frame_typed known f -> ch_is_closed q = false -> ch_is_full q = false ->
  queue_typed known (ch_push f q).
Proof.
  intros [Hc Hq] Hf Ho Hn. destruct (ch_push_spec f q Hn Ho) as (Hi & Hcap & _).
  assert (~ ch_cap q <= Z.of_nat (length (ch_items q))) by (intros H%ch_is_full_spec; congruence).
  split; [rewrite Hi, Hcap, length_app; cbn; lia|]. rewrite Hi. set_solver.
Qed.

Lemma drain_open n (q : ext_queue) : ch_is_closed q = false -> ch_is_closed (ch_drain n q) = false.
Proof.
  revert q. induction n as [|n IH]; intros q Ho; [done|]. cbn.
  destruct (ch_recv q) as [[f q']|] eqn:E; [|done].
  apply ch_recv_Some in E as (_ & _ & Hc). apply IH. by rewrite Hc.
Qed.

Lemma send_typed known room f q :
  queue_typed known q -> frame_typed known f ->
  match ch_send room f q with Sent q' | SendBlocked q' => queue_typed known q' | SendClosed => True end.
Proof.
  intros Hq Hf. unfold ch_send. destruct (ch_is_closed q) eqn:Ho; [done|].
  destruct (ch_is_full q) eqn:Hn; [|by apply push_typed].
  pose proof (drain_typed known room q Hq) as Hd.
  destruct (ch_is_full (ch_drain room q)) eqn:Hn'; [done|]. apply push_typed; [done..| |done].
  by apply drain_open.
Qed.

(** ** Steps on client objects *)

(** An update that changes neither the name nor what the queue holds. *)
Definition gentle (f : BusRtClient -> BusRtClient) : Prop :=
  forall cl, name (f cl) = name cl /\ ch_items (tx (f cl)) = ch_items (tx cl) /\
             ch_cap (tx (f cl)) = ch_cap (tx cl).

Lemma gentle_close : gentle (fun t => set_tx (ch_close (tx t)) t).
Proof. intros cl. cbn. destruct (ch_close_spec (tx cl)) as (? & ? & _). done. Qed.
Lemma gentle_exclude_topics topics : gentle (exclude_topics topics).
Proof. intros cl. unfold exclude_topics. by destruct topics. Qed.
Lemma gentle_unexclude_topics topics : gentle (unexclude_topics topics).
Proof. intros cl. unfold unexclude_topics. by destruct (acl_is_empty _). Qed.
Lemma gentle_clear : gentle (fun cl => if acl_is_empty (exclusions cl) then set_has_exclusions false cl else cl).
Proof. intros cl. by destruct (acl_is_empty _). Qed.

Context (known : str -> Prop).

Lemma typed_alter c f d :
  (forall cl, client_typed known cl -> name (f cl) = name cl /\ queue_typed known (tx (f cl))) ->
  typed known d -> typed known (db_upd c f d).
Proof.
  intros Hf [Hn Hc]. split.
  - intros n Hk. destruct (Hn n Hk) as (x & y & Hy & <-). destruct (decide (c = x)) as [<-|Hne].
    + exists c, (f y). split; [|by apply Hf; eapply Hc]. apply heap_db_upd. exists y. by rewrite decide_True.
    + exists x, y. split; [|done]. apply heap_db_upd. exists y. by rewrite decide_False by congruence.
  - intros x y Hy. apply heap_db_upd in Hy as (y0 & Hy0 & ->). pose proof (Hc _ _ Hy0) as H0.
    case_decide; [|done]. destruct (Hf y0 H0) as [E Hq]. split; [|done]. rewrite E. apply H0.
Qed.

Lemma typed_upd c f : gentle f -> keeps (typed known) (upd c f).
Proof.
  intros Hf d Hd. cbn. apply typed_alter; [|done]. intros cl [_ [Hc Hq]].
  destruct (Hf cl) as (-> & Hi & Hcap). split; [done|]. unfold queue_typed. by rewrite Hi, Hcap.
Qed.

Lemma typed_set_tx c q : queue_typed known q -> keeps (typed known) (upd c (set_tx q)).
Proof. intros Hq d Hd. cbn. by apply typed_alter. Qed.

(** What is read through an address is typed. *)
Lemma typed_deref_bind {A} c (k : BusRtClient -> prog BrokerDb Error A) :
  (forall cl, client_typed known cl -> keeps (typed known) (k cl)) -> keeps (typed known) (deref c ≫= k).
Proof.
  intros Hk d Hd. unfold mbind, prog_bind, deref. destruct (heap d !! c) as [cl|] eqn:E; [|done].
  apply Hk; [|done]. by eapply Hd.
Qed.

(** Sending a typed frame into the queue of a client. *)
Lemma typed_send_into room f cl (P : sent ext_queue -> Prop) :
  client_typed known cl -> frame_typed known f ->
  (forall q, queue_typed known q -> P (Sent q)) -> P SendClosed ->
  (forall q, queue_typed known q -> P (SendBlocked q)) ->
  P (ch_send room f (tx cl)).
Proof.
  intros [_ Hq] Hf H1 H2 H3. pose proof (send_typed known room f (tx cl) Hq Hf) as Hs.
  destruct (ch_send room f (tx cl)); auto.
Qed.
End typed.

Create HintDb typed.
#[export] Hint Resolve typed_set_tx gentle_close gentle_exclude_topics gentle_unexclude_topics
  gentle_clear keeps_ret keeps_throw keeps_hang keeps_panic keeps_gets keeps_lift : typed.
#[export] Hint Extern 2 (keeps (typed _) (upd _ _)) =>
  (apply typed_upd; first [by intros ?|solve [auto with typed nocore]]) : typed.
#[export] Hint Extern 1 (keeps (typed _) (modify _)) => (apply keeps_modify; intros d Hd; exact Hd) : typed.

(** Programs over the database, step by step; a value read through an address is typed. *)
Ltac typed :=
  repeat first
    [ assumption
    | solve [ eauto with typed ]
    | apply typed_deref_bind; intros ? ?
    | apply keeps_bind; [|intros ?]
    | apply keeps_attempt
    | apply keeps_when
    | apply keeps_for_each; intros ?
    | match goal with
      | |- keeps (typed ?K) (match ch_send ?r ?f (tx ?cl) with _ => _ end) =>
          pattern (ch_send r f (tx cl)); apply (typed_send_into K r f cl); [done| |intros ? ?| |intros ? ?]
      | |- keeps _ (match ?x with _ => _ end) => destruct x
      | |- keeps _ (let '_ := ?x in _) => destruct x
      end ].

Section programs.
Context {X : Externals} `{!ExternalsLaws X} (known : str -> Prop).

Lemma typed_drop_client_fuel n held c : keeps (typed known) (drop_client_fuel n held c).
Proof.
  revert held c. induction n as [|n IH]; intros held c; [apply keeps_hang|].
  cbn [drop_client_fuel]. unfold drop_secondary. typed.
Qed.

Lemma typed_drop_client c : keeps (typed known) (drop_client c).
Proof. apply typed_drop_client_fuel. Qed.
Hint Resolve typed_drop_client : typed.

Section delivery.
Context (u : nat -> prog BrokerDb Error unit).
Hypothesis Hu : forall c, keeps (typed known) (u c).

Lemma typed_safe_send tgt frame timeout :
  frame_typed known frame -> keeps (typed known) (safe_send_frame_with u tgt frame timeout).
Proof using All. intros Hf. unfold safe_send_frame_with. typed. Qed.
Hint Resolve typed_safe_send : typed.

Lemma typed_deliver_all subs frame len timeout :
  frame_typed known frame -> keeps (typed known) (deliver_all u subs frame len timeout).
Proof using All. intros Hf. unfold deliver_all. typed. Qed.
Hint Resolve typed_deliver_all : typed.

Context (buf : bytes) (pos : Z).
Hypothesis Hpos : 0 <= pos <= blen buf.

(** The frames the delivery macros build for a client. *)
Lemma message_typed cl header rt :
  client_typed known cl ->
  frame_typed known (MkFrame FrameKind_Message (Some (name cl)) None header buf pos rt) /\
  frame_typed known (MkFrame FrameKind_Broadcast (Some (name cl)) None header buf pos rt).
Proof using Hpos. intros [Hn _]. split; cbn; (split; [exact Hpos|]); eauto. Qed.
Lemma publication_typed cl topic header rt :
  client_typed known cl ->
  frame_typed known (MkFrame FrameKind_Publish (Some (name cl)) (Some topic) header buf pos rt).
Proof using Hpos. intros [Hn _]. cbn. split; [exact Hpos|]. eauto. Qed.
Hint Extern 1 (frame_typed _ (MkFrame FrameKind_Publish _ _ _ _ _ _)) => (by apply publication_typed) : typed.
Hint Extern 1 (frame_typed _ (MkFrame _ _ None _ _ _ _)) => (by apply message_typed) : typed.

Lemma typed_send c target header len realtime timeout :
  keeps (typed known) (send_with u c target header buf pos len realtime timeout).
Proof using All. unfold send_with, count_incoming. typed. Qed.
Lemma typed_broadcast c target header len realtime timeout :
  keeps (typed known) (send_broadcast_with u c target header buf pos len realtime timeout).
Proof using All. unfold send_broadcast_with, count_incoming. typed. Qed.
Lemma typed_publish c topic header len realtime timeout :
  keeps (typed known) (publish_with u c topic header buf pos len realtime timeout).
Proof using All. unfold publish_with, count_incoming. typed. Qed.
Lemma typed_publish_for c topic receiver header len realtime timeout :
  keeps (typed known) (publish_for_with u c topic receiver header buf pos len realtime timeout).
Proof using All. unfold publish_for_with, count_incoming. typed. Qed.
End delivery.

Lemma typed_announce_with u event :
  (forall c, keeps (typed known) (u c)) -> keeps (typed known) (announce_with u event).
Proof.
  intros Hu. apply keeps_with_rpc_lock; [by intros b d|].
  apply keeps_bind; [apply keeps_gets|]. intros [bus|]; [|apply keeps_ret].
  apply keeps_with_bus_lock; [by intros b d|]. apply keeps_bind; [apply keeps_lift|]. intros payload.
  apply typed_publish; [done|]. unfold blen. lia.
Qed.

Lemma typed_announce event : keeps (typed known) (announce event).
Proof.
  unfold announce. generalize 2%nat as n. intros n. revert event.
  induction n as [|n IH]; intros event; [apply keeps_hang|]. apply typed_announce_with.
  intros c. unfold unregister_client_with. typed.
Qed.
Hint Resolve typed_announce : typed.

Lemma typed_unregister c : keeps (typed known) (unregister_client c).
Proof. unfold unregister_client, unregister_client_with. typed. Qed.
Hint Resolve typed_unregister : typed.

Lemma typed_db_register_client c : keeps (typed known) (db_register_client c).
Proof. unfold db_register_client, replace_client, insert_client. typed. Qed.
End programs.

#[export] Hint Resolve typed_drop_client typed_announce typed_unregister : typed.

(** A new client object makes its name known; its queue is empty. *)
Lemma typed_allocated {X : Externals} `{!ExternalsLaws X} known nm q k src prt d :
  0 < q -> db_wf d -> typed known d ->
  typed (fun n => known n \/ n = nm) (allocated (new_client nm q k src prt) d).
Proof.
  intros Hq D [Hn Hc]. assert (Hfree : heap d !! next_ptr d = None).
  { destruct (heap d !! next_ptr d) as [y|] eqn:E; [|done]. pose proof (cw_next d (proj1 D) _ _ E). lia. }
  split.
  - intros n [Hk| ->].
    + destruct (Hn n Hk) as (x & y & Hy & <-). exists x, y. split; [|done]. apply heap_allocated. right.
      split; [congruence|done].
    + exists (next_ptr d), (new_client nm q k src prt). split; [|done]. apply heap_allocated. auto.
  - intros x y [[-> ->]|[_ Hy]]%heap_allocated.
    + split; [by right|]. destruct (ch_bounded_spec (F := FrameData) (Q := ext_queue) q Hq) as (Hi & Hcap & _).
      split; cbn; rewrite Hi; [rewrite Hcap; cbn; lia|set_solver].
    + destruct (Hc _ _ Hy) as [H1 H2]. split; [by left|]. eapply queue_typed_mono; [|done]. by left.
Qed.

(** ** The steps of the system *)

Section system.
Context {X : Externals} `{!ExternalsLaws X} {N : Networks}.

Section packets.
Context (known : str -> Prop).

Lemma ack_typed op_id code realtime :
  frame_typed known (MkFrame FrameKind_Prepared None None None ([OP_ACK] ++ op_id ++ [code]) 0 realtime).
Proof. by exists op_id, code, realtime. Qed.
Lemma nop_typed : frame_typed known new_nop.
Proof. done. Qed.
Hint Resolve ack_typed nop_typed : typed.

Lemma typed_ack c op_id qos code : keeps (typed known) (ack_if_needed c op_id qos code).
Proof. unfold ack_if_needed, send_ack. typed. Qed.
Hint Resolve typed_ack : typed.

Lemma typed_utf8 t : keeps (typed known) (utf8 (X := X) t).
Proof. apply keeps_lift. Qed.
Hint Resolve typed_utf8 : typed.

Lemma typed_allowed_topics p c op_id qos sp : keeps (typed known) (allowed_topics p c op_id qos sp).
Proof. induction sp as [|t sp IH]; [apply keeps_ret|]. cbn [allowed_topics]. typed. Qed.
Hint Resolve typed_allowed_topics : typed.

(** A target and the place of the payload, of a packet or of the rest of one. *)
Lemma typed_split_target {A} buf (k : str * Z -> prog BrokerDb Error A) :
  (forall target pos, 0 <= pos <= blen buf -> keeps (typed known) (k (target, pos))) ->
  keeps (typed known) (lift (split_target buf) ≫= k).
Proof.
  intros Hk d Hd. destruct (split_target buf) as [[target pos]|e] eqn:E; [|done].
  apply split_target_pos in E. by apply (Hk target pos E).
Qed.

Lemma typed_process_packet p c op_id qos op len buf :
  keeps (typed known) (process_packet p c op_id qos op len buf).
Proof.
  pose proof (typed_unregister known) as Hu.
  unfold process_packet. destruct op;
    try (unfold subscribe_packet, exclude_packet, unexclude_packet, unsubscribe_packet, count_incoming,
      sub_update; by typed);
    apply typed_split_target; intros target pos Hpos; try apply keeps_ret;
    unfold message_packet, broadcast_packet, publish_packet, publish_for_packet.
  - pose proof (typed_send known _ Hu buf pos Hpos). unfold send. typed.
  - pose proof (typed_broadcast known _ Hu buf pos Hpos). unfold send_broadcast. typed.
  - pose proof (typed_publish known _ Hu buf pos Hpos). unfold publish. typed.
  - destruct (slice_from pos buf) as [rest|] eqn:E; [|apply keeps_panic].
    rewrite slice_from_Some in E by done. injection E as <-.
    apply typed_split_target. intros receiver pos' Hpos'. unfold blen in Hpos'. rewrite length_drop in Hpos'.
    assert (Hp : 0 <= pos + pos' <= blen buf) by (unfold blen in *; lia).
    pose proof (typed_publish_for known _ Hu buf _ Hp). unfold publish_for. typed.
Qed.

(** Neither packets nor new clients: the operations on known objects. *)
Lemma typed_simple_ops o :
  match o with
  | Connect _ _ | Packet _ _ _ _ _ _ _ | Register _ _ | RegisterSecondary _ _ | InitCoreRpc _ => True
  | _ => keeps (typed known) (run_op o)
  end.
Proof.
  pose proof (typed_unregister known) as Hu.
  assert (H0 : forall payload, 0 <= 0 <= blen payload) by (intros; unfold blen; lia).
  pose proof (fun b => typed_send known _ Hu b 0 (H0 b)).
  pose proof (fun b => typed_broadcast known _ Hu b 0 (H0 b)).
  pose proof (fun b => typed_publish known _ Hu b 0 (H0 b)).
  pose proof (fun b => typed_publish_for known _ Hu b 0 (H0 b)).
  destruct o; try done; cbn [run_op];
    unfold ignore, core_send_reply, on_core, send_fifo_cmd, client_send, finish_peer, broker_unregister_client, force_disconnect, pinger_tick,
      trigger_disconnect, client_drop, subscribe_bulk, unsubscribe_bulk, sub_step, exclude_bulk, unexclude_bulk,
      client_zc_send, client_send_broadcast, client_publish, client_publish_for,
      send, send_broadcast, publish, publish_for; try by typed.
  - (* WriterTakes *) apply typed_deref_bind. intros cl [_ Hq].
    destruct (ch_recv (tx cl)) as [[f q]|] eqn:E; [|apply keeps_hang]. apply typed_set_tx. by eapply recv_typed.
  - (* CoreReply *) typed. apply keeps_with_bus_lock; [by intros b d|]. typed.
  - (* FifoLine *) apply keeps_with_rpc_lock; [by intros b d|]. typed; (apply keeps_with_bus_lock; [by intros b d|]; typed).
Qed.
End packets.

(** The invariant of the reachable databases, with what their queues hold. *)
Definition all_typed (d : BrokerDb) : Prop := good d /\ exists known, typed known d.

Lemma typed_run {A} (m : prog BrokerDb Error A) d :
  all_typed d -> (forall known, keeps (typed known) m) ->
  match m d with Done _ d' | Throw _ d' | Hang d' => good d' | Panic => False end ->
  match m d with Done _ d' | Throw _ d' | Hang d' => all_typed d' | Panic => False end.
Proof. intros [_ [known Hk]] Hm Hg. specialize (Hm known d Hk). destruct (m d); [split; eauto..|done]. Qed.

Lemma new_client_typed nm q k src prt d :
  0 < q -> all_typed d ->
  match db_register_client (next_ptr d) (allocated (new_client nm q k src prt) d) with
  | Done _ d' | Throw _ d' | Hang d' => all_typed d'
  | Panic => False
  end.
Proof.
  intros Hq [G [known Hk]]. pose proof (new_client_good nm q k src prt d G) as Hg.
  pose proof (typed_db_register_client _ (next_ptr d) _
    (typed_allocated known nm q k src prt d Hq (proj1 G) Hk)) as Ht.
  destruct (db_register_client _ _); [split; eauto..|done].
Qed.

Lemma broker_register_typed q nm d :
  0 < q -> all_typed d ->
  match broker_register_client q nm d with
  | Done _ d' | Throw _ d' | Hang d' => all_typed d'
  | Panic => False
  end.
Proof.
  intros Hq G. pose proof (new_client_typed nm q Internal None None d Hq G) as H. unfold broker_register_client.
  rewrite (bind_Done (alloc _) _ d (next_ptr d) _ eq_refl). unfold mbind, prog_bind.
  fold (allocated (new_client nm q Internal None None) d). by destruct (db_register_client _ _).
Qed.

Lemma run_op_typed o d :
  all_typed d -> enabled o d ->
  match run_op o d with Done _ d' | Throw _ d' | Hang d' => all_typed d' | Panic => False end.
Proof.
  intros G He. pose proof (run_op_good o d (proj1 G) He) as Hg.
  destruct o; try (apply typed_run; [done| |done]; intros known;
    match goal with |- keeps _ (run_op ?o) => exact (typed_simple_ops known o) end); cbn [run_op enabled] in *.
  - apply preserves_connect; [|done..]. intros. by apply new_client_typed.
  - apply typed_run; [done| |done]. intros known d0 H0. unfold packet.
    pose proof (typed_process_packet known p c op_id qos fop len buf d0 H0) as H1.
    destruct (process_packet _ _ _ _ _ _ _ d0) as [[] d1|e d1|d1|]; try done.
    exact (typed_simple_ops known (Finish c (Err e)) d1 H1).
  - pose proof (broker_register_typed queue_size nm d He G) as Hr. unfold ignore, mbind, prog_bind.
    by destruct (broker_register_client _ _ _).
  - destruct He as [Hq [cl Hl]]. unfold ignore, register_secondary_for in *.
    unfold mbind at 1, prog_bind at 1. rewrite (bind_Done _ _ _ _ _ (deref_Some _ _ _ Hl)).
    destruct (primary cl); [|done]. cbv zeta. unfold mbind, prog_bind, attempt.
    pose proof (broker_register_typed queue_size
      (name cl ++ SECONDARY_SEP ++ fmt_z (secondary_counter client)) d Hq G) as Hr.
    by destruct (broker_register_client _ _ d).
  - pose proof (broker_register_typed queue_size BROKER_NAME d He G) as Hr.
    unfold init_default_core_rpc, mbind, prog_bind in *.
    destruct (broker_register_client _ _ _); try done. destruct Hr as [_ [known Hk]]. split; [done|]. by exists known.
Qed.

Lemma reachable_typed force d : reachable force d -> all_typed d.
Proof.
  unfold reachable. intros Hr.
  assert (H0 : all_typed (broker_create force)).
  { split; [apply (reachable_good force), rtc_refl|]. exists (fun _ => False). split; [done|].
    intros c cl Hl. unfold broker_create, BrokerDb_new in Hl. cbn in Hl. by rewrite lookup_empty in Hl. }
  induction Hr as [|d1 d2 d3 [o He Hr] _ IH]; [done|]. apply IH.
  pose proof (run_op_typed o d1 H0 He) as H. unfold leaves_db in Hr. by destruct (run_op o d1); subst.
Qed.
End system.

(** C2: in every database an interleaving of operations leads to, no queue holds more frames than it
    has room for, and every frame in it is one its receiver can handle: an acknowledgement of a packet,
    a ping, or a message, broadcast or publication whose sender is the name of a client, whose payload
    lies inside its buffer and which has a topic exactly if it is a publication. The task that writes
    the queue to the client's socket therefore never panics. *)
Theorem queues_typed {X : Externals} `{!ExternalsLaws X} {N : Networks} force d c cl :
  reachable force d -> heap d !! c = Some cl ->
  Z.of_nat (length (ch_items (tx cl))) <= ch_cap (tx cl) /\
  forall f, f ∈ ch_items (tx cl) ->
    frame_typed (fun n => exists x y, heap d !! x = Some y /\ name y = n) f /\
    is_Some (frame_writes f).
Proof.
  intros [_ [known [Hn Hc]]]%reachable_typed Hl. destruct (Hc c cl Hl) as [_ [Hcap Hq]].
  split; [done|]. intros f Hf%Hq. eauto using frame_typed_mono, frame_typed_writes.
Qed.
