(* ===== verification/Session.v ===== *)
(** * The life of a connection ([src/broker.rs], [handle_peer])

    [handle_peer] from the handshake to the end: the reader works through the packets while the
    writer, the pinger and the trigger of a forced disconnection run beside it; whichever ends
    first ends the connection, and the client is unregistered ([connection_cleanup]). *)
From S2P Require Export System.
From S2P Require Import Lib.

Section session.
Context {X : Externals} {N : Networks}.

(** A future that is dropped lets go of the mutexes it held: those that were free at [d0]. *)
Definition release (d0 d : BrokerDb) : BrokerDb := set_rpc_lock (rpc_lock d0) (set_bus_lock (bus_lock d0) d).

(** The [select!] of [handle_peer]: the reader takes up to [turns] packets; if it has not ended by
    then, or waits, [other] is the result of the task that ends first ([Ok] for a forced
    disconnection), if one does. *)
Definition serve (p : ReaderParams ext_acl) (c turns : nat) (other : option (result unit Error)) (src : source)
    : prog BrokerDb Error unit := fun d =>
  match handle_reader turns p c src d with
  | Done _ d => finish_peer c (Ok tt) d
  | Throw e d => finish_peer c (Err e) d
  | Hang d' =>
      match other with
      | Some r => finish_peer c r (release d d')
      | None => Hang d'
      end
  | Panic => Panic
  end.

(** [handle_peer]. The reader gets the permissions the handshake found. *)
Definition handle_peer (p : PeerParams) (rp : option (ClientAaa ext_acl) -> ReaderParams ext_acl) (turns : nat)
    (other : option (result unit Error)) : prog session Error unit :=
  handshake p ≫= fun '(c, aaa) =>
  gets (fun s => cn_in s.2) ≫= fun src =>
  on_db (serve (rp aaa) c turns other src).
End session.

Section facts.
Context {X : Externals} `{!ExternalsLaws X} {N : Networks}.

(** The client object at [c] is not registered, and stays so. *)
Definition gone (D : gset nat) (c : nat) (d : BrokerDb) : Prop :=
  wf_on D d /\ exists cl, heap d !! c = Some cl /\ registered cl = false.

Lemma stable_gone D c : stable D (gone D c).
Proof.
  constructor.
  - by intros d [].
  - intros d d' [W (cl & Hl & R)] A Hd. split; [by apply (st_agree _ _ (stable_wf_on D) d)|].
    destruct (ag_to _ _ A _ _ Hl) as (cl' & Hl' & (_ & _ & _ & _ & Er & _)). exists cl'. by rewrite Er.
  - intros x Hx d [W (cl & Hl & R)]. pose proof (drop_client_wf_on D x Hx d W) as Hw.
    destruct W as [D0 E]. rewrite <- E in Hx. apply elem_of_dom in Hx as [xl Hxl].
    destruct (registered xl) eqn:Rx; [|rewrite (drop_client_idle d x xl) by done; split; [done|by exists cl]].
    destruct (drop_client_Done d x xl D0 Hxl Rx) as (d' & T & Ed & _ & Rd & _). rewrite Ed in *.
    split; [done|]. destruct (dr_heap _ _ _ _ Rd _ _ Hl) as (cl' & Hl' & (_ & _ & F) & _). exists cl'. auto.
Qed.

Lemma gone_name D c d n : gone D c d -> clients d !! n <> Some c.
Proof.
  intros [[[W _] _] (cl & Hl & R)] Hn. destruct (cw_clients d W n c Hn) as (y & Hy & _ & Ry). congruence.
Qed.

(** A client that is unregistered is gone, whatever becomes of the announcement. *)
Lemma unregister_gone c d cl :
  db_wf d -> heap d !! c = Some cl ->
  match unregister_client c d with
  | Done _ d' | Throw _ d' | Hang d' => gone (dom (heap d)) c d'
  | Panic => False
  end.
Proof.
  intros D Hl. rewrite (unregister_client_run d c cl Hl).
  pose proof (fun b e => preserves_announced _ _ b e (stable_gone (dom (heap d)) c)) as Ha.
  destruct (registered cl) eqn:R.
  - destruct (drop_client_Done d c cl D Hl R) as (d1 & T & -> & D1 & R1 & _). apply Ha.
    destruct (dr_heap _ _ _ _ R1 _ _ Hl) as (cl1 & Hl1 & F & _).
    split; [split; [done|by apply (dr_dom _ _ _ _ R1)]|]. exists cl1. split; [done|].
    destruct (registered cl1) eqn:Rc; [|done]. exfalso.
    pose proof (cw_registered d1 (proj1 D1) c cl1 Hl1 Rc) as Hc.
    rewrite (proj1 (fixed_name _ _ F)), (dr_clients _ _ _ _ R1), decide_True in Hc; [done|].
    unfold leaves. set_solver.
  - rewrite (drop_client_idle d c cl Hl R). apply Ha. split; [by split|]. by exists cl.
Qed.

(** A registration that succeeds leaves its client current. *)
Lemma register_current d c cl :
  db_wf d -> heap d !! c = Some cl -> newborn cl ->
  match db_register_client c d with Done _ d' => wf_cur (dom (heap d)) c d' | _ => True end.
Proof.
  intros D Hl F.
  assert (Ha : forall b e d1, db_wf d1 -> dom (heap d1) = dom (heap d) -> clients d1 !! name cl = Some c ->
    match announced b e d1 with Done _ d' => wf_cur (dom (heap d)) c d' | _ => True end).
  { intros b e d1 D1 Hd Hc. pose proof (preserves_announced _ _ b e (stable_wf_cur (dom (heap d)) c) d1) as H.
    cut (wf_cur (dom (heap d)) c d1); [intros Hw; specialize (H Hw); by destruct (announced b e d1)|].
    split; [by split|]. destruct (cw_clients d1 (proj1 D1) _ _ Hc) as (y & Hy & _ & R). exists y. auto. }
  pose proof (insert_client_wf d c cl D Hl F) as H. pose proof (db_register_client_run d c cl Hl) as Er.
  destruct (insert_client c d) as [[] d1|e d1|d1|] eqn:E; [..|done|done].
  - rewrite Er. destruct H as (W & Hd & _ & _ & Hc & _). apply Ha; [done..|]. rewrite Hc. apply lookup_insert_eq.
  - destruct H as [-> H]. destruct (bool_decide (kind e = Busy) && (primary cl && force_register d)) eqn:Eb;
      [|by rewrite Er].
    apply andb_true_iff in Eb as [Ek [P Hf]%andb_true_iff].
    destruct H as [(P' & _)|[[prev Hprev] _]]; [congruence|].
    destruct (cw_clients d (proj1 D) _ _ Hprev) as (pcl & Hpl & _).
    destruct (db_register_client_force d c cl prev pcl D Hl F P Hf Hprev Hpl) as (d2 & -> & W2 & Hd2 & Hc2 & _).
    by apply Ha.
Qed.

Lemma handshake_current p s c aaa s' :
  db_wf s.1 -> handshake p s = Done (c, aaa) s' ->
  db_wf s'.1 /\ current c s'.1 /\ heap s.1 !! c = None.
Proof.
  intros D E. pose proof (handshake_touches p s) as H. rewrite E in H. destruct H as (nm & _ & Hr).
  rewrite registration_run in Hr. set (cl := new_client _ _ _ _ _) in *.
  destruct (new_client_ok nm (pp_queue_size p) (pp_kind p) (pp_source p) (pp_source_port p)) as [Hok Hn].
  pose proof (allocated_wf cl s.1 D Hok Hn) as W.
  assert (Hl : heap (allocated cl s.1) !! next_ptr s.1 = Some cl) by (apply heap_allocated; auto).
  pose proof (register_current _ _ cl W Hl Hn) as Hc.
  destruct (db_register_client _ _); [|done..]. injection Hr as <- <-.
  split_and!; [apply Hc..|]. destruct (heap s.1 !! next_ptr s.1) as [y|] eqn:Ey; [|done].
  pose proof (cw_next s.1 (proj1 D) _ _ Ey). lia.
Qed.

(** However the connection of a current client ends, the client is gone. *)
Lemma serve_cleanup p c turns other src d :
  db_wf d -> current c d ->
  (forall limit, rp_direct_alloc_limit p = Some limit -> is_Some (rp_async_allocator p)) ->
  match serve p c turns other src d with
  | Done _ d' | Throw _ d' => gone (dom (heap d)) c d'
  | Hang d' => db_wf d'
  | Panic => False
  end.
Proof.
  intros D Hc Halloc. pose proof Hc as (cl & Hl & _). apply elem_of_dom_2 in Hl as Hin.
  assert (Hfin : forall r d1, wf_cur (dom (heap d)) c d1 ->
    match finish_peer c r d1 with
    | Done _ d' | Throw _ d' => gone (dom (heap d)) c d'
    | Hang d' => db_wf d'
    | Panic => False
    end).
  { intros r d1 [[D1 E1] (cl1 & Hl1 & _)]. pose proof (unregister_gone c d1 cl1 D1 Hl1) as H. rewrite E1 in H.
    unfold finish_peer. rewrite (bind_Done _ _ _ _ _ (deref_Some _ _ _ Hl1)). unfold mbind, prog_bind.
    destruct (unregister_client c d1) as [[] d2|e d2|d2|]; [|done|apply H|done].
    by destruct (format_result (name cl1) r). }
  pose proof (preserves_handle_reader (dom (heap d)) p c Hin Halloc turns src d (conj (conj D eq_refl) Hc)) as Hr.
  unfold serve. destruct (handle_reader turns p c src d) as [[] d1|e d1|d1|]; [by apply Hfin..| |done].
  destruct other as [r|]; [|by destruct Hr as [[]]]. apply Hfin.
  apply (st_agree _ _ (stable_wf_cur (dom (heap d)) c) d1); [done| |done].
  by apply agree_same_heap.
Qed.
End facts.

(** No table of the database mentions the client object. *)
Definition out_of_tables {X : Externals} `{!ExternalsLaws X} (c : nat) (d : BrokerDb) : Prop :=
  (forall n, clients d !! n <> Some c) /\
  (forall k h ts, sm_view (subscriptions d) !! k = Some (h, ts) -> ptr h <> c) /\
  (forall k h n, bm_view (broadcasts d) !! k = Some (h, n) -> ptr h <> c).

Section facts.
Context {X : Externals} `{!ExternalsLaws X} {N : Networks}.

(** An established connection, from its handshake on. *)
Lemma session_cleanup p rp turns other s c aaa s1 :
  db_wf s.1 -> handshake p s = Done (c, aaa) s1 ->
  (forall limit, rp_direct_alloc_limit (rp aaa) = Some limit -> is_Some (rp_async_allocator (rp aaa))) ->
  match handle_peer p rp turns other s with
  | Done _ s' | Throw _ s' => gone (dom (heap s1.1)) c s'.1
  | Hang s' => db_wf s'.1
  | Panic => False
  end.
Proof.
  intros D E Halloc. destruct (handshake_current p s c aaa s1 D E) as (D1 & Hc & _).
  unfold handle_peer. rewrite (bind_Done _ _ _ _ _ E). destruct s1 as [d1 k1].
  pose proof (serve_cleanup (rp aaa) c turns other (cn_in k1) d1 D1 Hc Halloc) as H.
  unfold mbind, prog_bind, gets, on_db. cbn. by destruct (serve _ _ _ _ _ d1).
Qed.

Lemma gone_out_of_tables D c d : gone D c d -> db_wf d /\ out_of_tables c d.
Proof.
  intros H. pose proof (gone_name D c d) as Hn. destruct H as [[W E] (cl & Hl & R)].
  split; [done|]. split_and!; [intros n; by apply Hn; split; [|by exists cl]|..]; intros k h x Hs <-.
  - destruct (cw_subs_in d (proj1 W) _ _ _ Hs) as (y & Hy & Ry & _). congruence.
  - destruct (cw_names_in d (proj1 W) _ _ _ Hs) as (y & Hy & Ry & _). congruence.
Qed.
End facts.

(** C9: however an established connection ends - the peer closes it or sends something invalid,
    the reader is blocked and the writer fails, the queue overflows the pinger, or the broker
    forces the disconnection - and whatever bytes were exchanged before, the handler does not
    panic, and once it has returned neither the client table nor the subscriptions nor the
    broadcast map mention the client; a handler that never returns leaves the database well
    formed. *)
Theorem connection_cleanup {X : Externals} `{!ExternalsLaws X} {N : Networks} p rp turns other s c aaa s1 :
  db_wf s.1 -> handshake p s = Done (c, aaa) s1 ->
  (forall limit, rp_direct_alloc_limit (rp aaa) = Some limit -> is_Some (rp_async_allocator (rp aaa))) ->
  match handle_peer p rp turns other s with
  | Done _ s' | Throw _ s' => db_wf s'.1 /\ out_of_tables c s'.1
  | Hang s' => db_wf s'.1
  | Panic => False
  end.
Proof.
  intros D E Halloc. pose proof (session_cleanup p rp turns other s c aaa s1 D E Halloc) as H.
  destruct (handle_peer p rp turns other s); try done; by eapply gone_out_of_tables.
Qed.
