(* ===== verification/Scenarios.v ===== *)
(** * Concrete runs of the broker

    The classes the broker is parametrised by are instantiated with the small executable
    versions of [External.Ref], and the theorems about the broker are applied to databases that
    runs of operations lead to. *)
From S2P Require Export Typed Session Subscriptions Wire.
From S2P Require Ipc IpcFacts.

(** ** The instances *)

#[global] Instance ref_externals : Externals := {|
  ext_digest := str;
  ext_sha256 := id;
  ext_queue := Ref.queue FrameData;
  ext_acl := Ref.acl;
  ext_submap := Ref.submap (K := str) (C := BrokerClient str);
  ext_submap_ops := Ref.submap_ops ptr_digest;
  ext_broadcasts := Ref.broadcasts (K := str) (C := BrokerClient str);
  ext_broadcast_ops := Ref.broadcasts_ops ptr_digest;
  ext_event_to_vec e := Ok (ev_s e ++ lit " " ++ default [] (ev_d e));
  ext_now_ns := 0;
  ext_room _ := 0%nat;
  ext_params := ref_params;
|}.

#[global] Instance ref_laws : ExternalsLaws ref_externals.
Proof.
  refine {| law_channel := Ref.queue_laws; law_acl := Ref.acl_laws;
            law_submap := Ref.submap_laws ptr_digest; law_broadcasts := Ref.broadcasts_laws ptr_digest |}.
Defined.

(** A network is a range of addresses. *)
#[global] Instance ref_networks : Networks := {|
  net_addr := Z;
  net_network := Z * Z;
  net_contains '(lo, hi) a := (lo <=? a) && (a <=? hi);
  net_any_v4 := (0, 2 ^ 32 - 1);
  net_fmt := fmt_z;
|}.

(** ** Databases *)

Definition run (force : bool) (os : list op) : BrokerDb :=
  default (broker_create force) (run_ops os (broker_create force)).

Lemma run_reachable force os : reachable force (run force os).
Proof.
  unfold run, reachable. destruct (run_ops os _) as [d|] eqn:E; [by apply run_ops_steps in E|apply rtc_refl].
Qed.

Lemma run_wf force os : db_wf (run force os).
Proof. apply (reachable_good force), run_reachable. Qed.

Lemma run_flags force os x y :
  heap (run force os) !! x = Some y -> registered y = true -> exclusions_ok y.
Proof.
  intros Hy Hr. destruct (reachable_good force (run force os) (run_reachable _ _)) as [_ F].
  by eapply F; [|left|].
Qed.

(** The object behind an address. *)
Definition at_ptr {X : Externals} (d : BrokerDb) (c : nat) : BusRtClient :=
  default (new_client [] 0 Internal None None) (heap d !! c).

(** A database with one more client object, not registered yet, at [next_ptr d]. *)
Definition with_new (nm : str) (d : BrokerDb) : BrokerDb :=
  allocated (new_client nm 8 LocalIpc None None) d.

Lemma with_new_wf nm d : db_wf d -> db_wf (with_new nm d).
Proof. intros D. by apply allocated_wf; [|apply new_client_ok..]. Qed.

(** A client that connects over a local socket. *)
Definition socket : PeerParams := MkPeerParams 2 LocalIpc None None None None.
Definition joins (nm : str) : op :=
  Connect socket (MkConn (Source (client_hello nm) EndStall) [] []).

Definition two : BrokerDb := run false [Register 8 (lit "a"); Register 8 (lit "b")].

(** Check a closed equation by evaluation. *)
Ltac concrete := match goal with |- _ = ?b => vm_cast_no_check (eq_refl b) end.

Lemma at_ptr_lookup {X : Externals} d c : bool_decide (is_Some (heap d !! c)) = true -> heap d !! c = Some (at_ptr d c).
Proof. intros [cl Hl]%bool_decide_eq_true. unfold at_ptr. by rewrite Hl. Qed.

(** ** Registration *)

Definition one_new : BrokerDb := with_new (lit "c") two.

(** Evaluate the name and the role of the client object a theorem speaks of. *)
Ltac fields c :=
  let v := eval vm_compute in (primary c) in
  let n := eval vm_compute in (name c) in
  let P := fresh "P" in let E := fresh "E" in
  assert (primary c = v) as P by concrete; assert (name c = n) as E by concrete;
  try rewrite P in *; try rewrite E in *; clear P E.

Lemma register_client_spec_witness :
  exists d1, db_register_client 2 one_new = announced true (BrokerEvent_reg (lit "c")) d1 /\
             clients d1 !! lit "c" = Some 2%nat /\ clients d1 !! lit "a" = Some 0%nat.
Proof.
  destruct (register_client_spec one_new 2 (at_ptr one_new 2)) as [H _].
  - apply with_new_wf, run_wf.
  - apply at_ptr_lookup; concrete.
  - split; concrete.
  - fields (at_ptr one_new 2). destruct H as (d1 & E & _ & Hc & _); [concrete|done|]. exists d1.
    split; [exact E|]. rewrite Hc. split; concrete.
Defined.

(** The name of the first client is taken over by a third connection. *)
Definition takeover : BrokerDb := with_new (lit "a") (run true [joins (lit "a"); Register 8 (lit "b")]).

Lemma register_force_replaces_witness :
  exists d1, db_register_client 2 takeover = announced true (BrokerEvent_reg (lit "a")) d1 /\
             clients d1 !! lit "a" = Some 2%nat /\ clients d1 !! lit "b" = Some 1%nat.
Proof.
  destruct (register_force_replaces takeover 2 (at_ptr takeover 2) 0 (at_ptr takeover 0))
    as (d1 & E & _ & Hc & Ho & _); [..|exists d1].
  - apply with_new_wf, run_wf.
  - apply at_ptr_lookup; concrete.
  - split; concrete.
  - concrete.
  - concrete.
  - concrete.
  - apply at_ptr_lookup; concrete.
  - fields (at_ptr takeover 2). split_and!; [exact E|exact Hc|].
    rewrite (Ho (lit "b")) by done. concrete.
Defined.

(** A primary with a secondary leaves. *)
Definition with_secondary : BrokerDb :=
  run false [Register 8 (lit "a"); RegisterSecondary 8 (MkInternal (lit "a") 0 (Some tt) 0); Register 8 (lit "b")].

Lemma unregister_client_spec_witness :
  exists d1, unregister_client 0 with_secondary = announced true (BrokerEvent_unreg (lit "a")) d1 /\
    clients d1 !! lit "a" = None /\ clients d1 !! lit "a%%0" = None /\ clients d1 !! lit "b" = Some 2%nat.
Proof.
  pose proof (unregister_client_spec with_secondary 0 (at_ptr with_secondary 0)) as H.
  assert (R : registered (at_ptr with_secondary 0) = true) by concrete. rewrite R in H.
  destruct H as (d1 & E & _ & Hc & _); [apply run_wf|apply at_ptr_lookup; concrete|exists d1].
  fields (at_ptr with_secondary 0).
  assert (S : secondaries (at_ptr with_secondary 0) = {[ lit "a%%0" ]}) by concrete. rewrite S in *.
  split; [exact E|]. rewrite !Hc. split_and!; concrete.
Defined.

(** A third object under the name of the first. *)
Definition same_name : BrokerDb := with_new (lit "a") two.

Lemma client_unregister_keeps_name_witness :
  exists d1, client_unregister 0 same_name = Done tt d1 /\ clients d1 !! lit "a" = Some 0%nat /\
    db_register_client 2 d1 = Throw (Error_busy (lit "the client is already registred: a")) d1.
Proof.
  destruct (client_unregister_keeps_name same_name 0 (at_ptr same_name 0) 2 (at_ptr same_name 2))
    as (d1 & E & Hc & _ & Hbusy); [..|exists d1].
  - apply with_new_wf, run_wf.
  - apply at_ptr_lookup; concrete.
  - concrete.
  - apply at_ptr_lookup; concrete.
  - done.
  - concrete.
  - concrete.
  - fields (at_ptr same_name 0). split_and!; [exact E|exact Hc|]. apply Hbusy. concrete.
Defined.

(** ** Delivery *)

Section observe.
Context {X : Externals} `{!ExternalsLaws X}.

(** Every queue has room. *)
Definition all_ready (d : BrokerDb) : bool :=
  forallb (fun '(_, y) => negb (ch_is_full (tx y)) && negb (ch_is_closed (tx y))) (map_to_list (heap d)).

Lemma all_ready_spec d x y : all_ready d = true -> heap d !! x = Some y -> ready y.
Proof.
  unfold all_ready. rewrite forallb_forall. intros H Hy.
  specialize (H (x, y)). cbn beta iota in H. rewrite andb_true_iff, !negb_true_iff in H.
  apply H, list_elem_of_In, elem_of_map_to_list, Hy.
Qed.

#[export] Instance BrokerClient_eq_dec : EqDecision (BrokerClient ext_digest).
Proof. solve_decision. Defined.

(** Is the client at [x] among the subscribers of the topic? *)
Definition is_subscribed (d : BrokerDb) (topic : str) (x : nat) : bool :=
  registered (at_ptr d x) &&
  existsb (fun s => bool_decide (s = handle x (at_ptr d x))) (sm_get_subscribers (subscriptions d) topic).

Lemma is_subscribed_spec d topic x :
  is_subscribed d topic x = true <-> subscribed d topic x (at_ptr d x).
Proof.
  unfold is_subscribed, subscribed. rewrite andb_true_iff, existsb_exists. apply and_iff_compat_l.
  split.
  - intros (s & Hs%list_elem_of_In & ->%bool_decide_eq_true).
    by apply (sm_get_subscribers_spec (key := ptr_digest)) in Hs.
  - intros H. exists (handle x (at_ptr d x)). split; [|by apply bool_decide_eq_true].
    by apply list_elem_of_In, (sm_get_subscribers_spec (key := ptr_digest)).
Qed.

(** The frames queued for a client. *)
Definition inbox (d : BrokerDb) (x : nat) : list FrameData := ch_items (tx (at_ptr d x)).

Lemma at_ptr_Some d x y : heap d !! x = Some y -> at_ptr d x = y.
Proof. intros H. unfold at_ptr. by rewrite H. Qed.

End observe.

(** Two subscribers of a topic, one of which excluded it. *)
Definition news : BrokerDb :=
  run false [Register 8 (lit "a"); Register 8 (lit "b"); joins (lit "c");
             Subscribe 1 [lit "news/+"] QoS_No; Subscribe 2 [lit "#"] QoS_No; Exclude 2 [lit "news/x"] QoS_No].

Definition published : FrameData :=
  MkFrame FrameKind_Publish (Some (lit "a")) (Some (lit "news/x")) None (lit "hello") 0 false.

Lemma not_subscribed d topic x : is_subscribed d topic x = false -> ~ receives d topic x (at_ptr d x).
Proof. intros Hf [Hs _]. apply is_subscribed_spec in Hs. congruence. Qed.

Lemma excluded_receives d topic x :
  acl_matches (exclusions (at_ptr d x)) topic = true -> ~ receives d topic x (at_ptr d x).
Proof. intros Hm%acl_matches_spec [_ Hn]. by apply Hn. Qed.

Lemma subscribed_receives d topic x :
  is_subscribed d topic x = true -> acl_matches (exclusions (at_ptr d x)) topic = false ->
  receives d topic x (at_ptr d x).
Proof.
  intros Hs Hm. split; [by apply is_subscribed_spec|]. intros He%acl_matches_spec. congruence.
Qed.

Lemma publish_delivers_witness :
  exists d', publish 0 (lit "news/x") None (lit "hello") 0 5 false None news = Done tt d' /\
    inbox d' 1 = [published] /\ inbox d' 2 = [] /\ inbox d' 0 = [].
Proof.
  destruct (publish_delivers news 0 (at_ptr news 0) (lit "news/x") None (lit "hello") 0 5 false None)
    as (d' & E & _ & Hd).
  - apply run_wf.
  - apply run_flags.
  - apply at_ptr_lookup; concrete.
  - intros x y Hy _. revert Hy. apply all_ready_spec. concrete.
  - exists d'. split; [exact E|].
    destruct (Hd 0%nat (at_ptr news 0)) as (y0 & H0 & _ & Q0); [apply at_ptr_lookup; concrete|].
    destruct (Hd 1%nat (at_ptr news 1)) as (y1 & H1 & Q1 & _); [apply at_ptr_lookup; concrete|].
    destruct (Hd 2%nat (at_ptr news 2)) as (y2 & H2 & _ & Q2); [apply at_ptr_lookup; concrete|].
    unfold inbox. rewrite (at_ptr_Some _ _ _ H0), (at_ptr_Some _ _ _ H1), (at_ptr_Some _ _ _ H2).
    rewrite Q1, Q0, Q2.
    + split_and!; concrete.
    + apply excluded_receives; concrete.
    + apply not_subscribed; concrete.
    + apply subscribed_receives; concrete.
Defined.

Lemma publish_for_delivers_witness :
  exists d', publish_for 0 (lit "news/y") (lit "c") None (lit "hello") 0 5 false None news = Done tt d' /\
    length (inbox d' 2) = 1%nat /\ inbox d' 1 = [].
Proof.
  destruct (publish_for_delivers news 0 (at_ptr news 0) (lit "news/y") (lit "c") None (lit "hello") 0 5 false None)
    as (d' & E & _ & Hd).
  - apply run_wf.
  - apply run_flags.
  - apply at_ptr_lookup; concrete.
  - intros x y Hy _ _. revert Hy. apply all_ready_spec. concrete.
  - exists d'. split; [exact E|].
    destruct (Hd 1%nat (at_ptr news 1)) as (y1 & H1 & _ & Q1); [apply at_ptr_lookup; concrete|].
    destruct (Hd 2%nat (at_ptr news 2)) as (y2 & H2 & Q2 & _); [apply at_ptr_lookup; concrete|].
    unfold inbox. rewrite (at_ptr_Some _ _ _ H1), (at_ptr_Some _ _ _ H2), Q1, Q2.
    + split; concrete.
    + split; [apply subscribed_receives|]; concrete.
    + intros (_ & Hp). assert (R : bool_decide (primary_name (at_ptr news 1) = lit "c") = false) by concrete.
      apply bool_decide_eq_false in R. exact (R Hp).
Defined.

(** Names are masked by segments separated by dots. *)
Definition plants : BrokerDb :=
  run false [Register 8 (lit "a"); Register 8 (lit "plant.1"); Register 8 (lit "plant.2")].

Lemma broadcast_delivers_witness :
  exists d', send_broadcast 0 (lit "plant.?") None (lit "stop") 0 4 true None plants = Done tt d' /\
    length (inbox d' 1) = 1%nat /\ length (inbox d' 2) = 1%nat /\ inbox d' 0 = [].
Proof.
  destruct (broadcast_delivers plants 0 (at_ptr plants 0) (lit "plant.?") None (lit "stop") 0 4 true None)
    as (d' & E & _ & Hd).
  - apply run_wf.
  - apply at_ptr_lookup; concrete.
  - intros x y Hy _. revert Hy. apply all_ready_spec. concrete.
  - exists d'. split; [exact E|].
    destruct (Hd 0%nat (at_ptr plants 0)) as (y0 & H0 & _ & Q0); [apply at_ptr_lookup; concrete|].
    destruct (Hd 1%nat (at_ptr plants 1)) as (y1 & H1 & Q1 & _); [apply at_ptr_lookup; concrete|].
    destruct (Hd 2%nat (at_ptr plants 2)) as (y2 & H2 & Q2 & _); [apply at_ptr_lookup; concrete|].
    unfold inbox. rewrite (at_ptr_Some _ _ _ H0), (at_ptr_Some _ _ _ H1), (at_ptr_Some _ _ _ H2).
    rewrite Q0, Q1, Q2.
    + split_and!; concrete.
    + split; concrete.
    + split; concrete.
    + intros [_ Hf]. assert (R : bm_fits (bm_cfg (broadcasts plants)) (lit "plant.?") (name (at_ptr plants 0)) = false)
        by concrete. congruence.
Defined.

Lemma send_spec_witness :
  exists d', send 0 (lit "b") None (lit "hello") 0 5 false None two = Done tt d' /\ db_wf d' /\
    length (inbox d' 1) = 1%nat.
Proof.
  pose proof (send_spec two 0 (at_ptr two 0) (lit "b") None (lit "hello") 0 5 false None) as H.
  assert (Hc : clients two !! lit "b" = Some 1%nat) by concrete. rewrite Hc in H.
  destruct H as (y & Hy & _ & H & _); [apply run_wf|apply at_ptr_lookup; concrete|].
  assert (Hr : ready y) by (revert Hy; apply all_ready_spec; concrete).
  destruct (H Hr) as (d' & E & D' & Dv). exists d'. split_and!; [exact E|exact D'|].
  destruct (dv_queue _ _ _ _ Dv 1%nat y Hy) as (y' & Hy' & Q).
  unfold inbox. rewrite (at_ptr_Some _ _ _ Hy'). rewrite decide_True in Q by set_solver. rewrite Q.
  rewrite <- (at_ptr_Some _ _ _ Hy). concrete.
Defined.

(** ** Announcements and slow clients *)

(** The broker announces, and a socket client that is subscribed to the announcements has a
    full queue (it holds two frames). *)
Definition slow : BrokerDb :=
  run false [InitCoreRpc 8; joins (lit "c"); Subscribe 1 [lit ".broker/info"] QoS_No; Register 8 (lit "a");
             Send 2 (lit "c") [] (lit "x") QoS_No].

Lemma announce_slow_subscriber_deadlock_witness :
  ch_len (tx (at_ptr slow 1)) = 2 /\
  exists d', announce (BrokerEvent_reg (lit "z")) slow = Hang d' /\
             forall event', announce event' d' = Hang d'.
Proof.
  split; [concrete|].
  apply (announce_slow_subscriber_deadlock slow (BrokerEvent_reg (lit "z")) 0 (lit "reg z") []
           (handle 1 (at_ptr slow 1)) (at_ptr slow 1)).
  - apply run_wf.
  - concrete.
  - concrete.
  - concrete.
  - split_and!.
    + exists []. concrete.
    + intros p Hp. by apply elem_of_nil in Hp.
    + apply at_ptr_lookup; concrete.
    + concrete.
    + concrete.
    + assert (K : ckind (at_ptr slow 1) = LocalIpc) by concrete. by rewrite K.
    + concrete.
Defined.

(** Without announcements, a socket client whose queue is full. *)
Definition full : BrokerDb :=
  run false [joins (lit "c"); Register 8 (lit "a"); Send 1 (lit "c") [] (lit "x") QoS_No;
             Send 1 (lit "c") [] (lit "y") QoS_No].

Lemma slow_client_dropped_witness :
  exists d', safe_send_frame 0 published None full = Throw Error_not_delivered d' /\
             clients d' !! lit "c" = None.
Proof.
  destruct (slow_client_dropped full 0 (at_ptr full 0) published None) as (d' & E & _ & Hc & _).
  - apply run_wf.
  - concrete.
  - concrete.
  - apply at_ptr_lookup; concrete.
  - assert (K : ckind (at_ptr full 0) = LocalIpc) by concrete. by rewrite K.
  - concrete.
  - concrete.
  - exists d'. fields (at_ptr full 0). split; [exact E|exact Hc].
Defined.

(** ** Connections *)

(** Only [a] may connect, and only from one network. *)
Definition guarded : PeerParams :=
  MkPeerParams 8 Tcp None None (Some 7)
    (Some {[ lit "a" := hosts_allow [(0, 255)] (allow_p2p_to [lit "b"] ClientAaa_default) ]}).

Lemma authorized_a :
  authorized guarded (lit "a") (Some (hosts_allow [(0, 255)] (allow_p2p_to [lit "b"] ClientAaa_default))).
Proof. split_and!; [done..|]. eexists. split_and!; [concrete|done|]. by intros addr [= <-]. Qed.

Lemma handshake_roundtrip_witness :
  exists c d' k, handshake guarded
    (run false [], MkConn (Source (client_hello (lit "a")) EndStall) [] [Ipc.WriteOk; Ipc.WriteOk])
    = Done (c, Some (hosts_allow [(0, 255)] (allow_p2p_to [lit "b"] ClientAaa_default))) (d', k) /\
    clients d' = {[ lit "a" := c ]}.
Proof.
  destruct (handshake_roundtrip guarded (run false []) (lit "a") _ EndStall EndStall
              (run_wf _ _) authorized_a) as (_ & c & d' & E & _ & Hc).
  - done.
  - concrete.
  - intros H. by destruct H.
  - concrete.
  - concrete.
  - exists c, d'. eexists. split; [exact E|exact Hc].
Defined.

Lemma handshake_leaks_registration_witness :
  exists c d' k e, handshake guarded
    (run false [], MkConn (Source (client_hello (lit "a")) EndStall) [] [Ipc.WriteOk; Ipc.WriteOk; Ipc.WriteErr (IoError UnexpectedEof (lit "pipe"))])
    = Throw e (d', k) /\ clients d' !! lit "a" = Some c.
Proof.
  destruct (handshake_leaks_registration guarded (run false []) (lit "a") _ EndStall (IoError UnexpectedEof (lit "pipe"))
              (run_wf _ _) authorized_a) as (c & d' & k & E & _ & Hc).
  - done.
  - concrete.
  - intros H. by destruct H.
  - concrete.
  - concrete.
  - exists c, d', k. eexists. split; [exact E|exact Hc].
Defined.

(** A whole connection: [a] connects, publishes, and closes in the middle of the next
    packet. *)
Definition whole_connection : conn :=
  MkConn (Source (client_hello (lit "a")
            ++ to_le_bytes 4 1 ++ [FrameOp_code FrameOp_PublishTopic] ++ to_le_bytes 4 7
            ++ lit "t" ++ [x00] ++ lit "hello" ++ [x01; x02]) EndEof) [] [].

Definition connected : option nat :=
  match handshake guarded (run false [], whole_connection) with Done (c, _) _ => Some c | _ => None end.

Lemma connection_cleanup_witness :
  match handle_peer guarded (fun aaa => MkReaderParams 5 (Some 1000) aaa None None) 50 None (run false [], whole_connection) with
  | Done _ s' | Throw _ s' => db_wf s'.1 /\ out_of_tables 0 s'.1
  | Hang s' => db_wf s'.1
  | Panic => False
  end.
Proof.
  assert (H : connected = Some 0%nat) by concrete. unfold connected in H.
  destruct (handshake guarded (run false [], whole_connection)) as [[c aaa] s1|e s1|s1|] eqn:E; [|discriminate H..].
  injection H as ->.
  apply (connection_cleanup guarded _ 50 None _ 0%nat aaa s1); [apply run_wf|exact E|done].
Defined.

(** ** The broker's reader and the invariant *)

(** A reader that takes up to 1000 bytes and allocates more than 64 through an allocator, for a
    client that may not send to [b]. *)
Definition reader : ReaderParams ext_acl :=
  MkReaderParams 5 (Some 1000) (Some (deny_p2p ClientAaa_default)) (Some 64) (Some (fun _ n => Some n)).

(** A published frame, and the beginning of another one. *)
Definition incoming_bytes : source :=
  Source (to_le_bytes 4 1 ++ [FrameOp_code FrameOp_PublishTopic] ++ to_le_bytes 4 7
            ++ lit "t" ++ [x00] ++ lit "hello" ++ [x01; x02]) EndEof.

Lemma handle_reader_safe_witness :
  match handle_reader (reader_fuel incoming_bytes) reader 0 incoming_bytes two with
  | Done _ d' | Throw _ d' | Hang d' => db_wf d'
  | Panic => False
  end.
Proof.
  apply (handle_reader_safe reader 0 (at_ptr two 0) incoming_bytes two).
  - apply run_wf.
  - apply at_ptr_lookup; concrete.
  - concrete.
  - intros limit _. by eexists.
Defined.

Lemma denied_packet_isolated_witness :
  match process_packet reader 0 [x01; x00; x00; x00] QoS_Processed FrameOp_Message 4 (lit "b" ++ [x00] ++ lit "hi") two with
  | Done _ d' | Throw _ d' | Hang d' => only_self 0 two d'
  | Panic => is_Some (slice_from 2 (lit "b" ++ [x00] ++ lit "hi")) -> False
  end.
Proof.
  apply (denied_packet_isolated reader 0 _ QoS_Processed FrameOp_Message 4 _ (lit "b") 2 two).
  - concrete.
  - exists (at_ptr two 0). apply at_ptr_lookup; concrete.
  - concrete.
Defined.

Lemma exclusion_packets_equiv_witness :
  exclude_packet 0 [x01; x00; x00; x00] QoS_Processed 3 (lit "a" ++ [x00] ++ lit "b") two =
    (count_incoming 0 3 ≫= fun _ => exclude_bulk 0 [lit "a"; lit "b"] QoS_Processed ≫= fun _ =>
     ack_if_needed 0 [x01; x00; x00; x00] QoS_Processed RESPONSE_OK) two /\
  publish_with unregister_client 0 (lit "a") None (lit "v") 0 1 false None two =
    publish_by_search unregister_client 0 (fun _ => true) (lit "a") None (lit "v") 0 1 false None two.
Proof.
  destruct (exclusion_packets_equiv 0 [x01; x00; x00; x00] QoS_Processed 3 (lit "a" ++ [x00] ++ lit "b") two)
    as (H1 & _ & H2); [by repeat constructor|]. split; [exact H1|].
  destruct H2 as (_ & _ & Hp); [apply run_wf| |exact (proj1 (Hp unregister_client 0%nat (lit "a") None (lit "v") 0 1 false None))].
  intros x y Hy [Hr|[]] _. exact (run_flags false [Register 8 (lit "a"); Register 8 (lit "b")] x y Hy Hr).
Defined.

(** ** Subscriptions *)

(** The topics of a client. *)
Definition topics_of {X : Externals} `{!ExternalsLaws X} (d : BrokerDb) (cl : BusRtClient) : option (gset str) :=
  snd <$> sm_view (subscriptions d) !! digest cl.

Lemma subscribe_spec_witness :
  exists d1, subscribe_bulk 0 [lit "t"; lit "u/#"] QoS_Processed two = Done (Some (Ok tt)) d1 /\
    topics_of d1 (at_ptr two 0) = Some {[ lit ".broker/warn"; lit "t"; lit "u/#" ]}.
Proof.
  destruct (subscribe_spec 0 (at_ptr two 0) [lit "t"; lit "u/#"] QoS_Processed two) as [H _].
  - apply run_wf.
  - apply at_ptr_lookup; concrete.
  - destruct H as (ts & m1 & m2 & Hm & E & [R _] & _); [concrete|].
    exists (set_subscriptions m1 two). split; [exact E|].
    assert (Hts : ts = {[ lit ".broker/warn" ]}).
    { assert (Hv : topics_of two (at_ptr two 0) = Some {[ lit ".broker/warn" ]}) by concrete.
      unfold topics_of in Hv. rewrite Hm in Hv. by injection Hv. }
    unfold topics_of. change (subscriptions (set_subscriptions m1 two)) with m1.
    rewrite R, Hts. concrete.
Defined.

Definition is_done {S E A} (r : outcome S E A) : bool := match r with Done _ _ => true | _ => false end.

(** A client that may only subscribe to news. *)
Definition news_only : ReaderParams ext_acl :=
  MkReaderParams 5 None (Some (allow_subscribe_to [lit "news/+"] ClientAaa_default)) None None.

Lemma subscription_packets_spec_witness :
  exists d1, subscribe_packet news_only 0 [x01; x00; x00; x00] QoS_Processed 13 (lit "news/x" ++ [x00] ++ lit "secret") two
      = Done tt d1 /\
    topics_of d1 (at_ptr two 0) = Some {[ lit ".broker/warn"; lit "news/x" ]}.
Proof.
  pose proof (proj1 (subscription_packets_spec news_only 0 (at_ptr two 0) [x01; x00; x00; x00] QoS_Processed 13
    (lit "news/x" ++ [x00] ++ lit "secret") {[ lit ".broker/warn" ]} two
    ltac:(apply at_ptr_lookup; concrete) ltac:(concrete))) as H.
  assert (Hok : is_done (subscribe_packet news_only 0 [x01; x00; x00; x00] QoS_Processed 13
    (lit "news/x" ++ [x00] ++ lit "secret") two) = true) by concrete.
  destruct (subscribe_packet _ _ _ _ _ _ two) as [[] d1| | |]; [|discriminate Hok..].
  exists d1. split; [done|]. destruct H as ([R _] & _). unfold topics_of. rewrite R. concrete.
Defined.

Lemma broker_invariant_witness :
  exists p pcl, clients with_secondary !! lit "a" = Some p /\ heap with_secondary !! p = Some pcl /\
                lit "a%%0" ∈ secondaries pcl.
Proof.
  destruct (broker_invariant false with_secondary (run_reachable _ _)) as (_ & _ & _ & H & _).
  destruct (H 1%nat (at_ptr with_secondary 1)) as (_ & _ & Hs & _); [apply at_ptr_lookup; concrete|concrete|].
  assert (Ep : primary_name (at_ptr with_secondary 1) = lit "a") by concrete.
  fields (at_ptr with_secondary 1). rewrite Ep in Hs. exact (Hs eq_refl).
Defined.

(** A queue of one place that holds a message. *)
Definition busy : BrokerDb :=
  run false [Register 8 (lit "a"); Register 1 (lit "b"); Send 0 (lit "b") (lit "h") (lit "hello") QoS_No].

Lemma queues_typed_witness :
  length (inbox busy 1) = 1%nat /\ forall f, f ∈ inbox busy 1 -> is_Some (frame_writes f).
Proof.
  destruct (queues_typed false busy 1 (at_ptr busy 1)) as [_ H];
    [apply run_reachable|apply at_ptr_lookup; concrete|].
  split; [concrete|]. intros f Hf. by destruct (H f Hf).
Defined.

(** ** The wire *)

Definition open_reader : ReaderParams ext_acl := MkReaderParams 5 None None None None.

Lemma client_frames_parsed_witness :
  exists body, read_packet open_reader (lit "a")
      (Source (Ipc.target_frame_buf 1 (lit "b") (lit "hello") FrameOp_Message QoS_Processed ++ lit "hello" ++ [x01]) EndEof)
    = Pk [x01; x00; x00; x00] FrameOp_Message QoS_Processed (blen body) body (Source [x01] EndEof) /\
    split_target body = Ok (lit "b", 2) /\ slice_from 2 body = Some (lit "hello").
Proof.
  destruct (client_frames_parsed open_reader (lit "a") 1 FrameOp_Message QoS_Processed (lit "b") (lit "c") [] (lit "hello") [x01] EndEof)
    as [(body & E & Ht & Hs) _]; [done|done|by apply not_elem_of_cons; split; [|apply not_elem_of_nil]|done
      |by apply not_elem_of_cons; split; [|apply not_elem_of_nil]| |exists body].
  - intros b Hb. split_and!; [|done|done]. eapply Z.le_lt_trans; [exact Hb|]. apply Z.ltb_lt. concrete.
  - split_and!; [exact E|exact Ht|exact Hs].
Defined.

Lemma bulk_topics_roundtrip_witness :
  split x00 (Ipc.bulk_payload [lit "a"; lit "b"]) = [lit "a"; lit "b"].
Proof.
  refine (proj1 (bulk_topics_roundtrip (lit "a") [lit "b"] _ _)); [done|].
  repeat constructor; by apply not_elem_of_cons; split; [|apply not_elem_of_nil].
Defined.

Lemma frame_ids_distinct_witness :
  Nat.iter 1 Ipc.next_frame_id 0 <> Nat.iter 3 Ipc.next_frame_id 0.
Proof. refine (proj2 (IpcFacts.frame_ids_distinct 1 3 _ _ _)); lia. Defined.

(** A client with one pending confirmation and this input. *)
Definition listening (input : bytes) : Ipc.Client (Ref.queue FrameData) :=
  Ipc.MkClient (lit "a") 3 {[ 1 := 0%nat ]} None true false 0 [] [] 1 ∅ (Source input EndStall) (ch_bounded 8).

Definition note : FrameData :=
  MkFrame FrameKind_Publish (Some (lit "b")) (Some (lit "t")) (Some (lit "he")) (lit "llo") 0 true.

Lemma broker_frames_delivered_witness :
  exists bs f' c', frame_bytes note = Some bs /\
    Ipc.handle_read_one 0 (listening (bs ++ [x07])) = Done tt c' /\
    sender f' = Some (lit "b") /\ payload f' = Some (lit "hello") /\
    Ipc.incoming c' = Source [x07] EndStall.
Proof.
  eexists. destruct (broker_frames_delivered 0 (listening (default [] (frame_bytes note) ++ [x07])) note
    (lit "b") (lit "llo") (default [] (frame_bytes note)) [x07] EndStall) as (f' & E & _ & Hs & _ & _ & Hp).
  - exists (lit "t"). split_and!; [done..|]. by apply not_elem_of_cons; split; [|apply not_elem_of_nil].
  - done.
  - done.
  - by apply not_elem_of_cons; split; [|apply not_elem_of_nil].
  - concrete.
  - apply Z.ltb_lt. concrete.
  - concrete.
  - concrete.
  - concrete.
  - concrete.
  - eexists f', _. split; [|split; [exact E|split; [exact Hs|split; [exact Hp|reflexivity]]]]. concrete.
Defined.

Definition ack_bytes : bytes := [OP_ACK] ++ to_le_bytes 4 1 ++ [ERR_ACCESS].

Lemma ack_resolves_confirmation_witness :
  exists c', Ipc.handle_read_one 0 (listening ack_bytes) = Done tt c' /\
    Ipc.confirms c' = {[ 0%nat := to_busrt_result ERR_ACCESS ]} /\ Ipc.responses c' = ∅.
Proof.
  destruct (ack_resolves_confirmation 0 (listening ack_bytes) 1 0 ERR_ACCESS ack_bytes [] EndStall)
    as (c' & E & Hc & Hr & _); [lia|concrete..|].
  exists c'. split; [exact E|]. rewrite Hc, Hr. split; concrete.
Defined.

(** A message from a client that registered as "admin\0x". *)
Definition spoof : FrameData :=
  MkFrame FrameKind_Message (Some (lit "admin" ++ x00 :: lit "x")) None None (lit "hi") 0 false.

Lemma nul_name_spoofs_sender_witness :
  exists bs f' c', frame_bytes spoof = Some bs /\ Ipc.handle_read_one 0 (listening bs) = Done tt c' /\
    sender f' = Some (lit "admin") /\ payload f' = Some (lit "x" ++ x00 :: lit "hi").
Proof.
  destruct (nul_name_spoofs_sender 0 (listening (default [] (frame_bytes spoof) ++ [])) spoof
    (lit "admin") (lit "x") (lit "hi") (default [] (frame_bytes spoof)) [] EndStall) as (f' & E & Hs & Hp).
  - done.
  - done.
  - done.
  - done.
  - done.
  - apply (bool_decide_eq_true _). concrete.
  - concrete.
  - apply Z.ltb_lt. concrete.
  - concrete.
  - concrete.
  - concrete.
  - concrete.
  - rewrite app_nil_r in E. eexists _, f', _. split; [|split; [exact E|split; [exact Hs|exact Hp]]]. concrete.
Defined.

(** ** The fifo *)

(** The broker has its RPC client; the queue of the second client, a connection, is full. *)
Definition slow_target : BrokerDb :=
  run false [InitCoreRpc 8; joins (lit "core"); Register 8 (lit "x");
             Send 2 (lit "core") [] [] QoS_No; Send 2 (lit "core") [] [] QoS_No].

Lemma fifo_commands_witness :
  send_fifo_cmd (lit "=news/x hello world") slow_target
    = core_sends (client_publish 0 (lit "news/x") (lit "hello") QoS_No) slow_target /\
  send_fifo_cmd (lit "x :set n=5 ") slow_target
    = core_sends (client_zc_send 0 (lit "x") (call0_header (lit "set")) (lit "1") QoS_No) slow_target /\
  send_fifo_cmd (lit "=news/x ") slow_target = Throw (Error_data (lit "payload not specified")) slow_target.
Proof.
  destruct (fifo_commands slow_target 0) as (Hp & Ht & _ & He & _); [concrete|]. split_and!.
  - apply (Hp (lit "news/x") (lit "hell") x6f (lit " world"));
      [apply (bool_decide_eq_true _); by vm_compute..|done|right; by eexists].
  - destruct (Ht x78 [] (lit "set") (lit " n=5 ")) as (_ & Hc & _);
      [done|done|apply (bool_decide_eq_true _); by vm_compute..|right; by eexists|].
    by apply (Hc {[ lit "n" := VI64 5 ]}).
  - apply (He (lit "news/x") 1%nat); [apply (bool_decide_eq_true _); by vm_compute|concrete].
Defined.

Lemma fifo_slow_target_deadlock_witness :
  exists d', send_fifo_cmd (lit "core hello") slow_target = Hang d' /\ clients d' !! lit "core" = None /\
    forall line, send_fifo_cmd line d' = Hang d'.
Proof.
  assert (Hn : name (at_ptr slow_target 1) = lit "core") by concrete.
  destruct (fifo_slow_target_deadlock slow_target 0 1 (at_ptr slow_target 1) x63 (lit "ore") (lit "hello") [])
    as (d' & E & Hc & Hf & _); rewrite ?Hn in *.
  - apply run_wf.
  - concrete.
  - concrete.
  - concrete.
  - apply at_ptr_lookup; concrete.
  - concrete.
  - concrete.
  - by vm_compute.
  - concrete.
  - done.
  - done.
  - done.
  - apply (bool_decide_eq_true _); by vm_compute.
  - apply (bool_decide_eq_true _); by vm_compute.
  - by left.
  - apply (bool_decide_eq_true _); by vm_compute.
  - apply (bool_decide_eq_true _); by vm_compute.
  - done.
  - done.
  - exists d'. split_and!; [exact E|exact Hc|exact Hf].
Defined.
