(* ===== verification/BrokerRpc.v ===== *)
(** * The broker's own RPC methods ([src/broker.rs], [BrokerRpcHandlers])

    [handle_call] answers the calls to the client [.broker]: it echoes, reports the broker's
    version and statistics, and lists the registered primaries. MessagePack, regular expressions
    and the package's metadata are a class. *)
From stdpp Require Export sorting.
From S2P Require Export Rpc DbFacts.

(** [common::ClientInfo], [ClientList] and [BrokerInfo]. *)
Record ClientInfo := MkClientInfo {
  ci_name : str;
  ci_kind : str;
  ci_source : option str;
  ci_port : option str;
  ci_r_frames : Z;
  ci_r_bytes : Z;
  ci_w_frames : Z;
  ci_w_bytes : Z;
  ci_queue : Z;
  ci_instances : Z;
}.

Record BrokerInfo := MkBrokerInfo { author : str; version : str }.

(** [rmp_serde] and [regex], with the texts of their errors; [AUTHOR] and [VERSION]. *)
Class Codec := {
  cd_list_to_vec : list ClientInfo -> result bytes str;
  cd_stats_to_vec : BrokerStats -> result bytes str;
  cd_info_to_vec : BrokerInfo -> result bytes str;
  (** The field [filter] of the parameters. *)
  cd_params_from_slice : bytes -> result (option str) str;
  cd_regex : Type;
  cd_regex_new : str -> result cd_regex str;
  cd_is_match : cd_regex -> str -> bool;
  cd_author : str;
  cd_version : str;
}.

Definition RPC_OK : bytes := [u8 129; u8 162; u8 111; u8 107; u8 195].

(** [impl From<rmp_serde::encode::Error>], [From<rmp_serde::decode::Error>] and
    [From<regex::Error> for RpcError]. *)
Definition RpcError_from_encode (e : str) : RpcError := RpcError_internal (Some e).
Definition RpcError_from_decode (e : str) : RpcError := RpcError_parse (Some e).
Definition RpcError_from_regex (e : str) : RpcError := RpcError_parse (Some e).

(** [impl Ord for ClientInfo]: by name. *)
Definition info_le (a b : ClientInfo) : Prop := str_lt (ci_name b) (ci_name a) = false.

#[export] Instance info_le_dec : RelDecision info_le.
Proof. intros a b. unfold info_le. apply _. Defined.

Section handlers.
Context {X : Externals} {C : Codec}.

(** The entry of a client. *)
Definition client_info (v : BusRtClient) : ClientInfo := {|
  ci_name := name v;
  ci_kind := BusRtClientKind_as_str (ckind v);
  ci_source := source v;
  ci_port := port v;
  ci_r_frames := r_frames v;
  ci_r_bytes := r_bytes v;
  ci_w_frames := w_frames v;
  ci_w_bytes := w_bytes v;
  ci_queue := ch_len (tx v);
  ci_instances := Z.of_nat (size (secondaries v)) + 1;
|}.

Definition Broker_info : BrokerInfo := MkBrokerInfo cd_author cd_version.

(** The filter of the listing: primaries, and only those the expression matches. *)
Definition listed (re : option cd_regex) (c : BusRtClient) : bool :=
  primary c && match re with Some r => cd_is_match r (name c) | None => true end.

(** The listing of the client table, whichever order the hash map yields. *)
Definition collect_clients (re : option cd_regex) (d : BrokerDb) : list ClientInfo :=
  merge_sort info_le
    (omap (fun '(_, c) => v ← heap d !! c; if listed re v then Some (client_info v) else None)
       (map_to_list (clients d))).

(** [client_list]. *)
Definition client_list (payload : bytes) (d : BrokerDb) : RpcResult :=
  let? params :=
    match payload with
    | [] => Ok None
    | _ => map_err RpcError_from_decode (cd_params_from_slice payload)
    end in
  let? re :=
    match params with
    | Some filter => match map_err RpcError_from_regex (cd_regex_new filter) with
                     | Ok r => Ok (Some r)
                     | Err e => Err e
                     end
    | None => Ok None
    end in
  let? data := map_err RpcError_from_encode (cd_list_to_vec (collect_clients re d)) in
  Ok (Some data).

(** A method without parameters. *)
Definition no_params (payload : bytes) (r : RpcResult) : RpcResult :=
  match payload with [] => r | _ => Err (RpcError_params None) end.

Definition encoded (r : result bytes str) : RpcResult :=
  let? data := map_err RpcError_from_encode r in Ok (Some data).

(** [handle_call], once the method is parsed. *)
Definition call_method (elapsed : Z) (method : str) (payload : bytes) (d : BrokerDb) : RpcResult :=
  if decide (method = lit "benchmark.test") then Ok (Some payload)
  else if decide (method = lit "test") then no_params payload (Ok (Some RPC_OK))
  else if decide (method = lit "info") then no_params payload (encoded (cd_info_to_vec Broker_info))
  else if decide (method = lit "stats") then no_params payload (encoded (cd_stats_to_vec (stats elapsed d)))
  else if decide (method = lit "client.list") then client_list payload d
  else Err (RpcError_method None).

(** [handle_call]; [None] where reading the event would panic. *)
Definition handle_call (elapsed : Z) (event : RpcEvent) (d : BrokerDb) : option RpcResult :=
  method ← event_parse_method event;
  match method with
  | Err e => Some (Err (RpcError_from_Error e))
  | Ok method => payload ← event_payload event; Some (call_method elapsed method payload d)
  end.
End handlers.

(** ** Facts *)

#[export] Instance info_le_total : Total info_le.
Proof.
  intros a b. unfold info_le. destruct (str_lt (ci_name b) (ci_name a)) eqn:E; [right|by left].
  destruct (str_lt (ci_name a) (ci_name b)) eqn:E'; [|done].
  pose proof (str_lt_trans _ _ _ E E') as H. by rewrite str_lt_irrefl in H.
Qed.

#[export] Instance info_le_trans : Transitive info_le.
Proof.
  intros a b c. unfold info_le. intros Hab Hbc. destruct (str_lt (ci_name c) (ci_name a)) eqn:E; [|done].
  destruct (str_lt_total _ _ Hbc) as [En|Hlt]; [congruence|].
  pose proof (str_lt_trans _ _ _ Hlt E). congruence.
Qed.

(** Sorted without repetition of names: sorted strictly. *)
Lemma sorted_strict l :
  StronglySorted info_le l -> NoDup (ci_name <$> l) ->
  StronglySorted (fun a b => str_lt (ci_name a) (ci_name b) = true) l.
Proof.
  induction 1 as [|a l Hs IH Hf]; [constructor|]. cbn. intros [Hn Hd]%NoDup_cons.
  constructor; [by apply IH|]. apply Forall_forall. intros b Hb. rewrite Forall_forall in Hf.
  specialize (Hf b Hb). unfold info_le in Hf. destruct (str_lt_total _ _ Hf) as [E|?]; [|done].
  destruct Hn. rewrite <- E. by apply list_elem_of_fmap_2.
Qed.

Section facts.
Context {X : Externals} `{!ExternalsLaws X} {C : Codec}.

Lemma collect_elem re d info :
  info ∈ collect_clients re d <->
  exists n c v, clients d !! n = Some c /\ heap d !! c = Some v /\ listed re v = true /\ info = client_info v.
Proof.
  unfold collect_clients. rewrite merge_sort_Permutation, list_elem_of_omap. split.
  - intros ([n c] & Hin%elem_of_map_to_list & Hp). cbn in Hp.
    destruct (heap d !! c) as [v|] eqn:E; [|done]. cbn in Hp. destruct (listed re v) eqn:El; [|done].
    injection Hp as <-. eauto 8.
  - intros (n & c & v & Hc & Hv & Hl & ->). exists (n, c). rewrite elem_of_map_to_list. split; [done|].
    cbn. rewrite Hv. cbn. by rewrite Hl.
Qed.

Lemma collect_NoDup re d : db_wf d -> NoDup (ci_name <$> collect_clients re d).
Proof.
  intros [W _]. unfold collect_clients. rewrite merge_sort_Permutation.
  pose proof (NoDup_fst_map_to_list (clients d)) as Hnd.
  assert (Hall : forall nc, nc ∈ map_to_list (clients d) -> clients d !! nc.1 = Some nc.2).
  { intros [n c]. by rewrite elem_of_map_to_list. }
  induction (map_to_list (clients d)) as [|[n c] l IH]; [constructor|].
  cbn in Hnd. apply NoDup_cons in Hnd as [Hn Hnd]. cbn.
  assert (IH' := IH Hnd (fun nc H => Hall nc (list_elem_of_further _ _ _ H))).
  destruct (cw_clients d W n c (Hall (n, c) (list_elem_of_here _ _))) as (v & Hv & En & _).
  rewrite Hv. cbn. destruct (listed re v); [|done]. cbn. apply NoDup_cons. split; [|done].
  intros (info & Hi & ([n' c'] & Hin & Hp)%list_elem_of_omap)%list_elem_of_fmap.
  destruct (cw_clients d W n' c' (Hall (n', c') (list_elem_of_further _ _ _ Hin))) as (v' & Hv' & En' & _).
  cbn in Hp. rewrite Hv' in Hp. cbn in Hp. destruct (listed re v'); [|done]. injection Hp as <-. cbn in Hi.
  apply Hn, list_elem_of_fmap. exists (n', c'). split; [cbn; congruence|done].
Qed.

(** The names registered under a primary name. *)
Definition instance_names (d : BrokerDb) (n : str) : gset str := filter (fun s => before_sep s = n) (dom (clients d)).

Lemma instance_names_spec d c v :
  db_wf d -> heap d !! c = Some v -> registered v = true -> primary v = true ->
  instance_names d (name v) = {[ name v ]} ∪ secondaries v.
Proof.
  intros [W L] Hv R P. destruct (cw_ok d W c v Hv) as (_ & Ep & Eb). rewrite P in Eb. symmetry in Eb.
  apply bool_decide_eq_true in Eb. pose proof (cw_registered d W c v Hv R) as Hc.
  apply set_eq. intros s. unfold instance_names. rewrite elem_of_filter, elem_of_union, elem_of_singleton, elem_of_dom. split.
  - intros [Hs [x Hx]]. destruct (cw_clients d W s x Hx) as (y & Hy & <- & Ry).
    destruct (cw_ok d W x y Hy) as (_ & Epy & Eby). rewrite <- Epy in Hs.
    destruct (primary y) eqn:Py; [left|right].
    + symmetry in Eby. apply bool_decide_eq_true in Eby. congruence.
    + destruct (lw_up ∅ d L x y Hy Ry Py) as [?|(p & pcl & Hp & Hpl & Hin)]; [set_solver|].
      rewrite Hs in Hp. congruence.
  - intros [->|Hs].
    + split; [congruence|by eexists].
    + destruct (lw_down ∅ d L c v s Hv R Hs) as (x & y & Hx & Hy & _ & Hn).
      destruct (cw_clients d W s x Hx) as (y' & Hy' & <- & _). assert (y' = y) as -> by congruence.
      destruct (cw_ok d W x y Hy) as (_ & Epy & _). split; [congruence|by eexists].
Qed.

Lemma instances_count d c v :
  db_wf d -> heap d !! c = Some v -> registered v = true -> primary v = true ->
  ci_instances (client_info v) = Z.of_nat (size (instance_names d (name v))).
Proof.
  intros D Hv R P. rewrite (instance_names_spec d c v) by done. cbn [ci_instances client_info].
  rewrite size_union, size_singleton; [lia|].
  apply disjoint_singleton_l. intros Hs. destruct D as [W L].
  destruct (lw_down ∅ d L c v _ Hv R Hs) as (x & y & Hx & Hy & Py & _).
  pose proof (cw_registered d W c v Hv R). assert (x = c) as -> by congruence. congruence.
Qed.

(** The parameters of [client.list], and the filter they stand for. *)
Inductive asks (payload : bytes) : option cd_regex -> Prop :=
| asks_nothing : payload = [] -> asks payload None
| asks_all : payload <> [] -> cd_params_from_slice payload = Ok None -> asks payload None
| asks_some f r : payload <> [] -> cd_params_from_slice payload = Ok (Some f) -> cd_regex_new f = Ok r ->
    asks payload (Some r).

Lemma client_list_run payload re d :
  asks payload re -> client_list payload d = encoded (cd_list_to_vec (collect_clients re d)).
Proof.
  intros [->|Hne E|f r Hne E Er]; [done|..]; unfold client_list;
    (destruct payload as [|b payload]; [done|]); rewrite E; cbn; [done|by rewrite Er].
Qed.

(** Reading a request never panics. *)
Lemma handle_call_readable f ev :
  frame_wf f -> RpcEvent_try_from f = Some (Ok ev) -> ev_kind ev = Request ->
  exists m p, event_method ev = Some m /\ event_payload ev = Some p.
Proof.
  intros Hw E K. destruct (rpc_event_readable f Hw) as (r & Er & Hev). rewrite E in Er. injection Er as <-.
  destruct (Hev ev eq_refl) as (_ & [p Hp] & _ & _ & Hm). destruct (Hm K) as [m Hmm]. eauto.
Qed.

(** The errors of the methods the broker has. *)
Definition method_errors (r : RpcResult) : Prop :=
  forall e, r = Err e ->
    rpc_code e ∈ [RPC_ERROR_CODE_INVALID_METHOD_PARAMS; RPC_ERROR_CODE_PARSE; RPC_ERROR_CODE_INTERNAL].

Lemma no_params_errors payload r : method_errors r -> method_errors (no_params payload r).
Proof. intros Hr. destruct payload; [done|]. intros e [= <-]. left. Qed.

Lemma encoded_errors r : method_errors (encoded r).
Proof. destruct r as [b|e]; [done|]. intros e' [= <-]. cbn. set_solver. Qed.

Lemma client_list_errors payload d : method_errors (client_list payload d).
Proof.
  unfold client_list. destruct payload as [|b payload].
  - cbn. apply encoded_errors.
  - destruct (cd_params_from_slice (b :: payload)) as [[f|]|e]; cbn;
      [|apply encoded_errors|intros ? [= <-]; cbn; set_solver].
    destruct (cd_regex_new f); cbn; [apply encoded_errors|intros ? [= <-]; cbn; set_solver].
Qed.

Definition methods : list str := [lit "benchmark.test"; lit "test"; lit "info"; lit "stats"; lit "client.list"].

Lemma call_method_known elapsed m payload d : m ∈ methods -> method_errors (call_method elapsed m payload d).
Proof.
  unfold methods. rewrite !elem_of_cons, elem_of_nil. unfold call_method. intros Hm.
  case_decide; [done|]. case_decide; [by apply no_params_errors|].
  case_decide; [apply no_params_errors, encoded_errors|]. case_decide; [apply no_params_errors, encoded_errors|].
  case_decide; [apply client_list_errors|]. tauto.
Qed.

Lemma call_method_unknown elapsed m payload d :
  m ∉ methods -> call_method elapsed m payload d = Err (RpcError_method None).
Proof.
  unfold methods. rewrite !not_elem_of_cons. intros (? & ? & ? & ? & ? & _). unfold call_method.
  by rewrite !decide_False by done.
Qed.
End facts.

(** C39: [client.list] answers with the registered primaries whose names the filter matches, in
    strict order of their names, each with its counters and with the number of names registered
    under it; a list that cannot be encoded is an internal error, and parameters or expressions
    that cannot be read are parse errors. *)
Theorem client_list_spec {X : Externals} `{!ExternalsLaws X} {C : Codec} payload d :
  db_wf d ->
  (forall re, asks payload re -> exists l,
     StronglySorted (fun a b => str_lt (ci_name a) (ci_name b) = true) l /\
     (forall info, info ∈ l <->
        exists c v, heap d !! c = Some v /\ registered v = true /\ primary v = true /\
          (forall r, re = Some r -> cd_is_match r (name v) = true) /\ info = client_info v /\
          ci_instances info = Z.of_nat (size (instance_names d (name v)))) /\
     client_list payload d = match cd_list_to_vec l with
                             | Ok data => Ok (Some data)
                             | Err e => Err (MkRpcError RPC_ERROR_CODE_INTERNAL (Some e))
                             end) /\
  (forall e, payload <> [] -> cd_params_from_slice payload = Err e ->
     client_list payload d = Err (MkRpcError RPC_ERROR_CODE_PARSE (Some e))) /\
  (forall f e, payload <> [] -> cd_params_from_slice payload = Ok (Some f) -> cd_regex_new f = Err e ->
     client_list payload d = Err (MkRpcError RPC_ERROR_CODE_PARSE (Some e))).
Proof.
  intros D. split_and!.
  - intros re Ha. exists (collect_clients re d). split_and!.
    + apply sorted_strict; [apply StronglySorted_merge_sort; apply _|by apply collect_NoDup].
    + intros info. rewrite collect_elem. unfold listed. split.
      * intros (n & c & v & Hc & Hv & [P Hm]%andb_true_iff & ->).
        destruct (cw_clients d (proj1 D) n c Hc) as (v' & Hv' & _ & R). assert (v' = v) as -> by congruence.
        exists c, v. split_and!; [done..| |done|by eapply instances_count]. by intros r ->.
      * intros (c & v & Hv & R & P & Hm & -> & _). exists (name v), c, v.
        split_and!; [by apply (cw_registered d (proj1 D))|done| |done]. rewrite P. cbn.
        destruct re as [r|]; [by apply Hm|done].
    + rewrite (client_list_run payload re d Ha). unfold encoded. by destruct (cd_list_to_vec _).
  - intros e Hne E. unfold client_list. destruct payload; [done|]. by rewrite E.
  - intros f e Hne E Er. unfold client_list. destruct payload; [done|]. rewrite E. cbn. by rewrite Er.
Qed.

(** Every request the broker's RPC client can receive gets an answer; it is an error only
    for an unknown method, parameters where none are expected, text that is not UTF-8, or a
    failure to decode or encode, with the code the protocol has for it. *)
Theorem handle_call_total {X : Externals} {C : Codec} elapsed f ev d :
  frame_wf f -> RpcEvent_try_from f = Some (Ok ev) -> ev_kind ev = Request ->
  exists m r, event_method ev = Some m /\ handle_call elapsed ev d = Some r /\
    (is_str m = false -> exists e, r = Err e /\ rpc_code e = -32000 - u8_val ERR_DATA) /\
    (is_str m = true -> m ∉ methods -> r = Err (MkRpcError RPC_ERROR_CODE_METHOD_NOT_FOUND None)) /\
    (is_str m = true -> m ∈ methods -> forall e, r = Err e ->
       rpc_code e ∈ [RPC_ERROR_CODE_INVALID_METHOD_PARAMS; RPC_ERROR_CODE_PARSE; RPC_ERROR_CODE_INTERNAL]).
Proof.
  intros Hw E K. destruct (handle_call_readable f ev Hw E K) as (m & p & Hm & Hp).
  unfold handle_call, event_parse_method. rewrite Hm, Hp. cbn [mbind option_bind].
  destruct (from_utf8 m) as [m'|ue] eqn:Eu; cbn [map_err]; exists m; eexists; (split; [done|split; [done|]]).
  - apply from_utf8_Ok in Eu as [-> Hs]. rewrite Hs. split_and!; [done|..]; intros _ Hin.
    + by apply call_method_unknown.
    + by apply call_method_known.
  - assert (Hs : is_str m = false).
    { destruct (is_str m) eqn:Hs; [|done]. apply from_utf8_str in Hs. congruence. }
    rewrite Hs. split_and!; [|done..]. intros _. eexists. split; [done|]. done.
Qed.
