(* ===== verification/CoreRpc.v ===== *)
(** * Calls to the broker itself

    The RPC client the broker runs under its own name: one turn of its [processor] with the
    handlers of [BrokerRpc], and the reply it sends through its bus client. [core_call_answered]
    follows a call from a client's [send] to the event that resolves it. The bus client's mutex is
    held while the reply is sent: [core_reply_deadlock]. *)
From S2P Require Export BrokerRpc InternalClient Delivery Announce.

Section core.
Context {X : Externals} {C : Codec}.

(** [RpcClient::new]: the default options. *)
Definition core_opts : ProcessorOptions := MkOptions false false.

(** One turn of [processor] with the broker's handlers, and the task it spawns for a request.
    Notifications and other frames are ignored by the default handlers; the broker makes no calls,
    so every reply is an orphan. *)
Definition core_turn (elapsed : Z) (frame : FrameData) : prog BrokerDb Error unit := fun d =>
  match processor_step core_opts frame RpcState_new with
  | None => Panic
  | Some (HandleCall ev reply_to qos, _) =>
      match handle_call elapsed ev d with
      | None => Panic
      | Some res =>
          match reply_to with
          | Some (target, id) => core_send_reply target (reply_parts id res).1 (reply_parts id res).2 qos d
          | None => Done tt d
          end
      end
  | Some _ => Done tt d
  end.

(** The processor takes the next frame off the queue of its bus client. *)
Definition core_takes (elapsed : Z) : prog BrokerDb Error unit :=
  gets rpc_client ≫= fun rpc =>
  match rpc with
  | None => hang
  | Some bus =>
      deref bus ≫= fun cl =>
      match ch_recv (tx cl) with
      | Some (frame, q) => upd bus (set_tx q) ≫= fun _ => core_turn elapsed frame
      | None => hang
      end
  end.

(** The answer to a call. *)
Definition core_answer (elapsed : Z) (method params : bytes) (d : BrokerDb) : RpcResult :=
  match from_utf8 method with
  | Ok m => call_method elapsed m params d
  | Err e => Err (RpcError_from_Error (Error_from_utf8 e))
  end.

Lemma handle_call_answer elapsed ev method params d :
  event_method ev = Some method -> event_payload ev = Some params ->
  handle_call elapsed ev d = Some (core_answer elapsed method params d).
Proof.
  intros Hm Hp. unfold handle_call, event_parse_method, core_answer. rewrite Hm, Hp. cbn.
  by destruct (from_utf8 method).
Qed.

(** Error codes fit their sixteen bits. *)
Lemma core_answer_codes elapsed method params d :
  match core_answer elapsed method params d with Ok _ => True | Err e => - 2 ^ 15 <= rpc_code e < 2 ^ 15 end.
Proof.
  unfold core_answer. destruct (from_utf8 method) as [m|e]; [|done].
  destruct (call_method elapsed m params d) as [|e] eqn:E; [done|].
  destruct (decide (m ∈ methods)) as [Hm|Hm].
  - pose proof (call_method_known elapsed m params d Hm e E) as Hc.
    rewrite !elem_of_cons, elem_of_nil in Hc. destruct Hc as [->|[->|[->|[]]]]; done.
  - rewrite call_method_unknown in E by done. by injection E as <-.
Qed.
End core.

Section facts.
Context {X : Externals} `{!ExternalsLaws X} {C : Codec}.

(** A turn with a request that wants a reply. *)
Lemma core_turn_request elapsed frame method params from id d :
  0 < id < 2 ^ 32 -> x00 ∉ method -> frame_kind frame = FrameKind_Message -> frame_sender frame = Some from ->
  carried (prepare_call_payload method (to_le_bytes 4 id)) params frame ->
  let parts := reply_parts id (core_answer elapsed method params d) in
  core_turn elapsed frame d =
    core_send_reply from parts.1 parts.2 (if frame_realtime frame then QoS_RealtimeProcessed else QoS_Processed) d.
Proof.
  intros Hid Hm Hk Hs Hc.
  destruct (processor_request core_opts method params from id frame RpcState_new) as (ev & E & Em & Ep);
    [lia|done..|].
  unfold core_turn. by rewrite E, (handle_call_answer elapsed ev method params d Em Ep).
Qed.

(** The frame of a reply is the event of the call. *)
Lemma reply_frame_event from id res qos :
  0 < id < 2 ^ 32 -> match res with Ok _ => True | Err e => - 2 ^ 15 <= rpc_code e < 2 ^ 15 end ->
  exists ev,
    RpcEvent_try_from (MkFrame FrameKind_Message from None (Some (reply_parts id res).1) (reply_parts id res).2 0 qos)
      = Some (Ok ev) /\ event_id ev = Some id /\ event_payload ev = Some (reply_parts id res).2 /\
    call_finish ev = Some match res with
                          | Ok _ => Ok ev
                          | Err e => Err (MkRpcError (rpc_code e) (Some (default [] (rpc_data e))))
                          end.
Proof.
  intros Hid Hcode.
  destruct (carried_reply id res (MkFrame FrameKind_Message from None (Some (reply_parts id res).1)
    (reply_parts id res).2 0 qos)) as (ev & E & _ & Ei & Ep & Ef); [lia|done| |by exists ev].
  left. split; [done|]. apply slice_from_0.
Qed.

(** A message to a client whose queue is ready. *)
Definition sent_to (c t : nat) (len : Z) (q : ext_queue) (d : BrokerDb) : BrokerDb :=
  db_upd t (set_tx q) (db_count_w 1 len (db_upd t (count_w len) (db_count_r 1 len (db_upd c (count_r len) d)))).

Lemma send_ready_run u d c from t y target header buf pos len realtime timeout :
  heap d !! c = Some from -> clients d !! target = Some t -> heap d !! t = Some y -> ready y ->
  send_with u c target header buf pos len realtime timeout d =
    Done tt (sent_to c t len
      (ch_push (MkFrame FrameKind_Message (Some (name from)) None header buf pos realtime) (tx y)) d).
Proof.
  intros Hc Ht Hy Hr. unfold send_with.
  rewrite (bind_Done _ _ _ _ _ (count_incoming_run c len d)).
  set (d1 := db_count_r 1 len (db_upd c (count_r len) d)).
  rewrite (bind_Done (gets (fun d => clients d !! target)) _ d1 (clients d1 !! target) d1 eq_refl).
  change (clients d1) with (clients d). rewrite Ht.
  rewrite (bind_Done (upd _ _) _ _ tt _ eq_refl), (bind_Done (modify _) _ _ tt _ eq_refl).
  set (d2 := db_count_w 1 len (db_upd t (count_w len) d1)).
  assert (Hfrom : exists from2, heap d2 !! c = Some from2 /\ name from2 = name from).
  { eexists. split; [apply heap_db_upd; eexists; split; [apply heap_db_upd; eexists; split; [done|reflexivity]|reflexivity]|].
    by repeat case_decide. }
  destruct Hfrom as (from2 & Hf2 & <-). rewrite (bind_Done _ _ _ _ _ (deref_Some _ _ _ Hf2)).
  assert (Hy2 : exists y2, heap d2 !! t = Some y2 /\ tx y2 = tx y).
  { eexists. split; [apply heap_db_upd; eexists; split; [apply heap_db_upd; eexists; split; [done|reflexivity]|reflexivity]|].
    by repeat case_decide. }
  destruct Hy2 as (y2 & Hy2 & E). rewrite <- E. apply safe_send_ready; [done|]. unfold ready. by rewrite E.
Qed.

(** What a message changes: only the receiver's queue, and counters. *)
Lemma sent_to_heap c t len q d x y :
  heap d !! x = Some y -> exists y', heap (sent_to c t len q d) !! x = Some y' /\ name y' = name y /\
    tx y' = (if decide (t = x) then q else tx y).
Proof.
  intros Hy. eexists. split.
  - apply heap_db_upd. eexists. split; [apply heap_db_upd; eexists; split; [apply heap_db_upd; eexists; split; [done|]|]|];
      reflexivity.
  - by do 2 case_decide.
Qed.

Lemma sent_to_agree c t len q d : agree d (sent_to c t len q d).
Proof.
  eapply agree_trans; [apply (agree_upd c (count_r len)), inert_count_r|].
  eapply agree_trans; [|apply agree_upd, (inert_set_tx (fun _ => q))].
  eapply agree_trans; [by apply (agree_same_heap _ (db_count_r 1 len (db_upd c (count_r len) d)))|].
  eapply agree_trans; [apply (agree_upd t (count_w len)), inert_count_w|]. by apply agree_same_heap.
Qed.

(** The reply to a caller that is ready to take it. *)
Lemma core_send_reply_ready d bus cl target t y header payload qos :
  rpc_client d = Some bus -> bus_lock d = false -> heap d !! bus = Some cl ->
  clients d !! target = Some t -> heap d !! t = Some y -> ready y ->
  core_send_reply target header payload qos d =
    Done tt (set_bus_lock false (sent_to bus t (InternalClient.blen payload + InternalClient.blen header)
      (ch_push (MkFrame FrameKind_Message (Some (name cl)) None (Some header) payload 0 (is_realtime qos)) (tx y))
      (set_bus_lock true d))).
Proof.
  intros Hr Hl Hb Ht Hy Hrd. unfold core_send_reply, on_core. rewrite (bind_Done (gets rpc_client) _ d (Some bus) d); [|by unfold gets; rewrite Hr].
  unfold with_bus_lock. rewrite Hl. unfold client_zc_send, mbind, prog_bind, attempt, send.
  by rewrite (send_ready_run _ (set_bus_lock true d) bus cl t y) by done.
Qed.
(** [f] brings the result [res] of the call [id]. *)
Definition answers (id : Z) (res : RpcResult) (f : FrameData) : Prop :=
  exists ev, RpcEvent_try_from f = Some (Ok ev) /\ event_id ev = Some id /\
    event_payload ev = Some (reply_parts id res).2 /\
    call_finish ev = Some match res with
                          | Ok _ => Ok ev
                          | Err e => Err (MkRpcError (rpc_code e) (Some (default [] (rpc_data e))))
                          end.

(** A turn that answers a caller that is ready. *)
Lemma core_turn_answers elapsed req d b caller bus core method params id :
  db_wf d -> rpc_client d = Some bus -> heap d !! bus = Some core -> bus_lock d = false ->
  heap d !! b = Some caller -> registered caller = true -> ready caller ->
  0 < id < 2 ^ 32 -> x00 ∉ method -> frame_kind req = FrameKind_Message -> frame_sender req = Some (name caller) ->
  carried (prepare_call_payload method (to_le_bytes 4 id)) params req ->
  exists d' caller' f,
    core_turn elapsed req d = Done tt d' /\ db_wf d' /\ bus_lock d' = false /\
    heap d' !! b = Some caller' /\ ch_items (tx caller') = ch_items (tx caller) ++ [f] /\
    frame_sender f = Some (name core) /\ answers id (core_answer elapsed method params d) f.
Proof.
  intros D Hrpc Hcore Hlock Hb Hreg Hready Hid Hm Hk Hs Hc.
  rewrite (core_turn_request elapsed req method params (name caller) id) by done. cbv zeta.
  set (res := core_answer elapsed method params d). set (qos := if frame_realtime req then _ else _).
  rewrite (core_send_reply_ready d bus core (name caller) b caller); [|exact Hrpc|exact Hlock|exact Hcore|
    by apply (cw_registered d (proj1 D))|exact Hb|exact Hready].
  set (q := ch_push _ _). set (n := InternalClient.blen _ + _).
  destruct (sent_to_heap bus b n q (set_bus_lock true d) b caller Hb) as (caller' & Hb' & _ & Et).
  rewrite decide_True in Et by done. destruct Hready as [Hf Ho].
  eexists _, caller', _. split_and!; [reflexivity| |reflexivity|exact Hb'| | |].
  - eapply agree_wf; [|exact D].
    eapply agree_trans; [by apply (agree_same_heap d (set_bus_lock true d))|].
    eapply agree_trans; [apply sent_to_agree|]. by apply agree_same_heap.
  - rewrite Et. by apply ch_push_spec.
  - reflexivity.
  - apply reply_frame_event; [exact Hid|apply core_answer_codes].
Qed.

(** What the RPC client of the broker does with the only frame of its queue. *)
Lemma core_takes_run elapsed d bus core frame :
  rpc_client d = Some bus -> heap d !! bus = Some core -> ch_items (tx core) = [frame] ->
  exists q, core_takes elapsed d = core_turn elapsed frame (db_upd bus (set_tx q) d).
Proof.
  intros Hr Hc Hi. unfold core_takes.
  rewrite (bind_Done (gets rpc_client) _ d (Some bus) d); [|by unfold gets; rewrite Hr].
  rewrite (bind_Done _ _ _ _ _ (deref_Some _ _ _ Hc)).
  destruct (ch_recv (tx core)) as [[f q]|] eqn:E; [|apply ch_recv_None in E; congruence].
  apply ch_recv_Some in E as (E & _). exists q. rewrite Hi in E. by injection E as <- _.
Qed.
End facts.

(** C16: a call to the broker is answered: the request a ready client sends is the next frame the
    broker's RPC client takes, and the frame it puts into the caller's queue is the caller's event with
    the id of the call and the result of the method (or its error code and data), computed on a
    database that differs in queues and counters only. *)
Theorem core_call_answered {X : Externals} `{!ExternalsLaws X} {C : Codec}
    elapsed d b caller bus core method params qos id :
  db_wf d -> rpc_client d = Some bus -> clients d !! BROKER_NAME = Some bus -> heap d !! bus = Some core ->
  bus_lock d = false -> ready core -> ch_items (tx core) = [] ->
  heap d !! b = Some caller -> registered caller = true -> ready caller -> b <> bus ->
  0 < id < 2 ^ 32 -> x00 ∉ method ->
  exists d1 d2 d3 caller' f,
    client_zc_send b BROKER_NAME (prepare_call_payload method (to_le_bytes 4 id)) params qos d
      = Done (make_confirm_channel qos) d1 /\
    core_takes elapsed d1 = Done tt d3 /\ db_wf d3 /\ bus_lock d3 = false /\
    heap d3 !! b = Some caller' /\ ch_items (tx caller') = ch_items (tx caller) ++ [f] /\
    frame_sender f = Some BROKER_NAME /\
    agree d d2 /\ answers id (core_answer elapsed method params d2) f.
Proof.
  intros D Hrpc Hbus Hcore Hlock Hready Hempty Hb Hreg Hrb Hne Hid Hm.
  set (hdr := prepare_call_payload method (to_le_bytes 4 id)).
  set (req := MkFrame FrameKind_Message (Some (name caller)) None (Some hdr) params 0 (is_realtime qos)).
  set (len := InternalClient.blen params + InternalClient.blen hdr). set (q1 := ch_push req (tx core)).
  set (d1 := sent_to b bus len q1 d).
  destruct (sent_to_heap b bus len q1 d bus core Hcore) as (core1 & Hcore1 & Ecore1 & Etx1).
  rewrite decide_True in Etx1 by done.
  destruct (sent_to_heap b bus len q1 d b caller Hb) as (caller1 & Hb1 & Eb1 & Etxb1).
  rewrite decide_False in Etxb1 by done.
  assert (Hi : ch_items (tx core1) = [req]).
  { rewrite Etx1. unfold q1. destruct (ch_push_spec req (tx core)) as (Hi & _); [apply Hready..|]. by rewrite Hi, Hempty. }
  destruct (core_takes_run elapsed d1 bus core1 req Hrpc Hcore1 Hi) as (q & Erun).
  set (d2 := db_upd bus (set_tx q) d1) in *.
  assert (A : agree d d2).
  { eapply agree_trans; [apply sent_to_agree|]. apply agree_upd, (inert_set_tx (fun _ => q)). }
  assert (Hcore2 : heap d2 !! bus = Some (set_tx q core1)).
  { apply heap_db_upd. exists core1. by rewrite decide_True. }
  assert (Hb2 : heap d2 !! b = Some caller1).
  { apply heap_db_upd. exists caller1. by rewrite decide_False. }
  assert (Hreg1 : registered caller1 = true).
  { destruct (ag_to _ _ A _ _ Hb) as (c' & Hc' & (_ & _ & _ & _ & R & _)). simplify_eq. by rewrite R. }
  destruct (core_turn_answers elapsed req d2 b caller1 bus (set_tx q core1) method params id)
    as (d3 & caller' & f & E & D3 & L3 & Hb3 & I3 & S3 & An); try assumption; try exact Hcore2.
  - by eapply agree_wf.
  - unfold ready. by rewrite Etxb1.
  - reflexivity.
  - cbn. by rewrite Eb1.
  - left. split; [done|apply slice_from_0].
  - exists d1, d2, d3, caller', f. split_and!; try assumption.
    + unfold client_zc_send, send, mbind, prog_bind. by rewrite (send_ready_run _ d b caller bus core) by done.
    + by rewrite Erun.
    + by rewrite I3, Etxb1.
    + rewrite S3. change (Some (name core1) = Some BROKER_NAME). rewrite Ecore1.
      destruct (cw_clients d (proj1 D) _ _ Hbus) as (y & Hy & En & _). congruence.
Qed.

(** C29: the reply of the broker's RPC client to a caller whose queue is full deadlocks: the caller
    (a registered primary that is not internal) is unregistered, which is announced through the same
    bus client, whose mutex the reply holds. The task waits for ever, and so do from then on every
    announcement and every other reply. *)
Theorem core_reply_deadlock {X : Externals} `{!ExternalsLaws X} {C : Codec}
    elapsed d t y bus frame method params id :
  db_wf d -> rpc_client d = Some bus -> rpc_lock d = false -> bus_lock d = false ->
  heap d !! t = Some y -> registered y = true -> primary y = true -> ckind y <> Internal ->
  ch_is_full (tx y) = true ->
  0 < id < 2 ^ 32 -> x00 ∉ method -> frame_kind frame = FrameKind_Message -> frame_sender frame = Some (name y) ->
  carried (prepare_call_payload method (to_le_bytes 4 id)) params frame ->
  exists d', core_turn elapsed frame d = Hang d' /\ clients d' !! name y = None /\
    (forall event, announce event d' = Hang d') /\
    (forall target header payload qos, core_send_reply target header payload qos d' = Hang d').
Proof.
  intros D Hrpc Hrl Hbl Hy Hr Hp Hk Hfull Hid Hm Hfk Hs Hc.
  rewrite (core_turn_request elapsed frame method params (name y) id) by done. cbv zeta.
  destruct (cw_rpc d (proj1 D) _ Hrpc) as [core Hcore].
  set (parts := reply_parts _ _). set (qos := if frame_realtime frame then _ else _).
  unfold core_send_reply, on_core. rewrite (bind_Done (gets rpc_client) _ d (Some bus) d); [|by unfold gets; rewrite Hrpc].
  unfold with_bus_lock at 1. rewrite Hbl.
  destruct (send_full_hangs (set_bus_lock true d) bus bus core t y (Some parts.1) parts.2 0
    (InternalClient.blen parts.2 + InternalClient.blen parts.1) (is_realtime qos))
    as (d' & E & Hl & Hb & Hcl & Hn); try done; [eapply agree_wf; [|exact D]; by apply agree_same_heap|by right|].
  exists d'. split_and!; [|done|intros event; by apply announce_locked|].
  - unfold client_zc_send, mbind, prog_bind, attempt. by rewrite E.
  - intros target header payload qos'. rewrite (bind_Done (gets rpc_client) _ d' (Some bus) d');
      [|by unfold gets; rewrite Hcl]. unfold with_bus_lock. by rewrite Hb.
Qed.
