(* ===== verification/RpcScenarios.v ===== *)
(** * Concrete runs of the broker's RPC methods *)
From S2P Require Export CoreRpc Scenarios.

(** Lists are encoded as their names, one per line; an expression matches the names it begins. *)
#[global] Instance ref_codec : Codec := {|
  cd_list_to_vec l := Ok (concat (map (fun i => ci_name i ++ lit ";") l));
  cd_stats_to_vec s := Ok (fmt_z (st_r_frames s));
  cd_info_to_vec i := Ok (author i);
  cd_params_from_slice p := if decide (p = lit "?") then Err (lit "bad") else Ok (Some p);
  cd_regex := str;
  cd_regex_new f := Ok f;
  cd_is_match r n := bool_decide (take (length r) n = r);
  cd_author := lit "(c) 2022 Bohemia Automation / Altertech";
  cd_version := lit "0.5.6";
|}.

(** Four names, one of them a secondary's. *)
Definition crowd : BrokerDb :=
  run false [Register 8 (lit "plant.2"); Register 8 (lit "core"); joins (lit "plant.1");
             RegisterSecondary 8 (MkInternal (lit "plant.2") 0 (Some tt) 0)].

Lemma client_list_spec_witness :
  exists l, StronglySorted (fun a b => str_lt (ci_name a) (ci_name b) = true) l /\
    client_list (lit "plant") crowd = Ok (Some (concat (map (fun i => ci_name i ++ lit ";") l))) /\
    client_list (lit "plant") crowd = Ok (Some (lit "plant.1;plant.2;")) /\
    client_info (at_ptr crowd 0) ∈ l /\ ci_instances (client_info (at_ptr crowd 0)) = 2.
Proof.
  destruct (proj1 (client_list_spec (C := ref_codec) (lit "plant") crowd (run_wf _ _)) (Some (lit "plant"))) as (l & Hs & Hin & E).
  - by apply (asks_some (C := ref_codec) _ (lit "plant") (lit "plant")).
  - exists l. split_and!; [exact Hs|exact E|concrete| |concrete].
    apply Hin. exists 0%nat, (at_ptr crowd 0).
    split_and!; [apply at_ptr_lookup; concrete|concrete|concrete| |done|concrete].
    intros r [= <-]. concrete.
Defined.

Definition stats_call : FrameData :=
  MkFrame FrameKind_Message (Some (lit "core")) None None
    (prepare_call_payload (lit "stats") (to_le_bytes 4 1)) 0 false.

Lemma handle_call_total_witness :
  exists ev r, RpcEvent_try_from stats_call = Some (Ok ev) /\ handle_call 0 ev crowd = Some r /\
    forall e, r = Err e ->
      rpc_code e ∈ [RPC_ERROR_CODE_INVALID_METHOD_PARAMS; RPC_ERROR_CODE_PARSE; RPC_ERROR_CODE_INTERNAL].
Proof.
  eexists. destruct (handle_call_total 0 stats_call (MkRpcEvent Request stats_call 11 false) crowd)
    as (m & r & Hm & Hr & _ & _ & He).
  - split; cbn; lia.
  - concrete.
  - done.
  - exists r. vm_compute in Hm. injection Hm as <-. split_and!; [concrete|exact Hr|]. apply He; [concrete|].
    apply (bool_decide_eq_true _). concrete.
Defined.

(** *** Calls to the broker *)

Definition with_core : BrokerDb := run false [InitCoreRpc 8; Register 8 (lit "caller")].

Lemma core_call_answered_witness :
  exists d1 d3 caller' f,
    client_zc_send 1 BROKER_NAME (prepare_call_payload (lit "test") (to_le_bytes 4 7)) [] QoS_No with_core = Done None d1 /\
    core_takes 0 d1 = Done tt d3 /\ heap d3 !! 1%nat = Some caller' /\ ch_items (tx caller') = [f] /\
    answers 7 (Ok (Some RPC_OK)) f.
Proof.
  destruct (core_call_answered (C := ref_codec) 0 with_core 1 (at_ptr with_core 1) 0 (at_ptr with_core 0) (lit "test") [] QoS_No 7)
    as (d1 & d2 & d3 & caller' & f & E1 & E3 & _ & _ & Hb & Hi & _ & _ & Ha).
  - apply run_wf.
  - concrete.
  - concrete.
  - apply at_ptr_lookup; concrete.
  - concrete.
  - split; concrete.
  - concrete.
  - apply at_ptr_lookup; concrete.
  - concrete.
  - split; concrete.
  - done.
  - done.
  - apply (bool_decide_eq_true _). concrete.
  - exists d1, d3, caller', f. split_and!; [exact E1|exact E3|exact Hb| |exact Ha].
    etransitivity; [exact Hi|]. replace (ch_items (tx (at_ptr with_core 1))) with (@nil FrameData); [done|]. concrete.
Defined.

Lemma core_reply_deadlock_witness :
  exists d', core_turn (C := ref_codec) 0 stats_call slow_target = Hang d' /\
    (forall event, announce event d' = Hang d') /\ clients slow_target !! lit "core" = Some 1%nat /\
    clients d' !! lit "core" = None.
Proof.
  destruct (core_reply_deadlock (C := ref_codec) 0 slow_target 1 (at_ptr slow_target 1) 0 stats_call (lit "stats") [] 1)
    as (d' & E & Hn & Ha & _).
  - apply run_wf.
  - concrete.
  - concrete.
  - concrete.
  - apply at_ptr_lookup; concrete.
  - concrete.
  - concrete.
  - by vm_compute.
  - concrete.
  - done.
  - apply (bool_decide_eq_true _). concrete.
  - done.
  - concrete.
  - right. split; concrete.
  - exists d'. split_and!; [exact E|exact Ha|concrete|exact Hn].
Defined.
