(* ===== verification/Cursors.v ===== *)
(** * Server-side cursors ([src/cursors.rs])

    An RPC service keeps the cursors it handed out in a [Map] under random ids: every use of a
    cursor moves its deadline, and a cleaner task removes the finished and the expired ones.
    Cursors are the service's own type, a class; the clock is an argument. *)
From S2P Require Export Rpc.

(** [Meta]: deadlines and durations are numbers of the clock's units. *)
Record Meta := MkMeta {
  finished : bool;
  expires : Z;
  ttl : Z;
}.

Definition Meta_new (now ttl : Z) : Meta := MkMeta false (now + ttl) ttl.
Definition is_finished (m : Meta) : bool := finished m.
Definition is_expired (now : Z) (m : Meta) : bool := expires m <? now.
Definition mark_finished (m : Meta) : Meta := MkMeta true (expires m) (ttl m).
Definition is_alive (now : Z) (m : Meta) : bool := negb (is_finished m) && negb (is_expired now m).
Definition touch (now : Z) (m : Meta) : Meta := MkMeta (finished m) (now + ttl m) (ttl m).

(** [trait Cursor]. Its methods take [&self]: a cursor changes through the cells inside it. *)
Class Cursor (C : Type) := {
  cursor_next : C -> result (option bytes) RpcError * C;
  cursor_next_bulk : Z -> C -> result bytes RpcError * C;
  cursor_meta : C -> Meta;
  (** The cursor after an update of the cells of its [Meta]. *)
  cursor_set_meta : Meta -> C -> C;
}.

(** The fields of [Meta] are private: a cursor can only mark itself finished. *)
Class CursorLaws (C : Type) `{Cursor C} := {
  cursor_meta_set m c : cursor_meta (cursor_set_meta m c) = m;
  cursor_next_meta c :
    cursor_meta (snd (cursor_next c)) = cursor_meta c \/
    cursor_meta (snd (cursor_next c)) = mark_finished (cursor_meta c);
  cursor_next_bulk_meta n c :
    cursor_meta (snd (cursor_next_bulk n c)) = cursor_meta c \/
    cursor_meta (snd (cursor_next_bulk n c)) = mark_finished (cursor_meta c);
}.

(** [Payload]: the id of a cursor and the number of records wanted. *)
Record Payload := MkPayload { u : Z; n : option Z }.
Definition Payload_from (id : Z) : Payload := MkPayload id None.
Definition bulk_number (p : Payload) : Z := default 1 (n p).
Definition set_bulk_number (k : Z) (p : Payload) : Payload := MkPayload (u p) (Some k).
Definition clear_bulk_number (p : Payload) : Payload := MkPayload (u p) None.

Section map.
Context {C : Type} `{Cursor C}.

(** [Map]; [add] draws the id. *)
Definition map_add (id : Z) (c : C) (m : gmap Z C) : gmap Z C := <[ id := c ]> m.
Definition map_remove (id : Z) (m : gmap Z C) : gmap Z C := delete id m.

Definition touched (now : Z) (c : C) : C := cursor_set_meta (touch now (cursor_meta c)) c.

Definition map_next (now id : Z) (m : gmap Z C) : result (option bytes) RpcError * gmap Z C :=
  match m !! id with
  | Some cursor => let '(r, c) := cursor_next (touched now cursor) in (r, <[ id := c ]> m)
  | None => (Err (RpcError_not_found None), m)
  end.

Definition map_next_bulk (now id count : Z) (m : gmap Z C) : result (option bytes) RpcError * gmap Z C :=
  match m !! id with
  | Some cursor =>
      let '(r, c) := cursor_next_bulk count (touched now cursor) in
      (match r with Ok v => Ok (Some v) | Err e => Err e end, <[ id := c ]> m)
  | None => (Err (RpcError_not_found None), m)
  end.

(** One turn of the task of [spawn_cleaner]. *)
Definition clean (now : Z) (m : gmap Z C) : gmap Z C :=
  filter (fun kv => is_alive now (cursor_meta kv.2) = true) m.

(** What happens to a map, and when. *)
Inductive event :=
| Add (id : Z) (c : C)
| Remove (id : Z)
| Next (id : Z)
| NextBulk (id count : Z)
| Tick.

Definition apply_event (now : Z) (e : event) (m : gmap Z C) : gmap Z C :=
  match e with
  | Add id c => map_add id c m
  | Remove id => map_remove id m
  | Next id => snd (map_next now id m)
  | NextBulk id count => snd (map_next_bulk now id count m)
  | Tick => clean now m
  end.

Definition run_events (es : list (Z * event)) (m : gmap Z C) : gmap Z C :=
  foldl (fun m te => apply_event te.1 te.2 m) m es.

(** Is the event a use of the cursor, or does it take its id? *)
Definition uses (id : Z) (e : event) : bool :=
  match e with Next i | NextBulk i _ => bool_decide (i = id) | _ => false end.
Definition replaces (id : Z) (e : event) : bool :=
  match e with Add i _ | Remove i => bool_decide (i = id) | _ => false end.
Definition adds (id : Z) (e : event) : bool :=
  match e with Add i _ => bool_decide (i = id) | _ => false end.

(** The deadline moves with every use, no cleaner comes later than the deadline or finds the
    cursor finished, and nobody takes the cursor away. *)
Fixpoint in_time (id ttl deadline : Z) (es : list (Z * event)) (m : gmap Z C) : bool :=
  match es with
  | [] => true
  | (now, e) :: es =>
      negb (replaces id e) &&
      match e with
      | Tick => (now <=? deadline) && match m !! id with Some c => negb (is_finished (cursor_meta c)) | None => false end
      | _ => true
      end &&
      in_time id ttl (if uses id e then now + ttl else deadline) es (apply_event now e m)
  end.
End map.
Arguments event C : clear implicits.

(** ** Facts *)

Section facts.
Context {C : Type} `{Cursor C} `{!CursorLaws C}.

Lemma run_events_cons now e es m : run_events ((now, e) :: es) m = run_events es (apply_event now e m).
Proof. done. Qed.

(** A cursor with this deadline and time to live. *)
Definition due (deadline ttl' : Z) (c : C) : Prop := expires (cursor_meta c) = deadline /\ ttl (cursor_meta c) = ttl'.

Lemma marked_same (m m' : Meta) : m' = m \/ m' = mark_finished m -> expires m' = expires m /\ ttl m' = ttl m.
Proof. by intros [->| ->]. Qed.

(** A use finds the cursor if it is there and moves its deadline. *)
Lemma use_event now e id m c :
  uses id e = true -> m !! id = Some c ->
  exists c', apply_event now e m = <[ id := c' ]> m /\ due (now + ttl (cursor_meta c)) (ttl (cursor_meta c)) c'.
Proof.
  intros Hu Hm. destruct e as [| |i|i k|]; try done; apply bool_decide_eq_true in Hu as ->; cbn [apply_event].
  - unfold map_next. rewrite Hm. destruct (cursor_next _) as [r c'] eqn:E. exists c'. split; [done|].
    pose proof (cursor_next_meta (touched now c)) as Hn. rewrite E in Hn. apply marked_same in Hn. unfold touched in Hn.
    by rewrite cursor_meta_set in Hn.
  - unfold map_next_bulk. rewrite Hm. destruct (cursor_next_bulk k _) as [r c'] eqn:E. exists c'. split; [done|].
    pose proof (cursor_next_bulk_meta k (touched now c)) as Hn. rewrite E in Hn. apply marked_same in Hn.
    unfold touched in Hn. by rewrite cursor_meta_set in Hn.
Qed.

(** Any other event leaves the cursor alone, unless the cleaner removes it. *)
Lemma other_event now e id m :
  uses id e = false -> adds id e = false ->
  apply_event now e m !! id = m !! id \/ apply_event now e m !! id = None.
Proof.
  intros Hu Ha. destruct e as [i c|i|i|i k|]; cbn [apply_event].
  - apply bool_decide_eq_false in Ha. left. by apply lookup_insert_ne.
  - unfold map_remove. destruct (decide (i = id)) as [->|Hne]; [right; apply lookup_delete_eq|left; by apply lookup_delete_ne].
  - apply bool_decide_eq_false in Hu. left. unfold map_next. destruct (m !! i); [|done].
    destruct (cursor_next _). by apply lookup_insert_ne.
  - apply bool_decide_eq_false in Hu. left. unfold map_next_bulk. destruct (m !! i); [|done].
    destruct (cursor_next_bulk k _). by apply lookup_insert_ne.
  - unfold clean. destruct (filter _ m !! id) as [c|] eqn:E; [|by right]. left.
    apply map_lookup_filter_Some in E as [-> _]. done.
Qed.

Lemma other_kept now e id m :
  uses id e = false -> replaces id e = false -> e <> Tick -> apply_event now e m !! id = m !! id.
Proof.
  intros Hu Hr Ht. destruct e as [i c|i|i|i k|]; try done; cbn [apply_event].
  - apply bool_decide_eq_false in Hr. by apply lookup_insert_ne.
  - apply bool_decide_eq_false in Hr. by apply lookup_delete_ne.
  - apply bool_decide_eq_false in Hu. unfold map_next. destruct (m !! i); [|done].
    destruct (cursor_next _). by apply lookup_insert_ne.
  - apply bool_decide_eq_false in Hu. unfold map_next_bulk. destruct (m !! i); [|done].
    destruct (cursor_next_bulk k _). by apply lookup_insert_ne.
Qed.

Lemma in_time_kept id ttl' es : forall deadline m c,
  m !! id = Some c -> due deadline ttl' c -> in_time id ttl' deadline es m = true ->
  exists c', run_events es m !! id = Some c' /\ ttl (cursor_meta c') = ttl'.
Proof.
  induction es as [|[now e] es IH]; intros deadline m c Hm Hd; cbn [in_time].
  - intros _. exists c. split; [done|apply Hd].
  - rewrite !andb_true_iff, negb_true_iff. intros [[Hr Ht] Hes]. rewrite run_events_cons.
    destruct (uses id e) eqn:Hu.
    + destruct (use_event now e id m c Hu Hm) as (c' & E & Hd'). destruct Hd as [_ Et]. rewrite Et in Hd'.
      eapply IH; [|exact Hd'|exact Hes]. rewrite E. apply lookup_insert_eq.
    + eapply IH; [|exact Hd|exact Hes]. destruct e; try (rewrite other_kept; done).
      cbn [apply_event]. unfold clean. apply map_lookup_filter_Some. split; [done|]. cbn.
      rewrite Hm in Ht. apply andb_true_iff in Ht as [Hle Hf]. apply Z.leb_le in Hle. destruct Hd as [Ee _].
      unfold is_alive, is_expired. rewrite Hf, Ee. rewrite (proj2 (Z.ltb_ge _ _)) by lia. done.
Qed.

Lemma gone_stays id es : forall m,
  m !! id = None -> Forall (fun te => adds id te.2 = false) es -> run_events es m !! id = None.
Proof.
  induction es as [|[now e] es IH]; intros m Hm Ha; [done|]. inversion_clear Ha as [|? ? Ha1 Ha2].
  rewrite run_events_cons. apply IH; [|done]. destruct (uses id e) eqn:Hu.
  - destruct e; try done; apply bool_decide_eq_true in Hu as ->; cbn [apply_event];
      unfold map_next, map_next_bulk; by rewrite Hm.
  - destruct (other_event now e id m Hu Ha1) as [->| ->]; done.
Qed.

Lemma unused_same id es : forall m,
  Forall (fun te => adds id te.2 = false /\ uses id te.2 = false) es ->
  run_events es m !! id = m !! id \/ run_events es m !! id = None.
Proof.
  induction es as [|[now e] es IH]; intros m Ha; [by left|]. inversion_clear Ha as [|? ? [Ha1 Hu1] Ha2].
  rewrite run_events_cons. destruct (IH (apply_event now e m) Ha2) as [E|E]; [|by right].
  rewrite E. by apply other_event.
Qed.
End facts.

(** A cursor that is used again before its time to live has passed, and has not finished,
    is still there whenever it is asked for: over any interleaving of additions, removals and
    uses of other cursors and of cleaner runs, the call reaches the cursor itself. *)
Theorem cursor_kept {C : Type} `{Cursor C} `{!CursorLaws C} id c es m now :
  m !! id = Some c ->
  in_time id (ttl (cursor_meta c)) (expires (cursor_meta c)) es m = true ->
  exists c', run_events es m !! id = Some c' /\ ttl (cursor_meta c') = ttl (cursor_meta c) /\
    fst (map_next now id (run_events es m)) = fst (cursor_next (touched now c')).
Proof.
  intros Hm Ht.
  destruct (in_time_kept id _ es _ m c Hm (conj eq_refl eq_refl) Ht) as (c' & Hc & Et).
  exists c'. split_and!; [done..|]. unfold map_next. rewrite Hc. by destruct (cursor_next _).
Qed.

(** A cleaner run keeps exactly the cursors that are neither finished nor expired; so a
    cursor that is not used until a cleaner run after its deadline is gone for good: a later call
    gets [not found] and changes nothing, unless the id is drawn again. *)
Theorem cursor_dropped {C : Type} `{Cursor C} `{!CursorLaws C} id c es1 es2 now m :
  m !! id = Some c -> is_alive now (cursor_meta c) = false ->
  Forall (fun te => adds id te.2 = false /\ uses id te.2 = false) es1 ->
  Forall (fun te => adds id te.2 = false) es2 ->
  let m' := run_events (es1 ++ (now, Tick) :: es2) m in
  (forall id' c', clean now m !! id' = Some c' <-> m !! id' = Some c' /\ is_alive now (cursor_meta c') = true) /\
  m' !! id = None /\
  forall now' k, map_next now' id m' = (Err (RpcError_not_found None), m') /\
                 map_next_bulk now' id k m' = (Err (RpcError_not_found None), m').
Proof.
  intros Hm Hdead H1 H2 m'. assert (Hgone : m' !! id = None).
  { unfold m', run_events. rewrite foldl_app. cbn [foldl fst snd]. apply gone_stays; [|done].
    cbn [apply_event]. unfold clean. apply map_lookup_filter_None.
    destruct (unused_same id es1 m H1) as [E|E]; [|by left]. right. intros c' Hc'. unfold run_events in E.
    rewrite E, Hm in Hc'. injection Hc' as <-. cbn. congruence. }
  split_and!; [|done|].
  - intros id' c'. apply map_lookup_filter_Some.
  - intros now' k. unfold map_next, map_next_bulk. by rewrite Hgone.
Qed.

(** ** A cursor over a list *)

Record list_cursor := ListCursor { lc_rows : list bytes; lc_meta : Meta }.

#[global] Instance list_cursor_ops : Cursor list_cursor := {
  cursor_next c :=
    match lc_rows c with
    | [] => (Ok None, ListCursor [] (mark_finished (lc_meta c)))
    | r :: rs => (Ok (Some r), ListCursor rs (lc_meta c))
    end;
  cursor_next_bulk k c :=
    (Ok (concat (take (Z.to_nat k) (lc_rows c))), ListCursor (drop (Z.to_nat k) (lc_rows c)) (lc_meta c));
  cursor_meta := lc_meta;
  cursor_set_meta m c := ListCursor (lc_rows c) m;
}.

#[global] Instance list_cursor_laws : CursorLaws list_cursor.
Proof. split; [done|..]; intros; cbn; [destruct (lc_rows c)|]; auto. Defined.

Definition rows : list_cursor := ListCursor [lit "a"; lit "b"; lit "c"] (Meta_new 0 10).
Definition rows_map : gmap Z list_cursor := map_add 7 rows ∅.

Lemma cursor_kept_witness :
  fst (map_next 25 7 (run_events [(5, Tick); (9, Next 7); (12, Tick); (18, Next 7); (20, Remove 8); (24, Tick)] rows_map))
  = Ok (Some (lit "c")).
Proof.
  destruct (cursor_kept 7 rows [(5, Tick); (9, Next 7); (12, Tick); (18, Next 7); (20, Remove 8); (24, Tick)] rows_map 25)
    as (c' & Hc & _ & ->); [done..|].
  vm_compute in Hc. injection Hc as <-. done.
Defined.

Lemma cursor_dropped_witness :
  map_next 12 7 (run_events ([(5, Tick); (6, Add 8 rows)] ++ (11, Tick) :: [(11, Next 7)]) rows_map)
  = (Err (MkRpcError RPC_ERROR_CODE_NOT_FOUND None),
     run_events ([(5, Tick); (6, Add 8 rows)] ++ (11, Tick) :: [(11, Next 7)]) rows_map).
Proof.
  refine (proj1 (proj2 (proj2 (cursor_dropped 7 rows [(5, Tick); (6, Add 8 rows)] [(11, Next 7)] 11 rows_map _ _ _ _)) 12 0));
    [done|done|repeat constructor..].
Defined.
