(* ===== verification/Pubsub.v ===== *)
(** * The topic broker of a client ([src/tools/pubsub.rs])

    [TopicBroker] hands the publications a client receives to handler channels: by exact topic
    first, then by prefix. The two tables are [BTreeMap]s; the prefix table is searched in its
    order, so it is a list sorted by key here. A channel is a number into a store of queues. *)
From Stdlib Require Import Sorted.
From S2P Require Export External.

Record Publication := MkPublication {
  subtopic_pos : Z;
  pub_frame : FrameData;
  handler_id : Z;
}.

(** [Publication::topic], [Publication::subtopic]: panic for a frame without a topic. *)
Definition pub_topic (p : Publication) : option str := frame_topic (pub_frame p).
Definition subtopic (p : Publication) : option str :=
  t ← frame_topic (pub_frame p); slice_from (subtopic_pos p) t.

(** ** Ordered maps *)

(** A [BTreeMap] as the list of its entries in order. *)
Definition btree (V : Type) : Type := list (str * V).

Fixpoint btree_get {V} (k : str) (m : btree V) : option V :=
  match m with
  | [] => None
  | (k', v) :: m => if decide (k = k') then Some v else btree_get k m
  end.

(** [Entry::Vacant(o) => o.insert(v)]. *)
Fixpoint btree_insert {V} (k : str) (v : V) (m : btree V) : btree V :=
  match m with
  | [] => [(k, v)]
  | (k', v') :: m' => if str_lt k k' then (k, v) :: m else (k', v') :: btree_insert k v m'
  end.

(** ** The broker *)

Record TopicBroker := MkTopicBroker {
  prefixes : btree (nat * Z);
  topics : btree (nat * Z);
}.

Definition TopicBroker_new : TopicBroker := MkTopicBroker [] [].

(** [register_topic_tx_with_handler_id]; [register_topic_tx] is the same with handler id 0. *)
Definition register_topic_tx_with_handler_id (topic : str) (hid : Z) (tx : nat) (b : TopicBroker)
    : result TopicBroker Error :=
  match btree_get topic (topics b) with
  | None => Ok (MkTopicBroker (prefixes b) (btree_insert topic (tx, hid) (topics b)))
  | Some _ => Err (Error_busy (lit "topic already registered"))
  end.
Definition register_topic_tx (topic : str) (tx : nat) (b : TopicBroker) : result TopicBroker Error :=
  register_topic_tx_with_handler_id topic 0 tx b.

(** [register_prefix_tx_with_handler_id], [register_prefix_tx]. *)
Definition register_prefix_tx_with_handler_id (prefix : str) (hid : Z) (tx : nat) (b : TopicBroker)
    : result TopicBroker Error :=
  match btree_get prefix (prefixes b) with
  | None => Ok (MkTopicBroker (btree_insert prefix (tx, hid) (prefixes b)) (topics b))
  | Some _ => Err (Error_busy (lit "topic prefix already registered"))
  end.
Definition register_prefix_tx (prefix : str) (tx : nat) (b : TopicBroker) : result TopicBroker Error :=
  register_prefix_tx_with_handler_id prefix 0 tx b.

(** [register_topic] and the like make the channel themselves, which panics for a channel without
    room ([None]): a new queue, and its number is returned when the name is free; otherwise
    both ends of the channel are dropped. *)
Section register.
Context {Q : Type} `{ChannelOps Publication Q}.

Definition with_channel (size : Z) (reg : nat -> result TopicBroker Error) (queues : gmap nat Q)
    : option (result (nat * TopicBroker * gmap nat Q) Error) :=
  if size <=? 0 then None else
  let tx := fresh (dom queues) in
  Some match reg tx with
       | Ok b => Ok (tx, b, <[ tx := ch_bounded size ]> queues)
       | Err e => Err e
       end.

Definition register_topic (topic : str) (size : Z) (b : TopicBroker) :=
  with_channel size (fun tx => register_topic_tx topic tx b).
Definition register_topic_with_handler_id (topic : str) (hid : Z) (size : Z) (b : TopicBroker) :=
  with_channel size (fun tx => register_topic_tx_with_handler_id topic hid tx b).
Definition register_prefix (prefix : str) (size : Z) (b : TopicBroker) :=
  with_channel size (fun tx => register_prefix_tx prefix tx b).
Definition register_prefix_with_handler_id (prefix : str) (hid : Z) (size : Z) (b : TopicBroker) :=
  with_channel size (fun tx => register_prefix_tx_with_handler_id prefix hid tx b).
End register.

(** The loop over the prefixes: the first one the topic starts with. *)
Fixpoint find_prefix (topic : str) (m : btree (nat * Z)) : option (str * (nat * Z)) :=
  match m with
  | [] => None
  | (pfx, v) :: m => if starts_with pfx topic then Some (pfx, v) else find_prefix topic m
  end.

(** Where [process] sends a frame. *)
Definition route (b : TopicBroker) (frame : FrameData) : option (nat * Publication) :=
  topic ← frame_topic frame;
  match btree_get topic (topics b) with
  | Some (tx, hid) => Some (tx, MkPublication 0 frame hid)
  | None =>
      '(pfx, (tx, hid)) ← find_prefix topic (prefixes b);
      Some (tx, MkPublication (Z.of_nat (length pfx)) frame hid)
  end.

Section process.
Context {Q : Type} `{ChannelOps Publication Q}.

(** [process]: the frame comes back if nobody handles it. [room] publications are taken off a
    full channel while the sender waits. *)
Definition process (b : TopicBroker) (room : nat) (frame : FrameData)
    : prog (gmap nat Q) Error (option FrameData) :=
  match route b frame with
  | None => mret (Some frame)
  | Some (tx, publication) => fun queues =>
      match queues !! tx with
      | None => Panic
      | Some q =>
          match ch_send room publication q with
          | Sent q => Done None (<[ tx := q ]> queues)
          | SendClosed => Throw Error_from_send queues
          | SendBlocked q => Hang (<[ tx := q ]> queues)
          end
      end
  end.
End process.

(** ** Facts *)

(** The invariant of the tables: sorted by key, without duplicates. *)
Definition sorted {V} (m : btree V) : Prop :=
  StronglySorted (fun a b => str_lt a.1 b.1 = true) m.

Lemma btree_insert_in {V} k (v : V) m x : x ∈ btree_insert k v m <-> x = (k, v) \/ x ∈ m.
Proof.
  induction m as [|[k' v'] m IH]; cbn; [set_solver|].
  destruct (str_lt k k'); rewrite !elem_of_cons, ?IH; tauto.
Qed.

Lemma btree_get_None {V} k (m : btree V) : btree_get k m = None -> k ∉ m.*1.
Proof.
  induction m as [|[k' v'] m IH]; cbn; [set_solver|]. case_decide; [done|]. set_solver.
Qed.

Lemma btree_insert_sorted {V} k (v : V) m :
  k ∉ m.*1 -> sorted m -> sorted (btree_insert k v m).
Proof.
  intros Hk Hs. unfold sorted in *. induction m as [|[k' v'] m IH]; cbn.
  - constructor; constructor.
  - inversion Hs as [|? ? Hs' Hf]; subst. cbn in Hk.
    destruct (str_lt k k') eqn:E.
    + constructor; [done|]. constructor; [done|].
      eapply Forall_impl; [exact Hf|]. intros [k2 v2] H2. cbn in *. by eapply str_lt_trans.
    + constructor; [apply IH; set_solver|]. apply List.Forall_forall. intros [k2 v2] Hin.
      apply list_elem_of_In, btree_insert_in in Hin. cbn. destruct Hin as [[= -> ->]|Hin].
      * destruct (str_lt_total _ _ E) as [->|?]; [set_solver|done].
      * rewrite List.Forall_forall in Hf. by apply (Hf (k2, v2)), list_elem_of_In.
Qed.

Lemma btree_get_insert {V} k k' (v : V) m :
  k ∉ m.*1 -> btree_get k' (btree_insert k v m) = if decide (k' = k) then Some v else btree_get k' m.
Proof.
  induction m as [|[k2 v2] m IH]; cbn; [done|]. intros Hk.
  destruct (str_lt k k2); cbn; [done|]. rewrite IH by set_solver.
  destruct (decide (k' = k2)) as [->|]; [|done]. rewrite decide_False by set_solver. done.
Qed.

Definition broker_wf (b : TopicBroker) : Prop := sorted (topics b) /\ sorted (prefixes b).

Lemma find_prefix_Some topic m pfx v :
  sorted m -> find_prefix topic m = Some (pfx, v) ->
  (pfx, v) ∈ m /\ starts_with pfx topic = true /\
  forall p' v', (p', v') ∈ m -> starts_with p' topic = true -> (length pfx <= length p')%nat.
Proof.
  unfold sorted. induction m as [|[k w] m IH]; [done|]. intros Hs.
  inversion Hs as [|? ? Hs' Hf]; subst. cbn [find_prefix]. destruct (starts_with k topic) eqn:E.
  - intros [= <- <-]. split_and!; [left|done|]. intros p' v' [[= -> ->]|Hin]%elem_of_cons Hp'; [done|].
    rewrite List.Forall_forall in Hf. specialize (Hf (p', v')). cbn in Hf.
    assert (Hlt : str_lt k p' = true) by (apply Hf; by apply list_elem_of_In).
    destruct (decide (length k <= length p')%nat) as [?|Hlen]; [done|exfalso].
    apply starts_with_spec in E as [t1 E1]. apply starts_with_spec in Hp' as [t2 E2].
    assert (Hk : k = p' ++ drop (length p') k).
    { rewrite <- (take_drop (length p') k) at 1. f_equal.
      rewrite E1 in E2. apply (f_equal (take (length p'))) in E2.
      rewrite take_app_le, take_app_length in E2 by lia. done. }
    assert (Hne : drop (length p') k <> []).
    { intros Hd. apply (f_equal length) in Hd. rewrite length_drop in Hd. cbn in Hd. lia. }
    pose proof (str_lt_prefix p' _ Hne) as Hgt. rewrite <- Hk in Hgt.
    pose proof (str_lt_trans _ _ _ Hlt Hgt) as Hc. by rewrite str_lt_irrefl in Hc.
  - intros H. destruct (IH Hs' H) as (Hin & Hst & Hmin). split_and!; [by right|done|].
    intros p' v' [[= -> ->]|Hin']%elem_of_cons Hp'; [congruence|]. by eapply Hmin.
Qed.

Lemma find_prefix_None topic m : 
  find_prefix topic m = None <-> forall p v, (p, v) ∈ m -> starts_with p topic = false.
Proof.
  induction m as [|[k w] m IH]; cbn; [set_solver|]. destruct (starts_with k topic) eqn:E.
  - split; [done|]. intros H. specialize (H k w). rewrite E in H. discriminate H. left.
  - rewrite IH. split; [|set_solver]. intros H p v [[= -> ->]|Hin]%elem_of_cons; eauto.
Qed.

(** A publication goes to the handler of its exact topic if there is one, otherwise to the
    handler of the shortest registered prefix of the topic, with the rest of the topic as the
    subtopic; the publication is queued there when there is room. If no prefix fits, the frame
    comes back to the caller. *)
Theorem process_routes {Q : Type} `{ChannelOps Publication Q} b frame topic room (queues : gmap nat Q) :
  broker_wf b -> frame_topic frame = Some topic ->
  match route b frame with
  | Some (tx, p) =>
      (forall q, queues !! tx = Some q -> ch_is_full q = false -> ch_is_closed q = false ->
         process b room frame queues = Done None (<[ tx := ch_push p q ]> queues)) /\
      pub_frame p = frame /\
      ((btree_get topic (topics b) = Some (tx, handler_id p) /\ subtopic p = Some topic) \/
       (btree_get topic (topics b) = None /\
        exists pfx, (pfx, (tx, handler_id p)) ∈ prefixes b /\
          (exists rest, topic = pfx ++ rest /\ subtopic p = Some rest) /\
          forall p' v, (p', v) ∈ prefixes b -> starts_with p' topic = true -> (length pfx <= length p')%nat))
  | None =>
      process b room frame queues = Done (Some frame) queues /\
      btree_get topic (topics b) = None /\
      forall p v, (p, v) ∈ prefixes b -> starts_with p topic = false
  end.
Proof.
  intros [_ Hs] Ht.
  assert (Hrun : forall tx p, route b frame = Some (tx, p) -> forall q,
    queues !! tx = Some q -> ch_is_full q = false -> ch_is_closed q = false ->
    process b room frame queues = Done None (<[ tx := ch_push p q ]> queues)).
  { intros tx p Hr q Hq Hf Hc. unfold process. rewrite Hr, Hq. unfold ch_send. by rewrite Hc, Hf. }
  assert (Hnone : route b frame = None -> process b room frame queues = Done (Some frame) queues).
  { intros Hr. unfold process. by rewrite Hr. }
  destruct (route b frame) as [[tx p]|] eqn:Er; [split; [by apply Hrun|]|split; [by apply Hnone|]]; clear Hrun Hnone;
    unfold route in Er; rewrite Ht in Er; cbn [mbind option_bind] in Er;
    destruct (btree_get topic (topics b)) as [[tx' hid]|] eqn:E; simplify_eq; cbn [pub_frame handler_id].
  - split; [done|]. left. split; [done|]. unfold subtopic. cbn. rewrite Ht. cbn. apply slice_from_0.
  - destruct (find_prefix topic (prefixes b)) as [[pfx [tx' hid]]|] eqn:Ep; cbn in Er; [|done]. simplify_eq.
    split; [done|]. right. split; [done|].
    destruct (find_prefix_Some _ _ _ _ Hs Ep) as (Hin & Hst & Hmin). exists pfx.
    split_and!; [done| |done]. apply starts_with_spec in Hst as [rest Hr]. exists rest. split; [done|].
    unfold subtopic. cbn. rewrite Ht. cbn. rewrite Hr. apply slice_from_app.
  - split; [done|]. destruct (find_prefix topic (prefixes b)) as [[pfx [tx' hid]]|] eqn:Ep; [done|].
    by apply find_prefix_None.
Qed.

(** Registration keeps the tables sorted and makes the new handler reachable; a name that
    is taken is refused as busy. *)
Theorem register_spec b name hid tx :
  broker_wf b ->
  (match register_prefix_tx_with_handler_id name hid tx b with
   | Ok b' => broker_wf b' /\ btree_get name (prefixes b) = None /\
              (forall x, x ∈ prefixes b' <-> x = (name, (tx, hid)) \/ x ∈ prefixes b) /\ topics b' = topics b
   | Err e => kind e = Busy /\ is_Some (btree_get name (prefixes b))
   end) /\
  (match register_topic_tx_with_handler_id name hid tx b with
   | Ok b' => broker_wf b' /\ btree_get name (topics b) = None /\
              (forall t, btree_get t (topics b') =
                         if decide (t = name) then Some (tx, hid) else btree_get t (topics b)) /\
              prefixes b' = prefixes b
   | Err e => kind e = Busy /\ is_Some (btree_get name (topics b))
   end).
Proof.
  intros [Ht Hp]. unfold register_prefix_tx_with_handler_id, register_topic_tx_with_handler_id. split.
  - destruct (btree_get name (prefixes b)) eqn:E; [eauto|]. apply btree_get_None in E as Hn.
    split_and!; try done.
    + split; [done|]. by apply btree_insert_sorted.
    + intros x. apply btree_insert_in.
  - destruct (btree_get name (topics b)) eqn:E; [eauto|]. apply btree_get_None in E as Hn.
    split_and!; try done.
    + split; [|done]. by apply btree_insert_sorted.
    + intros t. by apply btree_get_insert.
Qed.

(** Two prefixes and a topic are registered. *)
Definition registered_topics : TopicBroker :=
  MkTopicBroker [(lit "a/", (0%nat, 5)); (lit "a/b/", (1%nat, 6))] [(lit "a/x", (2%nat, 7))].
Definition about (topic : str) : FrameData :=
  MkFrame FrameKind_Publish (Some (lit "s")) (Some topic) None (lit "v") 0 false.

Lemma registered_topics_wf : broker_wf registered_topics.
Proof. split; repeat constructor. Qed.

(** The queues of the three handlers. *)
Definition handler_queues : gmap nat (Ref.queue Publication) :=
  {[ 0%nat := ch_bounded 4; 1%nat := ch_bounded 4; 2%nat := ch_bounded 4 ]}.

Lemma process_routes_witness :
  exists p, route registered_topics (about (lit "a/b/c")) = Some (0%nat, p) /\ subtopic p = Some (lit "b/c") /\
    process registered_topics 0 (about (lit "a/b/c")) handler_queues =
      Done None (<[ 0%nat := ch_push p (ch_bounded 4) ]> handler_queues).
Proof.
  pose proof (process_routes registered_topics (about (lit "a/b/c")) (lit "a/b/c") 0 handler_queues
    registered_topics_wf eq_refl) as H.
  eexists. split; [reflexivity|]. destruct H as (Hrun & _ & [[H _]|[H _]]); [discriminate H|].
  split; [reflexivity|]. by apply Hrun.
Defined.

Lemma register_spec_witness :
  exists b', register_topic_tx_with_handler_id (lit "b") 3 9 registered_topics = Ok b' /\
    btree_get (lit "b") (topics b') = Some (9%nat, 3) /\ btree_get (lit "a/x") (topics b') = Some (2%nat, 7).
Proof.
  destruct (register_spec registered_topics (lit "b") 3 9 registered_topics_wf) as [_ H].
  eexists. split; [reflexivity|]. destruct H as (_ & _ & H & _). rewrite !H. by split.
Defined.
