(* ===== verification/SyncIpc.v ===== *)
(** * The blocking socket client ([src/sync/ipc.rs])

    The thread-based twin of the client of [Ipc]: the same frames (the layout functions of [Ipc]
    are used), written with a blocking [write_all] and read by a [Reader] that the application
    runs in a thread of its own. The dialogue that opens the connection is [Handshake.chat], word
    for word. [sync_client_equiv]: it behaves like the asynchronous client, but for
    timeouts. *)
From S2P Require Export External.
From S2P Require Ipc IpcFacts.
Import Ipc (zc_frame_buf, target_frame_buf, receiver_frame_buf, plain_frame_buf, bulk_payload,
  next_frame_id, parse_body).

(** The outcomes of the calls of [write_all] to come; the write timeout of the socket
    ([set_write_timeout]) is an error of the system. *)
Inductive sync_write := SyncOk | SyncErr (e : io_error).

Definition timed_out_error : io_error := IoError OtherKind (lit "Resource temporarily unavailable (os error 11)").

Record Client (Q : Type) := MkClient {
  name : str;
  frame_id : Z;
  responses : gmap Z nat;
  rx : option unit;
  connected : bool;
  (** The socket was shut down. *)
  shut : bool;
  secondary_counter : Z;
  written : list bytes;
  writes : list sync_write;
  next_confirm : nat;
  confirms : gmap nat (result unit Error);
  (** What the [Reader] reads from, and the queue it feeds. *)
  incoming : source;
  events : Q;
}.
Arguments MkClient {Q}.
Arguments name {Q}.
Arguments frame_id {Q}.
Arguments responses {Q}.
Arguments rx {Q}.
Arguments connected {Q}.
Arguments shut {Q}.
Arguments secondary_counter {Q}.
Arguments written {Q}.
Arguments writes {Q}.
Arguments next_confirm {Q}.
Arguments confirms {Q}.
Arguments incoming {Q}.
Arguments events {Q}.

(** The queue is that of the [rtsc] crate; the argument is the text of its error. *)
Section client.
Context {Q : Type} `{ChannelOps FrameData Q} (closed_text : str).

Definition set_frame_id (v : Z) (c : Client Q) : Client Q :=
  MkClient (name c) v (responses c) (rx c) (connected c) (shut c) (secondary_counter c)
    (written c) (writes c) (next_confirm c) (confirms c) (incoming c) (events c).
Definition set_rx (v : option unit) (c : Client Q) : Client Q :=
  MkClient (name c) (frame_id c) (responses c) v (connected c) (shut c) (secondary_counter c)
    (written c) (writes c) (next_confirm c) (confirms c) (incoming c) (events c).
Definition set_written (v : list bytes) (ws : list sync_write) (c : Client Q) : Client Q :=
  MkClient (name c) (frame_id c) (responses c) (rx c) (connected c) (shut c) (secondary_counter c)
    v ws (next_confirm c) (confirms c) (incoming c) (events c).
Definition set_responses (v : gmap Z nat) (n : nat) (c : Client Q) : Client Q :=
  MkClient (name c) (frame_id c) v (rx c) (connected c) (shut c) (secondary_counter c)
    (written c) (writes c) n (confirms c) (incoming c) (events c).
Definition set_confirms (v : gmap nat (result unit Error)) (c : Client Q) : Client Q :=
  MkClient (name c) (frame_id c) (responses c) (rx c) (connected c) (shut c) (secondary_counter c)
    (written c) (writes c) (next_confirm c) v (incoming c) (events c).
Definition set_incoming (v : source) (c : Client Q) : Client Q :=
  MkClient (name c) (frame_id c) (responses c) (rx c) (connected c) (shut c) (secondary_counter c)
    (written c) (writes c) (next_confirm c) (confirms c) v (events c).
Definition set_events (v : Q) (c : Client Q) : Client Q :=
  MkClient (name c) (frame_id c) (responses c) (rx c) (connected c) (shut c) (secondary_counter c)
    (written c) (writes c) (next_confirm c) (confirms c) (incoming c) v.
Definition set_connected (v : bool) (c : Client Q) : Client Q :=
  MkClient (name c) (frame_id c) (responses c) (rx c) v (shut c) (secondary_counter c)
    (written c) (writes c) (next_confirm c) (confirms c) (incoming c) (events c).
(** [connected.store(false)] and [writer.shutdown()]. *)
Definition disconnect (c : Client Q) : Client Q :=
  MkClient (name c) (frame_id c) (responses c) (rx c) false true (secondary_counter c)
    (written c) (writes c) (next_confirm c) (confirms c) (incoming c) (events c).

(** ** Sending *)

Definition increment_frame_id : prog (Client Q) Error unit :=
  modify (fun c => set_frame_id (next_frame_id (frame_id c)) c).

(** [send_data_or_mark_disconnected!]. *)
Definition send_data (data : bytes) : prog (Client Q) Error unit := fun c =>
  let '(out, ws) := match writes c with [] => (SyncOk, []) | o :: ws => (o, ws) end in
  let c := set_written (written c ++ [data]) ws c in
  match out with
  | SyncOk => Done tt c
  | SyncErr e => Throw (Error_from_io e) (disconnect c)
  end.

(** [send_frame_and_confirm!]. *)
Definition send_frame_and_confirm (buf payload : bytes) (qos : QoS) : prog (Client Q) Error (option nat) :=
  gets (fun c => (next_confirm c, frame_id c)) ≫= fun '(tx, id) =>
  (if needs_ack qos then
     modify (fun c => set_responses (<[ id := tx ]> (responses c)) (S tx) c) ≫= fun _ =>
     mret (Some tx)
   else mret None) ≫= fun rx =>
  send_data buf ≫= fun _ =>
  send_data payload ≫= fun _ =>
  mret rx.

Definition send_zc_frame (target header payload : bytes) (op : FrameOp) (qos : QoS) :=
  increment_frame_id ≫= fun _ => gets frame_id ≫= fun id =>
  send_frame_and_confirm (zc_frame_buf id target header payload op qos) payload qos.

Definition send_target_frame (target payload : bytes) (op : FrameOp) (qos : QoS) :=
  increment_frame_id ≫= fun _ => gets frame_id ≫= fun id =>
  send_frame_and_confirm (target_frame_buf id target payload op qos) payload qos.

Definition send_receiver_frame (target receiver payload : bytes) (op : FrameOp) (qos : QoS) :=
  increment_frame_id ≫= fun _ => gets frame_id ≫= fun id =>
  send_frame_and_confirm (receiver_frame_buf id target receiver payload op qos) payload qos.

Definition send_plain_frame (payload : bytes) (op : FrameOp) (qos : QoS) :=
  increment_frame_id ≫= fun _ => gets frame_id ≫= fun id =>
  send_frame_and_confirm (plain_frame_buf id payload op qos) payload qos.

(** *** [impl SyncClient for Client] *)

Definition take_event_channel : prog (Client Q) Error (option unit) := fun c =>
  Done (rx c) (set_rx None c).
Definition send (target : str) (payload : bytes) (qos : QoS) :=
  send_target_frame target payload FrameOp_Message qos.
Definition zc_send (target : str) (header payload : bytes) (qos : QoS) :=
  send_zc_frame target header payload FrameOp_Message qos.
Definition send_broadcast (target : str) (payload : bytes) (qos : QoS) :=
  send_target_frame target payload FrameOp_Broadcast qos.
Definition publish (target : str) (payload : bytes) (qos : QoS) :=
  send_target_frame target payload FrameOp_PublishTopic qos.
Definition publish_for (target receiver : str) (payload : bytes) (qos : QoS) :=
  send_receiver_frame target receiver payload FrameOp_PublishTopicFor qos.
Definition subscribe (topic : str) (qos : QoS) := send_plain_frame topic FrameOp_SubscribeTopic qos.
Definition unsubscribe (topic : str) (qos : QoS) := send_plain_frame topic FrameOp_UnsubscribeTopic qos.
Definition subscribe_bulk (topics : list str) (qos : QoS) :=
  send_plain_frame (bulk_payload topics) FrameOp_SubscribeTopic qos.
Definition unsubscribe_bulk (topics : list str) (qos : QoS) :=
  send_plain_frame (bulk_payload topics) FrameOp_UnsubscribeTopic qos.
Definition exclude (topic : str) (qos : QoS) := send_plain_frame topic FrameOp_ExcludeTopic qos.
Definition unexclude (topic : str) (qos : QoS) := send_plain_frame topic FrameOp_UnexcludeTopic qos.
Definition exclude_bulk (topics : list str) (qos : QoS) :=
  send_plain_frame (bulk_payload topics) FrameOp_ExcludeTopic qos.
Definition unexclude_bulk (topics : list str) (qos : QoS) :=
  send_plain_frame (bulk_payload topics) FrameOp_UnexcludeTopic qos.
Definition ping : prog (Client Q) Error unit := send_data PING_FRAME.
Definition is_connected (c : Client Q) : bool := connected c.
(** [impl Drop for Client]. *)
Definition drop_client (c : Client Q) : Client Q :=
  MkClient (name c) (frame_id c) (responses c) (rx c) (connected c) true (secondary_counter c)
    (written c) (writes c) (next_confirm c) (confirms c) (incoming c) (events c).

(** [register_secondary]: the name the next secondary client connects under. *)
Definition register_secondary_name : prog (Client Q) Error str :=
  gets (fun c => name c) ≫= fun n =>
  match find_sub SECONDARY_SEP n with
  | Some _ => throw (Error_not_supported (lit "not a primary client"))
  | None => fun c =>
      Done (n ++ SECONDARY_SEP ++ fmt_z (secondary_counter c))
        (MkClient (name c) (frame_id c) (responses c) (rx c) (connected c) (shut c)
           (u64_add (secondary_counter c) 1)
           (written c) (writes c) (next_confirm c) (confirms c) (incoming c) (events c))
  end.

(** ** The reader: [handle_read] and [Reader::run] *)

(** [reader.read_exact(..)?]: no read has a timeout. *)
Definition read (n : Z) : prog (Client Q) Error bytes := fun c =>
  match read_exact n (incoming c) with
  | ReadOk data rest => Done data (set_incoming rest c)
  | ReadErr e => Throw (Error_from_io e) c
  | ReadStall => Hang c
  end.

Definition acknowledge (ack_id : Z) (code : byte) : prog (Client Q) Error unit :=
  modify (fun c =>
    match responses c !! ack_id with
    | Some tx => set_confirms (<[ tx := to_busrt_result code ]> (confirms c))
                   (set_responses (delete ack_id (responses c)) (next_confirm c) c)
    | None => c
    end).

(** [tx.send(frame).map_err(Error::io)?]. *)
Definition deliver (room : nat) (frame : FrameData) : prog (Client Q) Error unit := fun c =>
  match ch_send room frame (events c) with
  | Sent q => Done tt (set_events q c)
  | SendClosed => Throw (Error_io closed_text) c
  | SendBlocked q => Hang (set_events q c)
  end.

(** One turn of the loop. *)
Definition handle_read_one (room : nat) : prog (Client Q) Error unit :=
  read 6 ≫= fun buf =>
  lift (FrameKind_try_from (buf !!! 0%nat)) ≫= fun frame_type =>
  let realtime := bool_decide (buf !!! 5%nat <> x00) in
  let word := from_le_bytes (take 4 (drop 1 buf)) in
  match frame_type with
  | FrameKind_Nop => mret tt
  | FrameKind_Acknowledge => acknowledge word (buf !!! 5%nat)
  | _ =>
      read word ≫= fun buf =>
      lift (parse_body frame_type buf) ≫= fun '(sender, topic, payload_pos) =>
      deliver room (MkFrame frame_type sender topic None buf payload_pos realtime)
  end.

Fixpoint handle_read (fuel : nat) (room : nat) : prog (Client Q) Error unit :=
  match fuel with
  | O => hang
  | S fuel => handle_read_one room ≫= fun _ => handle_read fuel room
  end.

(** [Reader::run]: [connected] is cleared when the loop ends, which it does only with an error. *)
Definition run (fuel room : nat) : prog (Client Q) Error unit := fun c =>
  match handle_read fuel room c with
  | Done _ c => Done tt c
  | Throw _ c => Done tt (set_connected false c)
  | Hang c => Hang c
  | Panic => Panic
  end.
End client.

(** ** The two clients *)

(** The operations of the trait both clients implement. *)
Inductive request :=
| Send (target : str) (payload : bytes)
| ZcSend (target : str) (header payload : bytes)
| SendBroadcast (target : str) (payload : bytes)
| Publish (topic : str) (payload : bytes)
| PublishFor (topic receiver : str) (payload : bytes)
| Subscribe (topic : str)
| Unsubscribe (topic : str)
| SubscribeBulk (topics : list str)
| UnsubscribeBulk (topics : list str)
| Exclude (topic : str)
| Unexclude (topic : str)
| ExcludeBulk (topics : list str)
| UnexcludeBulk (topics : list str)
| Ping.

Section twins.
Context {Q : Type} `{ChannelOps FrameData Q} (closed_text : str).

Definition sync_do (r : request) (qos : QoS) : prog (Client Q) Error (option nat) :=
  match r with
  | Send t p => send t p qos
  | ZcSend t h p => zc_send t h p qos
  | SendBroadcast t p => send_broadcast t p qos
  | Publish t p => publish t p qos
  | PublishFor t r p => publish_for t r p qos
  | Subscribe t => subscribe t qos
  | Unsubscribe t => unsubscribe t qos
  | SubscribeBulk ts => subscribe_bulk ts qos
  | UnsubscribeBulk ts => unsubscribe_bulk ts qos
  | Exclude t => exclude t qos
  | Unexclude t => unexclude t qos
  | ExcludeBulk ts => exclude_bulk ts qos
  | UnexcludeBulk ts => unexclude_bulk ts qos
  | Ping => ping ≫= fun _ => mret None
  end.

Definition async_do (r : request) (qos : QoS) : prog (Ipc.Client Q) Error (option nat) :=
  match r with
  | Send t p => Ipc.send t p qos
  | ZcSend t h p => Ipc.zc_send t h p qos
  | SendBroadcast t p => Ipc.send_broadcast t p qos
  | Publish t p => Ipc.publish t p qos
  | PublishFor t r p => Ipc.publish_for t r p qos
  | Subscribe t => Ipc.subscribe t qos
  | Unsubscribe t => Ipc.unsubscribe t qos
  | SubscribeBulk ts => Ipc.subscribe_bulk ts qos
  | UnsubscribeBulk ts => Ipc.unsubscribe_bulk ts qos
  | Exclude t => Ipc.exclude t qos
  | Unexclude t => Ipc.unexclude t qos
  | ExcludeBulk ts => Ipc.exclude_bulk ts qos
  | UnexcludeBulk ts => Ipc.unexclude_bulk ts qos
  | Ping => Ipc.ping ≫= fun _ => mret None
  end.

(** The same write of the socket, under the one client and the other: the asynchronous one
    watches the time itself. (A blocking write cannot be cancelled.) *)
Definition same_write (w : sync_write) (w' : Ipc.write_outcome) : Prop :=
  match w, w' with
  | SyncOk, Ipc.WriteOk => True
  | SyncErr e, Ipc.WriteErr e' => e = e'
  | SyncErr e, Ipc.WriteElapsed => e = timed_out_error
  | _, _ => False
  end.

(** The same client, seen as one and as the other. *)
Record twin (s : Client Q) (a : Ipc.Client Q) : Prop := {
  tw_name : name s = Ipc.name a;
  tw_frame_id : frame_id s = Ipc.frame_id a;
  tw_responses : responses s = Ipc.responses a;
  tw_rx : rx s = Ipc.rx a;
  tw_connected : connected s = Ipc.connected a;
  (** The socket is shut down where the reader task is aborted. *)
  tw_shut : shut s = Ipc.reader_aborted a;
  tw_counter : secondary_counter s = Ipc.secondary_counter a;
  tw_written : written s = (Ipc.written a).*1;
  tw_writes : Forall2 same_write (writes s) (Ipc.writes a);
  tw_next : next_confirm s = Ipc.next_confirm a;
  tw_confirms : confirms s = Ipc.confirms a;
  tw_incoming : incoming s = Ipc.incoming a;
  tw_events : events s = Ipc.events a;
}.

(** The same error; a write that times out is an I/O error here and a timeout there, and the
    two kinds of channel have different texts. *)
Inductive same_error : Error -> Error -> Prop :=
| same_error_refl e : same_error e e
| same_error_elapsed : same_error (Error_from_io timed_out_error) Error_timeout
| same_error_closed : same_error (Error_io closed_text) (Error_io (lit "sending into a closed channel")).

(** The same outcome; where only the asynchronous client has a timeout for a read, the blocking
    one waits. *)
Definition matches {A} (r : outcome (Client Q) Error A) (r' : outcome (Ipc.Client Q) Error A) : Prop :=
  match r, r' with
  | Done x s, Done y a => x = y /\ twin s a
  | Throw e s, Throw e' a => same_error e e' /\ twin s a
  | Hang s, Hang a => twin s a
  | Hang s, Throw e a => e = Error_timeout /\ twin s a
  | _, _ => False
  end.

Lemma matches_bind {A B} (m : prog (Client Q) Error A) (m' : prog (Ipc.Client Q) Error A)
    (f : A -> prog (Client Q) Error B) (f' : A -> prog (Ipc.Client Q) Error B) s a :
  matches (m s) (m' a) -> (forall x s1 a1, twin s1 a1 -> matches (f x s1) (f' x a1)) ->
  matches ((m ≫= f) s) ((m' ≫= f') a).
Proof.
  intros Hm Hf. unfold mbind, prog_bind. destruct (m s), (m' a); try done. destruct Hm as [-> Ht]. by apply Hf.
Qed.

Ltac twins := match goal with T : twin ?s ?a |- _ => destruct s, a, T; simpl in *; subst end.

Lemma send_data_matches data flush s a : twin s a -> matches (send_data data s) (Ipc.send_data data flush a).
Proof.
  intros T. pose proof (tw_writes _ _ T) as Hw. unfold send_data, Ipc.send_data.
  destruct Hw as [|w w' ws ws' Hw Hws]; [|destruct w, w'; try done; cbn in Hw; subst]; twins; cbn;
    (split; [constructor || done|]; constructor; cbn; rewrite ?fmap_app; done).
Qed.

(** The guard of the asynchronous client repeats what its [send_data] did. *)
Lemma guard_matches {A} (m : prog (Client Q) Error A) (m' : prog (Ipc.Client Q) Error A) s a :
  matches (m s) (m' a) ->
  (forall s', m s <> Hang s') -> (forall e s', m s = Throw e s' -> connected s' = false /\ shut s' = true) ->
  matches (m s) (Ipc.with_frame_write_guard m' a).
Proof.
  intros Hm Hh Ht. unfold Ipc.with_frame_write_guard.
  destruct (m s) as [x s1|e s1|s1|] eqn:E, (m' a) as [y a1|e' a1|a1|]; try done; [|by destruct (Hh s1)..].
  destruct (Ht e s1 eq_refl) as [Hc Hs], Hm as [He T]. split; [done|]. twins. by constructor.
Qed.

Lemma send_data_ends data (s : Client Q) :
  match send_data data s with
  | Done _ _ => True
  | Throw _ s' => connected s' = false /\ shut s' = true
  | _ => False
  end.
Proof. unfold send_data. by destruct (writes s) as [|[|e] ws]. Qed.

Lemma send_frame_and_confirm_matches buf payload qos s a :
  twin s a -> matches (send_frame_and_confirm buf payload qos s) (Ipc.send_frame_and_confirm buf payload qos a).
Proof.
  intros T. unfold send_frame_and_confirm, Ipc.send_frame_and_confirm.
  apply matches_bind; [unfold gets; split; [by rewrite (tw_next _ _ T), (tw_frame_id _ _ T)|done]|].
  intros [tx id] s1 a1 T1. apply matches_bind.
  { destruct (needs_ack qos); (split; [done|]); [|done]. twins. by constructor. }
  intros rx s2 a2 T2. clear T T1.
  set (m := send_data (Q := Q) buf ≫= fun _ => send_data payload).
  assert (Hm : (send_data buf ≫= fun _ => send_data payload ≫= fun _ => mret rx) s2 = (m ≫= fun _ => mret rx) s2).
  { unfold m, mbind, prog_bind. by destruct (send_data buf s2). }
  rewrite Hm. apply matches_bind; [|done]. apply guard_matches; unfold m.
  - apply matches_bind; [by apply send_data_matches|]. intros _ s3 a3. apply send_data_matches.
  - intros s'. unfold mbind, prog_bind. pose proof (send_data_ends buf s2).
    destruct (send_data buf s2) as [[] s3|e s3|s3|]; try done.
    pose proof (send_data_ends payload s3). by destruct (send_data payload s3).
  - intros e s'. unfold mbind, prog_bind. pose proof (send_data_ends buf s2).
    destruct (send_data buf s2) as [[] s3|e' s3|s3|]; [|by intros [= -> ->]|done..].
    pose proof (send_data_ends payload s3). destruct (send_data payload s3); try done. by intros [= -> ->].
Qed.

Lemma increment_matches {A} (f : Z -> prog (Client Q) Error A) (f' : Z -> prog (Ipc.Client Q) Error A) s a :
  (forall id s1 a1, twin s1 a1 -> matches (f id s1) (f' id a1)) -> twin s a ->
  matches ((increment_frame_id ≫= fun _ => gets frame_id ≫= f) s)
          ((Ipc.increment_frame_id ≫= fun _ => gets Ipc.frame_id ≫= f') a).
Proof.
  intros Hf T. unfold mbind, prog_bind. cbn. pose proof (tw_frame_id _ _ T) as E. rewrite E. apply Hf.
  twins. constructor; cbn; done.
Qed.

Lemma do_matches r qos s a : twin s a -> matches (sync_do r qos s) (async_do r qos a).
Proof.
  intros T. destruct r; try (apply increment_matches; [|done]; intros id s1 a1 T1;
    by apply send_frame_and_confirm_matches).
  apply matches_bind; [by apply send_data_matches|]. by intros _ s1 a1 T1.
Qed.

(** *** The readers *)

Lemma read_matches n timed s a : twin s a -> matches (read n s) (Ipc.read n timed a).
Proof.
  intros T. unfold read, Ipc.read. rewrite (tw_incoming _ _ T).
  destruct (read_exact n (Ipc.incoming a)); [|split; [constructor|done]|by destruct timed].
  split; [done|]. twins. by constructor.
Qed.

Lemma acknowledge_matches id code s a : twin s a -> matches (acknowledge id code s) (Ipc.acknowledge id code a).
Proof.
  intros T. unfold acknowledge, Ipc.acknowledge, modify. rewrite (tw_responses _ _ T).
  split; [done|]. destruct (Ipc.responses a !! id); [|done]. twins. by constructor.
Qed.

Lemma deliver_matches room f s a : twin s a -> matches (deliver closed_text room f s) (Ipc.deliver room f a).
Proof.
  intros T. unfold deliver, Ipc.deliver. rewrite (tw_events _ _ T).
  destruct (ch_send room f (Ipc.events a)); [split; [done|]|split; [constructor|done]|]; twins; by constructor.
Qed.

Lemma lift_matches {A} (r : result A Error) s a : twin s a -> matches (lift r s) (lift r a).
Proof. destruct r; split; try done. constructor. Qed.

Lemma handle_read_one_matches room s a :
  twin s a -> matches (handle_read_one closed_text room s) (Ipc.handle_read_one room a).
Proof.
  intros T. apply matches_bind; [by apply read_matches|]. intros buf s1 a1 T1.
  apply matches_bind; [by apply lift_matches|]. intros k s2 a2 T2.
  destruct k; try done; try (by apply acknowledge_matches);
    (apply matches_bind; [by apply read_matches|]; intros body s3 a3 T3;
     apply matches_bind; [by apply lift_matches|]; intros [[sender topic] pos] s4 a4 T4; by apply deliver_matches).
Qed.

Lemma handle_read_matches fuel room : forall s a,
  twin s a -> matches (handle_read closed_text fuel room s) (Ipc.handle_read fuel room a).
Proof.
  induction fuel as [|fuel IH]; intros s a T; [done|]. apply matches_bind; [by apply handle_read_one_matches|].
  intros _ s1 a1. apply IH.
Qed.
End twins.

(** C13: the blocking client behaves like the asynchronous one: from corresponding states, every
    operation writes the same bytes under the same frame ids, registers the same confirmations,
    and fails where the other does, with the same error and disconnecting, except that a write
    that times out is an I/O error here and a timeout there; and the reader makes the same of
    every input, except that it has no timeout for the rest of a frame, where it waits, and that
    the error of a closed event queue has another text. (The calls of the asynchronous client
    are not cancelled.) *)
Theorem sync_client_equiv {Q : Type} `{ChannelOps FrameData Q} closed_text (s : Client Q) (a : Ipc.Client Q) :
  twin s a ->
  (forall r qos, matches closed_text (sync_do r qos s) (async_do r qos a)) /\
  (forall room, matches closed_text (handle_read_one closed_text room s) (Ipc.handle_read_one room a)) /\
  (forall fuel room,
     match run closed_text fuel room s, Ipc.reader_task fuel room a with
     | Done _ s', Done _ a' | Hang s', Hang a' => twin s' a'
     | Hang s', Done _ a' => exists a1, twin s' a1 /\ a' = Ipc.set_connected false a1
     | _, _ => False
     end).
Proof.
  intros T. split_and!.
  - intros r qos. by apply do_matches.
  - intros room. by apply handle_read_one_matches.
  - intros fuel room. unfold run, Ipc.reader_task. pose proof (handle_read_matches closed_text fuel room s a T) as Hm.
    pose proof (IpcFacts.handle_read_no_return room fuel a) as Hn.
    destruct (handle_read closed_text fuel room s), (Ipc.handle_read fuel room a); try done; cbn in Hm.
    + destruct Hm as [_ T1]. destruct T1. by constructor.
    + destruct Hm as [_ T1]. eauto.
Qed.

(** A client with two writes to come, the second of which times out. *)
Lemma sync_client_equiv_witness :
  let s := MkClient (lit "a") 0 ∅ (Some tt) true false 0 [] [SyncOk; SyncErr timed_out_error] 0 ∅
             (Source [] EndStall) (ch_bounded 8 : Ref.queue FrameData) in
  let a := Ipc.MkClient (lit "a") 0 ∅ (Some tt) true false 0 [] [Ipc.WriteOk; Ipc.WriteElapsed] 0 ∅
             (Source [] EndStall) (ch_bounded 8 : Ref.queue FrameData) in
  matches (lit "closed") (sync_do (Publish (lit "t") (lit "x")) QoS_Processed s)
          (async_do (Publish (lit "t") (lit "x")) QoS_Processed a) /\
  match sync_do (Publish (lit "t") (lit "x")) QoS_Processed s, async_do (Publish (lit "t") (lit "x")) QoS_Processed a with
  | Throw e _, Throw e' _ => kind e = Io /\ kind e' = Timeout
  | _, _ => False
  end.
Proof.
  intros s a. split; [|vm_compute; by split].
  apply (sync_client_equiv (lit "closed")). constructor; try reflexivity. repeat constructor.
Defined.
