(* ===== verification/SyncRpc.v ===== *)
(** * The blocking RPC layer ([src/sync/rpc.rs])

    Programs that use the blocking RPC client have threads: callers in [RpcClient::call], the
    [Processor], and one thread per request being handled. They share the bus client behind a
    mutex, which a caller keeps for as long as it waits for its reply. A system of such
    programs, with a bus that delivers messages in order, is executed action by action. *)
From S2P Require Export Rpc.

(** A caller that registered its call: what it will send to whom, and under which id. *)
Record outgoing := Outgoing {
  og_id : Z;
  og_target : str;
  og_header : bytes;
  og_params : bytes;
  og_qos : QoS;
}.

(** One program. *)
Record endpoint := MkEndpoint {
  rpc : RpcState;
  (** The client's event channel. *)
  inbox : list FrameData;
  (** Callers that wait for the mutex, by their [oneshot] channels. *)
  ready : gmap nat outgoing;
  (** The caller that holds the mutex and waits for its reply. *)
  waiting : option (nat * Z);
  (** Handler threads: the request, where the reply goes, and the QoS. *)
  handlers : list (RpcEvent * option (str * Z) * QoS);
  (** Events sent into the channels of callers. *)
  resolved : gmap nat RpcEvent;
}.

Definition endpoint_new : endpoint := MkEndpoint RpcState_new [] ∅ None [] ∅.

Definition set_inbox (v : list FrameData) (e : endpoint) : endpoint :=
  MkEndpoint (rpc e) v (ready e) (waiting e) (handlers e) (resolved e).

Definition push (f : FrameData) (e : endpoint) : endpoint := set_inbox (inbox e ++ [f]) e.

Inductive action :=
| Call (target method : str) (params : bytes) (qos : QoS)   (* a thread enters [call] *)
| Sends (tx : nat)                              (* it gets the mutex and [zc_send] succeeds *)
| SendFails (tx : nat)                          (* it gets the mutex and [zc_send] fails *)
| Process                                       (* the processor takes the next frame *)
| Replies (i : nat)                             (* the i-th handler thread ends *)
| Returns                                       (* the waiting caller gets its reply *)
| TimesOut.                                     (* or gives up *)

(** The frame a message from a socket client arrives as. *)
Definition message_frame (from : str) (hdr data : bytes) (realtime : bool) : FrameData :=
  MkFrame FrameKind_Message (Some from) None None (hdr ++ data) 0 realtime.

(** Programs by the names of their clients. *)
Abbreviation system := (gmap str endpoint) (only parsing).

Section endpoint.
(** The handlers: the result of [handle_call]. *)
Context (handle_call : str -> RpcEvent -> RpcResult).

(** The result of an action: the state afterwards and what is sent. [None]: the action is not
    possible, which for [act_sends] and [act_replies] means that the thread waits. *)
Definition acted : Type := option (endpoint * list (str * FrameData)).

(** A thread enters [call]: it takes an id and registers the call. *)
Definition act_call (target method : str) (params : bytes) (qos : QoS) (e : endpoint) : acted :=
  let '((hdr, id, tx), r) := call_begin method (rpc e) in
  Some (MkEndpoint r (inbox e) (<[ tx := Outgoing id target hdr params qos ]> (ready e)) (waiting e)
          (handlers e) (resolved e), []).

(** It gets the mutex of the client, which it keeps, and sends. *)
Definition act_sends (n : str) (tx : nat) (e : endpoint) : acted :=
  match waiting e, ready e !! tx with
  | None, Some og =>
      Some (MkEndpoint (rpc e) (inbox e) (delete tx (ready e)) (Some (tx, og_id og)) (handlers e) (resolved e),
            [(og_target og, message_frame n (og_header og) (og_params og) (is_realtime (og_qos og)))])
  | _, _ => None
  end.

(** A sending that fails leaves [call] at once; the call stays registered. *)
Definition act_send_fails (tx : nat) (e : endpoint) : acted :=
  match waiting e, ready e !! tx with
  | None, Some og =>
      Some (MkEndpoint (rpc e) (inbox e) (delete tx (ready e)) None (handlers e) (resolved e), [])
  | _, _ => None
  end.

(** One turn of [Processor::run]; notifications and frames are handled in the turn itself. *)
Definition act_process (e : endpoint) : acted :=
  match inbox e with
  | [] => None
  | f :: fs =>
      '(what, r) ← processor_step (MkOptions true true) f (rpc e);
      let e := MkEndpoint r fs (ready e) (waiting e) (handlers e) (resolved e) in
      Some (match what with
            | HandleCall ev reply_to qos =>
                MkEndpoint r fs (ready e) (waiting e) (handlers e ++ [(ev, reply_to, qos)]) (resolved e)
            | Resolve tx ev => MkEndpoint r fs (ready e) (waiting e) (handlers e) (<[ tx := ev ]> (resolved e))
            | _ => e
            end, [])
  end.

(** The thread of a request ends, with [send_reply!] if a reply is wanted. *)
Definition act_replies (n : str) (i : nat) (e : endpoint) : acted :=
  '(ev, reply_to, qos) ← handlers e !! i;
  let e' := MkEndpoint (rpc e) (inbox e) (ready e) (waiting e) (delete i (handlers e)) (resolved e) in
  match reply_to with
  | None => Some (e', [])
  | Some (target, id) =>
      match waiting e with
      | Some _ => None
      | None =>
          let '(hdr, data) := reply_parts id (handle_call n ev) in
          Some (e', [(target, message_frame n hdr data (is_realtime qos))])
      end
  end.

(** The waiting caller receives its reply and lets the client go. *)
Definition act_returns (e : endpoint) : acted :=
  '(tx, id) ← waiting e;
  _ ← resolved e !! tx;
  Some (MkEndpoint (rpc e) (inbox e) (ready e) None (handlers e) (resolved e), []).

(** Or it gives up and withdraws the call. *)
Definition act_times_out (e : endpoint) : acted :=
  '(tx, id) ← waiting e;
  match resolved e !! tx with
  | Some _ => None
  | None =>
      Some (MkEndpoint (MkRpcState (call_id (rpc e)) (delete id (calls (rpc e))) (next_tx (rpc e)))
              (inbox e) (ready e) None (handlers e) (resolved e), [])
  end.

(** One action of the program [n]. *)
Definition act (n : str) (a : action) (e : endpoint) : acted :=
  match a with
  | Call target method params qos => act_call target method params qos e
  | Sends tx => act_sends n tx e
  | SendFails tx => act_send_fails tx e
  | Process => act_process e
  | Replies i => act_replies n i e
  | Returns => act_returns e
  | TimesOut => act_times_out e
  end.

(** ** Systems *)

(** The bus; a message to nobody is refused in an acknowledgement, which [call] does not read. *)
Definition post (msgs : list (str * FrameData)) (s : system) : system :=
  foldl (fun s '(t, f) => alter (push f) t s) s msgs.

Definition sys_act (n : str) (a : action) (s : system) : option system :=
  e ← s !! n;
  '(e', msgs) ← act n a e;
  Some (post msgs (<[ n := e' ]> s)).

Fixpoint sys_run (acts : list (str * action)) (s : system) : option system :=
  match acts with
  | [] => Some s
  | (n, a) :: acts => s' ← sys_act n a s; sys_run acts s'
  end.

(** ** Everybody waits *)

Definition is_reply (f : FrameData) : bool :=
  match RpcEvent_try_from f with
  | Some (Ok ev) => match ev_kind ev with Reply | ErrorReply => true | _ => false end
  | _ => false
  end.

(** The program's call is out, and no reply has arrived. *)
Definition stuck (e : endpoint) : Prop :=
  exists tx id, waiting e = Some (tx, id) /\ resolved e !! tx = None /\ Forall (fun f => is_reply f = false) (inbox e).

Definition is_timeout (a : action) : bool := match a with TimesOut => true | _ => false end.

Lemma processor_no_resolve opts f r what r' :
  is_reply f = false -> processor_step opts f r = Some (what, r') ->
  match what with Resolve _ _ => False | _ => True end.
Proof.
  unfold processor_step, is_reply. intros Hf H. case_decide; [|by simplify_eq].
  destruct (RpcEvent_try_from f) as [[ev|e]|]; cbn in H; [|by simplify_eq|done].
  destruct (ev_kind ev); try done; [by simplify_eq|].
  destruct (event_id ev) as [id|]; cbn in H; [|done].
  destruct (if 0 <? id then _ else _); cbn in H; by simplify_eq.
Qed.

(** A stuck program stays stuck whatever it does, and sends nothing. *)
Lemma act_stuck n a e e' msgs :
  stuck e -> is_timeout a = false -> act n a e = Some (e', msgs) ->
  msgs = [] /\ stuck e' /\ waiting e' = waiting e.
Proof.
  intros (tx & id & Hw & Hr & Hi) Ha. destruct a as [target method params qos|t|t| |i| |]; cbn [act];
    unfold act_call, act_sends, act_send_fails, act_process, act_replies, act_returns, act_times_out; try rewrite Hw.
  - intros [= <- <-]. split_and!; [done| |done]. by exists tx, id.
  - done.
  - done.
  - destruct (inbox e) as [|f fs] eqn:Ef; [done|]. inversion_clear Hi as [|? ? Hf Hfs].
    destruct (processor_step _ f (rpc e)) as [[what r]|] eqn:E; cbn; [|done].
    pose proof (processor_no_resolve _ _ _ _ _ Hf E). intros [= <- <-].
    destruct what; try done; (split_and!; [done|exists tx, id|]; done).
  - destruct (handlers e !! i) as [[[ev [[target j]|]] qos]|]; cbn; [done| |done].
    intros [= <- <-]. split_and!; [done| |done]. by exists tx, id.
  - cbn. by rewrite Hr.
  - done.
Qed.

(** ** Running a system *)

Lemma sys_run_cons n a acts s s1 :
  sys_act n a s = Some s1 -> sys_run ((n, a) :: acts) s = sys_run acts s1.
Proof. intros E. cbn. by rewrite E. Qed.

Lemma sys_act_quiet n a s e e' :
  s !! n = Some e -> act n a e = Some (e', []) -> sys_act n a s = Some (<[ n := e' ]> s).
Proof. intros Hn E. unfold sys_act. rewrite Hn. cbn. by rewrite E. Qed.

Lemma sys_act_send n a s e e' t et f :
  s !! n = Some e -> n <> t -> s !! t = Some et -> act n a e = Some (e', [(t, f)]) ->
  sys_act n a s = Some (<[ t := push f et ]> (<[ n := e' ]> s)).
Proof.
  intros Hn Hne Ht E. unfold sys_act. rewrite Hn. cbn [mbind option_bind]. rewrite E.
  cbn [mbind option_bind]. f_equal.
  change (alter (push f) t (<[ n := e' ]> s) = <[ t := push f et ]> (<[ n := e' ]> s)).
  apply map_eq. intros k. destruct (decide (k = t)) as [->|Hk].
  - rewrite lookup_alter_eq, lookup_insert_ne, lookup_insert_eq, Ht by done. done.
  - by rewrite lookup_alter_ne, (lookup_insert_ne _ t) by done.
Qed.

Lemma message_carried from hdr data rt : carried hdr data (message_frame from hdr data rt).
Proof. right. split; [done|]. unfold payload. cbn. apply slice_from_0. Qed.

Lemma sys_run_app acts1 acts2 s s1 :
  sys_run acts1 s = Some s1 -> sys_run (acts1 ++ acts2) s = sys_run acts2 s1.
Proof.
  revert s. induction acts1 as [|[n a] acts1 IH]; intros s; cbn; [by intros [= ->]|].
  destruct (sys_act n a s); cbn; [apply IH|done].
Qed.

(** The caller once its call is out. *)
Definition called (method : str) (e : endpoint) : endpoint :=
  let '((hdr, id, tx), r) := call_begin method (rpc e) in
  MkEndpoint r (inbox e) (delete tx (ready e)) (Some (tx, id)) (handlers e) (resolved e).

(** The caller once the call returned with an event. *)
Definition returned (method : str) (ev : RpcEvent) (e : endpoint) : endpoint :=
  let '((hdr, id, tx), r) := call_begin method (rpc e) in
  MkEndpoint (MkRpcState (call_id r) (delete id (calls r)) (next_tx r)) [] (delete tx (ready e)) None (handlers e)
    (<[ tx := ev ]> (resolved e)).

Lemma call_out n t method params qos s en et :
  n <> t -> s !! n = Some en -> s !! t = Some et -> waiting en = None ->
  sys_run [(n, Call t method params qos); (n, Sends (next_tx (rpc en)))] s =
    Some (<[ t := push (message_frame n (prepare_call_payload method (to_le_bytes 4 (next_call_id (call_id (rpc en)))))
                         params (is_realtime qos)) et ]> (<[ n := called method en ]> s)).
Proof.
  intros Hnt Hn Ht Wn.
  erewrite sys_run_cons; [|eapply sys_act_quiet; [done|reflexivity]]. cbn [sys_run].
  erewrite (sys_act_send n _ _ _ (called method en) t et); [|apply lookup_insert_eq|done|by rewrite lookup_insert_ne|].
  - cbn [mbind option_bind]. by rewrite insert_insert_eq.
  - cbn [act]. unfold act_sends. cbn. rewrite Wn, lookup_insert_eq. unfold called. cbn. by rewrite delete_insert_eq.
Qed.

Lemma call_served n t f req id q s en et :
  n <> t -> s !! n = Some en -> s !! t = Some (push f et) -> waiting et = None -> inbox et = [] ->
  processor_step (MkOptions true true) f (rpc et) = Some (HandleCall req (Some (n, id)) q, rpc et) ->
  sys_run [(t, Process); (t, Replies (length (handlers et)))] s =
    Some (<[ n := push (message_frame t (reply_parts id (handle_call t req)).1 (reply_parts id (handle_call t req)).2
                         (is_realtime q)) en ]> (<[ t := et ]> s)).
Proof.
  intros Hnt Hn Ht Wt It Hp.
  erewrite sys_run_cons; [|eapply sys_act_quiet; [done|]; cbn [act]; unfold act_process; cbn [push set_inbox inbox rpc]; rewrite It;
    cbn [app]; rewrite Hp; reflexivity].
  cbn [sys_run ready waiting handlers resolved push set_inbox].
  erewrite (sys_act_send t _ _ _ et n en); [|apply lookup_insert_eq|done|by rewrite lookup_insert_ne|].
  - cbn [mbind option_bind]. by rewrite insert_insert_eq.
  - cbn [act]; unfold act_replies; cbn [handlers rpc inbox ready waiting resolved]. rewrite list_lookup_middle by done.
    cbn [mbind option_bind]. rewrite delete_middle, app_nil_r, Wt.
    destruct et; cbn in *; subst. by destruct (reply_parts id _).
Qed.

Lemma call_returned n method g ev s en :
  s !! n = Some (push g (called method en)) -> inbox en = [] ->
  processor_step (MkOptions true true) g (rpc (called method en)) =
    Some (Resolve (next_tx (rpc en)) ev, rpc (returned method ev en)) ->
  sys_run [(n, Process); (n, Returns)] s = Some (<[ n := returned method ev en ]> s).
Proof.
  intros Hn Ie Hp.
  erewrite sys_run_cons; [|eapply sys_act_quiet; [done|]; cbn [act]; unfold act_process; cbn [push set_inbox inbox rpc called call_begin];
    rewrite Ie; cbn [app]; unfold called, call_begin in Hp; cbn [rpc] in Hp; rewrite Hp; reflexivity].
  cbn [sys_run]. erewrite sys_act_quiet; [|apply lookup_insert_eq|].
  - cbn [mbind option_bind]. by rewrite insert_insert_eq.
  - cbn [act]. unfold act_returns. cbn. by rewrite lookup_insert_eq.
Qed.
End endpoint.

(** C34: when every program of a system waits in a call, nothing but timeouts helps: the handler
    threads that have the answers wait for the mutexes the callers hold, so that no message is
    ever sent again and no call returns, whatever the processors and the other threads do. *)
Theorem sync_calls_deadlock (handle_call : str -> RpcEvent -> RpcResult) (acts : list (str * action)) (s s' : system) :
  (forall n e, s !! n = Some e -> stuck e) ->
  Forall (fun na => is_timeout na.2 = false) acts ->
  sys_run handle_call acts s = Some s' ->
  forall n e, s' !! n = Some e -> stuck e /\ exists e0, s !! n = Some e0 /\ waiting e = waiting e0.
Proof.
  revert s. induction acts as [|[m a] acts IH]; intros s Hs Ha Hrun n e He; cbn in Hrun.
  - simplify_eq. eauto.
  - inversion_clear Ha as [|? ? Ha1 Ha2]. destruct (sys_act handle_call m a s) as [s1|] eqn:E; cbn in Hrun; [|done].
    unfold sys_act in E. destruct (s !! m) as [em|] eqn:Em; cbn in E; [|done].
    destruct (act handle_call m a em) as [[em' msgs]|] eqn:Eact; cbn in E; [|done].
    destruct (act_stuck _ _ _ _ _ _ (Hs m em Em) Ha1 Eact) as (-> & Hst & Hw). cbn in E. injection E as <-.
    destruct (IH (<[m:=em']> s)) with (n := n) (e := e) as (Hse & e0 & He0 & Hw0); [|done..|].
    + intros k ek [[<- <-]|[_ Hk]]%lookup_insert_Some; [done|by eapply Hs].
    + split; [done|]. apply lookup_insert_Some in He0 as [[<- <-]|[_ He0]]; eauto with congruence.
Qed.

(** C33: a call to a program that is not itself waiting is answered: from any state in which
    neither of the two has unread frames or holds its mutex, the call, its sending, the turn of
    the callee's processor, the end of the handler thread, and the turn of the caller's processor
    lead to the return of the call with the handler's result for its method and parameters; no
    trace of the call remains but its event. *)
Theorem sync_call_completes (handle_call : str -> RpcEvent -> RpcResult) (n t method params : str) (qos : QoS) (s : system) en et :
  n <> t -> s !! n = Some en -> s !! t = Some et ->
  waiting en = None -> inbox en = [] -> waiting et = None -> inbox et = [] ->
  0 <= call_id (rpc en) < 2 ^ 32 -> x00 ∉ method ->
  (forall ev e, handle_call t ev = Err e -> - 2 ^ 15 <= rpc_code e < 2 ^ 15) ->
  let id := next_call_id (call_id (rpc en)) in
  let tx := next_tx (rpc en) in
  exists s' en' req ev,
    sys_run handle_call
      [(n, Call t method params qos); (n, Sends tx); (t, Process); (t, Replies (length (handlers et)));
       (n, Process); (n, Returns)] s = Some s' /\
    event_method req = Some method /\ event_payload req = Some params /\
    s' !! t = Some et /\ s' !! n = Some en' /\
    waiting en' = None /\ inbox en' = [] /\ resolved en' = <[ tx := ev ]> (resolved en) /\
    calls (rpc en') = delete id (calls (rpc en)) /\
    call_finish ev = Some match handle_call t req with
                          | Ok _ => Ok ev
                          | Err e => Err (MkRpcError (rpc_code e) (Some (default [] (rpc_data e))))
                          end.
Proof.
  intros Hnt Hn Ht Wn In Wt It Hid Hm Hcode id tx.
  pose proof (next_call_id_range _ Hid) as Hr. fold id in Hr.
  set (f := message_frame n (prepare_call_payload method (to_le_bytes 4 id)) params (is_realtime qos)).
  destruct (processor_request (MkOptions true true) method params n id f (rpc et) Hr Hm eq_refl eq_refl
    (message_carried _ _ _ _)) as (req & Eq & Em & Ep).
  set (q := if frame_realtime f then QoS_RealtimeProcessed else QoS_Processed) in *.
  set (res := handle_call t req).
  set (g := message_frame t (reply_parts id res).1 (reply_parts id res).2 (is_realtime q)).
  set (r1 := MkRpcState id (<[ id := tx ]> (calls (rpc en))) (S tx)).
  assert (Hc : match res with Ok _ => True | Err e => - 2 ^ 15 <= rpc_code e < 2 ^ 15 end).
  { destruct res eqn:E; [done|]. by apply (Hcode req). }
  destruct (processor_reply (MkOptions true true) id res g r1 tx) as (ev & Er & _ & Ef);
    [lia|done|apply lookup_insert_eq|done|apply message_carried|].
  exists (<[ n := returned method ev en ]> (<[ n := push g (called method en) ]>
    (<[ t := et ]> (<[ t := push f et ]> (<[ n := called method en ]> s))))), (returned method ev en), req, ev.
  split_and!; [|done|done| |apply lookup_insert_eq|done|done|done| |done].
  - match goal with |- _ = ?r =>
      change (sys_run handle_call ([(n, Call t method params qos); (n, Sends tx)] ++
        [(t, Process); (t, Replies (length (handlers et)))] ++ [(n, Process); (n, Returns)]) s = r) end.
    rewrite (sys_run_app _ _ _ _ _ (call_out handle_call n t method params qos s en et Hnt Hn Ht Wn)).
    erewrite sys_run_app; [|apply (call_served handle_call n t f req id q _ (called method en) et);
      [done|by rewrite lookup_insert_ne, lookup_insert_eq|apply lookup_insert_eq|done..]].
    eapply call_returned; [apply lookup_insert_eq|done|exact Er].
  - rewrite !(lookup_insert_ne _ n t) by done. apply lookup_insert_eq.
  - cbn. apply delete_insert_eq.
Qed.

(** ** Two programs that call each other *)

(** Every method answers with its name. *)
Definition echo (n : str) (ev : RpcEvent) : RpcResult := Ok (event_method ev).

Definition pair_new : system := {[ lit "a" := endpoint_new; lit "b" := endpoint_new ]}.

Definition crossed : system :=
  default ∅ (sys_run echo
    [(lit "a", Call (lit "b") (lit "x") [] QoS_No); (lit "b", Call (lit "a") (lit "y") [] QoS_No);
     (lit "a", Sends 0); (lit "b", Sends 0)] pair_new).

Definition stuckb (e : endpoint) : bool :=
  match waiting e with
  | Some (tx, _) => match resolved e !! tx with None => forallb (fun f => negb (is_reply f)) (inbox e) | Some _ => false end
  | None => false
  end.

Lemma stuckb_stuck e : stuckb e = true -> stuck e.
Proof.
  unfold stuckb, stuck. destruct (waiting e) as [[tx id]|]; [|done].
  destruct (resolved e !! tx) eqn:E; [done|]. rewrite forallb_forall. intros H. exists tx, id.
  split_and!; [done|done|]. apply Forall_forall. intros f Hf%list_elem_of_In%H. by apply negb_true_iff.
Qed.

Lemma crossed_stuck n e : crossed !! n = Some e -> stuck e.
Proof.
  intros H%elem_of_map_to_list%list_elem_of_In. apply stuckb_stuck.
  assert (E : forallb (fun ne => stuckb ne.2) (map_to_list crossed) = true) by (vm_compute; reflexivity).
  rewrite forallb_forall in E. by apply (E (n, e)).
Qed.

Definition handled : system := default ∅ (sys_run echo [(lit "a", Process); (lit "b", Process)] crossed).

(** Both requests are handled, neither reply can be sent. *)
Lemma sync_calls_deadlock_witness :
  exists e, handled !! lit "a" = Some e /\ waiting e = Some (0%nat, 1) /\ length (handlers e) = 1%nat /\
    sys_run echo [(lit "a", Replies 0)] handled = None.
Proof.
  assert (E : sys_run echo [(lit "a", Process); (lit "b", Process)] crossed = Some handled) by (vm_compute; reflexivity).
  exists (default endpoint_new (handled !! lit "a")).
  assert (He : handled !! lit "a" = Some (default endpoint_new (handled !! lit "a"))) by (vm_compute; reflexivity).
  destruct (sync_calls_deadlock echo [(lit "a", Process); (lit "b", Process)] crossed handled crossed_stuck
    ltac:(repeat constructor) E (lit "a") _ He) as (_ & e0 & H0 & Hw).
  assert (H1 : waiting <$> crossed !! lit "a" = Some (Some (0%nat, 1))) by (vm_compute; reflexivity).
  rewrite H0 in H1. injection H1 as H1.
  split; [exact He|split; [by rewrite Hw|split; vm_compute; reflexivity]].
Defined.

Lemma sync_call_completes_witness :
  exists s' en', sys_run echo
      [(lit "a", Call (lit "b") (lit "x") (lit "p") QoS_No); (lit "a", Sends 0); (lit "b", Process); (lit "b", Replies 0);
       (lit "a", Process); (lit "a", Returns)] pair_new = Some s' /\
    s' !! lit "a" = Some en' /\ waiting en' = None /\ calls (rpc en') = ∅.
Proof.
  destruct (sync_call_completes echo (lit "a") (lit "b") (lit "x") (lit "p") QoS_No pair_new endpoint_new endpoint_new)
    as (s' & en' & req & ev & E & _ & _ & _ & Hn & Hw & _ & _ & Hc & _).
  - done.
  - reflexivity.
  - reflexivity.
  - done.
  - done.
  - done.
  - done.
  - done.
  - by apply not_elem_of_cons; split; [|apply not_elem_of_nil].
  - done.
  - exists s', en'. split_and!; [exact E|exact Hn|exact Hw|]. rewrite Hc. reflexivity.
Defined.
