(* ===== verification/Clients.v ===== *)
(** * The interface of clients ([src/client.rs], [src/sync/client.rs], [src/borrow.rs])

    The buffers that the operations of clients take, the trait that the in-process client, the socket
    client and the blocking socket client implement, as a class with the laws its users rely on, and
    the three implementations. What an application does with a client is proved from the laws. *)
From S2P Require Export Scenarios.
From S2P Require Ipc IpcFacts SyncIpc.

(** ** Buffers *)

(** [Cow]: borrowed, owned or shared bytes. *)
Inductive Cow := Borrowed (v : bytes) | Owned (v : bytes) | Referenced (v : bytes).

Definition Cow_from_vec (src : bytes) : Cow := Owned src.
Definition Cow_from_arc (src : bytes) : Cow := Referenced src.
Definition Cow_from_slice (src : bytes) : Cow := Borrowed src.

Definition as_slice (c : Cow) : bytes := match c with Borrowed v => v | Owned v => v | Referenced v => v end.
Definition to_vec (c : Cow) : bytes := match c with Borrowed v => v | Owned v => v | Referenced v => v end.
Definition cow_len (c : Cow) : Z :=
  match c with Borrowed v => blen v | Owned v => blen v | Referenced v => blen v end.
Definition cow_is_empty (c : Cow) : bool :=
  match c with
  | Borrowed v => bool_decide (v = [])
  | Owned v => bool_decide (v = [])
  | Referenced v => bool_decide (v = [])
  end.

(** ** The trait *)

(** [AsyncClient], over the state an implementation works on; [ac_confirmation] is the receiving end of a
    confirmation, [ac_connected_beacon] the value of the flag that is shared. *)
Class AsyncClient (S : Type) := {
  ac_confirmation : Type;
  ac_take_event_channel : prog S Error (option unit);
  ac_send : str -> Cow -> QoS -> prog S Error (option ac_confirmation);
  ac_zc_send : str -> Cow -> Cow -> QoS -> prog S Error (option ac_confirmation);
  ac_send_broadcast : str -> Cow -> QoS -> prog S Error (option ac_confirmation);
  ac_publish : str -> Cow -> QoS -> prog S Error (option ac_confirmation);
  ac_publish_for : str -> str -> Cow -> QoS -> prog S Error (option ac_confirmation);
  ac_subscribe : str -> QoS -> prog S Error (option ac_confirmation);
  ac_unsubscribe : str -> QoS -> prog S Error (option ac_confirmation);
  ac_subscribe_bulk : list str -> QoS -> prog S Error (option ac_confirmation);
  ac_unsubscribe_bulk : list str -> QoS -> prog S Error (option ac_confirmation);
  ac_exclude : str -> QoS -> prog S Error (option ac_confirmation);
  ac_unexclude : str -> QoS -> prog S Error (option ac_confirmation);
  ac_exclude_bulk : list str -> QoS -> prog S Error (option ac_confirmation);
  ac_unexclude_bulk : list str -> QoS -> prog S Error (option ac_confirmation);
  ac_ping : prog S Error unit;
  ac_is_connected : S -> bool;
  ac_connected_beacon : S -> option bool;
  ac_get_timeout : S -> option Z;
  ac_get_name : S -> str;
}.

(** The default of [publish_for], which the three clients override. *)
Definition publish_for_default {S C} (topic receiver : str) (payload : Cow) (qos : QoS) : prog S Error (option C) :=
  throw (Error_not_supported (lit "publish_for")).

(** [SyncClient] has the same operations, which block. *)
Definition SyncClient := AsyncClient.

(** The operations that are confirmed. *)
Inductive operation :=
| Send (target : str) (payload : Cow)
| ZcSend (target : str) (header payload : Cow)
| SendBroadcast (target : str) (payload : Cow)
| Publish (topic : str) (payload : Cow)
| PublishFor (topic receiver : str) (payload : Cow)
| Subscribe (topic : str) | Unsubscribe (topic : str)
| SubscribeBulk (topics : list str) | UnsubscribeBulk (topics : list str)
| Exclude (topic : str) | Unexclude (topic : str)
| ExcludeBulk (topics : list str) | UnexcludeBulk (topics : list str).

Definition operate {S} `{AsyncClient S} (op : operation) (qos : QoS) : prog S Error (option ac_confirmation) :=
  match op with
  | Send t p => ac_send t p qos
  | ZcSend t h p => ac_zc_send t h p qos
  | SendBroadcast t p => ac_send_broadcast t p qos
  | Publish t p => ac_publish t p qos
  | PublishFor t r p => ac_publish_for t r p qos
  | Subscribe t => ac_subscribe t qos
  | Unsubscribe t => ac_unsubscribe t qos
  | SubscribeBulk ts => ac_subscribe_bulk ts qos
  | UnsubscribeBulk ts => ac_unsubscribe_bulk ts qos
  | Exclude t => ac_exclude t qos
  | Unexclude t => ac_unexclude t qos
  | ExcludeBulk ts => ac_exclude_bulk ts qos
  | UnexcludeBulk ts => ac_unexclude_bulk ts qos
  end.

(** The same operation on the same bytes, and an operation on one topic as one on a list. *)
Definition flat (c : Cow) : Cow := Borrowed (as_slice c).
Definition plain (op : operation) : operation :=
  match op with
  | Send t p => Send t (flat p)
  | ZcSend t h p => ZcSend t (flat h) (flat p)
  | SendBroadcast t p => SendBroadcast t (flat p)
  | Publish t p => Publish t (flat p)
  | PublishFor t r p => PublishFor t r (flat p)
  | Subscribe t => SubscribeBulk [t]
  | Unsubscribe t => UnsubscribeBulk [t]
  | Exclude t => ExcludeBulk [t]
  | Unexclude t => UnexcludeBulk [t]
  | op => op
  end.

(** What users rely on: the operations of a valid client do not panic and leave it valid, under its
    name; a confirmation is announced exactly if it was asked for; of buffers only the bytes matter,
    and an operation on a topic is the one on a list of it; the event channel is given away once. *)
Class AsyncClientLaws (S : Type) `{AsyncClient S} := {
  ac_valid : S -> Prop;
  ac_operate op qos s : ac_valid s ->
    match operate op qos s with
    | Done c s' => ac_valid s' /\ ac_get_name s' = ac_get_name s /\ (is_Some c <-> needs_ack qos = true)
    | Throw _ s' | Hang s' => ac_valid s' /\ ac_get_name s' = ac_get_name s
    | Panic => False
    end;
  ac_plain op qos s : operate (plain op) qos s = operate op qos s;
  ac_take_once s : exists r s', ac_take_event_channel s = Done r s' /\
    ac_take_event_channel s' = Done None s' /\ (ac_valid s -> ac_valid s') /\ ac_get_name s' = ac_get_name s;
  ac_beacon s b : ac_connected_beacon s = Some b -> ac_is_connected s = b;
}.

(** ** The implementations *)

Section internal.
Context {X : Externals}.

(** The in-process client: its handle and the broker's database. *)
Definition on_bus {A} (m : nat -> prog BrokerDb Error A) : prog (Client * BrokerDb) Error A := fun '(cl, d) =>
  match m (bus cl) d with
  | Done a d => Done a (cl, d)
  | Throw e d => Throw e (cl, d)
  | Hang d => Hang (cl, d)
  | Panic => Panic
  end.

#[export] Instance internal_client : AsyncClient (Client * BrokerDb) := {
  ac_confirmation := result unit Error;
  ac_take_event_channel := fun '(cl, d) => let '(rx, cl) := take_event_channel cl in Done rx (cl, d);
  ac_send t p qos := on_bus (fun c => client_send c t (to_vec p) qos);
  ac_zc_send t h p qos := on_bus (fun c => client_zc_send c t (to_vec h) (to_vec p) qos);
  ac_send_broadcast t p qos := on_bus (fun c => client_send_broadcast c t (to_vec p) qos);
  ac_publish t p qos := on_bus (fun c => client_publish c t (to_vec p) qos);
  ac_publish_for t r p qos := on_bus (fun c => client_publish_for c t r (to_vec p) qos);
  ac_subscribe t qos := on_bus (fun c => subscribe c t qos);
  ac_unsubscribe t qos := on_bus (fun c => unsubscribe c t qos);
  ac_subscribe_bulk ts qos := on_bus (fun c => subscribe_bulk c ts qos);
  ac_unsubscribe_bulk ts qos := on_bus (fun c => unsubscribe_bulk c ts qos);
  ac_exclude t qos := on_bus (fun c => exclude c t qos);
  ac_unexclude t qos := on_bus (fun c => unexclude c t qos);
  ac_exclude_bulk ts qos := on_bus (fun c => exclude_bulk c ts qos);
  ac_unexclude_bulk ts qos := on_bus (fun c => unexclude_bulk c ts qos);
  ac_ping := mret tt;
  ac_is_connected _ := true;
  ac_connected_beacon _ := None;
  ac_get_timeout _ := None;
  ac_get_name s := client_name s.1;
}.
End internal.

Section sockets.
Context {Q : Type} (timeout : Z).

Definition socket_client : AsyncClient (Ipc.Client Q) := {|
  ac_confirmation := nat;
  ac_take_event_channel := Ipc.take_event_channel;
  ac_send t p := Ipc.send t (as_slice p);
  ac_zc_send t h p := Ipc.zc_send t (as_slice h) (as_slice p);
  ac_send_broadcast t p := Ipc.send_broadcast t (as_slice p);
  ac_publish t p := Ipc.publish t (as_slice p);
  ac_publish_for t r p := Ipc.publish_for t r (as_slice p);
  ac_subscribe := Ipc.subscribe;
  ac_unsubscribe := Ipc.unsubscribe;
  ac_subscribe_bulk := Ipc.subscribe_bulk;
  ac_unsubscribe_bulk := Ipc.unsubscribe_bulk;
  ac_exclude := Ipc.exclude;
  ac_unexclude := Ipc.unexclude;
  ac_exclude_bulk := Ipc.exclude_bulk;
  ac_unexclude_bulk := Ipc.unexclude_bulk;
  ac_ping := Ipc.ping;
  ac_is_connected := Ipc.is_connected;
  ac_connected_beacon c := Some (Ipc.connected c);
  ac_get_timeout _ := Some timeout;
  ac_get_name := Ipc.name;
|}.

Definition blocking_client : SyncClient (SyncIpc.Client Q) := {|
  ac_confirmation := nat;
  ac_take_event_channel := SyncIpc.take_event_channel;
  ac_send t p := SyncIpc.send t (as_slice p);
  ac_zc_send t h p := SyncIpc.zc_send t (as_slice h) (as_slice p);
  ac_send_broadcast t p := SyncIpc.send_broadcast t (as_slice p);
  ac_publish t p := SyncIpc.publish t (as_slice p);
  ac_publish_for t r p := SyncIpc.publish_for t r (as_slice p);
  ac_subscribe := SyncIpc.subscribe;
  ac_unsubscribe := SyncIpc.unsubscribe;
  ac_subscribe_bulk := SyncIpc.subscribe_bulk;
  ac_unsubscribe_bulk := SyncIpc.unsubscribe_bulk;
  ac_exclude := SyncIpc.exclude;
  ac_unexclude := SyncIpc.unexclude;
  ac_exclude_bulk := SyncIpc.exclude_bulk;
  ac_unexclude_bulk := SyncIpc.unexclude_bulk;
  ac_ping := SyncIpc.ping;
  ac_is_connected := SyncIpc.is_connected;
  ac_connected_beacon c := Some (SyncIpc.connected c);
  ac_get_timeout _ := Some timeout;
  ac_get_name := SyncIpc.name;
|}.
End sockets.

(** ** They keep the laws *)

Section internal_laws.
Context {X : Externals} `{!ExternalsLaws X}.

Lemma confirm_channel_spec qos : is_Some (make_confirm_channel qos) <-> needs_ack qos = true.
Proof. unfold make_confirm_channel. destruct (needs_ack qos); split; intros H; try done; by destruct H. Qed.

(** A program on the database that ends by making the confirmation. *)
Definition confirms (m : prog BrokerDb Error OpConfirm) (qos : QoS) : Prop :=
  exists m0 : prog BrokerDb Error unit, forall d, m d = (m0 ≫= fun _ => mret (make_confirm_channel qos)) d.

Lemma on_bus_laws (m : nat -> prog BrokerDb Error OpConfirm) qos cl d :
  (forall D c, c ∈ D -> preserves (wf_cur D c) (m c)) -> (forall c, confirms (m c) qos) ->
  db_wf d -> current (bus cl) d ->
  match on_bus m (cl, d) with
  | Done c s' => (db_wf s'.2 /\ current (bus s'.1) s'.2) /\ client_name s'.1 = client_name cl /\
                 (is_Some c <-> needs_ack qos = true)
  | Throw _ s' | Hang s' => (db_wf s'.2 /\ current (bus s'.1) s'.2) /\ client_name s'.1 = client_name cl
  | Panic => False
  end.
Proof.
  intros Hm Hc D Hcur. assert (Hin : bus cl ∈ dom (heap d)).
  { destruct Hcur as (y & Hy & _). by apply elem_of_dom_2 in Hy. }
  specialize (Hm (dom (heap d)) (bus cl) Hin d ltac:(by split; [split|])).
  destruct (Hc (bus cl)) as [m0 E]. unfold on_bus. rewrite E in *. unfold mbind, prog_bind in *.
  destruct (m0 d) as [[] d'|e d'|d'|]; cbn in *; [|destruct Hm as [[W _] Hcu]; by split..|done].
  destruct Hm as [[W _] Hcu]. split; [by split|]. split; [done|]. apply confirm_channel_spec.
Qed.

Lemma bind_ret_unit {S E A} (m : prog S E unit) (k : prog S E A) s :
  ((m ≫= fun _ => mret tt) ≫= fun _ => k) s = (m ≫= fun _ => k) s.
Proof. unfold mbind, prog_bind. by destruct (m s) as [[]| | |]. Qed.

Lemma confirms_last (m : prog BrokerDb Error unit) qos :
  confirms (m ≫= fun _ => mret (make_confirm_channel qos)) qos.
Proof. by exists m. Qed.

Lemma preserves_confirmed D c (m : prog BrokerDb Error unit) qos :
  preserves (wf_cur D c) m -> preserves (wf_cur D c) (m ≫= fun _ => mret (make_confirm_channel qos)).
Proof. intros Hm. apply preserves_bind; [done|]. intros _. apply preserves_ret. Qed.

Lemma preserves_own_upd D c f : c ∈ D -> inert f -> preserves (wf_cur D c) (upd c f).
Proof. intros Hc Hf. eapply preserves_upd; [apply stable_wf_cur|done..]. Qed.

(** The operations on the database. *)
Definition bus_op (op : operation) (qos : QoS) (c : nat) : prog BrokerDb Error OpConfirm :=
  match op with
  | Send t p => client_send c t (to_vec p) qos
  | ZcSend t h p => client_zc_send c t (to_vec h) (to_vec p) qos
  | SendBroadcast t p => client_send_broadcast c t (to_vec p) qos
  | Publish t p => client_publish c t (to_vec p) qos
  | PublishFor t r p => client_publish_for c t r (to_vec p) qos
  | Subscribe t => subscribe c t qos
  | Unsubscribe t => unsubscribe c t qos
  | SubscribeBulk ts => subscribe_bulk c ts qos
  | UnsubscribeBulk ts => unsubscribe_bulk c ts qos
  | Exclude t => exclude c t qos
  | Unexclude t => unexclude c t qos
  | ExcludeBulk ts => exclude_bulk c ts qos
  | UnexcludeBulk ts => unexclude_bulk c ts qos
  end.

Lemma operate_bus op qos : operate op qos = on_bus (bus_op op qos).
Proof. by destruct op. Qed.

Lemma bus_op_confirms op qos c : confirms (bus_op op qos c) qos.
Proof.
  destruct op; apply confirms_last.
Qed.

Lemma preserves_bus_op D c op qos : c ∈ D -> preserves (wf_cur D c) (bus_op op qos c).
Proof.
  intros Hc. pose proof (stable_wf_cur D c) as HI.
  assert (Hun : forall x, x ∈ D -> preserves (wf_cur D c) (unregister_client x))
    by (intros x Hx; by eapply preserves_unregister_client).
  destruct op; apply preserves_confirmed; cbn [bus_op].
  - by eapply preserves_send.
  - by eapply preserves_send.
  - by eapply preserves_broadcast.
  - by eapply preserves_publish.
  - by eapply preserves_publish_for.
  - apply preserves_sub_step, subscribe_topic_update.
  - apply preserves_sub_step, unsubscribe_topic_update.
  - apply preserves_for_each. intros t _. apply preserves_sub_step, subscribe_topic_update.
  - apply preserves_for_each. intros t _. apply preserves_sub_step, unsubscribe_topic_update.
  - change (preserves (wf_cur D c) (upd c (set_has_exclusions true) ≫= fun _ =>
      upd c (fun cl => set_exclusions (acl_insert topic (exclusions cl)) cl))).
    apply preserves_bind; [|intros _]; by apply preserves_own_upd.
  - apply preserves_own_upd; [done|apply inert_unexclude_topics].
  - apply preserves_own_upd; [done|apply inert_exclude_topics].
  - apply preserves_own_upd; [done|apply inert_unexclude_topics].
Qed.

Lemma bus_op_plain op qos c d : bus_op (plain op) qos c d = bus_op op qos c d.
Proof.
  destruct op; try done; cbn [plain bus_op].
  - unfold subscribe_bulk, subscribe. cbn [for_each]. apply bind_ret_unit.
  - unfold unsubscribe_bulk, unsubscribe. cbn [for_each]. apply bind_ret_unit.
  - unfold exclude_bulk, exclude. rewrite !(bind_Done _ _ _ _ _ (upd_run _ _ _)). by rewrite db_upd_compose.
Qed.

#[export] Instance internal_client_laws : AsyncClientLaws (Client * BrokerDb).
Proof.
  refine {| ac_valid s := db_wf s.2 /\ current (bus s.1) s.2 |}.
  - intros op qos [cl d] [D Hc]. rewrite operate_bus.
    apply (on_bus_laws _ qos cl d); [|intros c; apply bus_op_confirms|exact D|exact Hc]. intros D0 c. apply preserves_bus_op.
  - intros op qos [cl d]. rewrite !operate_bus. unfold on_bus. by rewrite bus_op_plain.
  - intros [cl d]. eexists _, _. split; [reflexivity|]. by split_and!.
  - done.
Defined.
End internal_laws.

(** The two socket clients are valid whatever their state. *)
Section socket_laws.
Context {Q : Type} (timeout : Z).

(** What is asked of one operation of a client that keeps its [name]. *)
Definition keeps_contract {S C} (name : S -> str) (qos : QoS) (s : S) (r : outcome S Error (option C)) : Prop :=
  match r with
  | Done c s' => True /\ name s' = name s /\ (is_Some c <-> needs_ack qos = true)
  | Throw _ s' | Hang s' => True /\ name s' = name s
  | Panic => False
  end.

Lemma socket_sends buf payload qos (c : Ipc.Client Q) :
  keeps_contract Ipc.name qos c (Ipc.send_frame_and_confirm buf payload qos c).
Proof.
  unfold Ipc.send_frame_and_confirm, Ipc.with_frame_write_guard, Ipc.send_data, mbind, prog_bind, gets, modify, keeps_contract.
  destruct (needs_ack qos), (Ipc.writes c) as [|[|e| |] [|[|e'| |] ws]] eqn:Ew; cbn; rewrite ?Ew; cbn; split_and?; try done;
    split; try done; eauto; by intros [? ?].
Qed.

Lemma blocking_sends buf payload qos (c : SyncIpc.Client Q) :
  keeps_contract SyncIpc.name qos c (SyncIpc.send_frame_and_confirm buf payload qos c).
Proof.
  unfold SyncIpc.send_frame_and_confirm, SyncIpc.send_data, mbind, prog_bind, gets, modify, keeps_contract.
  destruct (needs_ack qos), (SyncIpc.writes c) as [|[|e] [|[|e'] ws]] eqn:Ew; cbn; rewrite ?Ew; cbn; split_and?; try done;
    split; try done; eauto; by intros [? ?].
Qed.

Lemma socket_client_laws : @AsyncClientLaws (Ipc.Client Q) (socket_client timeout).
Proof.
  refine {| ac_valid (s : Ipc.Client Q) := True |}.
  - intros op qos s _. destruct op; apply socket_sends.
  - by intros [] qos s.
  - intros s. by eexists _, _.
  - by intros s b [= <-].
Defined.

Lemma blocking_client_laws : @AsyncClientLaws (SyncIpc.Client Q) (blocking_client timeout).
Proof.
  refine {| ac_valid (s : SyncIpc.Client Q) := True |}.
  - intros op qos s _. destruct op; apply blocking_sends.
  - by intros [] qos s.
  - intros s. by eexists _, _.
  - by intros s b [= <-].
Defined.
End socket_laws.

(** ** Applications *)

Section application.
Context {S : Type} `{AsyncClientLaws S}.

(** [client.op(..).await?.expect("no op")]: the confirmation of an operation. *)
Definition expected (op : operation) (qos : QoS) : prog S Error ac_confirmation :=
  operate op qos ≫= fun c => match c with Some c => mret c | None => panic end.

Fixpoint expected_all (ops : list (operation * QoS)) : prog S Error (list ac_confirmation) :=
  match ops with
  | [] => mret []
  | (op, qos) :: ops => expected op qos ≫= fun c => expected_all ops ≫= fun cs => mret (c :: cs)
  end.

Definition asks_ack (oq : operation * QoS) : Prop := needs_ack oq.2 = true.

Lemma expected_plain op qos s : expected (plain op) qos s = expected op qos s.
Proof. unfold expected, mbind, prog_bind. by rewrite ac_plain. Qed.

Lemma expected_all_run ops : forall s,
  Forall asks_ack ops -> ac_valid s ->
  match expected_all ops s with
  | Done cs s' => ac_valid s' /\ ac_get_name s' = ac_get_name s /\ length cs = length ops
  | Throw _ s' | Hang s' => ac_valid s' /\ ac_get_name s' = ac_get_name s
  | Panic => False
  end.
Proof.
  induction ops as [|[op qos] ops IH]; intros s Ha Hs; [done|]. inversion_clear Ha as [|? ? Hq Hrest].
  cbn [expected_all]. unfold expected, mbind, prog_bind. pose proof (ac_operate op qos s Hs) as Ho.
  destruct (operate op qos s) as [c s1|e s1|s1|]; [|done..]. destruct Ho as (Hs1 & En & Hc).
  destruct (proj2 Hc Hq) as [c' ->]. unfold mret, prog_ret. specialize (IH s1 Hrest Hs1).
  destruct (expected_all ops s1) as [cs s2|e s2|s2|]; cbn; intuition (try congruence; try lia).
Qed.

Lemma expected_all_plain ops : forall s, expected_all (prod_map plain id <$> ops) s = expected_all ops s.
Proof.
  induction ops as [|[op qos] ops IH]; intros s; [done|]. cbn [fmap list_fmap prod_map expected_all fst snd id].
  unfold mbind at 1 3, prog_bind at 1 3. rewrite expected_plain. destruct (expected op qos s) as [c s1| | |]; try done.
  unfold mbind, prog_bind. by rewrite IH.
Qed.
End application.

(** C30: an application may use any of the three clients in the same way: if it asks for confirmations it
    can expect one of every operation that is accepted ([expect("no op")] never panics), no operation
    panics by itself, and the client keeps its name, and in the broker's process the database its form,
    however the operations end; whether buffers are borrowed, owned or shared, and whether topics are given
    one by one or as lists of one, makes no difference. *)
Theorem clients_interchangeable {X : Externals} `{!ExternalsLaws X} {Q : Type} timeout ops :
  Forall asks_ack ops ->
  (forall cl d, db_wf d -> current (bus cl) d ->
     match expected_all (S := Client * BrokerDb) ops (cl, d) with
     | Done cs (cl', d') => db_wf d' /\ current (bus cl') d' /\ client_name cl' = client_name cl /\ length cs = length ops
     | Throw _ (cl', d') | Hang (cl', d') => db_wf d' /\ current (bus cl') d' /\ client_name cl' = client_name cl
     | Panic => False
     end /\ expected_all (prod_map plain id <$> ops) (cl, d) = expected_all ops (cl, d)) /\
  (forall c : Ipc.Client Q,
     match expected_all (H := socket_client timeout) ops c with
     | Done cs c' => Ipc.name c' = Ipc.name c /\ length cs = length ops
     | Throw _ c' | Hang c' => Ipc.name c' = Ipc.name c
     | Panic => False
     end /\ expected_all (H := socket_client timeout) (prod_map plain id <$> ops) c =
            expected_all (H := socket_client timeout) ops c) /\
  (forall c : SyncIpc.Client Q,
     match expected_all (H := blocking_client timeout) ops c with
     | Done cs c' => SyncIpc.name c' = SyncIpc.name c /\ length cs = length ops
     | Throw _ c' | Hang c' => SyncIpc.name c' = SyncIpc.name c
     | Panic => False
     end /\ expected_all (H := blocking_client timeout) (prod_map plain id <$> ops) c =
            expected_all (H := blocking_client timeout) ops c).
Proof.
  intros Ha. split_and!.
  - intros cl d D Hc. split; [|apply expected_all_plain].
    pose proof (expected_all_run (S := Client * BrokerDb) ops (cl, d) Ha (conj D Hc)) as H.
    destruct (expected_all _ _) as [cs [cl' d']|e [cl' d']|[cl' d']|]; cbn in H; naive_solver.
  - intros c. split; [|apply (expected_all_plain (H0 := socket_client_laws timeout))].
    pose proof (expected_all_run (H0 := socket_client_laws timeout) ops c Ha I) as H.
    destruct (expected_all _ _); cbn in H; naive_solver.
  - intros c. split; [|apply (expected_all_plain (H0 := blocking_client_laws timeout))].
    pose proof (expected_all_run (H0 := blocking_client_laws timeout) ops c Ha I) as H.
    destruct (expected_all _ _); cbn in H; naive_solver.
Qed.

(** The first client of [Scenarios.two] subscribes and sends; what it sends is borrowed. *)
Definition some_operations : list (operation * QoS) :=
  [(Subscribe (lit "news/#"), QoS_Processed); (Clients.Send (lit "b") (Borrowed (lit "hello")), QoS_RealtimeProcessed)].
Definition first_client : Client := MkInternal (lit "a") 0 (Some tt) 0.

Lemma clients_interchangeable_witness :
  match expected_all some_operations (first_client, two) with
  | Done cs (cl, _) => client_name cl = lit "a" /\ length cs = 2%nat
  | _ => False
  end.
Proof.
  destruct (clients_interchangeable (Q := Ref.queue FrameData) 1 some_operations) as (H & _); [by repeat constructor|].
  destruct (H first_client two) as [Hc _]; [apply run_wf| |].
  - exists (at_ptr two 0). split; [apply at_ptr_lookup; concrete|left; concrete].
  - assert (J : match expected_all some_operations (first_client, two) with Done _ _ => true | _ => false end = true) by concrete.
    destruct (expected_all some_operations (first_client, two)) as [cs [cl d]|e s|s|]; [clear J|discriminate J..].
    destruct Hc as (_ & _ & En & El). split; [exact En|exact El].
Defined.
