(* ===== verification/Connect.v ===== *)
(** * Opening a connection ([src/ipc.rs] and [src/sync/ipc.rs], [Client::connect])

    The configuration of a client, the choice of the transport by the path, and [connect]: a
    stream is opened, the dialogue of [Handshake.chat] is held on it, and a fresh client is made.
    The operating system and the WebSocket library are the class [Dialing]. *)
From S2P Require Export Handshake.
From S2P Require Ipc SyncIpc.

Definition ends_with (suffix s : bytes) : bool := starts_with (reverse suffix) (reverse s).

(** ** Configuration *)

(** [Config] of [src/ipc.rs]. *)
Record Config := MkConfig {
  cf_path : str;
  cf_name : str;
  cf_buf_size : Z;
  cf_buf_ttl : Z;
  cf_queue_size : Z;
  cf_timeout : Z;
  cf_token : option str;
}.

Definition Config_new (path name : str) : Config :=
  MkConfig path name DEFAULT_BUF_SIZE DEFAULT_BUF_TTL DEFAULT_QUEUE_SIZE DEFAULT_TIMEOUT None.
Definition Config_buf_size (size : Z) (c : Config) : Config :=
  MkConfig (cf_path c) (cf_name c) size (cf_buf_ttl c) (cf_queue_size c) (cf_timeout c) (cf_token c).
Definition Config_buf_ttl (ttl : Z) (c : Config) : Config :=
  MkConfig (cf_path c) (cf_name c) (cf_buf_size c) ttl (cf_queue_size c) (cf_timeout c) (cf_token c).
Definition Config_queue_size (size : Z) (c : Config) : Config :=
  MkConfig (cf_path c) (cf_name c) (cf_buf_size c) (cf_buf_ttl c) size (cf_timeout c) (cf_token c).
Definition Config_timeout (timeout : Z) (c : Config) : Config :=
  MkConfig (cf_path c) (cf_name c) (cf_buf_size c) (cf_buf_ttl c) (cf_queue_size c) timeout (cf_token c).
Definition Config_token (token : str) (c : Config) : Config :=
  MkConfig (cf_path c) (cf_name c) (cf_buf_size c) (cf_buf_ttl c) (cf_queue_size c) (cf_timeout c) (Some token).
Definition Config_rename (name : str) (c : Config) : Config :=
  MkConfig (cf_path c) name (cf_buf_size c) (cf_buf_ttl c) (cf_queue_size c) (cf_timeout c) (cf_token c).

(** [Config] of [src/sync/ipc.rs]. *)
Record SyncConfig := MkSyncConfig {
  sc_path : str;
  sc_name : str;
  sc_buf_size : Z;
  sc_queue_size : Z;
  sc_timeout : Z;
  sc_token : option str;
}.

Definition SyncConfig_new (path name : str) : SyncConfig :=
  MkSyncConfig path name DEFAULT_BUF_SIZE DEFAULT_QUEUE_SIZE DEFAULT_TIMEOUT None.
Definition SyncConfig_buf_size (size : Z) (c : SyncConfig) : SyncConfig :=
  MkSyncConfig (sc_path c) (sc_name c) size (sc_queue_size c) (sc_timeout c) (sc_token c).
Definition SyncConfig_queue_size (size : Z) (c : SyncConfig) : SyncConfig :=
  MkSyncConfig (sc_path c) (sc_name c) (sc_buf_size c) size (sc_timeout c) (sc_token c).
Definition SyncConfig_timeout (timeout : Z) (c : SyncConfig) : SyncConfig :=
  MkSyncConfig (sc_path c) (sc_name c) (sc_buf_size c) (sc_queue_size c) timeout (sc_token c).
Definition SyncConfig_token (token : str) (c : SyncConfig) : SyncConfig :=
  MkSyncConfig (sc_path c) (sc_name c) (sc_buf_size c) (sc_queue_size c) (sc_timeout c) (Some token).
Definition SyncConfig_rename (name : str) (c : SyncConfig) : SyncConfig :=
  MkSyncConfig (sc_path c) name (sc_buf_size c) (sc_queue_size c) (sc_timeout c) (sc_token c).

(** ** Transports *)

Inductive transport := WebSocketTransport | UnixTransport | TcpTransport.

(** A path that is a UNIX socket: [.sock], [.socket], [.ipc], or absolute. *)
Definition is_socket_path (path : str) : bool :=
  ends_with (lit ".sock") path || ends_with (lit ".socket") path || ends_with (lit ".ipc") path
  || starts_with (lit "/") path.

Definition is_ws_path (path : str) : bool := starts_with (lit "ws://") path || starts_with (lit "wss://") path.

(** The three branches of [connect_broker]. *)
Definition transport_of (path : str) : transport :=
  if is_ws_path path then WebSocketTransport
  else if is_socket_path path then UnixTransport else TcpTransport.

(** What both sides ask of the WebSocket library. *)
Record WsConfig := MkWsConfig {
  ws_read_buffer_size : Z;
  ws_write_buffer_size : Z;
  ws_max_write_buffer_size : Z;
  ws_max_message_size : option Z;
  ws_max_frame_size : option Z;
}.
Definition ws_config (buf_size : Z) : WsConfig :=
  MkWsConfig buf_size buf_size (buf_size * 2) (Some (2 ^ 32 - 1)) (Some (2 ^ 32 - 1)).

Inductive dialed (E : Type) := Dialed (k : conn) | DialErr (e : E) | DialSilent.
Arguments Dialed {E}.
Arguments DialErr {E}.
Arguments DialSilent {E}.

(** Opening a stream; [DialSilent] is a connection attempt that gets no answer. *)
Class Dialing := {
  dl_uri : str -> result unit str;
  dl_ws : str -> option (str * str) -> WsConfig -> dialed str;
  dl_unix : str -> dialed io_error;
  dl_tcp : str -> dialed io_error;
  dl_nodelay : result unit io_error;
  dl_write_timeout : Z -> result unit io_error;
  dl_clone : result unit io_error;
}.

(** ** Connecting *)

(** Run the dialogue on an opened stream. *)
Definition on_stream {A} (k : conn) (m : prog conn Error A) : prog (option conn) Error A := fun _ =>
  match m k with
  | Done a k => Done a (Some k)
  | Throw e k => Throw e (Some k)
  | Hang k => Hang (Some k)
  | Panic => Panic
  end.

Definition dialed_stream {E} (err : E -> Error) (r : dialed E) : prog (option conn) Error conn := fun s =>
  match r with
  | Dialed k => Done k (Some k)
  | DialErr e => Throw (err e) s
  | DialSilent => Hang s
  end.

Section connect.
Context {D : Dialing} {Q : Type} `{ChannelOps FrameData Q}.

(** The stream: a given one is used for a UNIX socket path only. *)
Definition open_stream (config : Config) (stream : option conn) : prog (option conn) Error conn :=
  match transport_of (cf_path config) with
  | WebSocketTransport =>
      lift (map_err Error_io (dl_uri (cf_path config))) ≫= fun _ =>
      let header := (fun token => (lit "Authorization", lit "Bearer " ++ token)) <$> cf_token config in
      dialed_stream Error_io (dl_ws (cf_path config) header (ws_config (cf_buf_size config)))
  | UnixTransport =>
      match stream with
      | Some k => fun _ => Done k (Some k)
      | None => dialed_stream Error_from_io (dl_unix (cf_path config))
      end
  | TcpTransport =>
      dialed_stream Error_from_io (dl_tcp (cf_path config)) ≫= fun k =>
      lift (map_err Error_from_io dl_nodelay) ≫= fun _ => mret k
  end.

(** The client of a connection that is established: a queue without capacity is a panic of
    [async_channel::bounded]. *)
Definition fresh_client (config : Config) : prog conn Error (Ipc.Client Q) := fun k =>
  if cf_queue_size config <=? 0 then Panic
  else Done (Ipc.MkClient (cf_name config) 0 ∅ (Some tt) true false 0 [] (cn_writes k) 0 ∅ (cn_in k)
               (ch_bounded (cf_queue_size config))) k.

Definition connect_broker (config : Config) (stream : option conn) : prog (option conn) Error (Ipc.Client Q) :=
  open_stream config stream ≫= fun k =>
  on_stream k (chat (cf_name config) ≫= fun _ => fresh_client config).

(** [tokio::time::timeout]: what would wait for ever is given up. *)
Definition with_timeout {S A} (m : prog S Error A) : prog S Error A := fun s =>
  match m s with Hang s => Throw Error_timeout s | r => r end.

Definition connect (config : Config) : prog (option conn) Error (Ipc.Client Q) :=
  with_timeout (connect_broker config None).
Definition connect_stream (stream : conn) (config : Config) : prog (option conn) Error (Ipc.Client Q) :=
  with_timeout (connect_broker config (Some stream)).

(** [register_secondary]: the primary's client afterwards, and the result of connecting. [config] is
    the configuration the primary keeps. *)
Definition register_secondary (config : Config) : prog (Ipc.Client Q) Error (outcome (option conn) Error (Ipc.Client Q)) :=
  Ipc.register_secondary_name ≫= fun secondary_name =>
  mret (connect (Config_rename secondary_name config) None).

(** *** The blocking client *)

(** A blocking write has a timeout of the socket. *)
Definition blocking (w : Ipc.write_outcome) : SyncIpc.sync_write :=
  match w with
  | Ipc.WriteOk => SyncIpc.SyncOk
  | Ipc.WriteErr e => SyncIpc.SyncErr e
  | Ipc.WriteElapsed | Ipc.WriteCancelled => SyncIpc.SyncErr SyncIpc.timed_out_error
  end.

Definition blocking_write (w : Ipc.write_outcome) : Ipc.write_outcome :=
  match w with
  | Ipc.WriteElapsed | Ipc.WriteCancelled => Ipc.WriteErr SyncIpc.timed_out_error
  | w => w
  end.
Definition blocking_conn (k : conn) : conn :=
  MkConn (cn_in k) (cn_out k) (blocking_write <$> cn_writes k).

Definition sync_open_stream (config : SyncConfig) (stream : option conn) : prog (option conn) Error conn :=
  match transport_of (sc_path config) with
  | WebSocketTransport => panic
  | UnixTransport =>
      match stream with
      | Some k => fun _ => Done k (Some k)
      | None => dialed_stream Error_from_io (dl_unix (sc_path config))
      end ≫= fun k =>
      lift (map_err Error_from_io (dl_write_timeout (sc_timeout config))) ≫= fun _ =>
      lift (map_err Error_from_io dl_clone) ≫= fun _ => mret (blocking_conn k)
  | TcpTransport =>
      dialed_stream Error_from_io (dl_tcp (sc_path config)) ≫= fun k =>
      lift (map_err Error_from_io (dl_write_timeout (sc_timeout config))) ≫= fun _ =>
      lift (map_err Error_from_io dl_nodelay) ≫= fun _ =>
      lift (map_err Error_from_io dl_clone) ≫= fun _ => mret (blocking_conn k)
  end.

(** The queue is that of the [rtsc] crate. *)
Definition sync_fresh_client (config : SyncConfig) : prog conn Error (SyncIpc.Client Q) := fun k =>
  Done (SyncIpc.MkClient (sc_name config) 0 ∅ (Some tt) true false 0 [] (blocking <$> cn_writes k) 0 ∅ (cn_in k)
               (ch_bounded (sc_queue_size config))) k.

Definition sync_connect_broker (config : SyncConfig) (stream : option conn)
    : prog (option conn) Error (SyncIpc.Client Q) :=
  sync_open_stream config stream ≫= fun k =>
  on_stream k (chat (sc_name config) ≫= fun _ => sync_fresh_client config).

Definition sync_connect (config : SyncConfig) : prog (option conn) Error (SyncIpc.Client Q) :=
  sync_connect_broker config None.
Definition sync_connect_stream (stream : conn) (config : SyncConfig) : prog (option conn) Error (SyncIpc.Client Q) :=
  sync_connect_broker config (Some stream).

Definition sync_register_secondary (config : SyncConfig)
    : prog (SyncIpc.Client Q) Error (outcome (option conn) Error (SyncIpc.Client Q)) :=
  SyncIpc.register_secondary_name ≫= fun secondary_name =>
  mret (sync_connect (SyncConfig_rename secondary_name config) None).
End connect.

(** ** Facts *)

Section facts.
Context {D : Dialing} {Q : Type} `{ChannelOps FrameData Q}.

(** A WebSocket path, which the blocking client does not implement. *)
Lemma transport_ws path : transport_of path = WebSocketTransport <-> is_ws_path path = true.
Proof. unfold transport_of. destruct (is_ws_path path); [done|]. by destruct (is_socket_path path). Qed.

Lemma connect_no_hang config stream s :
  match with_timeout (connect_broker config stream) s with Hang _ => False | _ => True end.
Proof. unfold with_timeout. by destruct (connect_broker config stream s). Qed.

(** The same dialogue, with the client that comes out of it as one and as the other. *)
Definition twin_results (r : outcome (option conn) Error (SyncIpc.Client Q))
    (r' : outcome (option conn) Error (Ipc.Client Q)) : Prop :=
  match r, r' with
  | Done s k, Done a k' => SyncIpc.twin s a /\ k = k'
  | Throw e k, Throw e' k' => e = e' /\ k = k'
  | Hang _, Throw e' _ => e' = Error_timeout
  | Panic, Panic => True
  | _, _ => False
  end.

(** The configurations ask for the same connection. *)
Definition same_config (sc : SyncConfig) (c : Config) : Prop :=
  sc_path sc = cf_path c /\ sc_name sc = cf_name c /\ sc_queue_size sc = cf_queue_size c.

(** A stream whose writes have no timeout of their own to come, on a socket that takes its options. *)
Definition plain (k : conn) : Prop := Forall (fun w => Ipc.WriteElapsed <> w /\ Ipc.WriteCancelled <> w) (cn_writes k).
Definition plain_dial {E} (r : dialed E) : Prop := match r with Dialed k => plain k | _ => True end.

Lemma blocking_plain ws :
  Forall (fun w => Ipc.WriteElapsed <> w /\ Ipc.WriteCancelled <> w) ws ->
  blocking_write <$> ws = ws.
Proof. induction 1 as [|w ws [H1 H2] _ IH]; [done|]. rewrite fmap_cons, IH. by destruct w. Qed.

Lemma blocking_same ws :
  Forall (fun w => Ipc.WriteElapsed <> w /\ Ipc.WriteCancelled <> w) ws ->
  Forall2 SyncIpc.same_write (blocking <$> ws) ws.
Proof. induction 1 as [|w ws [H1 H2] _ IH]; constructor; [by destruct w|done]. Qed.

Lemma blocking_conn_plain k : plain k -> blocking_conn k = k.
Proof. intros Hk. unfold blocking_conn. rewrite blocking_plain by done. by destruct k. Qed.

(** The writes to come are a rest of those there were. *)
Definition rest_of (k k' : conn) : Prop := exists ws, cn_writes k = ws ++ cn_writes k'.

Lemma rest_plain k k' : rest_of k k' -> plain k -> plain k'.
Proof. intros [ws E]. unfold plain. rewrite E, Forall_app. tauto. Qed.

Lemma keeps_conn_read n k0 : keeps (rest_of k0) (conn_read n).
Proof.
  intros k Hk. unfold conn_read, io_read_exact. cbn. destruct (read_exact n (cn_in k)); [|done..].
  destruct Hk as [ws E]. by exists ws.
Qed.

Lemma keeps_conn_write data k0 : keeps (rest_of k0) (conn_write data).
Proof.
  intros k [ws E]. unfold conn_write, io_write. cbn. destruct (cn_writes k) as [|w ws'] eqn:Ew; [exists ws; cbn; done|].
  assert (Hr : rest_of k0 (MkConn (cn_in k) (cn_out k ++ data) ws')).
  { exists (ws ++ [w]). cbn. rewrite E, <- app_assoc. done. }
  by destruct w.
Qed.

Lemma chat_keeps_rest name k0 : keeps (rest_of k0) (chat name).
Proof. pose proof keeps_conn_read. pose proof keeps_conn_write. unfold chat. keep. Qed.

(** The dialogue on the same stream, and the clients. *)
Lemma chat_twins sc c k s s' :
  same_config sc c -> 0 < cf_queue_size c -> plain k ->
  twin_results (on_stream k (chat (sc_name sc) ≫= fun _ => sync_fresh_client sc) s)
               (with_timeout (on_stream k (chat (cf_name c) ≫= fun _ => fresh_client c)) s').
Proof.
  intros (_ & En & Eq) Hq Hk. unfold on_stream, with_timeout, mbind, prog_bind. rewrite En.
  pose proof (chat_keeps_rest (cf_name c) k k ltac:(by exists [])) as Hr.
  destruct (chat (cf_name c) k) as [[] k1|e k1|k1|]; try done.
  unfold sync_fresh_client, fresh_client. rewrite (proj2 (Z.leb_gt _ _)) by lia. split; [|done].
  constructor; cbn; try done; [|by rewrite Eq].
  by apply blocking_same, (rest_plain k).
Qed.

Lemma with_timeout_bind {S A B} (m : prog S Error A) (f : A -> prog S Error B) a s s1 :
  m s = Done a s1 -> with_timeout (m ≫= f) s = with_timeout (f a) s1.
Proof. intros E. unfold with_timeout. by rewrite (bind_Done _ _ _ _ _ E). Qed.

Lemma open_twins sc c stream :
  same_config sc c -> is_ws_path (cf_path c) = false -> dl_write_timeout (sc_timeout sc) = Ok tt -> dl_clone = Ok tt ->
  plain_dial (dl_unix (cf_path c)) -> plain_dial (dl_tcp (cf_path c)) -> (forall k, stream = Some k -> plain k) ->
  match sync_open_stream sc stream None, open_stream c stream None with
  | Done k s, Done k' s' => k = k' /\ plain k /\ s = s'
  | Throw e s, Throw e' s' => e = e' /\ s = s'
  | Hang _, Hang _ => True
  | _, _ => False
  end.
Proof.
  intros (Ep & _) Hws Hw Hc Hu Ht Hk. unfold sync_open_stream, open_stream, mbind, prog_bind. rewrite Ep.
  destruct (transport_of (cf_path c)) eqn:E; [apply transport_ws in E; congruence|..].
  - assert (Hl : forall k, plain k -> blocking_conn k = k) by apply blocking_conn_plain.
    destruct stream as [k|]; cbn.
    + rewrite Hw, Hc. cbn. rewrite Hl; auto.
    + destruct (dl_unix (cf_path c)); cbn; [|done..]. rewrite Hw, Hc. cbn. rewrite Hl; auto.
  - destruct (dl_tcp (cf_path c)); cbn; [|done..]. rewrite Hw. cbn. destruct dl_nodelay; cbn; [|done].
    rewrite Hc. cbn. rewrite blocking_conn_plain; auto.
Qed.
End facts.

(** Connecting with the blocking and the asynchronous client comes to the same: on the same
    UNIX or TCP stream, with the same name, both hold the same dialogue, fail with the same error,
    and otherwise end up as the same client, ready for the same operations. The blocking client has
    no timeout: where the asynchronous one gives up, it waits. *)
Theorem connect_equiv {D : Dialing} {Q : Type} `{ChannelOps FrameData Q} sc c stream :
  same_config sc c -> is_ws_path (cf_path c) = false -> 0 < cf_queue_size c ->
  dl_write_timeout (sc_timeout sc) = Ok tt -> dl_clone = Ok tt ->
  plain_dial (dl_unix (cf_path c)) -> plain_dial (dl_tcp (cf_path c)) -> (forall k, stream = Some k -> plain k) ->
  twin_results (sync_connect_broker sc stream None) (with_timeout (connect_broker c stream) None).
Proof.
  intros Hs Hws Hq Hw Hc Hu Ht Hk. pose proof (open_twins sc c stream Hs Hws Hw Hc Hu Ht Hk) as Ho.
  unfold sync_connect_broker, connect_broker.
  destruct (sync_open_stream sc stream None) as [k s|e s|s|] eqn:E1, (open_stream c stream None) as [k' s'|e' s'|s'|] eqn:E2;
    try done.
  - destruct Ho as (<- & Hp & <-). rewrite (bind_Done _ _ _ _ _ E1), (with_timeout_bind _ _ _ _ _ E2).
    by apply chat_twins.
  - destruct Ho as [<- <-]. unfold with_timeout, mbind, prog_bind. by rewrite E1, E2.
  - unfold with_timeout, mbind, prog_bind. by rewrite E1, E2.
Qed.

(** A broker that accepts the connection and falls silent anywhere in the dialogue: the
    asynchronous client gets its timeout error, the blocking one waits for ever (only its writes have
    a timeout). *)
Theorem silent_broker {D : Dialing} {Q : Type} `{ChannelOps FrameData Q} sc c (k : conn) n :
  same_config sc c -> is_ws_path (cf_path c) = false -> is_socket_path (cf_path c) = true -> Ipc.blen (cf_name c) <= 65535 ->
  dl_write_timeout (sc_timeout sc) = Ok tt -> dl_clone = Ok tt ->
  (n < length broker_answers)%nat -> cn_in k = Source (take n broker_answers) EndStall -> cn_writes k = [] ->
  (exists s, connect_stream k c None = Throw Error_timeout s) /\
  (exists s, sync_connect_stream k sc None = Hang s).
Proof.
  intros (Ep & En & _) Hws Hsock Hlen Hw Hc Hn Hin Hwr.
  assert (Hchat : exists k', chat (cf_name c) k = Hang k').
  { destruct k as [kin kout kwr]. cbn in Hin, Hwr. subst. unfold chat.
    destruct (Ipc.blen (cf_name c) >? 65535) eqn:Eg; [apply Z.gtb_lt in Eg; lia|].
    do 5 (destruct n as [|n]; [eexists; reflexivity|]). cbn in Hn. lia. }
  assert (Ht : transport_of (cf_path c) = UnixTransport) by (unfold transport_of; by rewrite Hws, Hsock).
  destruct Hchat as [k' Hchat]. split; eexists.
  - unfold connect_stream, connect_broker, with_timeout, mbind, prog_bind, open_stream. rewrite Ht.
    unfold on_stream, mbind, prog_bind. by rewrite Hchat.
  - assert (Hb : blocking_conn k = k) by (apply blocking_conn_plain; unfold plain; by rewrite Hwr).
    unfold sync_connect_stream, sync_connect_broker, mbind, prog_bind, sync_open_stream. rewrite Ep, Ht.
    unfold mbind, prog_bind. rewrite Hw, Hc. cbn. rewrite Hb, En. unfold on_stream, mbind, prog_bind. by rewrite Hchat.
Qed.
