(* ===== verification/Server.v ===== *)
(** * The broker object and its listeners ([src/broker.rs], [Broker], [ServerConfig], [spawn_server!])

    A [Broker] is a database, the services it has spawned and the settings new connections get.
    A service turns what its listener accepts into connections ([accept_loop]), each handled by
    [Session.handle_peer] with the parameters [handle_connection] puts together. Sockets, TLS and
    the WebSocket library are inputs. *)
From S2P Require Export Session Connect.

(** ** Settings *)

Section config.
Context {X : Externals} {N : Networks}.

(** The map of permissions is shared with the application; the field is its contents when a
    connection looks into it. *)
Record ServerConfig := MkServerConfig {
  sv_buf_size : Z;
  sv_buf_ttl : Z;
  sv_timeout : Z;
  sv_payload_size_limit : option Z;
  sv_aaa_map : option (gmap str (ClientAaa ext_acl));
}.

Definition ServerConfig_default : ServerConfig :=
  MkServerConfig DEFAULT_BUF_SIZE DEFAULT_BUF_TTL DEFAULT_TIMEOUT None None.
Definition ServerConfig_new : ServerConfig := ServerConfig_default.
Definition ServerConfig_buf_size (size : Z) (c : ServerConfig) : ServerConfig :=
  MkServerConfig size (sv_buf_ttl c) (sv_timeout c) (sv_payload_size_limit c) (sv_aaa_map c).
Definition ServerConfig_buf_ttl (ttl : Z) (c : ServerConfig) : ServerConfig :=
  MkServerConfig (sv_buf_size c) ttl (sv_timeout c) (sv_payload_size_limit c) (sv_aaa_map c).
Definition ServerConfig_timeout (timeout : Z) (c : ServerConfig) : ServerConfig :=
  MkServerConfig (sv_buf_size c) (sv_buf_ttl c) timeout (sv_payload_size_limit c) (sv_aaa_map c).
Definition ServerConfig_aaa_map (m : gmap str (ClientAaa ext_acl)) (c : ServerConfig) : ServerConfig :=
  MkServerConfig (sv_buf_size c) (sv_buf_ttl c) (sv_timeout c) (sv_payload_size_limit c) (Some m).
Definition ServerConfig_payload_size_limit (size : Z) (c : ServerConfig) : ServerConfig :=
  MkServerConfig (sv_buf_size c) (sv_buf_ttl c) (sv_timeout c) (Some size) (sv_aaa_map c).

(** [Options] of the broker; the allocator is the embedder's. *)
Record Options := MkBrokerOptions {
  op_force_register : bool;
  op_direct_alloc_limit : option Z;
  op_async_allocator : option (str -> Z -> option Z);
}.

Definition Options_default : Options := MkBrokerOptions false None None.
Definition Options_force_register (force : bool) (o : Options) : Options :=
  MkBrokerOptions force (op_direct_alloc_limit o) (op_async_allocator o).
Definition Options_with_async_allocator (limit : Z) (allocator : str -> Z -> option Z) (o : Options) : Options :=
  MkBrokerOptions (op_force_register o) (Some limit) (Some allocator).

(** ** The broker *)

Inductive listener := UnixServer | TcpServer | WebSocketServer (tls : bool).

(** What a spawned service has captured. *)
Record Service := MkService {
  se_path : str;
  se_listener : listener;
  se_config : ServerConfig;
  se_queue_size : Z;
  se_direct_alloc_limit : option Z;
  se_async_allocator : option (str -> Z -> option Z);
}.

(** A spawned service is a listener, or carries out the lines of a pipe. *)
Inductive service := Listens (s : Service) | ReadsFifo (path : str) (buf_size : Z).

Record Broker := MkBroker {
  br_db : BrokerDb;
  br_services : list service;
  br_queue_size : Z;
  br_direct_alloc_limit : option Z;
  br_async_allocator : option (str -> Z -> option Z);
}.

Definition Broker_create (opts : Options) : Broker :=
  MkBroker (broker_create (op_force_register opts)) [] DEFAULT_QUEUE_SIZE
    (op_direct_alloc_limit opts) (op_async_allocator opts).
Definition Broker_default : Broker := MkBroker (BrokerDb_new false) [] DEFAULT_QUEUE_SIZE None None.
Definition Broker_new : Broker := Broker_default.

Definition set_br_db (d : BrokerDb) (b : Broker) : Broker :=
  MkBroker d (br_services b) (br_queue_size b) (br_direct_alloc_limit b) (br_async_allocator b).
Definition push_service (s : service) (b : Broker) : Broker :=
  MkBroker (br_db b) (br_services b ++ [s]) (br_queue_size b) (br_direct_alloc_limit b) (br_async_allocator b).
Definition set_queue_size (queue_size : Z) (b : Broker) : Broker :=
  MkBroker (br_db b) (br_services b) queue_size (br_direct_alloc_limit b) (br_async_allocator b).

(** A method that works on the database. *)
Definition in_db {A} (m : prog BrokerDb Error A) : prog Broker Error A := fun b =>
  match m (br_db b) with
  | Done a d => Done a (set_br_db d b)
  | Throw e d => Throw e (set_br_db d b)
  | Hang d => Hang (set_br_db d b)
  | Panic => Panic
  end.

Definition Broker_register_client (nm : str) : prog Broker Error Client :=
  gets br_queue_size ≫= fun queue_size => in_db (broker_register_client queue_size nm).
Definition Broker_init_default_core_rpc : prog Broker Error unit :=
  gets br_queue_size ≫= fun queue_size => in_db (init_default_core_rpc queue_size).
Definition Broker_announce (event : BrokerEvent) : prog Broker Error unit := in_db (announce event).

Definition new_service (path : str) (l : listener) (config : ServerConfig) (b : Broker) : Service :=
  MkService path l config (br_queue_size b) (br_direct_alloc_limit b) (br_async_allocator b).

(** [spawn_unix_server], [spawn_tcp_server], [spawn_websocket_server]: [bound] is the outcome of
    binding the listener. *)
Definition spawn_listener (l : listener) (bound : result unit io_error) (path : str) (config : ServerConfig)
    : prog Broker Error unit :=
  lift (map_err Error_from_io bound) ≫= fun _ =>
  modify (fun b => push_service (Listens (new_service path l config b)) b).
Definition spawn_unix_server := spawn_listener UnixServer.
Definition spawn_tcp_server := spawn_listener TcpServer.
Definition spawn_websocket_server (tls : bool) := spawn_listener (WebSocketServer tls).

(** [Broker::spawn_fifo]. *)
Definition Broker_spawn_fifo (pipe : result unit Error) (path : str) (buf_size : Z) : prog Broker Error unit :=
  in_db (spawn_fifo pipe) ≫= fun _ => modify (push_service (ReadsFifo path buf_size)).
End config.

(** ** Connections *)

Section connections.
Context {X : Externals} {N : Networks}.

(** The address a listener reports: that of a UNIX socket says nothing, that of an internet socket
    has an IP address and a text. *)
Inductive sock_addr := UnixAddr | InetAddr (ip : net_addr) (text : str).

Inductive ClientIp := NoIp | IpAddr (a : net_addr).
Definition ClientIp_from (addr : sock_addr) : ClientIp :=
  match addr with UnixAddr => NoIp | InetAddr ip _ => IpAddr ip end.
Definition ip_option (ip : ClientIp) : option net_addr := match ip with NoIp => None | IpAddr a => Some a end.

Definition prepare_tcp_source (addr : sock_addr) : option str :=
  match addr with InetAddr _ text => Some text | UnixAddr => None end.
Definition prepare_unix_source (addr : sock_addr) : option str := None.

(** A connection on its way to [handle_peer]: the parameters of the handshake, those of the reader
    for the permissions that apply, and the settings of the buffers. *)
Record Connection := MkConnection {
  cx_stream : conn;
  cx_peer : PeerParams;
  cx_reader : option (ClientAaa ext_acl) -> ReaderParams ext_acl;
  cx_buf_size : Z;
  cx_buf_ttl : Z;
}.

(** [handle_connection]. *)
Definition handle_connection (stream : conn) (socket_path : str) (ip : ClientIp) (config : ServerConfig)
    (queue_size : Z) (direct_alloc_limit : option Z) (kind : BusRtClientKind) (client_source : option str)
    (async_allocator : option (str -> Z -> option Z)) : Connection := {|
  cx_stream := stream;
  cx_peer := MkPeerParams queue_size kind client_source (Some socket_path) (ip_option ip) (sv_aaa_map config);
  cx_reader := fun aaa =>
    MkReaderParams (sv_timeout config) (sv_payload_size_limit config) aaa direct_alloc_limit async_allocator;
  cx_buf_size := sv_buf_size config;
  cx_buf_ttl := sv_buf_ttl config;
|}.

Definition client_kind (l : listener) : BusRtClientKind :=
  match l with UnixServer => LocalIpc | TcpServer => Tcp | WebSocketServer _ => WebSocket end.
Definition prepare_source (l : listener) (addr : sock_addr) : option str :=
  match l with UnixServer => prepare_unix_source addr | _ => prepare_tcp_source addr end.

(** The outcome of a TLS or WebSocket negotiation, under its timeout. *)
Inductive negotiation := Negotiated (stream : conn) | NegotiationErr (e : str) | NegotiationTimeout.

(** What [accept] reports; [prepare] is the outcome of the options set on the stream, and the two
    negotiations are those a WebSocket listener goes through. *)
Inductive accepted :=
| Accepted (stream : conn) (addr : sock_addr) (prepare : result unit Error) (tls ws : negotiation)
| AcceptErr (e : str).

Definition service_connection (s : Service) (stream : conn) (addr : sock_addr) : Connection :=
  handle_connection stream (se_path s) (ClientIp_from addr) (se_config s) (se_queue_size s)
    (se_direct_alloc_limit s) (client_kind (se_listener s)) (prepare_source (se_listener s) addr)
    (se_async_allocator s).

(** [prepare_and_handle!]: the WebSocket negotiation on the TCP or TLS stream. *)
Definition prepare_and_handle (s : Service) (addr : sock_addr) (ws : negotiation) : option Connection :=
  match ws with Negotiated stream => Some (service_connection s stream addr) | _ => None end.

(** One turn of the loop of a service. *)
Definition accept_one (s : Service) (a : accepted) : option Connection :=
  match a with
  | AcceptErr _ | Accepted _ _ (Err _) _ _ => None
  | Accepted stream addr (Ok _) tls ws =>
      match se_listener s with
      | UnixServer | TcpServer => Some (service_connection s stream addr)
      | WebSocketServer false => prepare_and_handle s addr ws
      | WebSocketServer true =>
          match tls with Negotiated _ => prepare_and_handle s addr ws | _ => None end
      end
  end.

(** The loop: errors are logged, and the next connection is accepted. *)
Definition accept_loop (s : Service) (l : list accepted) : list Connection := omap (accept_one s) l.

(** [Broker::spawn_server_connection]: a stream the application opened itself. *)
Definition spawn_server_connection (stream : conn) (config : ServerConfig) : prog Broker Error Connection :=
  gets (fun b => handle_connection stream [] NoIp config (br_queue_size b) (br_direct_alloc_limit b) LocalIpc None
                   (br_async_allocator b)).

(** The task of a connection; its error is only logged. *)
Definition run_connection (cx : Connection) (turns : nat) (other : option (result unit Error))
    : prog BrokerDb Error unit := fun d =>
  match handle_peer (cx_peer cx) (cx_reader cx) turns other (d, cx_stream cx) with
  | Done _ s | Throw _ s => Done tt s.1
  | Hang s => Hang s.1
  | Panic => Panic
  end.
End connections.

(** ** Every connection is handled safely *)

Section safety.
Context {X : Externals} `{!ExternalsLaws X} {N : Networks}.

(** Options are made with the default and the two builders. *)
Inductive made : Options -> Prop :=
| made_default : made Options_default
| made_force f o : made o -> made (Options_force_register f o)
| made_allocator limit a o : made o -> made (Options_with_async_allocator limit a o).

(** A broker in use: created, given (positive) queue sizes, its services spawned, its database
    changed in whatever way. *)
Inductive built : Broker -> Prop :=
| built_create o : made o -> built (Broker_create o)
| built_default : built Broker_default
| built_queue_size q b : 0 < q -> built b -> built (set_queue_size q b)
| built_db d b : built b -> built (set_br_db d b)
| built_listener l bound path config b b' :
    built b -> spawn_listener l bound path config b = Done tt b' -> built b'
| built_fifo pipe path n b b' : built b -> Broker_spawn_fifo pipe path n b = Done tt b' -> built b'.

Definition with_allocator {A B} (limit : option A) (allocator : option B) : Prop :=
  is_Some limit -> is_Some allocator.

Definition service_ok (s : service) : Prop :=
  match s with
  | Listens s => 0 < se_queue_size s /\ with_allocator (se_direct_alloc_limit s) (se_async_allocator s)
  | ReadsFifo _ _ => True
  end.

Definition broker_ok (b : Broker) : Prop :=
  0 < br_queue_size b /\ with_allocator (br_direct_alloc_limit b) (br_async_allocator b) /\
  Forall service_ok (br_services b).

Lemma made_ok o : made o -> with_allocator (op_direct_alloc_limit o) (op_async_allocator o).
Proof. induction 1; cbn in *; [|done|]; unfold with_allocator; cbn; eauto. by intros [? [=]]. Qed.

Lemma built_ok b : built b -> broker_ok b.
Proof.
  induction 1 as [o Ho| |q b Hq Hb IH|d b Hb IH|l bound path config b b' Hb IH E|pipe path n b b' Hb IH E].
  - split_and!; [done|by apply made_ok|constructor].
  - split_and!; [done| |constructor]. by intros [? [=]].
  - destruct IH as (_ & Ha & Hs). by split_and!.
  - exact IH.
  - unfold spawn_listener in E. destruct bound as [[]|e]; [|done]. injection E as <-.
    destruct IH as (Hq & Ha & Hs). split_and!; [done..|]. apply Forall_app. split; [done|]. by repeat constructor.
  - unfold Broker_spawn_fifo, mbind, prog_bind, in_db in E. destruct (spawn_fifo pipe (br_db b)); try done.
    injection E as <-. destruct IH as (Hq & Ha & Hs). split_and!; [done..|]. apply Forall_app. split; [done|]. by repeat constructor.
Qed.

(** What a service hands to [handle_peer]. *)
Lemma accept_one_spec s a cx :
  accept_one s a = Some cx -> exists stream addr, cx = service_connection s stream addr.
Proof.
  destruct a as [stream addr [[]|] tls ws|]; cbn; try done.
  destruct (se_listener s) as [| |[]]; [intros [= <-]; eauto..| |]; unfold prepare_and_handle;
    [destruct tls; try done|]; destruct ws; try done; intros [= <-]; eauto.
Qed.

Lemma accept_loop_spec s l cx : cx ∈ accept_loop s l -> exists stream addr, cx = service_connection s stream addr.
Proof. intros (a & _ & E)%list_elem_of_omap. by eapply accept_one_spec. Qed.
(** Whatever a peer does, its connection leaves a well-formed database, and no panic. *)
Lemma run_connection_safe cx turns other d :
  0 < pp_queue_size (cx_peer cx) ->
  (forall aaa, with_allocator (rp_direct_alloc_limit (cx_reader cx aaa)) (rp_async_allocator (cx_reader cx aaa))) ->
  db_wf d ->
  match run_connection cx turns other d with Done _ d' | Hang d' => db_wf d' | _ => False end.
Proof.
  intros Hq Ha D. unfold run_connection.
  assert (Hh : preserves (session_inv db_wf) (handshake (cx_peer cx))).
  { apply preserves_handshake; [|done]. intros nm q k src prt d0 _ D0.
    destruct (new_client_ok nm q k src prt) as [Hok Hn]. pose proof (alloc_register_wf _ d0 D0 Hok Hn) as Hw.
    destruct (db_register_client _ _); try done; apply Hw. }
  specialize (Hh (d, cx_stream cx) D). destruct (handshake (cx_peer cx) (d, cx_stream cx)) as [[c aaa] s1|e s1|s1|] eqn:E.
  - assert (Hl : forall limit, rp_direct_alloc_limit (cx_reader cx aaa) = Some limit ->
        is_Some (rp_async_allocator (cx_reader cx aaa))) by (intros limit Hl; apply Ha; eauto).
    pose proof (session_cleanup (cx_peer cx) (cx_reader cx) turns other (d, cx_stream cx) c aaa s1 D E Hl) as H.
    destruct (handle_peer _ _ _ _ _); try done; apply H.
  - unfold handle_peer, mbind, prog_bind. by rewrite E.
  - unfold handle_peer, mbind, prog_bind. by rewrite E.
  - done.
Qed.
End safety.

(** C10: whatever connects to a broker, however it was configured, and whatever the peers send: no
    connection panics or damages the database. A service can only be spawned with a positive
    queue size and with an allocator wherever there is a limit for direct allocations, which is what
    the reader of a connection relies on. *)
Theorem connections_safe {X : Externals} `{!ExternalsLaws X} {N : Networks} b s l cx turns other d :
  built b -> Listens s ∈ br_services b -> cx ∈ accept_loop s l -> db_wf d ->
  match run_connection cx turns other d with Done _ d' | Hang d' => db_wf d' | _ => False end.
Proof.
  intros Hb Hs Hcx D. destruct (accept_loop_spec s l cx Hcx) as (stream & addr & ->).
  destruct (built_ok b Hb) as (_ & _ & Hok). rewrite Forall_forall in Hok. destruct (Hok _ Hs) as [Hq Ha].
  by apply run_connection_safe.
Qed.

(** ** A client and the service it dials *)

Section reach.
Context {X : Externals} `{!ExternalsLaws X} {N : Networks}.

(** What is on the broker's side once a name is registered without announcements. *)
Lemma registration_object p nm d :
  db_wf d -> clients d !! nm = None -> (before_sep nm <> nm -> is_Some (clients d !! before_sep nm)) ->
  rpc_client d = None -> rpc_lock d = false ->
  exists d', registration p nm d = Done (next_ptr d) d' /\ db_wf d' /\ clients d' = <[ nm := next_ptr d ]> (clients d) /\
    heap d' !! next_ptr d = Some (set_registered true
      (new_client nm (pp_queue_size p) (pp_kind p) (pp_source p) (pp_source_port p))) /\
    rpc_client d' = None /\ rpc_lock d' = false.
Proof.
  intros D Hfree Hp Hrpc Hlock. destruct (registration_Done p nm d D Hfree Hp Hrpc Hlock) as (c & d' & Ea & Er & D' & Hc).
  injection Ea as <-. exists d'. split; [|split; [done|split; [done|]]].
  { unfold registration, mbind, prog_bind. change (alloc ?cl d) with (Done (E := Error) (next_ptr d) (allocated cl d)).
    cbv beta iota. by rewrite Er. }
  set (cl := new_client nm _ _ _ _) in *.
  destruct (new_client_ok nm (pp_queue_size p) (pp_kind p) (pp_source p) (pp_source_port p)) as [Hok Hn].
  pose proof (allocated_wf cl d D Hok Hn) as W.
  assert (Hl : heap (allocated cl d) !! next_ptr d = Some cl) by (apply heap_allocated; auto).
  assert (Hsec : primary cl = false -> is_Some (clients (allocated cl d) !! primary_name cl)).
  { intros E. apply Hp. intros Eb. apply bool_decide_eq_false in E. by apply E. }
  rewrite (db_register_client_run _ _ cl Hl), (insert_client_run _ _ cl Hl) in Er.
  change (clients (allocated cl d) !! name cl) with (clients d !! nm) in Er. rewrite Hfree in Er.
  assert (Hsil : forall pc, announced (primary cl) (BrokerEvent_reg (name cl)) (inserted (next_ptr d) cl pc (allocated cl d))
                = Done tt (inserted (next_ptr d) cl pc (allocated cl d))).
  { intros pc. unfold announced, when. destruct (primary cl); [|done].
    unfold mbind, prog_bind, attempt, announce. cbn [announce_fuel].
    rewrite announce_silent; [done| |]; by destruct pc. }
  destruct (primary cl) eqn:P; [|destruct (Hsec eq_refl) as [pp Epp]; rewrite Epp in Er];
    rewrite Hsil in Er; injection Er as <-; (split; [apply heap_inserted|done]);
    rewrite ?P; try done; exists cl; by rewrite decide_True.
Qed.

(** An announcement that does not wait: there is no RPC client to make it, or the client is idle
    and every registered client has room. *)
Definition announces (d : BrokerDb) (event : BrokerEvent) : Prop :=
  rpc_lock d = false /\
  (is_Some (rpc_client d) ->
   bus_lock d = false /\ (exists payload, ext_event_to_vec (set_ev_t ext_now_ns event) = Ok payload) /\
   forall x y, heap d !! x = Some y -> registered y = true -> ready y).

(** The object of a client whose registration is announced: as it was made, but for the
    announcement itself, if its subscriptions fit that. *)
Lemma announced_object d event c cl :
  db_wf d -> announces d event -> heap d !! c = Some cl ->
  exists d' cl', announce event d = Done tt d' /\ db_wf d' /\ clients d' = clients d /\
    heap d' !! c = Some cl' /\ similar cl cl' /\ ckind cl' = ckind cl /\ port cl' = port cl /\
    ch_cap (tx cl') = ch_cap (tx cl) /\
    exists l, ch_items (tx cl') = ch_items (tx cl) ++ l /\ Forall (fun f => frame_topic f = Some (ev_topic event)) l.
Proof.
  intros D [Hl Ha] Hc. destruct (rpc_client d) as [bus|] eqn:Hrpc.
  - destruct Ha as (Hb & [payload Hv] & Hr); [by eexists|].
    destruct (announce_ready d event bus payload D Hl Hb Hrpc Hv) as (d' & E & W & A & _ & Hq).
    { intros x y Hy [Hreg _] _. by apply (Hr x). }
    destruct (Hq _ _ Hc) as (cl' & Hc' & _ & Hi & Hcap & Hk & Hp).
    destruct (ag_to _ _ A _ _ Hc) as (cl2 & Hc2 & Hs). assert (cl2 = cl') as -> by congruence.
    exists d', cl'. split_and!; try done; [apply A|]. apply elem_of_cons in Hi as [->| ->%list_elem_of_singleton].
    + exists []. by rewrite app_nil_r.
    + eexists. split; [done|]. by repeat constructor.
  - exists d, cl. split_and!; try done; [unfold announce; cbn [announce_fuel]; by rewrite announce_silent|].
    exists []. by rewrite app_nil_r.
Qed.

(** Registration of a name, as far as the announcement. *)
Lemma registration_inserted p nm d :
  let cl := new_client nm (pp_queue_size p) (pp_kind p) (pp_source p) (pp_source_port p) in
  db_wf d -> 0 < pp_queue_size p -> clients d !! nm = None ->
  (before_sep nm <> nm -> is_Some (clients d !! before_sep nm)) -> announces d (BrokerEvent_reg nm) ->
  exists d1, db_register_client (next_ptr d) (allocated cl d) = announced (primary cl) (BrokerEvent_reg nm) d1 /\
    db_wf d1 /\ clients d1 = <[ nm := next_ptr d ]> (clients d) /\
    heap d1 !! next_ptr d = Some (set_registered true cl) /\ announces d1 (BrokerEvent_reg nm).
Proof.
  intros cl D Hq Hfree Hp [Hlock Ha].
  destruct (new_client_ok nm (pp_queue_size p) (pp_kind p) (pp_source p) (pp_source_port p)) as [Hok Hn]. fold cl in Hok, Hn.
  pose proof (allocated_wf cl d D Hok Hn) as W.
  assert (Hl : heap (allocated cl d) !! next_ptr d = Some cl) by (apply heap_allocated; auto).
  assert (Hsec : primary cl = false -> is_Some (clients (allocated cl d) !! primary_name cl)).
  { intros E. apply Hp. intros Eb. apply bool_decide_eq_false in E. by apply E. }
  set (pc := if primary cl then None else clients (allocated cl d) !! primary_name cl).
  exists (inserted (next_ptr d) cl pc (allocated cl d)).
  assert (Ei : insert_client (next_ptr d) (allocated cl d) = Done tt (inserted (next_ptr d) cl pc (allocated cl d))).
  { rewrite (insert_client_run _ _ cl Hl). change (clients (allocated cl d) !! name cl) with (clients d !! nm).
    rewrite Hfree. unfold pc. destruct (primary cl); [done|]. by destruct (Hsec eq_refl) as [pp ->]. }
  pose proof (insert_client_wf _ _ cl W Hl Hn) as Hw. rewrite Ei in Hw. destruct Hw as (W1 & _ & Hr1 & _ & Hc1 & _).
  assert (Hheap : forall x y', heap (inserted (next_ptr d) cl pc (allocated cl d)) !! x = Some y' <-> _)
    by (intros; by apply heap_inserted).
  destruct (ch_bounded_spec (F := FrameData) (Q := ext_queue) (pp_queue_size p) Hq) as (Hi0 & Hcap0 & Hcl0).
  split_and!; [|done|done|apply Hheap; exists cl; by rewrite decide_True|].
  { by rewrite (db_register_client_run _ _ cl Hl), Ei. }
  destruct (rest_rpc _ _ Hr1) as [Erl Erc]. change (rpc_lock (allocated cl d)) with (rpc_lock d) in Erl.
  change (rpc_client (allocated cl d)) with (rpc_client d) in Erc.
  split; [congruence|]. rewrite Erc. intros Hs. destruct (Ha Hs) as (Hb & Hv & Hr).
  split_and!; [by rewrite (rest_bus _ _ Hr1)|done|]. intros x y' (y & Hy & ->)%Hheap Hreg.
  apply heap_allocated in Hy as [[-> ->]|[Hne Hy]].
  - rewrite decide_True by done. split; [|exact Hcl0]. apply not_true_iff_false. cbn.
    rewrite ch_is_full_spec, Hi0, Hcap0. cbn. lia.
  - rewrite decide_False in * by done. assert (ready y) as [? ?] by (apply (Hr x y Hy); by case_decide).
    by case_decide.
Qed.

(** What is on the broker's side once a name is registered and that is announced. *)
Lemma registration_reaches p nm d :
  db_wf d -> 0 < pp_queue_size p -> clients d !! nm = None ->
  (before_sep nm <> nm -> is_Some (clients d !! before_sep nm)) -> announces d (BrokerEvent_reg nm) ->
  exists d' x, registration p nm d = Done (next_ptr d) d' /\ db_wf d' /\
    clients d' = <[ nm := next_ptr d ]> (clients d) /\ heap d' !! next_ptr d = Some x /\
    registered x = true /\ name x = nm /\ ckind x = pp_kind p /\ port x = pp_source_port p /\
    ch_cap (tx x) = pp_queue_size p /\
    Forall (fun f => frame_topic f = Some (ev_topic (BrokerEvent_reg nm))) (ch_items (tx x)).
Proof.
  intros D Hq Hfree Hp Ha. destruct (registration_inserted p nm d D Hq Hfree Hp Ha) as (d1 & E1 & W1 & Hc1 & Hx & A1).
  set (cl := new_client nm (pp_queue_size p) (pp_kind p) (pp_source p) (pp_source_port p)) in *.
  destruct (ch_bounded_spec (F := FrameData) (Q := ext_queue) (pp_queue_size p) Hq) as (Hi0 & Hcap0 & _).
  destruct (announced_object d1 _ _ _ W1 A1 Hx) as (d2 & x2 & E2 & W2 & Ec2 & Hx2 & Sx2 & Hk2 & Hp2 & Hcap2 & l2 & Hi2 & Hl2).
  assert (Hrun : forall d', db_register_client (next_ptr d) (allocated cl d) = Done tt d' ->
                 registration p nm d = Done (next_ptr d) d').
  { intros d' E. unfold registration, mbind, prog_bind. fold cl.
    change (alloc cl d) with (Done (E := Error) (next_ptr d) (allocated cl d)). cbv beta iota. by rewrite E. }
  destruct (primary cl); unfold announced, when, mbind, prog_bind, attempt in E1; [rewrite E2 in E1|].
  - exists d2, x2. destruct Sx2 as (Sn & _ & _ & _ & Sr & _). split_and!; try done; [by apply Hrun|congruence|by rewrite Hcap2|].
    rewrite Hi2. change (ch_items (tx (set_registered true cl))) with (ch_items (ch_bounded (pp_queue_size p) : ext_queue)).
    by rewrite Hi0.
  - exists d1, (set_registered true cl). split_and!; try done; [by apply Hrun|].
    change (ch_items (tx (set_registered true cl))) with (ch_items (ch_bounded (pp_queue_size p) : ext_queue)).
    by rewrite Hi0.
Qed.

(** ** The network *)

Definition transport_to (l : listener) : transport :=
  match l with UnixServer => UnixTransport | TcpServer => TcpTransport | WebSocketServer _ => WebSocketTransport end.

(** How a client spells the address of a service. *)
Definition address (s : Service) : str :=
  match se_listener s with
  | UnixServer | TcpServer => se_path s
  | WebSocketServer tls => (if tls : bool then lit "wss://" else lit "ws://") ++ se_path s
  end.

(** What the system does for clients of listening services: a connection to an address goes to
    the listener bound to it, each kind to its own kind. [far] is the client's end. *)
Class Listening (D : Dialing) (services : list service) (far : conn) := {
  li_unix s : Listens s ∈ services -> se_listener s = UnixServer -> dl_unix (se_path s) = Dialed far;
  li_tcp s : Listens s ∈ services -> se_listener s = TcpServer -> dl_tcp (se_path s) = Dialed far;
  li_ws s tls header config :
    Listens s ∈ services -> se_listener s = WebSocketServer tls -> dl_ws (address s) header config = Dialed far;
  li_uri s tls : Listens s ∈ services -> se_listener s = WebSocketServer tls -> dl_uri (address s) = Ok tt;
  li_nodelay : dl_nodelay = Ok tt;
}.

(** The end of the stream that arrives at the service, through its negotiations if there are any. *)
Definition arrival (near : conn) (addr : sock_addr) : accepted :=
  Accepted near addr (Ok tt) (Negotiated near) (Negotiated near).

Lemma accept_arrival s near addr : accept_one s (arrival near addr) = Some (service_connection s near addr).
Proof. cbn. by destruct (se_listener s) as [| |[]]. Qed.

Lemma open_listening {D : Dialing} services far `{!Listening D services far} config s :
  Listens s ∈ services -> cf_path config = address s ->
  transport_of (address s) = transport_to (se_listener s) ->
  open_stream config None None = Done far (Some far).
Proof.
  intros Hs Ep Et. unfold open_stream. rewrite Ep, Et. destruct (se_listener s) as [| |tls] eqn:El; cbn [transport_to].
  - replace (address s) with (se_path s) by (unfold address; by rewrite El). by rewrite (li_unix s Hs El).
  - replace (address s) with (se_path s) by (unfold address; by rewrite El). rewrite (li_tcp s Hs El).
    unfold mbind, prog_bind. cbn. by rewrite li_nodelay.
  - rewrite (li_uri s tls Hs El). unfold mbind, prog_bind. cbn. by rewrite (li_ws s tls _ _ Hs El).
Qed.
End reach.

(** C20: a client that dials the address of a service of a broker reaches it. The path decides the
    transport as it decided the listener ([busrtd_starts] proves that of the daemon's own
    services), the connection the system makes of it is accepted by the service, and when the name
    may connect and is free, [connect] returns a fresh client, each end having read what the other
    wrote, and the broker has the client registered under its name with what the service stands
    for: the kind of its listener, its path as the port, and a queue of the size the service was
    spawned with, whatever the broker's settings are by now. Nothing is in the queue but, perhaps, the
    announcement of the registration, which needs room in the queues of the registered clients if
    there is an RPC client to make it. *)
Theorem client_reaches_broker {X : Externals} `{!ExternalsLaws X} {N : Networks} {D : Dialing}
    {Q : Type} `{ChannelOps FrameData Q} b s config addr d aaa e1 e2 :
  let nm := cf_name config in
  let far := MkConn (Source broker_answers e1) [] [] in
  let near := MkConn (Source (client_hello nm) e2) [] [Ipc.WriteOk; Ipc.WriteOk] in
  built b -> Listens s ∈ br_services b -> Listening D (br_services b) far ->
  cf_path config = address s -> transport_of (address s) = transport_to (se_listener s) ->
  authorized (cx_peer (service_connection s near addr)) nm aaa -> Ipc.blen nm <= 65535 -> 0 < cf_queue_size config ->
  db_wf d -> clients d !! nm = None -> (before_sep nm <> nm -> is_Some (clients d !! before_sep nm)) ->
  announces d (BrokerEvent_reg nm) ->
  connect config None
    = Done (Ipc.MkClient nm 0 ∅ (Some tt) true false 0 [] [] 0 ∅ (Source [] e1) (ch_bounded (cf_queue_size config)))
        (Some (MkConn (Source [] e1) (client_hello nm) [])) /\
  exists cx p x d', accept_loop s [arrival near addr] = [cx] /\
    handshake (cx_peer cx) (d, cx_stream cx) = Done (p, aaa) (d', MkConn (Source [] e2) broker_answers []) /\
    db_wf d' /\ clients d' = <[ nm := p ]> (clients d) /\ heap d' !! p = Some x /\ registered x = true /\
    name x = nm /\ ckind x = client_kind (se_listener s) /\ port x = Some (se_path s) /\
    ch_cap (tx x) = se_queue_size s /\
    Forall (fun f => frame_topic f = Some (ev_topic (BrokerEvent_reg nm))) (ch_items (tx x)).
Proof.
  intros nm far near Hb Hs Hlist Ep Et Ha Hlen Hq W Hfree Hp Hann. split.
  - unfold connect, connect_broker. rewrite (with_timeout_bind _ _ _ _ _ (open_listening _ _ config s Hs Ep Et)).
    unfold with_timeout, on_stream, mbind, prog_bind, far. rewrite (chat_accepted _ _ Hlen). unfold fresh_client.
    by rewrite (proj2 (Z.leb_gt _ _)) by lia.
  - destruct (built_ok b Hb) as (_ & _ & Hok). rewrite Forall_forall in Hok. destruct (Hok _ Hs) as [Hsq _].
    destruct (registration_reaches (cx_peer (service_connection s near addr)) nm d W Hsq Hfree Hp Hann)
      as (d' & x & E & W' & Hc & Hx & Hreg & Hn & Hk & Hpo & Hcap & Hi).
    exists (service_connection s near addr), (next_ptr d), x, d'. split_and!; try done.
    + unfold accept_loop, omap, list_omap. by rewrite accept_arrival.
    + change (cx_stream (service_connection s near addr)) with near. unfold near.
      rewrite (handshake_prefix _ nm aaa d e2 Ha Hlen). unfold registration in E.
      unfold mbind, prog_bind, on_db, attempt in *. destruct (alloc _ d) as [c0 d0| | |]; try done.
      destruct (db_register_client c0 d0) as [[] d1|e d1|d1|]; try done. injection E as -> ->.
      by rewrite peer_write_default.
Qed.
