(* ===== verification/Busrtd.v ===== *)
(** * The broker daemon ([src/server.rs])

    [busrtd]: the start (pid file, broker, core RPC client, one service per path) and the
    termination a signal causes. The static cells of the program are the record [Daemon]. Command
    line parsing, logging and forking are not modelled; what the system answers is the class
    [Binding]. *)
From S2P Require Export Server Fifo.

(** [expect], [unwrap]. *)
Definition expect {S E A} (m : prog S E A) : prog S E A := fun s =>
  match m s with Throw _ _ => Panic | r => r end.

Class Binding := {
  bd_unix : str -> result unit io_error;
  bd_tcp : str -> result unit io_error;
  bd_fifo : str -> result unit Error;
  bd_pid : str -> result unit io_error;
}.

Section daemon.
Context {X : Externals} {N : Networks} {B : Binding}.

(** [Opts]: what the start uses of it; durations in microseconds. *)
Record Opts := MkOpts {
  so_path : list str;
  so_pid_file : option str;
  so_force_register : bool;
  so_timeout : Z;
  so_buf_size : Z;
  so_buf_ttl : Z;
  so_queue_size : Z;
}.

(** The statics [BROKER] (with its mutex), [PID_FILE], [SOCK_FILES] and [SERVER_ACTIVE], and the
    files removed from the system. *)
Record Daemon := MkDaemon {
  dm_broker : option Broker;
  dm_broker_lock : bool;
  dm_pid_file : option str;
  dm_sock_files : list str;
  dm_active : bool;
  dm_removed : list str;
}.
Definition Daemon_new : Daemon := MkDaemon None false None [] true [].

(** ** The start *)

Definition server_config (opts : Opts) : ServerConfig :=
  ServerConfig_timeout (so_timeout opts)
    (ServerConfig_buf_ttl (so_buf_ttl opts) (ServerConfig_buf_size (so_buf_size opts) ServerConfig_new)).

(** The broker under construction, with the files it has created. *)
Definition boot : Type := Broker * list str.

Definition on_broker {A} (m : prog Broker Error A) : prog boot Error A := fun '(b, f) =>
  match m b with
  | Done a b => Done a (b, f)
  | Throw e b => Throw e (b, f)
  | Hang b => Hang (b, f)
  | Panic => Panic
  end.

Definition push_sock_file (path : str) : prog boot Error unit := modify (fun bf => (bf.1, bf.2 ++ [path])).

(** The body of [for path in opts.path]. *)
Definition bind_path (opts : Opts) (path : str) : prog boot Error unit :=
  match strip_prefix (lit "fifo:") path with
  | Some fifo =>
      expect (on_broker (Broker_spawn_fifo (bd_fifo fifo) fifo (so_buf_size opts))) ≫= fun _ => push_sock_file fifo
  | None =>
      if is_socket_path path then
        expect (on_broker (spawn_unix_server (bd_unix path) path (server_config opts))) ≫= fun _ => push_sock_file path
      else expect (on_broker (spawn_tcp_server (bd_tcp path) path (server_config opts)))
  end.

Definition boot_broker (opts : Opts) : prog boot Error unit :=
  expect (on_broker Broker_init_default_core_rpc) ≫= fun _ =>
  modify (fun bf => (set_queue_size (so_queue_size opts) bf.1, bf.2)) ≫= fun _ =>
  for_each (so_path opts) (bind_path opts).

Definition write_pid_file (opts : Opts) : prog Daemon Error unit :=
  match so_pid_file opts with
  | Some pid_file =>
      expect (lift (map_err Error_from_io (bd_pid pid_file))) ≫= fun _ =>
      modify (fun dm => MkDaemon (dm_broker dm) (dm_broker_lock dm) (Some pid_file) (dm_sock_files dm) (dm_active dm)
                          (dm_removed dm))
  | None => mret tt
  end.

Definition start_broker (opts : Opts) : prog Daemon Error unit := fun dm =>
  let broker := Broker_create (Options_force_register (so_force_register opts) Options_default) in
  match boot_broker opts (broker, dm_sock_files dm) with
  | Done _ (b, files) =>
      Done tt (MkDaemon (Some b) (dm_broker_lock dm) (dm_pid_file dm) files (dm_active dm) (dm_removed dm))
  | Throw _ _ | Panic => Panic
  | Hang _ => Hang dm
  end.

(** [main], from the pid file to "BUS/RT broker started". *)
Definition start (opts : Opts) : prog Daemon Error unit := write_pid_file opts ≫= fun _ => start_broker opts.

(** ** The end *)

Definition remove_files (files : list str) : prog Daemon Error unit :=
  modify (fun dm => MkDaemon (dm_broker dm) (dm_broker_lock dm) (dm_pid_file dm) (dm_sock_files dm) (dm_active dm)
                      (dm_removed dm ++ files)).

Definition set_dm_broker (b : option Broker) (locked : bool) (dm : Daemon) : Daemon :=
  MkDaemon b locked (dm_pid_file dm) (dm_sock_files dm) (dm_active dm) (dm_removed dm).

(** [BROKER.lock().await]: the announcement is made while the mutex is held; its error is logged. *)
Definition announce_shutdown : prog Daemon Error unit := fun dm =>
  if dm_broker_lock dm then Hang dm else
  match dm_broker dm with
  | None => Done tt dm
  | Some b =>
      match Broker_announce BrokerEvent_shutdown b with
      | Done _ b | Throw _ b => Done tt (set_dm_broker (Some b) false dm)
      | Hang b => Hang (set_dm_broker (Some b) true dm)
      | Panic => Panic
      end
  end.

(** [terminate]. *)
Definition terminate : prog Daemon Error unit :=
  gets dm_pid_file ≫= fun pid_file =>
  remove_files (match pid_file with Some f => [f] | None => [] end) ≫= fun _ =>
  gets dm_sock_files ≫= fun sock_files =>
  remove_files sock_files ≫= fun _ =>
  announce_shutdown ≫= fun _ =>
  modify (fun dm => MkDaemon (dm_broker dm) (dm_broker_lock dm) (dm_pid_file dm) (dm_sock_files dm) false (dm_removed dm)).

(** The loop at the end of [main] leaves, and the process ends. *)
Definition main_ends (dm : Daemon) : bool := negb (dm_active dm).
End daemon.

(** ** Facts *)

Section facts.
Context {X : Externals} `{!ExternalsLaws X} {N : Networks} {B : Binding}.

(** The service a path of the command line stands for. *)
Definition service_of (opts : Opts) (path : str) : service :=
  match strip_prefix (lit "fifo:") path with
  | Some fifo => ReadsFifo fifo (so_buf_size opts)
  | None => Listens (MkService path (if is_socket_path path then UnixServer else TcpServer) (server_config opts)
                       (so_queue_size opts) None None)
  end.

(** The file it leaves in the file system, and whether the system lets it be created. *)
Definition file_of (path : str) : option str :=
  match strip_prefix (lit "fifo:") path with
  | Some fifo => Some fifo
  | None => if is_socket_path path then Some path else None
  end.

Definition bindable (path : str) : bool :=
  match strip_prefix (lit "fifo:") path with
  | Some fifo => match bd_fifo fifo with Ok _ => true | Err _ => false end
  | None => match (if is_socket_path path then bd_unix path else bd_tcp path) with Ok _ => true | Err _ => false end
  end.

(** A broker whose core RPC client is there, nobody using it. *)
Definition core_ready (d : BrokerDb) : Prop := is_Some (rpc_client d) /\ rpc_lock d = false.

Lemma bind_path_run opts path b files :
  core_ready (br_db b) -> br_queue_size b = so_queue_size opts ->
  br_direct_alloc_limit b = None -> br_async_allocator b = None ->
  bind_path opts path (b, files) =
    if bindable path then Done tt (push_service (service_of opts path) b, files ++ option_list (file_of path)) else Panic.
Proof.
  intros [[bus Hbus] Hl] Hq Hd Ha. unfold bind_path, bindable, service_of, file_of.
  destruct (strip_prefix (lit "fifo:") path) as [fifo|].
  - unfold expect, on_broker, Broker_spawn_fifo, in_db, spawn_fifo, with_rpc_lock, mbind, prog_bind. rewrite Hl. cbn.
    rewrite Hbus. destruct (bd_fifo fifo); [|done]. cbn. destruct b as [[] ? ? ? ?]; cbn in *. by subst.
  - destruct (is_socket_path path); unfold expect, on_broker, spawn_unix_server, spawn_tcp_server, spawn_listener, mbind, prog_bind.
    + destruct (bd_unix path) as [[]|]; [|done]. cbn. unfold new_service. by rewrite Hq, Hd, Ha.
    + destruct (bd_tcp path) as [[]|]; [|done]. cbn. unfold new_service. by rewrite Hq, Hd, Ha, app_nil_r.
Qed.

Definition push_services (l : list service) (b : Broker) : Broker := foldl (fun b s => push_service s b) b l.

Lemma bind_paths_run opts paths : forall b files,
  core_ready (br_db b) -> br_queue_size b = so_queue_size opts ->
  br_direct_alloc_limit b = None -> br_async_allocator b = None ->
  for_each paths (bind_path opts) (b, files) =
    if forallb bindable paths then Done tt (push_services (service_of opts <$> paths) b, files ++ omap file_of paths)
    else Panic.
Proof.
  induction paths as [|path paths IH]; intros b files Hc Hq Hd Ha; [cbn; by rewrite app_nil_r|].
  cbn [for_each forallb]. unfold mbind, prog_bind. rewrite bind_path_run by done.
  destruct (bindable path); [|done]. cbn [andb]. rewrite IH by done.
  destruct (forallb bindable paths); [|done]. cbn. rewrite <- app_assoc. by destruct (file_of path).
Qed.

(** The core RPC client of a new broker. *)
Lemma init_core_run q force :
  exists d cl, init_default_core_rpc q (BrokerDb_new force) = Done tt d /\ db_wf d /\
    rpc_client d = Some 0%nat /\ rpc_lock d = false /\ clients d = {[ BROKER_NAME := 0%nat ]} /\
    heap d !! 0%nat = Some cl /\ name cl = BROKER_NAME /\ ckind cl = Internal /\ tx cl = ch_bounded q.
Proof.
  destruct (registration_object (MkPeerParams q Internal None None None None) BROKER_NAME (BrokerDb_new force))
    as (d & E & W & Hc & Hh & Hrpc & Hl); [apply db_new_wf|done|by intros H|done|done|].
  assert (Er : init_default_core_rpc q (BrokerDb_new force) = Done tt (set_core_rpc_client 0 d)).
  { unfold registration in E. unfold init_default_core_rpc, broker_register_client, mbind, prog_bind in *.
    destruct (alloc _ (BrokerDb_new force)) as [c0 d0| | |]; try done. cbn [pp_queue_size pp_kind pp_source pp_source_port] in *.
    destruct (db_register_client c0 d0) as [[] d1|e d1|d1|]; try done. by injection E as -> ->. }
  pose proof (init_core_rpc_wf q (BrokerDb_new force) (db_new_wf force)) as W'. rewrite Er in W'.
  exists (set_core_rpc_client 0 d). eexists. split_and!; [exact Er|exact W'|done|exact Hl|exact Hc|exact Hh|done..].
Qed.

Lemma push_services_spec l : forall b,
  br_services (push_services l b) = br_services b ++ l /\ br_db (push_services l b) = br_db b /\
  br_queue_size (push_services l b) = br_queue_size b.
Proof.
  induction l as [|s l IH]; intros b; [by rewrite app_nil_r|]. destruct (IH (push_service s b)) as (E1 & E2 & E3).
  unfold push_services in *. cbn [foldl]. rewrite E1, E2, E3. cbn. by rewrite <- app_assoc.
Qed.

Lemma built_push opts path b :
  built b -> br_queue_size b = so_queue_size opts -> br_direct_alloc_limit b = None -> br_async_allocator b = None ->
  core_ready (br_db b) -> built (push_service (service_of opts path) b).
Proof.
  intros Hb Hq Hd Ha [[bus Hbus] Hl]. unfold service_of. destruct (strip_prefix _ path) as [fifo|].
  - eapply (built_fifo (Ok tt) fifo (so_buf_size opts)); [done|].
    unfold Broker_spawn_fifo, in_db, spawn_fifo, with_rpc_lock, mbind, prog_bind. rewrite Hl. cbn. rewrite Hbus.
    cbn. destruct b as [[] ? ? ? ?]; cbn in *. by subst.
  - eapply (built_listener (if is_socket_path path then UnixServer else TcpServer) (Ok tt) path (server_config opts)); [done|].
    unfold spawn_listener, mbind, prog_bind, modify, new_service. cbn. by rewrite Hq, Hd, Ha.
Qed.

Lemma built_pushes opts paths : forall b,
  built b -> br_queue_size b = so_queue_size opts -> br_direct_alloc_limit b = None -> br_async_allocator b = None ->
  core_ready (br_db b) -> built (push_services (service_of opts <$> paths) b).
Proof.
  induction paths as [|path paths IH]; intros b Hb Hq Hd Ha Hc; [done|].
  apply IH; [by apply built_push|done..].
Qed.

Definition new_broker (opts : Opts) : Broker :=
  Broker_create (Options_force_register (so_force_register opts) Options_default).

(** The broker that is built, if every path can be bound. *)
Lemma boot_run opts :
  exists d cl, db_wf d /\ rpc_client d = Some 0%nat /\ clients d = {[ BROKER_NAME := 0%nat ]} /\
    heap d !! 0%nat = Some cl /\ name cl = BROKER_NAME /\ tx cl = ch_bounded DEFAULT_QUEUE_SIZE /\
    let b := push_services (service_of opts <$> so_path opts) (set_queue_size (so_queue_size opts) (set_br_db d (new_broker opts))) in
    (0 < so_queue_size opts -> built b) /\
    boot_broker opts (new_broker opts, []) =
      if forallb bindable (so_path opts) then Done tt (b, omap file_of (so_path opts)) else Panic.
Proof.
  destruct (init_core_run DEFAULT_QUEUE_SIZE (so_force_register opts)) as (d & cl & Ei & W & Hrpc & Hl & Hc & Hh & Hn & _ & Ht).
  exists d, cl. split_and!; try done. intros b. split.
  - intros Hq. apply built_pushes; [|done..|split; [by eexists|done]].
    apply built_queue_size; [done|]. apply built_db, built_create, made_force, made_default.
  - unfold boot_broker, expect, on_broker, Broker_init_default_core_rpc, in_db, mbind, prog_bind, gets, new_broker.
    cbn [br_queue_size Broker_create br_db]. unfold broker_create. cbn [op_force_register Options_force_register].
    rewrite Ei. cbn [modify fst snd]. rewrite bind_paths_run; [done|split; [by eexists|done]|done..].
Qed.

(** The pid file, if one is asked for, can be written. *)
Definition pid_writable (opts : Opts) : bool :=
  match so_pid_file opts with
  | Some f => match bd_pid f with Ok _ => true | Err _ => false end
  | None => true
  end.

(** A path is read by a client as it was by the daemon. *)
Lemma service_transport opts path s :
  service_of opts path = Listens s -> is_ws_path path = false ->
  address s = path /\ transport_of (address s) = transport_to (se_listener s).
Proof.
  unfold service_of, transport_of, address. destruct (strip_prefix _ path); [done|]. intros [= <-] Hws. cbn.
  destruct (is_socket_path path) eqn:Es; cbn; by rewrite Hws, Es.
Qed.
End facts.

(** C17: the daemon starts exactly when the pid file can be written and every path of the command line
    can be bound (otherwise it panics; it never waits). It then has one service per path, in order:
    a fifo for [fifo:path], a UNIX listener for a path that is a socket path and a TCP listener for
    any other, which is how clients read the same path, unless it is a WebSocket URL; all with the
    configured buffers and queue size. The files it will remove are those it created, the core RPC
    client is the one client of the broker (with the default queue, as the size is set later), and
    its connections are safe in the sense of [Server.connections_safe]. *)
Theorem busrtd_starts {X : Externals} `{!ExternalsLaws X} {N : Networks} {B : Binding} opts :
  match start opts Daemon_new with
  | Done _ dm =>
      pid_writable opts = true /\ forallb bindable (so_path opts) = true /\
      exists b, dm = MkDaemon (Some b) false (so_pid_file opts) (omap file_of (so_path opts)) true [] /\
        br_services b = service_of opts <$> so_path opts /\
        (forall path s, service_of opts path = Listens s -> is_ws_path path = false ->
           address s = path /\ transport_of (address s) = transport_to (se_listener s)) /\
        (0 < so_queue_size opts -> built b) /\ db_wf (br_db b) /\
        clients (br_db b) = {[ BROKER_NAME := 0%nat ]} /\ rpc_client (br_db b) = Some 0%nat /\
        exists cl, heap (br_db b) !! 0%nat = Some cl /\ name cl = BROKER_NAME /\ ch_cap (tx cl) = DEFAULT_QUEUE_SIZE
  | Panic => pid_writable opts && forallb bindable (so_path opts) = false
  | _ => False
  end.
Proof.
  destruct (boot_run opts) as (d & cl & W & Hrpc & Hc & Hh & Hn & Ht & Hb & Hboot).
  set (b := push_services _ _) in *.
  destruct (push_services_spec (service_of opts <$> so_path opts)
    (set_queue_size (so_queue_size opts) (set_br_db d (new_broker opts)))) as (E1 & E2 & _). fold b in E1, E2. cbn in E1, E2.
  assert (Hstart : forall dm, dm_sock_files dm = [] -> start_broker opts dm =
    if forallb bindable (so_path opts)
    then Done tt (MkDaemon (Some b) (dm_broker_lock dm) (dm_pid_file dm) (omap file_of (so_path opts)) (dm_active dm) (dm_removed dm))
    else Panic).
  { intros dm Hf. unfold start_broker. fold (new_broker opts). rewrite Hf, Hboot. by destruct (forallb _ _). }
  unfold start, mbind, prog_bind, write_pid_file, pid_writable.
  destruct (so_pid_file opts) as [f|] eqn:Ef;
    [unfold expect, mbind, prog_bind; destruct (bd_pid f) as [[]|e] eqn:Ep; [|done]|];
    cbn; rewrite Hstart by done; (destruct (forallb bindable (so_path opts)); [|done]);
    (split; [done|]); (split; [done|]); exists b; rewrite E1, E2;
    (split_and!; try done; [intros path s; apply service_transport|]);
    exists cl; split_and!; try done; rewrite Ht; by apply ch_bounded_spec.
Qed.

(** ** Termination signals *)

Section shutdown.
Context {X : Externals} `{!ExternalsLaws X} {N : Networks}.

(** What a termination signal leaves behind: its handler has returned, or waits for ever. *)
Definition signal (dm : Daemon) : Daemon :=
  match terminate dm with Done _ dm' | Throw _ dm' | Hang dm' => dm' | Panic => dm end.

(** The files are removed first; then everything depends on the announcement. *)
Definition cleaned (dm : Daemon) : Daemon :=
  MkDaemon (dm_broker dm) (dm_broker_lock dm) (dm_pid_file dm) (dm_sock_files dm) (dm_active dm)
    (dm_removed dm ++ option_list (dm_pid_file dm) ++ dm_sock_files dm).

Lemma terminate_run dm :
  terminate dm =
    (announce_shutdown ≫= fun _ =>
     modify (fun dm => MkDaemon (dm_broker dm) (dm_broker_lock dm) (dm_pid_file dm) (dm_sock_files dm) false (dm_removed dm)))
    (cleaned dm).
Proof.
  destruct dm as [b l p f a r]. unfold terminate, cleaned, remove_files, mbind, prog_bind. cbn. rewrite <- app_assoc.
  by destruct p.
Qed.

Lemma locked_signals n : forall dm,
  dm_broker_lock dm = true -> dm_active dm = true -> main_ends (Nat.iter n signal dm) = false.
Proof.
  assert (Hs : forall dm, dm_broker_lock dm = true -> dm_active dm = true ->
    dm_broker_lock (signal dm) = true /\ dm_active (signal dm) = true).
  { intros dm Hl Ha. unfold signal. rewrite terminate_run. unfold announce_shutdown, mbind, prog_bind. cbn. by rewrite Hl. }
  intros dm Hl Ha. cut (dm_broker_lock (Nat.iter n signal dm) = true /\ dm_active (Nat.iter n signal dm) = true).
  { intros [_ E]. unfold main_ends. by rewrite E. }
  induction n as [|n [IH1 IH2]]; [done|]. by apply Hs.
Qed.
End shutdown.

(** C18: a termination signal ends the daemon if the RPC client is idle and every subscriber of the
    warnings that does not exclude them has room (see [shutdown_blocked] for one that has not): the
    pid file and the sockets are removed, each of these subscribers gets the shutdown event
    once, and the main loop leaves. *)
Theorem shutdown_completes {X : Externals} `{!ExternalsLaws X} {N : Networks} dm b bus payload :
  dm_broker dm = Some b -> dm_broker_lock dm = false -> db_wf (br_db b) ->
  rpc_client (br_db b) = Some bus -> rpc_lock (br_db b) = false -> bus_lock (br_db b) = false ->
  ext_event_to_vec (set_ev_t ext_now_ns BrokerEvent_shutdown) = Ok payload ->
  (forall x y, heap (br_db b) !! x = Some y -> subscribed (br_db b) BROKER_WARN_TOPIC x y ->
     retained BROKER_WARN_TOPIC y = true -> ready y) ->
  exists dm' b', terminate dm = Done tt dm' /\ main_ends dm' = true /\
    dm_removed dm' = dm_removed dm ++ option_list (dm_pid_file dm) ++ dm_sock_files dm /\
    dm_broker dm' = Some b' /\ db_wf (br_db b') /\
    forall x y, heap (br_db b) !! x = Some y -> subscribed (br_db b) BROKER_WARN_TOPIC x y ->
      retained BROKER_WARN_TOPIC y = true ->
      exists y', heap (br_db b') !! x = Some y' /\
        ch_items (tx y') = ch_items (tx y) ++
          [MkFrame FrameKind_Publish (name <$> heap (br_db b) !! bus) (Some BROKER_WARN_TOPIC) None payload 0 false].
Proof.
  intros Hb Hl D Hrpc Hr Hbl Hvec Hready.
  destruct (announce_ready (br_db b) BrokerEvent_shutdown bus payload D Hr Hbl Hrpc Hvec Hready) as (d' & E & W & _ & _ & Hq).
  rewrite terminate_run. unfold announce_shutdown, Broker_announce, in_db, mbind, prog_bind. cbn [cleaned dm_broker_lock dm_broker].
  rewrite Hl, Hb, E. cbn. eexists _, (set_br_db d' b). split_and!; try done.
  intros x y Hy Hs Hx. destruct (Hq x y Hy) as (y' & Hy' & Hi & _). exists y'. split; [done|]. by apply Hi.
Qed.

(** A client that does not read keeps the daemon from terminating. Every client is subscribed to
    the warnings when it registers; if one that has connected through a socket has a full queue when
    the signal comes (and those the event reaches before have room), the announcement of the
    shutdown deadlocks, and neither this signal nor any number of later ones ends the main loop,
    although the files are removed. *)
Theorem shutdown_blocked {X : Externals} `{!ExternalsLaws X} {N : Networks} dm b bus payload pre s y :
  dm_broker dm = Some b -> dm_broker_lock dm = false -> dm_active dm = true -> db_wf (br_db b) ->
  rpc_client (br_db b) = Some bus -> rpc_lock (br_db b) = false ->
  ext_event_to_vec (set_ev_t ext_now_ns BrokerEvent_shutdown) = Ok payload ->
  stuck_at (br_db b) BROKER_WARN_TOPIC pre s y ->
  (exists dm', terminate dm = Hang dm' /\
    dm_removed dm' = dm_removed dm ++ option_list (dm_pid_file dm) ++ dm_sock_files dm) /\
  forall n, main_ends (Nat.iter n signal dm) = false.
Proof.
  intros Hb Hl Ha D Hrpc Hr Hvec Hs.
  destruct (announce_slow_hangs (br_db b) BrokerEvent_shutdown bus payload pre s y D Hr Hrpc Hvec Hs) as (d' & E & _).
  assert (Et : terminate dm = Hang (set_dm_broker (Some (set_br_db d' b)) true (cleaned dm))).
  { rewrite terminate_run. unfold announce_shutdown, Broker_announce, in_db, mbind, prog_bind. cbn [cleaned dm_broker_lock dm_broker].
    by rewrite Hl, Hb, E. }
  split; [by eexists|]. intros [|n]; [cbn; unfold main_ends; by rewrite Ha|].
  rewrite Nat.iter_succ_r. apply locked_signals; unfold signal; by rewrite Et.
Qed.
