(* ===== verification/InterThread.v ===== *)
(** * Workers in one process ([examples/inter_thread.rs])

    Three internal clients: [worker.1] sends messages to [worker.2], which prints what it receives, and
    [worker.3] broadcasts to all of them once in a while. The queues of [worker.1] and [worker.3] are
    never read: that they fill up, and what happens then, is the subject of the theorem. *)
From S2P Require Export Busrtd CoreRpc Scenarios.

(** ** The program *)

Section program.
Context {X : Externals} {N : Networks}.

Definition inter_thread_start (bound : result unit io_error) : prog Broker Error (Client * Client * Client) :=
  Broker_init_default_core_rpc ≫= fun _ =>
  spawn_unix_server bound (lit "/tmp/busrt.sock") ServerConfig_default ≫= fun _ =>
  Broker_register_client (lit "worker.1") ≫= fun client1 =>
  Broker_register_client (lit "worker.2") ≫= fun client2 =>
  Broker_register_client (lit "worker.3") ≫= fun client3 =>
  mret (client1, snd (take_event_channel client2), client3).

(** A turn of each of the two tasks; their results are unwrapped. *)
Definition worker1_turn (c1 : nat) : prog BrokerDb Error unit :=
  expect (client_send c1 (lit "worker.2") (lit "hello") QoS_No) ≫= fun _ => mret tt.
Definition worker3_turn (c3 : nat) : prog BrokerDb Error unit :=
  expect (client_send_broadcast c3 (lit "worker.*") (lit "this is a broadcast message") QoS_No) ≫= fun _ => mret tt.

(** A turn of the loop of [main]: the line that is printed for the next frame of [worker.2]. *)
Definition receive_turn (c2 : nat) : prog BrokerDb Error str :=
  deref c2 ≫= fun cl =>
  match ch_recv (tx cl) with
  | None => hang
  | Some (frame, q) =>
      upd c2 (set_tx q) ≫= fun _ =>
      match sender frame, payload frame with
      | Some from, Some p =>
          mret (from ++ lit ": " ++ match from_utf8 p with Ok s => s | Err _ => lit "something unreadable" end)
      | _, _ => panic
      end
  end.

(** What happens in a second. *)
Definition second_turn (c1 c2 c3 : nat) : prog BrokerDb Error (list str) :=
  worker1_turn c1 ≫= fun _ => worker3_turn c3 ≫= fun _ =>
  receive_turn c2 ≫= fun line1 => receive_turn c2 ≫= fun line2 => mret [line1; line2].

Fixpoint seconds (n : nat) (c1 c2 c3 : nat) : prog BrokerDb Error (list str) :=
  match n with
  | O => mret []
  | S n => second_turn c1 c2 c3 ≫= fun lines => seconds n c1 c2 c3 ≫= fun rest => mret (lines ++ rest)
  end.
End program.

(** ** Facts *)

Section facts.
Context {X : Externals} `{!ExternalsLaws X}.

(** An internal client with these frames in its queue. *)
Record holds (nm : str) (items : list FrameData) (cl : BusRtClient) : Prop := {
  hd_name : name cl = nm;
  hd_registered : registered cl = true;
  hd_kind : ckind cl = Internal;
  hd_open : ch_is_closed (tx cl) = false;
  hd_cap : ch_cap (tx cl) = DEFAULT_QUEUE_SIZE;
  hd_items : ch_items (tx cl) = items;
}.

Definition backlog (nm : str) (c : nat) (items : list FrameData) (d : BrokerDb) : Prop :=
  exists cl, heap d !! c = Some cl /\ holds nm items cl.

Lemma holds_ready nm items cl :
  holds nm items cl -> Z.of_nat (length items) < DEFAULT_QUEUE_SIZE -> ready cl.
Proof.
  intros [_ _ _ Ho Hc Hi] Hl. split; [|done]. apply not_true_is_false. rewrite ch_is_full_spec, Hc, Hi. lia.
Qed.

Lemma backlog_delivered nm c items to frame d d' :
  backlog nm c items d -> delivered to frame d d' ->
  backlog nm c (if decide (c ∈ to) then items ++ [frame] else items) d'.
Proof.
  intros (cl & Hl & [En Er Ek Eo Ec Ei]) Dv. destruct (dv_queue _ _ _ _ Dv _ _ Hl) as (cl' & Hl' & Q).
  destruct (ag_to _ _ (dv_agree _ _ _ _ Dv) _ _ Hl) as (cl2 & Hl2 & (S1 & _ & _ & _ & S2 & _)). simplify_eq.
  destruct (dv_chan _ _ _ _ Dv _ _ _ Hl Hl') as [C1 C2]. destruct (dv_kind _ _ _ _ Dv _ _ _ Hl Hl') as [Hk _].
  exists cl'. split; [done|]. split; try congruence. case_decide; congruence.
Qed.

(** A message to a client that is ready reaches its queue and no other. *)
Lemma send_delivers u d c from t y target header buf pos len realtime timeout :
  heap d !! c = Some from -> clients d !! target = Some t -> heap d !! t = Some y -> ready y ->
  exists d', send_with u c target header buf pos len realtime timeout d = Done tt d' /\
    delivered {[ t ]} (MkFrame FrameKind_Message (Some (name from)) None header buf pos realtime) d d'.
Proof.
  intros Hc Ht Hy Hr. eexists. split; [by eapply send_ready_run|]. set (f := MkFrame _ _ _ _ _ _ _).
  replace {[ t ]} with (∅ ∪ (∅ ∪ {[ t ]}) : gset nat) by set_solver.
  eapply delivered_trans; [set_solver|apply (delivered_count_incoming c len f)|].
  eapply delivered_trans; [set_solver|apply (delivered_upd t (count_w len)); split; [apply inert_count_w|done]|].
  set (d2 := db_upd t (count_w len) _).
  assert (Hy2 : exists y2, heap d2 !! t = Some y2 /\ tx y2 = tx y).
  { eexists. split; [apply heap_db_upd; eexists; split; [apply heap_db_upd; eexists; split; [done|reflexivity]|reflexivity]|].
    by repeat case_decide. }
  destruct Hy2 as (y2 & Hy2 & E). destruct Hr as [Hf Ho].
  replace {[ t ]} with (∅ ∪ {[ t ]} : gset nat) by set_solver.
  eapply delivered_trans; [set_solver|by apply (delivered_same_heap f d2 (db_count_w 1 len d2)); [..|apply agree_same_heap]|].
  rewrite <- E. by apply delivered_push; rewrite ?E.
Qed.

(** Delivery to internal clients stops at the first one whose queue is full and not read. *)
Lemma deliver_stops u frame len subs : forall d,
  NoDup (ptr <$> subs) ->
  (forall s, s ∈ subs -> exists y, heap d !! ptr s = Some y /\ ckind y = Internal /\ ch_is_closed (tx y) = false /\
     (ch_is_full (tx y) = true -> ext_room (ptr s) = 0%nat)) ->
  (exists s y, s ∈ subs /\ heap d !! ptr s = Some y /\ ch_is_full (tx y) = true) ->
  exists d', for_each subs (fun sub : BrokerClient ext_digest =>
      upd (ptr sub) (count_w len) ≫= fun _ =>
      attempt (safe_send_frame_with u (ptr sub) frame None) ≫= fun _ => mret tt) d = Hang d'.
Proof.
  induction subs as [|s subs IH]; intros d Hnd Hall (s0 & y0 & Hin & Hy0 & Hfull); [by apply elem_of_nil in Hin|].
  cbn [fmap list_fmap] in Hnd. apply NoDup_cons in Hnd as [Hs Hnd].
  destruct (Hall s) as (y & Hy & Hk & Ho & Hroom); [left|]. set (d1 := db_upd (ptr s) (count_w len) d).
  assert (Hy1 : heap d1 !! ptr s = Some (count_w len y)) by (apply heap_db_upd; exists y; by rewrite decide_True).
  cbn [for_each]. unfold mbind at 1, prog_bind at 1. rewrite (bind_Done _ _ _ _ _ (upd_run _ _ _)). fold d1.
  destruct (ch_is_full (tx y)) eqn:Hf.
  - unfold attempt, mbind at 1, prog_bind at 1. unfold safe_send_frame_with.
    rewrite (bind_Done _ _ _ _ _ (deref_Some _ _ _ Hy1)).
    change (ch_is_full (tx (count_w len y))) with (ch_is_full (tx y)). rewrite Hf.
    rewrite decide_True by done. rewrite (Hroom eq_refl). unfold ch_send.
    change (tx (count_w len y)) with (tx y). rewrite Ho, Hf. cbn [ch_drain]. rewrite Hf. by eexists.
  - assert (Hr1 : ready (count_w len y)) by by split.
    rewrite (bind_Done _ _ _ _ _ (attempt_Done _ _ _ _ (safe_send_ready _ _ _ frame None _ Hy1 Hr1))).
    set (d2 := db_upd (ptr s) _ d1).
    assert (Hother : forall s' y', s' ∈ subs -> heap d !! ptr s' = Some y' -> heap d2 !! ptr s' = Some y').
    { intros s' y' Hin' Hy'. assert (ptr s <> ptr s') by (intros E; apply Hs; rewrite E; by apply list_elem_of_fmap_2).
      apply heap_db_upd. exists y'. rewrite decide_False by done. split; [|done].
      apply heap_db_upd. exists y'. by rewrite decide_False. }
    apply (IH d2 Hnd).
    + intros s' Hin'. destruct (Hall s') as (y' & Hy' & H'); [by right|]. exists y'. split; [by apply Hother|done].
    + apply elem_of_cons in Hin as [->|Hin]; [congruence|]. exists s0, y0. split_and!; [done|by apply Hother|done].
Qed.

(** *** The state of the demonstration *)

Definition worker_mask : str := lit "worker.*".

(** The three workers are what the mask names; nothing is waiting for [worker.2]. *)
Record demo (c1 c2 c3 : nat) (q1 q2 q3 : list FrameData) (d : BrokerDb) : Prop := {
  dm_wf : db_wf d;
  dm_1 : backlog (lit "worker.1") c1 q1 d;
  dm_2 : backlog (lit "worker.2") c2 q2 d;
  dm_3 : backlog (lit "worker.3") c3 q3 d;
  dm_named x y : heap d !! x = Some y -> named d worker_mask y <-> x = c1 \/ x = c2 \/ x = c3;
}.

Lemma named_agree d d' mask :
  agree d d' -> bm_cfg (broadcasts d') = bm_cfg (broadcasts d) -> forall (I : nat -> Prop),
  (forall x y, heap d !! x = Some y -> named d mask y <-> I x) ->
  forall x y, heap d' !! x = Some y -> named d' mask y <-> I x.
Proof.
  intros A E I Hn x y' Hy'. destruct (ag_from _ _ A _ _ Hy') as (y & Hy & (S1 & _ & _ & _ & S2 & _)).
  rewrite <- (Hn x y Hy). unfold named. by rewrite S1, S2, E.
Qed.

Lemma backlog_other nm c items c' f d : c' <> c -> backlog nm c items d -> backlog nm c items (db_upd c' f d).
Proof. intros Hne (cl & Hl & H). exists cl. split; [|done]. apply heap_db_upd. exists cl. by rewrite decide_False. Qed.

Lemma backlog_distinct nm nm' c c' items items' d :
  nm <> nm' -> backlog nm c items d -> backlog nm' c' items' d -> c <> c'.
Proof. intros Hne (cl & Hl & H) (cl' & Hl' & H') ->. simplify_eq. apply Hne. by rewrite <- (hd_name _ _ _ H), (hd_name _ _ _ H'). Qed.

Lemma demo_distinct c1 c2 c3 q1 q2 q3 d : demo c1 c2 c3 q1 q2 q3 d -> c1 <> c2 /\ c3 <> c2 /\ c1 <> c3.
Proof.
  intros [_ B1 B2 B3 _]. split_and!.
  - refine (backlog_distinct _ _ _ _ _ _ _ _ B1 B2); discriminate.
  - refine (backlog_distinct _ _ _ _ _ _ _ _ B3 B2); discriminate.
  - refine (backlog_distinct _ _ _ _ _ _ _ _ B1 B3); discriminate.
Qed.

(** The next frame of [worker.2] is printed. *)
Lemma receive_run c1 c2 c3 q1 f q2 q3 d from p :
  demo c1 c2 c3 q1 (f :: q2) q3 d -> sender f = Some from -> payload f = Some p -> is_str p = true ->
  exists d', receive_turn c2 d = Done (from ++ lit ": " ++ p) d' /\ demo c1 c2 c3 q1 q2 q3 d'.
Proof.
  intros D Es Ep Hp. destruct (demo_distinct _ _ _ _ _ _ _ D) as (N12 & N32 & _). destruct D as [W B1 B2 B3 Hn].
  destruct B2 as (cl & Hl & [En Er Ek Eo Ec Ei]). unfold receive_turn.
  rewrite (bind_Done _ _ _ _ _ (deref_Some _ _ _ Hl)).
  destruct (ch_recv (tx cl)) as [[f' q]|] eqn:Hr; [|apply ch_recv_None in Hr; congruence].
  destruct (ch_recv_Some _ _ _ Hr) as (Hi & Hc & Ho). rewrite Ei in Hi. injection Hi as -> Hi.
  exists (db_upd c2 (set_tx q) d). split.
  - rewrite (bind_Done _ _ _ _ _ (upd_run _ _ _)), Es, Ep. by rewrite (from_utf8_str p Hp).
  - pose proof (agree_upd c2 (fun cl => set_tx q cl) d (inert_set_tx (fun _ => q))) as A. split.
    + by eapply agree_wf.
    + by apply backlog_other.
    + exists (set_tx q cl). split; [apply heap_db_upd; exists cl; by rewrite decide_True|]. split; try done; cbn -[lit]; congruence.
    + by apply backlog_other.
    + by eapply (named_agree d _ worker_mask A).
Qed.

Lemma delivered_demo to frame c1 c2 c3 q1 q2 q3 d d' :
  demo c1 c2 c3 q1 q2 q3 d -> delivered to frame d d' ->
  let more c q := if decide (c ∈ to) then q ++ [frame] else q in
  demo c1 c2 c3 (more c1 q1) (more c2 q2) (more c3 q3) d'.
Proof.
  intros [W B1 B2 B3 Hn] Dv more. split; [eapply agree_wf; [apply Dv|done]|by eapply backlog_delivered..|].
  eapply (named_agree d d' worker_mask); [apply Dv|apply (dv_cfg _ _ _ _ Dv)|done].
Qed.

(** *** A second *)

Definition hello_frame : FrameData :=
  MkFrame FrameKind_Message (Some (lit "worker.1")) None None (lit "hello") 0 false.
Definition broadcast_frame : FrameData :=
  MkFrame FrameKind_Broadcast (Some (lit "worker.3")) None None (lit "this is a broadcast message") 0 false.

Lemma worker1_run c1 c2 c3 q1 q2 q3 d :
  demo c1 c2 c3 q1 q2 q3 d -> Z.of_nat (length q2) < DEFAULT_QUEUE_SIZE ->
  exists d', worker1_turn c1 d = Done tt d' /\ demo c1 c2 c3 q1 (q2 ++ [hello_frame]) q3 d'.
Proof.
  intros D Hl2. destruct (dm_1 _ _ _ _ _ _ _ D) as (cl1 & Hc1 & H1). destruct (dm_2 _ _ _ _ _ _ _ D) as (cl2 & Hc2 & H2).
  destruct (demo_distinct _ _ _ _ _ _ _ D) as (N12 & N32 & _).
  pose proof (cw_registered d (proj1 (dm_wf _ _ _ _ _ _ _ D)) _ _ Hc2 (hd_registered _ _ _ H2)) as Ht.
  rewrite (hd_name _ _ _ H2) in Ht.
  destruct (send_delivers unregister_client d c1 cl1 c2 cl2 (lit "worker.2") None (lit "hello") 0 (blen (lit "hello")) false None
    Hc1 Ht Hc2 (holds_ready _ _ _ H2 Hl2)) as (d' & E & Dv).
  exists d'. split.
  - unfold worker1_turn, expect, client_send, send, mbind, prog_bind. change (is_realtime QoS_No) with false. by rewrite E.
  - rewrite (hd_name _ _ _ H1) in Dv. pose proof (delivered_demo _ _ _ _ _ _ _ _ _ _ D Dv) as D'. cbv beta zeta in D'.
    rewrite decide_False, decide_True, decide_False in D' by set_solver. exact D'.
Qed.

(** The receivers of the broadcast are the three workers. *)
Lemma demo_receivers c1 c2 c3 q1 q2 q3 d x :
  demo c1 c2 c3 q1 q2 q3 d ->
  x ∈ ptr <$> bm_get_clients_by_mask (broadcasts d) worker_mask <-> x = c1 \/ x = c2 \/ x = c3.
Proof.
  intros [W (y1 & H1 & _) (y2 & H2 & _) (y3 & H3 & _) Hn]. rewrite (named_ptr d worker_mask x W). split.
  - intros (y & Hy & Hnm). by apply (Hn x y).
  - intros Hx. destruct Hx as [->|[->| ->]]; eexists; (split; [done|]); eapply Hn; eauto.
Qed.

Lemma demo_clients c1 c2 c3 q1 q2 q3 d x y :
  demo c1 c2 c3 q1 q2 q3 d -> heap d !! x = Some y -> x = c1 \/ x = c2 \/ x = c3 ->
  exists nm q, holds nm q y /\ (x = c1 /\ q = q1 \/ x = c2 /\ q = q2 \/ x = c3 /\ q = q3).
Proof.
  intros [_ (y1 & H1 & B1) (y2 & H2 & B2) (y3 & H3 & B3) _] Hy [->|[->| ->]]; simplify_eq; eauto 8.
Qed.

Definition roomy (q : list FrameData) : Prop := Z.of_nat (length q) < DEFAULT_QUEUE_SIZE.

Lemma worker3_run c1 c2 c3 q1 q2 q3 d :
  demo c1 c2 c3 q1 q2 q3 d -> roomy q1 -> roomy q2 -> roomy q3 ->
  exists d', worker3_turn c3 d = Done tt d' /\
    demo c1 c2 c3 (q1 ++ [broadcast_frame]) (q2 ++ [broadcast_frame]) (q3 ++ [broadcast_frame]) d'.
Proof.
  intros D R1 R2 R3. destruct (dm_3 _ _ _ _ _ _ _ D) as (cl3 & Hc3 & H3).
  destruct (broadcast_run d c3 cl3 worker_mask None (lit "this is a broadcast message") 0
    (blen (lit "this is a broadcast message")) false None (dm_wf _ _ _ _ _ _ _ D) Hc3) as (d' & E & Dv).
  { intros x y Hy Hnm. apply (dm_named _ _ _ _ _ _ _ D x y Hy) in Hnm.
    destruct (demo_clients _ _ _ _ _ _ _ x y D Hy Hnm) as (nm & q & Hh & Hq). eapply holds_ready; [exact Hh|].
    unfold roomy in *. naive_solver. }
  exists d'. split.
  - unfold worker3_turn, expect, client_send_broadcast, mbind, prog_bind. change (is_realtime QoS_No) with false.
    change (lit "worker.*") with worker_mask. by rewrite E.
  - rewrite (hd_name _ _ _ H3) in Dv. pose proof (delivered_demo _ _ _ _ _ _ _ _ _ _ D Dv) as D'. cbv beta zeta in D'.
    rewrite !decide_True in D' by (apply elem_of_list_to_set, (demo_receivers _ _ _ _ _ _ _ _ D); auto). exact D'.
Qed.

Lemma worker3_stops c1 c2 c3 q1 q2 q3 d :
  demo c1 c2 c3 q1 q2 q3 d -> ext_room c1 = 0%nat -> ext_room c3 = 0%nat -> roomy q2 -> ~ roomy q1 ->
  exists d', worker3_turn c3 d = Hang d'.
Proof.
  intros D X1 X3 R2 R1. destruct (dm_3 _ _ _ _ _ _ _ D) as (cl3 & Hc3 & H3).
  set (len := blen (lit "this is a broadcast message")). set (d1 := db_count_r 1 len (db_upd c3 (count_r len) d)).
  pose proof (delivered_demo _ _ _ _ _ _ _ _ _ _ D (delivered_count_incoming c3 len broadcast_frame d)) as D1.
  cbv beta zeta in D1. rewrite !decide_False in D1 by set_solver. fold d1 in D1.
  set (subs := bm_get_clients_by_mask (broadcasts d1) worker_mask).
  set (d2 := db_count_w (Z.of_nat (length subs)) (u64_mul len (Z.of_nat (length subs))) d1).
  assert (Hc31 : exists y3, heap d1 !! c3 = Some y3 /\ name y3 = lit "worker.3").
  { destruct (dm_3 _ _ _ _ _ _ _ D1) as (y3 & Hy3 & [? _ _ _ _ _]). eauto. }
  destruct Hc31 as (y3 & Hy3 & En).
  destruct (dm_1 _ _ _ _ _ _ _ D1) as (y1 & Hy1 & B1).
  assert (Hin1 : c1 ∈ ptr <$> subs) by (apply (demo_receivers _ _ _ _ _ _ _ _ D1); by left).
  apply list_elem_of_fmap in Hin1 as (s1 & E1 & Hs1).
  destruct (deliver_stops unregister_client broadcast_frame len subs d2) as (d' & E').
  - apply named_NoDup, D1.
  - intros s Hs. assert (Hp : ptr s ∈ ptr <$> subs) by by apply list_elem_of_fmap_2.
    apply (demo_receivers _ _ _ _ _ _ _ _ D1) in Hp. assert (Hy : exists y, heap d1 !! ptr s = Some y).
    { destruct (dm_2 _ _ _ _ _ _ _ D1) as (y2 & Hy2 & _). destruct Hp as [->|[->| ->]]; eauto. }
    destruct Hy as [y Hy]. destruct (demo_clients _ _ _ _ _ _ _ _ y D1 Hy Hp) as (nm & q & Hh & Hq).
    exists y. split_and!; [exact Hy|apply Hh|apply Hh|].
    intros Hf. destruct Hq as [[-> _]|[[_ ->]|[-> _]]]; [done| |done].
    destruct (holds_ready _ _ _ Hh R2). congruence.
  - exists s1, y1. rewrite <- E1. split_and!; [done|exact Hy1|]. apply ch_is_full_spec.
    destruct B1 as [_ _ _ _ -> ->]. unfold roomy in R1. lia.
  - exists d'. unfold worker3_turn, expect, client_send_broadcast, send_broadcast, send_broadcast_with.
    change (lit "worker.*") with worker_mask. change (is_realtime QoS_No) with false. fold len.
    unfold mbind at 1, prog_bind at 1. unfold mbind at 1, prog_bind at 1.
    rewrite (bind_Done _ _ _ _ _ (count_incoming_run c3 len d)). fold d1.
    rewrite (bind_Done (gets _) _ d1 subs d1 eq_refl).
    rewrite (bind_Done _ _ _ _ _ (deref_Some _ _ _ Hy3)), En. unfold deliver_all.
    destruct subs as [|s0 l0]; [by apply elem_of_nil in Hs1|].
    rewrite (bind_Done (modify _) _ d1 tt d2 eq_refl). fold broadcast_frame. by rewrite E'.
Qed.

(** What is printed in a second. *)
Definition second_lines : list str := [lit "worker.1: hello"; lit "worker.3: this is a broadcast message"].

Lemma second_run c1 c2 c3 q1 q3 d :
  demo c1 c2 c3 q1 [] q3 d -> roomy q1 -> roomy q3 ->
  exists d', second_turn c1 c2 c3 d = Done second_lines d' /\
    demo c1 c2 c3 (q1 ++ [broadcast_frame]) [] (q3 ++ [broadcast_frame]) d'.
Proof.
  intros D R1 R3. destruct (worker1_run c1 c2 c3 q1 [] q3 d D) as (d1 & E1 & D1); [done|].
  destruct (worker3_run c1 c2 c3 q1 _ q3 d1 D1 R1 ltac:(done) R3) as (d2 & E2 & D2).
  destruct (receive_run _ _ _ _ _ _ _ d2 (lit "worker.1") (lit "hello") D2) as (d3 & E3 & D3); [done..|].
  destruct (receive_run _ _ _ _ _ _ _ d3 (lit "worker.3") (lit "this is a broadcast message") D3) as (d4 & E4 & D4); [done..|].
  exists d4. split; [|exact D4]. unfold second_turn.
  rewrite (bind_Done _ _ _ _ _ E1), (bind_Done _ _ _ _ _ E2), (bind_Done _ _ _ _ _ E3), (bind_Done _ _ _ _ _ E4). done.
Qed.

Lemma seconds_run c1 c2 c3 n : forall q d,
  demo c1 c2 c3 q [] q d -> Z.of_nat (length q + n) <= DEFAULT_QUEUE_SIZE ->
  exists d', seconds n c1 c2 c3 d = Done (concat (replicate n second_lines)) d' /\
    exists q', length q' = (length q + n)%nat /\ demo c1 c2 c3 q' [] q' d'.
Proof.
  induction n as [|n IH]; intros q d D Hl; cbn [seconds].
  { exists d. split; [done|]. exists q. split; [lia|done]. }
  assert (R : roomy q) by (unfold roomy; lia).
  destruct (second_run c1 c2 c3 q q d D R R) as (d1 & E1 & D1).
  assert (Hl1 : length (q ++ [broadcast_frame]) = S (length q)) by (rewrite length_app; cbn; lia).
  destruct (IH _ d1 D1) as (d2 & E2 & q' & Hl2 & D2); [lia|].
  exists d2. split; [|exists q'; split; [lia|done]].
  by rewrite (bind_Done _ _ _ _ _ E1), (bind_Done _ _ _ _ _ E2).
Qed.

Lemma second_stops c1 c2 c3 q1 q3 d :
  demo c1 c2 c3 q1 [] q3 d -> ext_room c1 = 0%nat -> ext_room c3 = 0%nat -> ~ roomy q1 ->
  exists d', second_turn c1 c2 c3 d = Hang d'.
Proof.
  intros D X1 X3 R1. destruct (worker1_run c1 c2 c3 q1 [] q3 d D) as (d1 & E1 & D1); [done|].
  destruct (worker3_stops c1 c2 c3 q1 _ q3 d1 D1 X1 X3 ltac:(done) R1) as (d2 & E2). exists d2.
  unfold second_turn. rewrite (bind_Done _ _ _ _ _ E1). unfold mbind, prog_bind. by rewrite E2.
Qed.
End facts.

(** The demonstration works as its comments say for as many seconds as a queue has places, with both
    lines printed in each; but nobody reads what the broadcasts leave in the queues of [worker.1] and
    [worker.3], and in the second after, the broadcast waits for ever. *)
Theorem inter_thread_stalls {X : Externals} `{!ExternalsLaws X} c1 c2 c3 d :
  demo c1 c2 c3 [] [] [] d -> ext_room c1 = 0%nat -> ext_room c3 = 0%nat ->
  exists d', seconds (Z.to_nat DEFAULT_QUEUE_SIZE) c1 c2 c3 d =
               Done (concat (replicate (Z.to_nat DEFAULT_QUEUE_SIZE) second_lines)) d' /\
    forall n, exists d'', seconds (S n) c1 c2 c3 d' = Hang d''.
Proof.
  intros D X1 X3. assert (Hp : 0 <= DEFAULT_QUEUE_SIZE) by done.
  destruct (seconds_run c1 c2 c3 (Z.to_nat DEFAULT_QUEUE_SIZE) [] d D) as (d' & E & q & Hl & D').
  { change (length (@nil FrameData)) with 0%nat. rewrite Nat.add_0_l, Z2Nat.id by done. done. }
  exists d'. split; [exact E|]. intros n. change (length (@nil FrameData)) with 0%nat in Hl. rewrite Nat.add_0_l in Hl.
  destruct (second_stops c1 c2 c3 q q d' D' X1 X3) as (d'' & E'').
  { unfold roomy. rewrite Hl, Z2Nat.id by done. lia. }
  exists d''. cbn [seconds]. unfold mbind, prog_bind. by rewrite E''.
Qed.

(** ** The broker the demonstration starts *)

Section start.
Context {X : Externals} `{!ExternalsLaws X} {N : Networks}.

Lemma preserves_in_db {A} (m : prog BrokerDb Error A) :
  preserves db_wf m -> preserves (fun b => db_wf (br_db b)) (in_db m).
Proof. intros Hm b Hb. specialize (Hm _ Hb). unfold in_db. by destruct (m (br_db b)). Qed.

Lemma preserves_broker_register nm : preserves (fun b => db_wf (br_db b)) (Broker_register_client nm).
Proof.
  intros b Hb. apply preserves_in_db; [|done]. intros d Hd. pose proof (broker_register_wf (br_queue_size b) nm d Hd) as H.
  destruct (broker_register_client _ _ d); [apply H|done..].
Qed.

(** However its start goes, the broker's database is well-formed. *)
Lemma inter_thread_start_wf bound : preserves (fun b => db_wf (br_db b)) (inter_thread_start bound).
Proof.
  apply preserves_bind.
  { intros b Hb. apply preserves_in_db; [|done]. intros d. apply init_core_rpc_wf. }
  intros _. apply preserves_bind.
  { intros b Hb. unfold spawn_unix_server, spawn_listener. by destruct bound. }
  intros _. do 3 (apply preserves_bind; [apply preserves_broker_register|intros ?]). apply preserves_ret.
Qed.
End start.

Definition demo_broker : option (Broker * list nat) :=
  match inter_thread_start (Ok tt) Broker_new with
  | Done (a, b, c) s => Some (s, [bus a; bus b; bus c])
  | _ => None
  end.
Definition demo_db : BrokerDb := match demo_broker with Some (s, _) => br_db s | None => broker_create false end.

Lemma demo_started : snd <$> demo_broker = Some [1; 2; 3]%nat.
Proof. concrete. Qed.

Lemma demo_db_wf : db_wf demo_db.
Proof.
  pose proof (inter_thread_start_wf (Ok tt) Broker_new (db_new_wf false)) as H. unfold demo_db, demo_broker.
  destruct (inter_thread_start _ _) as [[[a b] c] s|e s|s|]; [exact H|apply db_new_wf..].
Qed.

Definition idle (nm : str) (cl : BusRtClient) : bool :=
  bool_decide (name cl = nm) && registered cl && bool_decide (ckind cl = Internal) && negb (ch_is_closed (tx cl)) &&
  (ch_cap (tx cl) =? DEFAULT_QUEUE_SIZE) && (length (ch_items (tx cl)) =? 0)%nat.

Lemma idle_backlog nm c d : (idle nm <$> heap d !! c) = Some true -> backlog nm c [] d.
Proof.
  intros (cl & Hl & Hi)%fmap_Some. exists cl. split; [done|]. symmetry in Hi. unfold idle in Hi.
  rewrite !andb_true_iff, !bool_decide_eq_true, negb_true_iff, Z.eqb_eq, Nat.eqb_eq in Hi.
  destruct Hi as (((((E1 & E2) & E3) & E4) & E5) & E6). by split; [..|apply nil_length_inv].
Qed.

Definition named_are (cs : list nat) (d : BrokerDb) : bool :=
  forallb (fun kv => Bool.eqb (registered kv.2 && bm_fits (bm_cfg (broadcasts d)) worker_mask (name kv.2))
                       (bool_decide (kv.1 ∈ cs))) (map_to_list (heap d)).

(** The names the mask fits are those of the workers. *)
Lemma demo_run : demo 1 2 3 [] [] [] demo_db.
Proof.
  split; [apply demo_db_wf|apply idle_backlog; concrete..|].
  intros x y Hy. unfold named. assert (Hx : named_are [1; 2; 3]%nat demo_db = true) by concrete.
  unfold named_are in Hx. rewrite forallb_forall in Hx. specialize (Hx (x, y)).
  rewrite <- list_elem_of_In, elem_of_map_to_list in Hx. specialize (Hx Hy). apply eqb_prop in Hx. cbn [fst snd] in Hx.
  rewrite <- andb_true_iff, Hx, bool_decide_eq_true. clear. rewrite !elem_of_cons, elem_of_nil. tauto.
Qed.

Lemma inter_thread_stalls_witness :
  exists d', seconds (Z.to_nat DEFAULT_QUEUE_SIZE) 1 2 3 demo_db =
               Done (concat (replicate (Z.to_nat DEFAULT_QUEUE_SIZE) second_lines)) d' /\
    forall n, exists d'', seconds (S n) 1 2 3 d' = Hang d''.
Proof. apply (inter_thread_stalls 1 2 3 demo_db); [apply demo_run|done|done]. Defined.
