(* ===== verification/RpcClient.v ===== *)
(** * The asynchronous RPC client ([src/rpc/async_client.rs])

    An [RpcClient] as its tasks see it: the processor of incoming frames, the tasks it spawns for
    handlers (in a pool, if one is configured), the pinger, and the threads of the application
    that call, notify and wait. They share the bus client behind a mutex, and the map of pending
    calls. Every stretch of code between two awaits is an action of the state; what the bus
    answers, which task runs next and when a connection ends is up to the actions.

    [Rpc] has what happens to a single frame ([processor_step]) and to a single call. *)
From S2P Require Export Rpc.

(** ** Options *)

(** A [tokio_task_pool::Pool], by the number of its tasks that run: whether it takes another one,
    and whether it gives up with an error instead of waiting for a free place; and whether it limits
    the time its tasks may run, dropping those that take longer. *)
Record Pool := MkPool {
  pool_admits : nat -> bool;
  pool_refuses : nat -> bool;
  pool_limits : bool;
}.

Record Options := MkRpcOptions {
  op_processor : ProcessorOptions;
  task_pool : option Pool;
}.

Definition Options_new : Options := MkRpcOptions (MkOptions false false) None.
Definition Options_blocking_notifications (o : Options) : Options :=
  MkRpcOptions (MkOptions true (blocking_frames (op_processor o))) (task_pool o).
Definition Options_blocking_frames (o : Options) : Options :=
  MkRpcOptions (MkOptions (blocking_notifications (op_processor o)) true) (task_pool o).
Definition Options_with_task_pool (p : Pool) (o : Options) : Options :=
  MkRpcOptions (op_processor o) (Some p).

(** ** Handlers *)

(** [RpcHandlers::handle_call], what it returns; handlers of notifications and frames return
    nothing. [RpcHandlers_default] is the method a trait implementation inherits. *)
Definition RpcHandlers : Type := RpcEvent -> RpcResult.
Definition RpcHandlers_default : RpcHandlers := fun _ => Err (RpcError_method None).
Definition DummyHandlers : RpcHandlers := fun _ =>
  Err (MkRpcError RPC_ERROR_CODE_METHOD_NOT_FOUND (Some (lit "RPC handler is not implemented"))).

(** ** State *)

(** What a [zc_send] is asked to send. *)
Record outgoing := Outgoing {
  og_target : str;
  og_header : bytes;
  og_params : bytes;
  og_qos : QoS;
}.

(** What a task sends a message for: a notification or [call0], the reply of a handler, or a
    call with its id and its [oneshot] channel. *)
Inductive purpose := OneWay | Replying | Calling (id : Z) (tx : nat).

(** Where a task is: in code of its own, waiting for the mutex of the client, in [zc_send] with the
    mutex held, waiting for the confirmation of the bus, or for the reply. *)
Inductive stage :=
| Running
| Locking (m : outgoing) (k : purpose)
| Sending (m : outgoing) (k : purpose)
| Confirming (id : Z) (tx : nat)
| Waiting (id : Z) (tx : nat).

(** What the processor has a handler for. *)
Inductive job :=
| NotificationJob (ev : RpcEvent)
| FrameJob (f : FrameData)
| RequestJob (ev : RpcEvent) (reply_to : option (str * Z)) (qos : QoS).

(** A task of the application has no job. *)
Record thread := MkThread {
  th_job : option job;
  th_stage : stage;
}.

(** The processor waits for a frame, for a place in the pool, or for a handler it runs itself. *)
Inductive processor_state := Receiving | Spawning (j : job) | Awaiting (t : nat) | Stopped.

#[export] Instance processor_awaits_dec p t : Decision (p <> Awaiting t).
Proof.
  refine match p with
         | Awaiting t' => cast_if_not (decide (t' = t))
         | _ => left _
         end; congruence.
Defined.

Inductive pinger_state := PingerOff | PingerLocking | PingerPinging | PingerSleeping.

Record RpcClient := MkRpcClient {
  rc_rpc : RpcState;
  (** Events sent into the channels of calls. *)
  rc_resolved : gmap nat RpcEvent;
  (** The event channel of the bus client, and whether its other end is gone. *)
  rc_inbox : list FrameData;
  rc_closed : bool;
  rc_processor : processor_state;
  rc_pinger : pinger_state;
  (** The mutex of the bus client is held. *)
  rc_lock : bool;
  rc_threads : gmap nat thread;
  rc_next : nat;
  (** What the bus client has sent, and what the calls have returned. *)
  rc_sent : list outgoing;
  rc_results : gmap nat (result RpcEvent RpcError);
}.

Definition set_rpc (r : RpcState) (s : RpcClient) : RpcClient :=
  MkRpcClient r (rc_resolved s) (rc_inbox s) (rc_closed s) (rc_processor s) (rc_pinger s) (rc_lock s)
    (rc_threads s) (rc_next s) (rc_sent s) (rc_results s).
Definition set_resolved (v : gmap nat RpcEvent) (s : RpcClient) : RpcClient :=
  MkRpcClient (rc_rpc s) v (rc_inbox s) (rc_closed s) (rc_processor s) (rc_pinger s) (rc_lock s)
    (rc_threads s) (rc_next s) (rc_sent s) (rc_results s).
Definition set_channel (v : list FrameData) (closed : bool) (s : RpcClient) : RpcClient :=
  MkRpcClient (rc_rpc s) (rc_resolved s) v closed (rc_processor s) (rc_pinger s) (rc_lock s)
    (rc_threads s) (rc_next s) (rc_sent s) (rc_results s).
Definition set_processor (v : processor_state) (s : RpcClient) : RpcClient :=
  MkRpcClient (rc_rpc s) (rc_resolved s) (rc_inbox s) (rc_closed s) v (rc_pinger s) (rc_lock s)
    (rc_threads s) (rc_next s) (rc_sent s) (rc_results s).
Definition set_pinger (v : pinger_state) (s : RpcClient) : RpcClient :=
  MkRpcClient (rc_rpc s) (rc_resolved s) (rc_inbox s) (rc_closed s) (rc_processor s) v (rc_lock s)
    (rc_threads s) (rc_next s) (rc_sent s) (rc_results s).
Definition set_lock (v : bool) (s : RpcClient) : RpcClient :=
  MkRpcClient (rc_rpc s) (rc_resolved s) (rc_inbox s) (rc_closed s) (rc_processor s) (rc_pinger s) v
    (rc_threads s) (rc_next s) (rc_sent s) (rc_results s).
Definition set_threads (v : gmap nat thread) (s : RpcClient) : RpcClient :=
  MkRpcClient (rc_rpc s) (rc_resolved s) (rc_inbox s) (rc_closed s) (rc_processor s) (rc_pinger s) (rc_lock s)
    v (rc_next s) (rc_sent s) (rc_results s).
Definition push_sent (m : outgoing) (s : RpcClient) : RpcClient :=
  MkRpcClient (rc_rpc s) (rc_resolved s) (rc_inbox s) (rc_closed s) (rc_processor s) (rc_pinger s) (rc_lock s)
    (rc_threads s) (rc_next s) (rc_sent s ++ [m]) (rc_results s).
Definition push_result (tx : nat) (v : result RpcEvent RpcError) (s : RpcClient) : RpcClient :=
  MkRpcClient (rc_rpc s) (rc_resolved s) (rc_inbox s) (rc_closed s) (rc_processor s) (rc_pinger s) (rc_lock s)
    (rc_threads s) (rc_next s) (rc_sent s) (<[ tx := v ]> (rc_results s)).

(** [tokio::spawn]: a new task. *)
Definition spawn (job : option job) (s : RpcClient) : RpcClient :=
  MkRpcClient (rc_rpc s) (rc_resolved s) (rc_inbox s) (rc_closed s) (rc_processor s) (rc_pinger s) (rc_lock s)
    (<[ rc_next s := MkThread job Running ]> (rc_threads s)) (S (rc_next s)) (rc_sent s) (rc_results s).

(** A task that goes on, and one that ends. *)
Definition go (t : nat) (th : thread) (stage : stage) (s : RpcClient) : RpcClient :=
  set_threads (<[ t := MkThread (th_job th) stage ]> (rc_threads s)) s.
Definition finish (t : nat) (s : RpcClient) : RpcClient := set_threads (delete t (rc_threads s)) s.

(** [RpcClient::init]: [rx] is the event channel of the bus client, which can be taken once. [None]: a
    panic. *)
Definition init (rx : option (list FrameData)) (timeout : option Z) : option RpcClient :=
  inbox ← rx;
  Some (MkRpcClient RpcState_new ∅ inbox false Receiving
          (match timeout with Some _ => PingerLocking | None => PingerOff end) false ∅ 0 [] ∅).

(** The constructors: the options and the handlers a client runs with, and its first state. *)
Definition create (handlers : RpcHandlers) (opts : Options) rx timeout : option (Options * RpcHandlers * RpcClient) :=
  (fun s => (opts, handlers, s)) <$> init rx timeout.
Definition create0 := create DummyHandlers.
Definition new (handlers : RpcHandlers) := create handlers Options_new.
Definition new0 := create DummyHandlers Options_new.

(** [is_connected]: the beacon of the bus client, if it has one. *)
Definition is_connected (connected : option bool) : bool :=
  match connected with None => true | Some b => b end.

(** ** Actions *)

Inductive action :=
| Enters                                                      (* a task of the application starts *)
| Calls (t : nat) (target method : str) (params : bytes) (qos : QoS)
| Calls0 (t : nat) (target method : str) (params : bytes) (qos : QoS)
| Notifies (t : nat) (target : str) (data : bytes) (qos : QoS)
| Locks (t : nat)                                             (* it gets the mutex *)
| Sent (t : nat) (r : result bool Error)                      (* [zc_send] returns; with a confirmation to come? *)
| SendTimesOut (t : nat)
| Confirmed (t : nat) (r : option (result unit Error))        (* [None]: the confirmation will not come *)
| Returns (t : nat)                                           (* [rx.await] in [call] is over *)
| Cancels (t : nat)                                           (* the future of its operation is dropped *)
| Ends (t : nat)                                              (* its own code is over *)
| Expires (t : nat)                                           (* the pool drops it, as it took too long *)
| Arrives (f : FrameData)
| Closes                                                      (* the bus client drops its end of the channel *)
| Receives                                                    (* the processor takes a frame *)
| Admits | Refuses                                            (* the pool takes its task, or fails *)
| PingLocks | Pinged (r : result unit Error) | PingWakes.

Section client.
Context (opts : Options) (timeout : option Z) (handle_call : RpcHandlers).

(** *** Operations of tasks *)

(** [call], [call0] and [notify], up to the mutex. *)
Definition act_call t target method params qos (s : RpcClient) : option RpcClient :=
  th ← rc_threads s !! t;
  match th_stage th with
  | Running =>
      let '((header, id, tx), r) := call_begin method (rc_rpc s) in
      Some (go t th (Locking (Outgoing target header params qos) (Calling id tx)) (set_rpc r s))
  | _ => None
  end.

Definition act_one_way t target header params qos (s : RpcClient) : option RpcClient :=
  th ← rc_threads s !! t;
  match th_stage th with
  | Running => Some (go t th (Locking (Outgoing target header params qos) OneWay) s)
  | _ => None
  end.
Definition act_call0 t target method := act_one_way t target (call0_header method).
Definition act_notify t target := act_one_way t target notify_header.

Definition act_locks t (s : RpcClient) : option RpcClient :=
  th ← rc_threads s !! t;
  match th_stage th, rc_lock s with
  | Locking m k, false => Some (go t th (Sending m k) (set_lock true s))
  | _, _ => None
  end.

(** [unwrap_or_cancel!], on an error. *)
Definition withdraw t th id tx e (s : RpcClient) : RpcClient :=
  let '(err, r) := call_cancel id e (rc_rpc s) in
  push_result tx (Err err) (go t th Running (set_rpc r s)).

(** A handler is done; if the processor ran it itself, it goes on. *)
Definition end_task t (s : RpcClient) : RpcClient :=
  let s := finish t s in
  match rc_processor s with
  | Awaiting t' => if decide (t' = t) then set_processor Receiving s else s
  | _ => s
  end.

Definition act_sent t r (s : RpcClient) : option RpcClient :=
  th ← rc_threads s !! t;
  match th_stage th with
  | Sending m k =>
      let s := set_lock false (match r with Ok _ => push_sent m s | Err _ => s end) in
      Some match k, r with
           | OneWay, _ => go t th Running s
           | Replying, _ => end_task t s
           | Calling id tx, Err e => withdraw t th id tx e s
           | Calling id tx, Ok true => go t th (Confirming id tx) s
           | Calling id tx, Ok false => go t th (Waiting id tx) s
           end
  | _ => None
  end.

(** Only [call] limits the time of its [zc_send]. *)
Definition act_send_times_out t (s : RpcClient) : option RpcClient :=
  th ← rc_threads s !! t;
  match th_stage th, timeout with
  | Sending m (Calling id tx), Some _ => Some (withdraw t th id tx Error_timeout (set_lock false s))
  | _, _ => None
  end.

Definition act_confirmed t (r : option (result unit Error)) (s : RpcClient) : option RpcClient :=
  th ← rc_threads s !! t;
  match th_stage th with
  | Confirming id tx =>
      Some match r with
           | Some (Ok _) => go t th (Waiting id tx) s
           | Some (Err e) => withdraw t th id tx e s
           | None => withdraw t th id tx Error_from_recv s
           end
  | _ => None
  end.

(** The channel of a call yields its event, or an error when its sender is gone; as long as the sender
    is in the map of calls, it yields nothing. *)
Definition act_returns t (s : RpcClient) : option RpcClient :=
  th ← rc_threads s !! t;
  match th_stage th with
  | Waiting id tx =>
      match rc_resolved s !! tx with
      | Some ev =>
          Some match call_finish ev with
               | Some res => push_result tx res (go t th Running s)
               | None => end_task t s
               end
      | None =>
          if decide (calls (rc_rpc s) !! id = Some tx) then None
          else Some (push_result tx (Err (RpcError_from_Error Error_from_recv)) (go t th Running s))
      end
  | _ => None
  end.

Definition holds_lock (st : stage) : bool := match st with Sending _ _ => true | _ => false end.

(** The future of an operation is dropped, with the guard of the mutex; a call stays registered. *)
Definition act_cancels t (s : RpcClient) : option RpcClient :=
  th ← rc_threads s !! t;
  match th_stage th with
  | Running | Locking _ Replying | Sending _ Replying => None
  | st => Some (go t th Running (if holds_lock st then set_lock false s else s))
  end.

(** A handler returns; a request that wants a reply is answered by its task. *)
Definition act_ends t (s : RpcClient) : option RpcClient :=
  th ← rc_threads s !! t;
  match th_stage th with
  | Running =>
      Some match th_job th with
           | Some (RequestJob ev (Some (target, id)) qos) =>
               let '(header, data) := reply_parts id (handle_call ev) in
               go t th (Locking (Outgoing target header data qos) Replying) s
           | _ => end_task t s
           end
  | _ => None
  end.

(** *** The processor *)

(** [spawn!]. *)
Definition spawn_task (j : job) (s : RpcClient) : RpcClient :=
  match task_pool opts with
  | Some _ => set_processor (Spawning j) s
  | None => spawn (Some j) s
  end.

Definition handle (blocking : bool) (j : job) (s : RpcClient) : RpcClient :=
  if blocking then set_processor (Awaiting (rc_next s)) (spawn (Some j) s) else spawn_task j s.

Definition perform (what : rpc_action) (s : RpcClient) : RpcClient :=
  match what with
  | HandleNotification ev blocking => handle blocking (NotificationJob ev) s
  | HandleCall ev reply_to qos => spawn_task (RequestJob ev reply_to qos) s
  | HandleFrame f blocking => handle blocking (FrameJob f) s
  | Resolve tx ev => set_resolved (<[ tx := ev ]> (rc_resolved s)) s
  | Orphaned _ | LogError _ => s
  end.

Definition act_receives (s : RpcClient) : option RpcClient :=
  match rc_processor s, rc_inbox s with
  | Receiving, f :: fs =>
      let s := set_channel fs (rc_closed s) s in
      Some match processor_step (op_processor opts) f (rc_rpc s) with
           | Some (what, r) => perform what (set_rpc r s)
           | None => set_processor Stopped s
           end
  | Receiving, [] => if rc_closed s then Some (set_processor Stopped s) else None
  | _, _ => None
  end.

(** The tasks in the pool; a handler the processor runs itself is none, but while it runs the
    processor spawns nothing. *)
Definition has_job (kt : nat * thread) : Prop := is_Some (th_job kt.2).
Definition pool_tasks (s : RpcClient) : nat := size (filter has_job (rc_threads s)).

(** The run time limit of the pool: the task is dropped with what it awaits and the guard of the mutex;
    a call it made stays registered. A handler the processor runs itself is not in the pool. *)
Definition act_expires t (s : RpcClient) : option RpcClient :=
  th ← rc_threads s !! t;
  match th_job th, task_pool opts with
  | Some _, Some p =>
      if pool_limits p && bool_decide (rc_processor s <> Awaiting t)
      then Some (end_task t (if holds_lock (th_stage th) then set_lock false s else s)) else None
  | _, _ => None
  end.

Definition act_admits (s : RpcClient) : option RpcClient :=
  match rc_processor s, task_pool opts with
  | Spawning j, Some p =>
      if pool_admits p (pool_tasks s) then Some (set_processor Receiving (spawn (Some j) s)) else None
  | _, _ => None
  end.

Definition act_refuses (s : RpcClient) : option RpcClient :=
  match rc_processor s, task_pool opts with
  | Spawning j, Some p => if pool_refuses p (pool_tasks s) then Some (set_processor Receiving s) else None
  | _, _ => None
  end.

Definition act_arrives (f : FrameData) (s : RpcClient) : option RpcClient :=
  match rc_processor s with
  | Stopped => None
  | _ => if rc_closed s then None else Some (set_channel (rc_inbox s ++ [f]) false s)
  end.

(** [JoinHandle::abort] of the processor, with the handler it runs itself. *)
Definition abort (s : RpcClient) : RpcClient :=
  set_processor Stopped
    match rc_processor s with
    | Awaiting t =>
        match rc_threads s !! t with
        | Some th => finish t (if holds_lock (th_stage th) then set_lock false s else s)
        | None => s
        end
    | _ => s
    end.

(** *** The pinger *)

Definition act_ping_locks (s : RpcClient) : option RpcClient :=
  match rc_pinger s, rc_lock s with
  | PingerLocking, false => Some (set_pinger PingerPinging (set_lock true s))
  | _, _ => None
  end.

Definition act_pinged (r : result unit Error) (s : RpcClient) : option RpcClient :=
  match rc_pinger s with
  | PingerPinging =>
      Some match r with
           | Ok _ => set_pinger PingerSleeping (set_lock false s)
           | Err _ => set_pinger PingerOff (set_lock false (abort s))
           end
  | _ => None
  end.

Definition act_ping_wakes (s : RpcClient) : option RpcClient :=
  match rc_pinger s with PingerSleeping => Some (set_pinger PingerLocking s) | _ => None end.

(** [impl Drop for RpcClient]: both tasks are aborted. *)
Definition drop_rpc_client (s : RpcClient) : RpcClient :=
  let s := match rc_pinger s with PingerPinging => set_lock false s | _ => s end in
  abort (set_pinger PingerOff s).

Definition act (a : action) (s : RpcClient) : option RpcClient :=
  match a with
  | Enters => Some (spawn None s)
  | Calls t target method params qos => act_call t target method params qos s
  | Calls0 t target method params qos => act_call0 t target method params qos s
  | Notifies t target data qos => act_notify t target data qos s
  | Locks t => act_locks t s
  | Sent t r => act_sent t r s
  | SendTimesOut t => act_send_times_out t s
  | Confirmed t r => act_confirmed t r s
  | Returns t => act_returns t s
  | Cancels t => act_cancels t s
  | Ends t => act_ends t s
  | Expires t => act_expires t s
  | Arrives f => act_arrives f s
  | Closes => Some (set_channel (rc_inbox s) true s)
  | Receives => act_receives s
  | Admits => act_admits s
  | Refuses => act_refuses s
  | PingLocks => act_ping_locks s
  | Pinged r => act_pinged r s
  | PingWakes => act_ping_wakes s
  end.

Fixpoint run (acts : list action) (s : RpcClient) : option RpcClient :=
  match acts with
  | [] => Some s
  | a :: acts => s' ← act a s; run acts s'
  end.

(** The states a client can get into. *)
Definition reachable (s : RpcClient) : Prop :=
  exists inbox s0 acts, init (Some inbox) timeout = Some s0 /\ run acts s0 = Some s.
End client.
