(* ===== verification/RpcTasks.v ===== *)
(** * The asynchronous RPC client: what holds of its tasks

    What an action of [RpcClient] can change; the invariant of the states a client can get into; the
    ways its processor can stop for good, and what that does to pending calls; and a call and its
    answer, action by action. *)
From S2P Require Export RpcClient.

(** ** What an action of a task can change *)

(** The call a task is in, and who holds the mutex: a task, or the pinger ([None]). *)
Definition call_of (st : stage) : option (Z * nat) :=
  match st with
  | Locking _ (Calling id tx) | Sending _ (Calling id tx) | Confirming id tx | Waiting id tx => Some (id, tx)
  | _ => None
  end.
Definition call_at (s : RpcClient) (t : nat) : option (Z * nat) :=
  th ← rc_threads s !! t; call_of (th_stage th).
Definition holds (s : RpcClient) (o : option nat) : bool :=
  match o with
  | None => match rc_pinger s with PingerPinging => true | _ => false end
  | Some t => match rc_threads s !! t with Some th => holds_lock (th_stage th) | None => false end
  end.

(** An operation, or a whole handler, is dropped on its way. *)
Definition gives_up (a : action) : bool := match a with Cancels _ | Expires _ => true | _ => false end.

(** The mutex goes along with who holds it. *)
Definition lock_effect (o : option nat) (s s' : RpcClient) : Prop :=
  (holds s' o = holds s o /\ rc_lock s' = rc_lock s) \/
  (holds s' o = false /\ holds s o = true /\ rc_lock s' = false) \/
  (holds s' o = true /\ rc_lock s = false /\ rc_lock s' = true).

(** The call of a task goes on or is over, is withdrawn, or begins. *)
Inductive call_effect (a : action) (t : nat) (s s' : RpcClient) : Prop :=
| CallKept :
    rc_rpc s' = rc_rpc s -> (call_at s' t = None \/ call_at s' t = call_at s t) -> call_effect a t s s'
| CallWithdrawn id tx e :
    call_at s t = Some (id, tx) -> rc_rpc s' = (call_cancel id e (rc_rpc s)).2 -> call_at s' t = None ->
    call_effect a t s s'
| CallBegun target method params qos :
    a = Calls t target method params qos -> call_at s t = None -> rc_rpc s' = (call_begin method (rc_rpc s)).2 ->
    call_at s' t = Some (next_call_id (call_id (rc_rpc s)), next_tx (rc_rpc s)) -> call_effect a t s s'.

Record thread_step (a : action) (t : nat) (th : thread) (s s' : RpcClient) : Prop := {
  ts_thread : rc_threads s !! t = Some th;
  ts_stays : rc_threads s' !! t = None \/ exists st, rc_threads s' !! t = Some (MkThread (th_job th) st);
  ts_others : forall u, u <> t -> rc_threads s' !! u = rc_threads s !! u;
  ts_same : rc_resolved s' = rc_resolved s /\ rc_next s' = rc_next s /\ rc_pinger s' = rc_pinger s;
  ts_processor : rc_processor s' = rc_processor s /\ (rc_threads s' !! t = None -> rc_processor s <> Awaiting t) \/
    rc_processor s = Awaiting t /\ rc_processor s' = Receiving /\ rc_threads s' !! t = None;
  ts_lock : lock_effect (Some t) s s';
  ts_call : call_effect a t s s';
  (** Nobody gives up waiting, and a reply that is not there is not returned. *)
  ts_waits : forall id tx, th_stage th = Waiting id tx -> gives_up a = false ->
    rc_resolved s !! tx = None -> calls (rc_rpc s) !! id <> Some tx;
}.

Definition actor (a : action) : option nat :=
  match a with
  | Calls t _ _ _ _ | Calls0 t _ _ _ _ | Notifies t _ _ _ | Locks t | Sent t _ | SendTimesOut t
  | Confirmed t _ | Returns t | Cancels t | Ends t | Expires t => Some t
  | _ => None
  end.

#[local] Arguments go : simpl never.

Lemma go_threads t th st s : rc_threads (go t th st s) !! t = Some (MkThread (th_job th) st).
Proof. apply lookup_insert_eq. Qed.
Lemma go_others t th st s u : u <> t -> rc_threads (go t th st s) !! u = rc_threads s !! u.
Proof. intros. by apply lookup_insert_ne. Qed.
Lemma end_task_threads t s : rc_threads (end_task t s) = delete t (rc_threads s).
Proof. unfold end_task, finish. destruct (rc_processor _); try done. by case_decide. Qed.
Lemma end_task_same t s :
  rc_rpc (end_task t s) = rc_rpc s /\ rc_resolved (end_task t s) = rc_resolved s /\ rc_next (end_task t s) = rc_next s /\
  rc_pinger (end_task t s) = rc_pinger s /\ rc_lock (end_task t s) = rc_lock s.
Proof. unfold end_task, finish. destruct (rc_processor _); try done. by case_decide. Qed.
Lemma end_task_processor t s :
  rc_processor (end_task t s) = rc_processor s /\ rc_processor s <> Awaiting t \/
  rc_processor s = Awaiting t /\ rc_processor (end_task t s) = Receiving.
Proof.
  unfold end_task, finish. cbn. destruct (rc_processor s) as [| |u|] eqn:E; cbn; rewrite ?E; auto.
  case_decide; subst; cbn; rewrite ?E; [by right|]. left. split; congruence.
Qed.

(** A task that goes on, in a state [s1] that differs from [s] in nothing a task shares. *)
Lemma go_step a t th st s s1 :
  rc_threads s !! t = Some th -> rc_threads s1 = rc_threads s -> rc_resolved s1 = rc_resolved s ->
  rc_next s1 = rc_next s -> rc_pinger s1 = rc_pinger s -> rc_processor s1 = rc_processor s ->
  lock_effect (Some t) s (go t th st s1) -> call_effect a t s (go t th st s1) ->
  (forall id tx, th_stage th = Waiting id tx -> gives_up a = false ->
     rc_resolved s !! tx = None -> calls (rc_rpc s) !! id <> Some tx) ->
  thread_step a t th s (go t th st s1).
Proof.
  intros Ht Et Er En Ep Eq Hl Hc Hw. split; try done.
  - right. eexists. apply go_threads.
  - intros u Hu. rewrite go_others by done. by rewrite Et.
  - left. split; [done|]. by rewrite go_threads.
Qed.

Lemma end_step a t th s s1 :
  rc_threads s !! t = Some th -> rc_threads s1 = rc_threads s -> rc_resolved s1 = rc_resolved s ->
  rc_next s1 = rc_next s -> rc_pinger s1 = rc_pinger s -> rc_processor s1 = rc_processor s -> rc_rpc s1 = rc_rpc s ->
  (holds_lock (th_stage th) = false /\ rc_lock s1 = rc_lock s \/
   holds_lock (th_stage th) = true /\ rc_lock s1 = false) ->
  (forall id tx, th_stage th = Waiting id tx -> gives_up a = false ->
     rc_resolved s !! tx = None -> calls (rc_rpc s) !! id <> Some tx) ->
  thread_step a t th s (end_task t s1).
Proof.
  intros Ht Et Er En Ep Eq Erpc Hl Hw.
  destruct (end_task_same t s1) as (E1 & E2 & E3 & E4 & E5). pose proof (end_task_threads t s1) as E6.
  split; try done.
  - left. rewrite E6. apply lookup_delete_eq.
  - intros u Hu. rewrite E6, Et. by apply lookup_delete_ne.
  - rewrite E2, E3, E4. done.
  - rewrite <- Eq. destruct (end_task_processor t s1) as [[H1 H2]|[H1 H2]]; [by left|right].
    split_and!; [done|done|]. rewrite E6. apply lookup_delete_eq.
  - unfold lock_effect, holds. rewrite E6, Et, lookup_delete_eq, Ht, E5. destruct Hl as [[-> ->]|[-> ->]]; auto.
  - apply CallKept; [by rewrite E1|]. left. unfold call_at. by rewrite E6, lookup_delete_eq.
Qed.

Ltac stage_of Ht Es :=
  cbn in *; unfold call_at, holds, lock_effect; rewrite ?go_threads, ?Ht; cbn; rewrite ?Es; cbn.

Lemma withdraw_step a t th id tx e s s1 :
  rc_threads s !! t = Some th -> call_of (th_stage th) = Some (id, tx) -> (forall i x, th_stage th <> Waiting i x) ->
  s1 = s /\ holds_lock (th_stage th) = false \/ s1 = set_lock false s /\ holds_lock (th_stage th) = true ->
  thread_step a t th s (withdraw t th id tx e s1).
Proof.
  intros Ht Hc Hw Hl.
  change (withdraw t th id tx e s1) with
    (go t th Running (push_result tx (Err (call_cancel id e (rc_rpc s1)).1) (set_rpc (call_cancel id e (rc_rpc s1)).2 s1))).
  apply go_step; try by destruct Hl as [[-> _]|[-> _]].
  - unfold lock_effect, holds. rewrite go_threads, Ht. destruct Hl as [[-> ->]|[-> ->]]; cbn; auto.
  - apply (CallWithdrawn _ _ _ _ id tx e); [by unfold call_at; rewrite Ht| |].
    + destruct Hl as [[-> _]|[-> _]]; done.
    + unfold call_at. by rewrite go_threads.
  - intros i x E. by destruct (Hw i x).
Qed.

Section actions.
Context (opts : Options) (timeout : option Z) (handle_call : RpcHandlers).

Lemma act_one_way_step a t target header params qos s s' :
  act_one_way t target header params qos s = Some s' -> exists th, thread_step a t th s s'.
Proof.
  unfold act_one_way. destruct (rc_threads s !! t) as [th|] eqn:Ht; cbn; [|done]. intros H. exists th.
  destruct (th_stage th) eqn:Es; simplify_eq. apply go_step; try done.
  - left. by stage_of Ht Es.
  - apply CallKept; [done|]. left. by stage_of Ht Es.
  - by rewrite Es.
Qed.

Lemma act_sent_step t r s s' : act_sent t r s = Some s' -> exists th, thread_step (Sent t r) t th s s'.
Proof.
  unfold act_sent. destruct (rc_threads s !! t) as [th|] eqn:Ht; cbn; [|done]. intros H. exists th.
  destruct (th_stage th) as [|m k|m k| |] eqn:Es; simplify_eq.
  set (s1 := match r with Ok _ => push_sent m s | Err _ => s end).
  assert (Hs1 : rc_threads s1 = rc_threads s /\ rc_resolved s1 = rc_resolved s /\ rc_next s1 = rc_next s /\
    rc_pinger s1 = rc_pinger s /\ rc_processor s1 = rc_processor s /\ rc_rpc s1 = rc_rpc s) by by destruct r.
  destruct Hs1 as (E1 & E2 & E3 & E4 & E5 & E6).
  assert (Hgo : forall st, holds_lock st = false -> (call_of st = None \/ call_of st = call_of (th_stage th)) ->
    thread_step (Sent t r) t th s (go t th st (set_lock false s1))).
  { intros st Hst Hc. apply go_step; try done.
    - right. left. stage_of Ht Es. by rewrite Hst.
    - apply CallKept; [done|]. unfold call_at. by rewrite go_threads, Ht.
    - by rewrite Es. }
  rewrite Es in Hgo. destruct k as [| |id tx]; [by apply Hgo; auto| |].
  - apply end_step; try done; [right; by rewrite Es|by rewrite Es].
  - destruct r as [[]|e]; [by apply Hgo; auto..|].
    apply (withdraw_step _ t th id tx e s (set_lock false s)); [done|by rewrite Es|by rewrite Es|right; by rewrite Es].
Qed.

Lemma act_returns_step t s s' : act_returns t s = Some s' -> exists th, thread_step (Returns t) t th s s'.
Proof.
  unfold act_returns. destruct (rc_threads s !! t) as [th|] eqn:Ht; cbn; [|done]. intros H. exists th.
  destruct (th_stage th) as [| | | |id tx] eqn:Es; simplify_eq.
  assert (Hgo : forall v, (rc_resolved s !! tx = None -> calls (rc_rpc s) !! id <> Some tx) ->
    thread_step (Returns t) t th s (push_result tx v (go t th Running s))).
  { intros v Hv. change (push_result tx v (go t th Running s)) with (go t th Running (push_result tx v s)).
    apply go_step; try done.
    - left. by stage_of Ht Es.
    - apply CallKept; [done|]. left. by stage_of Ht Es.
    - rewrite Es. by intros ? ? [= <- <-]. }
  destruct (rc_resolved s !! tx) as [ev|] eqn:Er; simplify_eq.
  - destruct (call_finish ev); [by apply Hgo|].
    apply end_step; try done; [left; by rewrite Es|rewrite Es; intros ? ? [= <- <-]; by rewrite Er].
  - case_decide; simplify_eq. by apply Hgo.
Qed.

Lemma act_ends_step t s s' : act_ends handle_call t s = Some s' -> exists th, thread_step (Ends t) t th s s'.
Proof.
  unfold act_ends. destruct (rc_threads s !! t) as [th|] eqn:Ht; cbn; [|done]. intros H. exists th.
  destruct (th_stage th) eqn:Es; simplify_eq.
  assert (He : thread_step (Ends t) t th s (end_task t s)) by (apply end_step; try done; rewrite Es; auto).
  destruct (th_job th) as [[| |ev [[target id]|] qos]|]; try done.
  destruct (reply_parts id _) as [header data]. apply go_step; try done.
  - left. by stage_of Ht Es.
  - apply CallKept; [done|]. left. by stage_of Ht Es.
  - by rewrite Es.
Qed.

Lemma act_thread a t s s' :
  actor a = Some t -> act opts timeout handle_call a s = Some s' -> exists th, thread_step a t th s s'.
Proof.
  destruct a; intros [= <-]; cbn [act]; [|by apply act_one_way_step..| |by apply act_sent_step| | |by apply act_returns_step| |by apply act_ends_step|].
  - unfold act_call. destruct (rc_threads s !! t0) as [th|] eqn:Ht; cbn; [|done]. intros H. exists th.
    destruct (th_stage th) eqn:Es; simplify_eq. apply go_step; try done; [left; by stage_of Ht Es| |by rewrite Es].
    eapply CallBegun; [done|by stage_of Ht Es|done|by stage_of Ht Es].
  - unfold act_locks. destruct (rc_threads s !! t0) as [th|] eqn:Ht; cbn; [|done]. intros H. exists th.
    destruct (th_stage th) as [|m k| | |] eqn:Es; try done. destruct (rc_lock s) eqn:El; simplify_eq.
    apply go_step; try done; [right; right; by stage_of Ht Es| |by rewrite Es].
    apply CallKept; [done|]. right. by stage_of Ht Es.
  - unfold act_send_times_out. destruct (rc_threads s !! t0) as [th|] eqn:Ht; cbn; [|done]. intros H. exists th.
    destruct (th_stage th) as [| |m [| |id tx]| |] eqn:Es; try done. destruct timeout; simplify_eq.
    apply (withdraw_step _ t0 th id tx _ s (set_lock false s)); [done|by rewrite Es|by rewrite Es|right; by rewrite Es].
  - unfold act_confirmed. destruct (rc_threads s !! t0) as [th|] eqn:Ht; cbn; [|done]. intros H. exists th.
    destruct (th_stage th) as [| | |id tx|] eqn:Es; simplify_eq.
    assert (Hw : forall e, thread_step (Confirmed t0 r) t0 th s (withdraw t0 th id tx e s)).
    { intros e. apply (withdraw_step _ t0 th id tx e s s); [done|by rewrite Es|by rewrite Es|left; by rewrite Es]. }
    destruct r as [[u|e]|]; try by apply Hw. apply go_step; try done; [left; by stage_of Ht Es| |by rewrite Es].
    apply CallKept; [done|]. right. by stage_of Ht Es.
  - unfold act_cancels. destruct (rc_threads s !! t0) as [th|] eqn:Ht; cbn; [|done]. intros H. exists th.
    assert (Hgo : thread_step (Cancels t0) t0 th s
      (go t0 th Running (if holds_lock (th_stage th) then set_lock false s else s))).
    { apply go_step; try (by destruct (holds_lock (th_stage th))).
      - unfold lock_effect, holds. rewrite go_threads, Ht. destruct (holds_lock (th_stage th)) eqn:El; cbn; auto.
      - apply CallKept; [by destruct (holds_lock (th_stage th))|]. left. unfold call_at. by rewrite go_threads. }
    by destruct (th_stage th) as [|m []|m []| |]; simplify_eq.
  - unfold act_expires. destruct (rc_threads s !! t0) as [th|] eqn:Ht; cbn; [|done]. intros H. exists th.
    destruct (th_job th), (task_pool opts) as [p|]; try done. destruct (pool_limits p && _); simplify_eq.
    apply end_step; try (by destruct (holds_lock (th_stage th))).
    destruct (holds_lock (th_stage th)); auto.
Qed.
End actions.

(** ** What holds in every state *)

(** The mutex is held exactly if one task, or the pinger, holds it. *)
Definition lock_ok (s : RpcClient) : Prop :=
  (forall o, holds s o = true -> rc_lock s = true) /\
  (forall o o', holds s o = true -> holds s o' = true -> o = o') /\
  (rc_lock s = true -> exists o, holds s o = true).

Lemma lock_step o s s' :
  lock_ok s -> (forall o', o' <> o -> holds s' o' = holds s o') -> lock_effect o s s' -> lock_ok s'.
Proof.
  intros (Hh & H1 & Hex) Ho He.
  assert (Hdec : forall o', o' = o \/ o' <> o) by (intros o'; destruct (decide (o' = o)); auto).
  destruct He as [[E1 E2]|[(E1 & E2 & E3)|(E1 & E2 & E3)]].
  - assert (E : forall o', holds s' o' = holds s o') by (intros o'; destruct (Hdec o') as [->|Hn]; auto).
    split_and!; [intros o' H; rewrite E2; apply (Hh o'); by rewrite <- E|intros o' o''; rewrite !E; apply H1|].
    rewrite E2. intros [o' H]%Hex. exists o'. by rewrite E.
  - assert (E : forall o', holds s' o' = false).
    { intros o'. destruct (Hdec o') as [->|Hn]; [done|]. rewrite Ho by done.
      destruct (holds s o') eqn:H; [|done]. by destruct Hn, (H1 o' o). }
    split_and!; [intros o'; by rewrite E|intros o' o''; by rewrite E|by rewrite E3].
  - assert (E : forall o', o' <> o -> holds s' o' = false).
    { intros o' Hn. rewrite Ho by done. destruct (holds s o') eqn:H; [|done]. apply Hh in H. congruence. }
    split_and!; [done| |by exists o].
    intros o' o'' H H'. destruct (Hdec o') as [->|Hn], (Hdec o'') as [->|Hn']; try done;
      [rewrite E in H' by done|rewrite E in H by done..]; done.
Qed.

(** [g] says which id the call of a channel has. The event in a channel has the id of its call,
    and no two tasks wait for the same channel. *)
Definition is_reply_event (ev : RpcEvent) : Prop := ev_kind ev = Reply \/ ev_kind ev = ErrorReply.

Record calls_by (g : gmap nat Z) (s : RpcClient) : Prop := {
  cb_known : forall tx, is_Some (g !! tx) -> (tx < next_tx (rc_rpc s))%nat;
  cb_calls : forall id tx, calls (rc_rpc s) !! id = Some tx -> g !! tx = Some id;
  cb_tasks : forall t id tx, call_at s t = Some (id, tx) -> g !! tx = Some id;
  cb_resolved : forall tx ev, rc_resolved s !! tx = Some ev ->
    is_reply_event ev /\ exists id, g !! tx = Some id /\ event_id ev = Some id;
  cb_distinct : forall t u id i tx, call_at s t = Some (id, tx) -> call_at s u = Some (i, tx) -> t = u;
}.

(** A state with fewer calls. *)
Lemma calls_by_less g s s' :
  calls_by g s -> next_tx (rc_rpc s') = next_tx (rc_rpc s) ->
  (forall id tx, calls (rc_rpc s') !! id = Some tx -> calls (rc_rpc s) !! id = Some tx) ->
  rc_resolved s' = rc_resolved s -> (forall t c, call_at s' t = Some c -> call_at s t = Some c) -> calls_by g s'.
Proof.
  intros [Hk Hc Ht Hr Hd] En Ec Er Ea. split; rewrite ?En, ?Er; eauto.
Qed.

Lemma calls_by_begun g t s s' method :
  calls_by g s -> rc_rpc s' = (call_begin method (rc_rpc s)).2 -> rc_resolved s' = rc_resolved s ->
  call_at s' t = Some (next_call_id (call_id (rc_rpc s)), next_tx (rc_rpc s)) ->
  (forall u, u <> t -> call_at s' u = call_at s u) ->
  calls_by (<[ next_tx (rc_rpc s) := next_call_id (call_id (rc_rpc s)) ]> g) s'.
Proof.
  intros [Hk Hc Ht Hr Hd] Er Eres Et Eo. set (tx0 := next_tx (rc_rpc s)) in *.
  assert (Hn : forall tx id, g !! tx = Some id -> tx <> tx0).
  { intros tx id H ->. assert (tx0 < tx0)%nat by eauto. lia. }
  assert (Hold : forall tx id, g !! tx = Some id -> <[ tx0 := next_call_id (call_id (rc_rpc s)) ]> g !! tx = Some id).
  { intros tx id H. by rewrite lookup_insert_ne by (apply not_eq_sym; eauto). }
  assert (Hu : forall u c, call_at s' u = Some c ->
    u = t /\ c = (next_call_id (call_id (rc_rpc s)), tx0) \/ u <> t /\ call_at s u = Some c).
  { intros u c H. destruct (decide (u = t)) as [->|Hu]; [left|right; by rewrite <- Eo]. split; congruence. }
  split.
  - rewrite Er. cbn. intros tx [id [[<- _]|[_ H]]%lookup_insert_Some]; [lia|].
    assert (tx < tx0)%nat by eauto. fold tx0. lia.
  - rewrite Er. cbn. intros id tx [[<- <-]|[_ H]]%lookup_insert_Some; [apply lookup_insert_eq|eauto].
  - intros u id tx [[-> [= -> ->]]|[_ H]]%Hu; [apply lookup_insert_eq|eauto].
  - rewrite Eres. intros tx ev H. destruct (Hr tx ev H) as (Hk' & id & H1 & H2). eauto.
  - intros u v id i tx [[-> [= -> ->]]|[Nu H]]%Hu [[-> E]|[Nv H']]%Hu; [done|..].
    + by destruct (Hn tx0 i (Ht _ _ _ H')).
    + injection E as -> ->. by destruct (Hn tx0 id (Ht _ _ _ H)).
    + eauto.
Qed.

(** A job the options want the processor to wait for. *)
Definition blocking_job (opts : Options) (j : job) : bool :=
  match j with
  | NotificationJob _ => blocking_notifications (op_processor opts)
  | FrameJob _ => blocking_frames (op_processor opts)
  | RequestJob _ _ _ => false
  end.

(** Tasks are new, and a blocking handler runs exactly while the processor waits for it. *)
Record tasks_ok (opts : Options) (s : RpcClient) : Prop := {
  to_fresh : forall t, (rc_next s <= t)%nat -> rc_threads s !! t = None;
  to_blocking : forall t th j, rc_threads s !! t = Some th -> th_job th = Some j -> blocking_job opts j = true ->
    rc_processor s = Awaiting t;
  to_awaiting : forall t, rc_processor s = Awaiting t ->
    exists th j, rc_threads s !! t = Some th /\ th_job th = Some j /\ blocking_job opts j = true;
  to_spawning : forall j, rc_processor s = Spawning j -> blocking_job opts j = false;
}.

Definition client_ok (opts : Options) (s : RpcClient) : Prop :=
  lock_ok s /\ (exists g, calls_by g s) /\ tasks_ok opts s.

Lemma thread_step_call_at a t th s s' u : thread_step a t th s s' -> u <> t -> call_at s' u = call_at s u.
Proof. intros H Hu. unfold call_at. by rewrite (ts_others _ _ _ _ _ H) by done. Qed.

Lemma thread_step_ok opts a t th s s' : thread_step a t th s s' -> client_ok opts s -> client_ok opts s'.
Proof.
  intros H (Hl & [g Hg] & [Hf Hb Ha Hsp]). pose proof (ts_same _ _ _ _ _ H) as (Er & En & Ep).
  pose proof (ts_others _ _ _ _ _ H) as Ho. pose proof (ts_thread _ _ _ _ _ H) as Ht.
  pose proof (fun u => thread_step_call_at _ _ _ _ _ u H) as Hcall. split_and!.
  - apply (lock_step (Some t) s); [done| |apply (ts_lock _ _ _ _ _ H)].
    intros [u|] Hu; cbn; [rewrite Ho by congruence; done|by rewrite Ep].
  - destruct (ts_call _ _ _ _ _ H) as [E Hc|id tx e Hc E Hn|target method params qos -> _ E Hn].
    + exists g. apply (calls_by_less g s); rewrite ?E; try done. intros u c.
      destruct (decide (u = t)) as [->|Hu]; [destruct Hc as [-> | ->]; done|by rewrite Hcall].
    + exists g. apply (calls_by_less g s); rewrite ?E; try done.
      * cbn. by intros i x [_ ?]%lookup_delete_Some.
      * intros u c. destruct (decide (u = t)) as [->|Hu]; [by rewrite Hn|by rewrite Hcall].
    + eexists. by apply (calls_by_begun g t s s' method).
  - assert (Hlt : (t < rc_next s)%nat).
    { destruct (decide (t < rc_next s)%nat) as [|Hn]; [done|]. rewrite Hf in Ht by lia. done. }
    assert (Hback : forall u thu j, rc_threads s' !! u = Some thu -> th_job thu = Some j ->
      exists thu', rc_threads s !! u = Some thu' /\ th_job thu' = Some j).
    { intros u thu j. destruct (decide (u = t)) as [->|Hu]; [|rewrite Ho by done; eauto].
      destruct (ts_stays _ _ _ _ _ H) as [-> |[st ->]]; [done|]. intros [= <-] Hj. eauto. }
    assert (Hstays : forall u, rc_threads s' !! u <> None \/ u <> t ->
      forall thu j, rc_threads s !! u = Some thu -> th_job thu = Some j ->
      exists thu', rc_threads s' !! u = Some thu' /\ th_job thu' = Some j).
    { intros u Hu thu j Hthu Hj. destruct (decide (u = t)) as [->|Hn]; [|rewrite Ho by done; eauto].
      destruct Hu as [Hu|]; [|done]. destruct (ts_stays _ _ _ _ _ H) as [E|[st E]]; [done|].
      eexists. split; [done|]. cbn. congruence. }
    pose proof (ts_processor _ _ _ _ _ H) as Hp. split.
    + rewrite En. intros u Hu. rewrite Ho by lia. by apply Hf.
    + intros u thu j Hthu Hj Hblk. destruct (Hback _ _ _ Hthu Hj) as (thu' & E & Hj').
      pose proof (Hb _ _ _ E Hj' Hblk) as Ew. destruct Hp as [[-> _]|(Et & _ & En')]; [done|].
      rewrite Et in Ew. injection Ew as ->. congruence.
    + intros u Hu. destruct Hp as [[Eq Hn]|(_ & Eq & _)]; [|congruence]. rewrite Eq in Hu.
      destruct (Ha u Hu) as (thu & j & E & Hj & Hblk).
      destruct (Hstays u) with (thu := thu) (j := j) as (thu' & E' & Hj'); [|done|done|by exists thu', j].
      destruct (decide (u = t)) as [->|]; [left|by right]. intros En'. by apply Hn.
    + intros j Hj. destruct Hp as [[Eq _]|(_ & Eq & _)]; [|congruence]. rewrite Eq in Hj. by apply Hsp.
Qed.

(** The processor without a handler of its own. *)
Definition alone (s : RpcClient) : Prop := forall t, rc_processor s <> Awaiting t.

Definition blocks (opts : Options) (j : option job) : bool := match j with Some j => blocking_job opts j | None => false end.

Lemma tasks_alone opts s p :
  tasks_ok opts s -> alone s -> (forall t, p <> Awaiting t) -> (forall j, p = Spawning j -> blocking_job opts j = false) ->
  tasks_ok opts (set_processor p s).
Proof.
  intros [Hf Hb Ha Hs] Hal Hp Hj. split; [done| |intros t Ht; by destruct (Hp t)|done].
  intros t th j Ht Hth Hblk. by destruct (Hal t), (Hb t th j).
Qed.

Lemma tasks_spawn opts s p j :
  tasks_ok opts s ->
  (p = rc_processor s /\ blocks opts j = false) \/ (p = Receiving /\ alone s /\ blocks opts j = false) \/
  (p = Awaiting (rc_next s) /\ alone s /\ blocks opts j = true) ->
  tasks_ok opts (set_processor p (spawn j s)).
Proof.
  intros [Hf Hb Ha Hs] Hp.
  assert (Hold : forall t th j', rc_threads s !! t = Some th -> th_job th = Some j' -> blocking_job opts j' = true ->
    alone s -> False) by (intros t th j' H1 H2 H3 H4; by destruct (H4 t), (Hb t th j')).
  split; cbn.
  - intros t Ht. rewrite lookup_insert_ne by lia. apply Hf. lia.
  - intros t th j' [[<- <-]|[Hne H]]%lookup_insert_Some Hj Hblk; cbn in *.
    + subst j. cbn in Hp. rewrite Hblk in Hp. by destruct Hp as [[_ ?]|[(_ & _ & ?)|(-> & _)]].
    + destruct Hp as [[-> _]|[(_ & Hal & _)|(_ & Hal & _)]]; [by eapply Hb|by destruct (Hold t th j')..].
  - intros t Ht. destruct Hp as [[-> _]|[(-> & _)|(-> & _ & Hblk)]]; [|done|].
    + destruct (Ha t Ht) as (th & j' & H1 & H2 & H3). exists th, j'. split_and!; [|done..].
      rewrite lookup_insert_ne; [done|]. intros <-. by rewrite Hf in H1 by lia.
    + injection Ht as <-. destruct j as [j|]; [|done]. eexists _, j. by rewrite lookup_insert_eq.
  - intros j' Hj'. destruct Hp as [[-> _]|[(-> & _)|(-> & _)]]; [by apply Hs|done..].
Qed.

Lemma spawn_lock s p j : lock_ok s -> rc_threads s !! rc_next s = None -> lock_ok (set_processor p (spawn j s)).
Proof.
  intros Hl Hf. apply (lock_step (Some (rc_next s)) s); [done| |].
  - intros [t|] Ht; cbn; [|done]. by rewrite lookup_insert_ne by congruence.
  - left. cbn. by rewrite lookup_insert_eq, Hf.
Qed.

Lemma spawn_calls g s p j : calls_by g s -> calls_by g (set_processor p (spawn j s)).
Proof.
  intros Hg. apply (calls_by_less g s); try done. intros t c. unfold call_at. cbn.
  destruct (decide (t = rc_next s)) as [->|Ht]; [by rewrite lookup_insert_eq|by rewrite lookup_insert_ne].
Qed.

Lemma spawn_ok opts s p j :
  client_ok opts s ->
  (p = rc_processor s /\ blocks opts j = false) \/ (p = Receiving /\ alone s /\ blocks opts j = false) \/
  (p = Awaiting (rc_next s) /\ alone s /\ blocks opts j = true) ->
  client_ok opts (set_processor p (spawn j s)).
Proof.
  intros (Hl & [g Hg] & Ht) Hp. split_and!; [|exists g|by apply tasks_spawn].
  - apply spawn_lock; [done|]. by apply (to_fresh _ _ Ht).
  - by apply spawn_calls.
Qed.

(** A change of the processor's state, of the channel and of the calls only. *)
Lemma shared_ok opts s s' g :
  lock_ok s -> calls_by g s' -> tasks_ok opts s' ->
  rc_threads s' = rc_threads s -> rc_pinger s' = rc_pinger s -> rc_lock s' = rc_lock s -> client_ok opts s'.
Proof.
  intros Hl Hg Ht Et Ep El. split_and!; [|by exists g|done]. apply (lock_step None s); [done| |].
  - intros [t|] Hn; [|done]. cbn. by rewrite Et.
  - left. cbn. by rewrite Ep.
Qed.

Lemma calls_set_processor g s p : calls_by g s -> calls_by g (set_processor p s).
Proof. intros Hg. by apply (calls_by_less g s). Qed.

Lemma processor_ok opts s p :
  client_ok opts s -> alone s -> (forall t, p <> Awaiting t) -> (forall j, p = Spawning j -> blocking_job opts j = false) ->
  client_ok opts (set_processor p s).
Proof.
  intros (Hl & [g Hg] & Ht) Ha Hp Hj. apply (shared_ok opts s _ g); try done; [by apply calls_set_processor|by apply tasks_alone].
Qed.

Lemma channel_ok opts s fs closed : client_ok opts s -> client_ok opts (set_channel fs closed s).
Proof.
  intros (Hl & [g Hg] & [? ? ? ?]). apply (shared_ok opts s _ g); try done. by apply (calls_by_less g s).
Qed.

Lemma spawn_task_ok opts s j :
  client_ok opts s -> rc_processor s = Receiving -> blocking_job opts j = false -> client_ok opts (spawn_task opts j s).
Proof.
  intros Hok Hp Hj. unfold spawn_task. destruct (task_pool opts).
  - apply processor_ok; [done|intros t; by rewrite Hp|done|by intros ? [= <-]].
  - apply (spawn_ok opts s (rc_processor s)); auto.
Qed.

Lemma handle_ok opts s j :
  client_ok opts s -> rc_processor s = Receiving -> client_ok opts (handle opts (blocking_job opts j) j s).
Proof.
  intros Hok Hp. unfold handle. destruct (blocking_job opts j) eqn:Hj; [|by apply spawn_task_ok].
  apply spawn_ok; [done|]. right. right. split_and!; [done| |done]. intros t. by rewrite Hp.
Qed.

(** What the processor does with a frame follows the options, and a reply finds the call of its id. *)
Lemma processor_step_spec opts f r what r' :
  processor_step opts f r = Some (what, r') ->
  match what with
  | HandleNotification _ b => r' = r /\ b = blocking_notifications opts
  | HandleFrame _ b => r' = r /\ b = blocking_frames opts
  | Resolve tx ev => exists id, calls r !! id = Some tx /\ event_id ev = Some id /\ is_reply_event ev /\
                       r' = MkRpcState (call_id r) (delete id (calls r)) (next_tx r)
  | _ => r' = r
  end.
Proof.
  unfold processor_step, is_reply_event. intros H. case_decide; [|by simplify_eq].
  destruct (RpcEvent_try_from f) as [[ev|e]|]; cbn in H; [|by simplify_eq|done].
  destruct (ev_kind ev) eqn:Ek; [by simplify_eq| | |];
    (destruct (event_id ev) as [id|] eqn:Ei; cbn in H; [|done]).
  - destruct (if 0 <? id then _ else _); cbn in H; by simplify_eq.
  - destruct (calls r !! id) eqn:E; simplify_eq; [exists id; auto|done].
  - destruct (calls r !! id) eqn:E; simplify_eq; [exists id; auto|done].
Qed.

Lemma perform_ok opts s f what r :
  client_ok opts s -> rc_processor s = Receiving ->
  processor_step (op_processor opts) f (rc_rpc s) = Some (what, r) -> client_ok opts (perform opts what (set_rpc r s)).
Proof.
  intros Hok Hp E%processor_step_spec.
  assert (Hsame : set_rpc (rc_rpc s) s = s) by by destruct s.
  destruct what as [ev b|ev reply_to qos|g b|tx ev|id|e]; cbn [perform].
  - destruct E as [-> ->]. rewrite Hsame. by apply (handle_ok opts s (NotificationJob ev)).
  - subst r. rewrite Hsame. by apply spawn_task_ok.
  - destruct E as [-> ->]. rewrite Hsame. by apply (handle_ok opts s (FrameJob g)).
  - destruct E as (id & Hc & Hi & Hk & ->). destruct Hok as (Hl & [g [Hkn Hcs Hts Hrs Hds]] & [? ? ? ?]).
    apply (shared_ok opts s _ g); try done. split; try done.
    + cbn. intros i x [_ H]%lookup_delete_Some. by apply Hcs.
    + cbn. intros x ev' [[<- <-]|[_ H]]%lookup_insert_Some; [|by apply Hrs]. split; [done|]. exists id. auto.
  - subst r. by rewrite Hsame.
  - subst r. by rewrite Hsame.
Qed.

Lemma abort_ok opts s : client_ok opts s -> client_ok opts (abort s).
Proof.
  intros Hok. unfold abort. destruct (rc_processor s) as [|j|t|] eqn:Hp;
    try (apply processor_ok; [done|intros u; by rewrite Hp|done..]).
  destruct Hok as (Hl & [g Hg] & [Hf Hb Ha Hs]). destruct (Ha t Hp) as (th & j & Ht & Hj & Hblk). rewrite Ht.
  set (s1 := if holds_lock (th_stage th) then set_lock false s else s).
  assert (E1 : rc_threads s1 = rc_threads s) by (unfold s1; by destruct (holds_lock _)).
  assert (E2 : rc_pinger s1 = rc_pinger s) by (unfold s1; by destruct (holds_lock _)).
  assert (E3 : rc_next s1 = rc_next s) by (unfold s1; by destruct (holds_lock _)).
  split_and!; [|exists g|].
  - apply (lock_step (Some t) s); [done| |].
    + intros [u|] Hu; cbn; [|by rewrite E2]. rewrite E1, lookup_delete_ne by congruence. done.
    + unfold lock_effect. cbn. rewrite E1, lookup_delete_eq, Ht. unfold s1. destruct (holds_lock _); cbn; auto.
  - apply (calls_by_less g s); try done; try by (unfold s1; destruct (holds_lock _)).
    intros u c. unfold call_at. cbn. rewrite E1.
    destruct (decide (u = t)) as [->|]; [by rewrite lookup_delete_eq|by rewrite lookup_delete_ne].
  - split; try done; cbn.
    + rewrite E1, E3. intros u Hu. apply lookup_delete_None. right. by apply Hf.
    + rewrite E1. intros u thu ju [Hne H]%lookup_delete_Some Hju Hb'. pose proof (Hb u thu ju H Hju Hb'). congruence.
Qed.

(** The pinger takes and gives the mutex. *)
Lemma pinger_ok opts s p l :
  client_ok opts s -> lock_effect None s (set_pinger p (set_lock l s)) -> client_ok opts (set_pinger p (set_lock l s)).
Proof.
  intros (Hl & [g Hg] & [? ? ? ?]) He. split_and!; [|exists g; by apply (calls_by_less g s)|done].
  apply (lock_step None s); [done| |done]. by intros [t|] Hn.
Qed.

Lemma abort_pinger s : rc_pinger (abort s) = rc_pinger s.
Proof. unfold abort. destruct (rc_processor s); try done. destruct (_ !! _); [|done]. by destruct (holds_lock _). Qed.
Lemma abort_rpc s : rc_rpc (abort s) = rc_rpc s.
Proof. unfold abort. destruct (rc_processor s); try done. destruct (_ !! _); [|done]. by destruct (holds_lock _). Qed.
#[local] Arguments abort : simpl never.

Section invariant.
Context (opts : Options) (timeout : option Z) (handle_call : RpcHandlers).
#[local] Abbreviation act := (act opts timeout handle_call).
#[local] Abbreviation run := (run opts timeout handle_call).

Lemma act_ok a s s' : act a s = Some s' -> client_ok opts s -> client_ok opts s'.
Proof.
  destruct (actor a) as [t|] eqn:Ea.
  { intros H. destruct (act_thread opts timeout handle_call a t s s' Ea H) as [th Hs]. by eapply thread_step_ok. }
  intros H Hok. destruct a as [| | | | | | | | | | | |f| | | | | |r|]; try done; cbn in H.
  - simplify_eq. apply (spawn_ok opts s (rc_processor s)); auto.
  - unfold act_arrives in H. destruct (rc_processor s), (rc_closed s); simplify_eq; by apply channel_ok.
  - simplify_eq. by apply channel_ok.
  - unfold act_receives in H. destruct (rc_processor s) eqn:Hp; try done. destruct (rc_inbox s) as [|f fs].
    + destruct (rc_closed s); simplify_eq. apply processor_ok; [done|intros t; by rewrite Hp|done..].
    + pose proof (channel_ok opts s fs (rc_closed s) Hok) as Hok'.
      set (s1 := set_channel fs (rc_closed s) s) in *.
      destruct (processor_step (op_processor opts) f (rc_rpc s1)) as [[what r]|] eqn:E; simplify_eq.
      * by apply (perform_ok opts _ f).
      * apply processor_ok; [done|intros t; cbn; by rewrite Hp|done..].
  - unfold act_admits in H. destruct (rc_processor s) as [|j| |] eqn:Hp; try done. destruct (task_pool opts); [|done].
    destruct (pool_admits _ _); simplify_eq. apply spawn_ok; [done|]. right. left. split_and!; [done|intros t; by rewrite Hp|].
    destruct Hok as (_ & _ & Ht). by apply (to_spawning _ _ Ht).
  - unfold act_refuses in H. destruct (rc_processor s) as [|j| |] eqn:Hp; try done. destruct (task_pool opts); [|done].
    destruct (pool_refuses _ _); simplify_eq. apply processor_ok; [done|intros t; by rewrite Hp|done..].
  - unfold act_ping_locks in H. destruct (rc_pinger s) eqn:Hp, (rc_lock s) eqn:Hl; simplify_eq.
    apply pinger_ok; [done|]. right. right. auto.
  - unfold act_pinged in H. destruct (rc_pinger s) eqn:Hp; simplify_eq.
    destruct r; (apply pinger_ok; [first [done|by apply abort_ok]|]); right; left; cbn; rewrite ?abort_pinger, ?Hp; auto.
  - unfold act_ping_wakes in H. destruct (rc_pinger s) eqn:Hp; simplify_eq.
    change (set_pinger PingerLocking s) with (set_pinger PingerLocking (set_lock (rc_lock s) s)).
    apply pinger_ok; [done|]. left. cbn. by rewrite Hp.
Qed.

Lemma run_ok acts : forall s s', run acts s = Some s' -> client_ok opts s -> client_ok opts s'.
Proof.
  induction acts as [|a acts IH]; intros s s' H Hok; cbn in H; [by simplify_eq|].
  destruct (act a s) as [s1|] eqn:E; cbn in H; [|done]. apply (IH s1); [done|]. by apply (act_ok a s).
Qed.

Lemma init_ok rx s : init rx timeout = Some s -> client_ok opts s.
Proof.
  unfold init. destruct rx as [inbox|]; cbn; [|done]. intros [= <-].
  assert (Hn : forall o, holds (MkRpcClient RpcState_new ∅ inbox false Receiving
    (match timeout with Some _ => PingerLocking | None => PingerOff end) false ∅ 0 [] ∅) o = false).
  { intros [t|]; cbn; [by rewrite lookup_empty|by destruct timeout]. }
  split_and!.
  - split_and!; [intros o; by rewrite Hn|intros o o'; by rewrite Hn|done].
  - exists ∅. split; cbn; unfold call_at; cbn; intros *; by rewrite lookup_empty.
  - by split; try done; cbn; intros t th j; rewrite lookup_empty.
Qed.

Lemma reachable_ok s : reachable opts timeout handle_call s -> client_ok opts s.
Proof. intros (inbox & s0 & acts & Hi & Hr). apply (run_ok acts s0); [done|]. by apply (init_ok (Some inbox)). Qed.
End invariant.

(** C15: in every state an RPC client can get into, whatever its tasks, its peers, its pool and its
    options do: the bus client is used by one task or the pinger at a time, and its mutex is not
    held by nobody; a handler that is to block the processor runs only while the processor waits for
    it, so that blocking notifications and frames are handled one at a time in the order of their
    arrival; and a call in the queue of whose channel there is an event gets a reply, or an error
    reply, that bears the id of this call, in a channel no other task waits for. *)
Theorem rpc_client_safe opts timeout handle_call s :
  reachable opts timeout handle_call s ->
  (forall o o', holds s o = true -> holds s o' = true -> o = o') /\
  (rc_lock s = true <-> exists o, holds s o = true) /\
  (forall t th j, rc_threads s !! t = Some th -> th_job th = Some j -> blocking_job opts j = true ->
     rc_processor s = Awaiting t) /\
  (forall t th id tx ev, rc_threads s !! t = Some th -> th_stage th = Waiting id tx -> rc_resolved s !! tx = Some ev ->
     is_reply_event ev /\ event_id ev = Some id /\ forall u i, call_at s u = Some (i, tx) -> u = t).
Proof.
  intros ((Hh & H1 & Hex) & [g Hg] & Ht)%reachable_ok. split_and!; [done| |by apply (to_blocking _ _ Ht)|].
  - split; [done|]. intros [o Ho]. by apply (Hh o).
  - intros t th id tx ev E Es Er.
    assert (Hc : call_at s t = Some (id, tx)) by (unfold call_at; rewrite E; cbn; by rewrite Es).
    destruct (cb_resolved _ _ Hg tx ev Er) as (Hk & i & Hi & He).
    rewrite (cb_tasks _ _ Hg t id tx Hc) in Hi. injection Hi as <-.
    split_and!; [done..|]. intros u i Hu. by apply (cb_distinct _ _ Hg u t i id tx).
Qed.

(** ** A processor that takes no more frames *)

(** Task [t] waits for the reply to its call, which can still arrive: its sender is registered, and no
    other task uses the id. *)
Record parked (s : RpcClient) (t : nat) (id : Z) (tx : nat) : Prop := {
  pk_waits : exists th, rc_threads s !! t = Some th /\ th_stage th = Waiting id tx;
  pk_unresolved : rc_resolved s !! tx = None;
  pk_registered : calls (rc_rpc s) !! id = Some tx;
  pk_alone : forall u c, u <> t -> call_at s u = Some c -> c.1 <> id;
}.

(** The processor is gone; or it waits for a handler, which waits for a reply; or it waits for a place
    in a pool full of handlers that wait for replies. [pending] holds of the ids of these calls. *)
Definition deaf (opts : Options) (pending : Z -> Prop) (s : RpcClient) : Prop :=
  match rc_processor s with
  | Receiving => False
  | Stopped => True
  | Awaiting t => exists id tx, pending id /\ parked s t id tx
  | Spawning _ => exists p (tasks : list nat), task_pool opts = Some p /\ NoDup tasks /\
      (forall t, t ∈ tasks -> (exists th, rc_threads s !! t = Some th /\ is_Some (th_job th)) /\
                              exists id tx, pending id /\ parked s t id tx) /\
      (forall k, (length tasks <= k)%nat -> pool_admits p k = false /\ pool_refuses p k = false)
  end.

Lemma parked_keeps s s' t id tx :
  parked s t id tx -> rc_threads s' !! t = rc_threads s !! t -> rc_resolved s' = rc_resolved s ->
  calls (rc_rpc s') !! id = Some tx ->
  (forall u c, u <> t -> call_at s' u = Some c -> call_at s u = Some c \/ c.1 <> id) -> parked s' t id tx.
Proof.
  intros [[th [H1 H2]] Hr Hc Ha] Et Er Ec Eu. split; [exists th; by rewrite Et|by rewrite Er|done|].
  intros u c Hu H. destruct (Eu u c Hu H); [by apply (Ha u)|done].
Qed.

(** What leaves the calls and the tasks alone. *)
Lemma parked_same s s' t id tx :
  parked s t id tx -> rc_threads s' = rc_threads s -> rc_resolved s' = rc_resolved s -> rc_rpc s' = rc_rpc s ->
  parked s' t id tx.
Proof.
  intros Hp Et Er Ec. apply (parked_keeps s); [done|by rewrite Et|done|by rewrite Ec; apply Hp|].
  intros u c _. unfold call_at. rewrite Et. auto.
Qed.

(** The action takes no id a call of interest has. *)
Definition spares (pending : Z -> Prop) (a : action) (s : RpcClient) : Prop :=
  match a with Calls _ _ _ _ _ => ~ pending (next_call_id (call_id (rc_rpc s))) | _ => True end.

Lemma thread_step_parked a u th s s' t id tx (pending : Z -> Prop) :
  thread_step a u th s s' -> gives_up a = false -> spares pending a s -> pending id -> parked s t id tx ->
  u <> t /\ parked s' t id tx.
Proof.
  intros H Hg Hsp Hid Hp. pose proof (ts_same _ _ _ _ _ H) as (Er & _ & _).
  assert (Hu : u <> t).
  { intros ->. destruct (pk_waits _ _ _ _ Hp) as (th' & E & Es). rewrite (ts_thread _ _ _ _ _ H) in E. injection E as <-.
    apply (ts_waits _ _ _ _ _ H id tx Es); [done|apply Hp..]. }
  split; [done|]. apply (parked_keeps s); [done|apply (ts_others _ _ _ _ _ H); congruence|done| |].
  - destruct (ts_call _ _ _ _ _ H) as [-> _|i x e Hc -> _|target method params qos -> _ -> _]; [apply Hp| |]; cbn.
    + rewrite lookup_delete_ne; [apply Hp|]. by apply (pk_alone _ _ _ _ Hp u (i, x)).
    + rewrite lookup_insert_ne; [apply Hp|]. intros E. apply Hsp. by rewrite E.
  - intros v c Hv Hc. destruct (decide (v = u)) as [->|Hvu].
    + destruct (ts_call _ _ _ _ _ H) as [_ [E|E]|i x e _ _ E|target method params qos -> _ _ E]; rewrite E in Hc; try done; auto.
      injection Hc as <-. right. cbn. intros E'. apply Hsp. by rewrite E'.
    + left. by rewrite <- (thread_step_call_at _ _ _ _ _ _ H) by done.
Qed.

(** A pool in which enough handlers wait has no place. *)
Lemma pool_tasks_ge s (tasks : list nat) :
  NoDup tasks -> (forall t, t ∈ tasks -> exists th, rc_threads s !! t = Some th /\ is_Some (th_job th)) ->
  (length tasks <= pool_tasks s)%nat.
Proof.
  intros Hnd Hin. unfold pool_tasks. rewrite <- (size_list_to_set (C := gset nat) tasks Hnd), <- (size_dom (D := gset nat)).
  apply subseteq_size. intros t Ht%elem_of_list_to_set. destruct (Hin t Ht) as (th & E & Hj).
  apply elem_of_dom. exists th. by apply map_lookup_filter_Some.
Qed.

Lemma deaf_keeps opts (pending : Z -> Prop) s s' :
  deaf opts pending s -> rc_processor s' = rc_processor s ->
  (forall t id tx, pending id -> parked s t id tx -> parked s' t id tx /\ rc_threads s' !! t = rc_threads s !! t) ->
  deaf opts pending s'.
Proof.
  unfold deaf. intros H -> Hk. destruct (rc_processor s) as [|j|t|]; try done.
  - destruct H as (p & tasks & Hp & Hnd & Hin & Hb). exists p, tasks. split_and!; [done|done| |done].
    intros t Ht. destruct (Hin t Ht) as ((th & E & Hj) & id & tx & Hid & Hpk).
    destruct (Hk t id tx Hid Hpk) as [Hpk' E']. split; [exists th; by rewrite E'|by exists id, tx].
  - destruct H as (id & tx & Hid & Hpk). exists id, tx. split; [done|]. by apply Hk.
Qed.

(** The tasks of [s] wait on in [s'], or were dropped with the processor, and no frame was taken. *)
Record waits_on (pending : Z -> Prop) (s s' : RpcClient) : Prop := {
  wo_parked : forall t id tx, pending id -> parked s t id tx ->
    parked s' t id tx \/ rc_processor s' = Stopped /\ rc_threads s' !! t = None;
  wo_gone : forall t, (t < rc_next s)%nat -> rc_threads s !! t = None -> rc_threads s' !! t = None;
  wo_next : (rc_next s <= rc_next s')%nat;
  wo_stopped : rc_processor s = Stopped -> rc_processor s' = Stopped;
  wo_inbox : rc_inbox s `prefix_of` rc_inbox s';
}.

Lemma waits_on_refl pending s : waits_on pending s s.
Proof. split; auto. Qed.

Lemma waits_on_trans pending s1 s2 s3 opts :
  client_ok opts s1 -> waits_on pending s1 s2 -> waits_on pending s2 s3 -> waits_on pending s1 s3.
Proof.
  intros (_ & _ & Hok) [P1 G1 N1 S1 I1] [P2 G2 N2 S2 I2]. split; [| |lia|auto|by etrans].
  - intros t id tx Hid Hp. destruct (P1 t id tx Hid Hp) as [Hp'|[Hs Hn]]; [by apply P2|].
    right. split; [by apply S2|]. apply G2; [|done].
    destruct (pk_waits _ _ _ _ Hp) as (th & E & _). destruct (decide (t < rc_next s1)%nat); [lia|].
    rewrite (to_fresh _ _ Hok) in E by lia. done.
  - intros t Ht E. apply G2; [lia|]. by apply G1.
Qed.

(** What changes no task that is there. *)
Lemma same_waits_on opts (pending : Z -> Prop) s s' :
  deaf opts pending s -> rc_processor s' = rc_processor s -> rc_resolved s' = rc_resolved s -> rc_rpc s' = rc_rpc s ->
  rc_threads s' = rc_threads s \/ rc_threads s' = <[ rc_next s := MkThread None Running ]> (rc_threads s) /\
                                 rc_threads s !! rc_next s = None ->
  (rc_next s <= rc_next s')%nat -> rc_inbox s `prefix_of` rc_inbox s' ->
  deaf opts pending s' /\ waits_on pending s s'.
Proof.
  intros Hd Ep Er Ec Et En Hi.
  assert (Hlook : forall t th, rc_threads s !! t = Some th -> rc_threads s' !! t = Some th).
  { destruct Et as [-> |[-> Hf]]; [done|]. intros t th H. rewrite lookup_insert_ne; [done|]. congruence. }
  assert (Hpk : forall t id tx, parked s t id tx -> parked s' t id tx /\ rc_threads s' !! t = rc_threads s !! t).
  { intros t id tx Hp. destruct (pk_waits _ _ _ _ Hp) as (th & E & _). rewrite E, (Hlook t th E). split; [|done].
    apply (parked_keeps s); [done|by rewrite E; apply Hlook|done|by rewrite Ec; apply Hp|].
    intros u c _. unfold call_at. destruct Et as [-> |[-> _]]; [by auto|].
    destruct (decide (u = rc_next s)) as [->|]; [by rewrite lookup_insert_eq|rewrite lookup_insert_ne by done; auto]. }
  split; [apply (deaf_keeps opts pending s); [done|done|intros; by apply Hpk]|].
  split; [intros t id tx _ Hp; left; by apply Hpk| |done|by rewrite Ep|done].
  intros t Ht E. destruct Et as [-> |[-> _]]; [done|]. rewrite lookup_insert_ne by lia. done.
Qed.

(** The pinger gives up: the processor is aborted, and a handler it was running is dropped. *)
Lemma abort_waits_on opts (pending : Z -> Prop) s : deaf opts pending s -> waits_on pending s (abort s) /\ rc_processor (abort s) = Stopped.
Proof.
  intros Hd. split; [|done]. unfold abort. destruct (rc_processor s) as [|j|t|] eqn:Hp.
  - unfold deaf in Hd. by rewrite Hp in Hd.
  - split; try done. intros t id tx _ Hpk. left. by apply (parked_same s).
  - unfold deaf in Hd. rewrite Hp in Hd. destruct Hd as (id & tx & _ & Hpk).
    destruct (pk_waits _ _ _ _ Hpk) as (th & E & Es). rewrite E, Es. cbn. split; try done.
    + intros u i x _ Hu. destruct (decide (u = t)) as [->|Hne]; [right; split; [done|apply lookup_delete_eq]|left].
      apply (parked_keeps s); [done|by apply lookup_delete_ne|done|apply Hu|].
      intros v c _ Hc. left. unfold call_at in *. cbn in Hc.
      destruct (decide (v = t)) as [->|]; [by rewrite lookup_delete_eq in Hc|by rewrite lookup_delete_ne in Hc].
    + intros u _ Hu. cbn. apply lookup_delete_None. auto.
  - split; try done. intros t id tx _ Hpk. left. by apply (parked_same s).
Qed.

Section deaf.
Context (opts : Options) (timeout : option Z) (handle_call : RpcHandlers).
#[local] Abbreviation act := (act opts timeout handle_call).
#[local] Abbreviation run := (run opts timeout handle_call).

Lemma thread_deaf (pending : Z -> Prop) a u th s s' :
  thread_step a u th s s' -> rc_inbox s' = rc_inbox s -> deaf opts pending s -> gives_up a = false -> spares pending a s ->
  deaf opts pending s' /\ waits_on pending s s'.
Proof.
  intros H Hi Hd Hg Hsp. pose proof (ts_same _ _ _ _ _ H) as (_ & En & _).
  assert (Hk : forall t id tx, pending id -> parked s t id tx ->
    u <> t /\ parked s' t id tx /\ rc_threads s' !! t = rc_threads s !! t).
  { intros t id tx Hid Hp. destruct (thread_step_parked _ _ _ _ _ _ _ _ pending H Hg Hsp Hid Hp) as [Hn Hp'].
    split_and!; [done|done|]. apply (ts_others _ _ _ _ _ H). congruence. }
  assert (Ep : rc_processor s' = rc_processor s).
  { destruct (ts_processor _ _ _ _ _ H) as [[E _]|(E & _ & _)]; [done|].
    unfold deaf in Hd. rewrite E in Hd. destruct Hd as (id & tx & Hid & Hp). by destruct (Hk u id tx Hid Hp). }
  split; [apply (deaf_keeps opts pending s); [done|done|intros; by apply Hk]|].
  split; [intros t id tx Hid Hp; left; by apply Hk| |lia|by rewrite Ep|by rewrite Hi].
  intros t _ E. rewrite (ts_others _ _ _ _ _ H); [done|]. intros ->. by rewrite (ts_thread _ _ _ _ _ H) in E.
Qed.

(** A task does not touch the channel. *)
Lemma thread_inbox a t s s' : actor a = Some t -> act a s = Some s' -> rc_inbox s' = rc_inbox s.
Proof.
  assert (He : forall t s, rc_inbox (end_task t s) = rc_inbox s).
  { intros t0 s0. unfold end_task, finish. destruct (rc_processor _); try done. by case_decide. }
  assert (Hx : forall t, act (Expires t) s = Some s' -> rc_inbox s' = rc_inbox s).
  { intros t0. cbn. unfold act_expires. destruct (rc_threads s !! t0) as [th|]; cbn; [|done].
    destruct (th_job th), (task_pool opts); try done. destruct (_ && _); [|done]. intros [= <-].
    rewrite He. by destruct (holds_lock _). }
  destruct a; intros [= <-]; [..|apply Hx]; cbn;
    unfold act_call, act_call0, act_notify, act_one_way, act_locks, act_sent, act_send_times_out, act_confirmed, act_returns, act_cancels, act_ends;
    (destruct (rc_threads s !! t0) as [th|]; cbn; [|done]); destruct (th_stage th); try done.
  - by intros [= <-].
  - by intros [= <-].
  - by intros [= <-].
  - destruct (rc_lock s); [done|]. by intros [= <-].
  - intros [= <-]. destruct k, r as [[]|]; cbn; rewrite ?He; done.
  - destruct k, timeout; try done. by intros [= <-].
  - intros [= <-]. by destruct r as [[]|].
  - destruct (rc_resolved s !! tx) as [ev|]; [|case_decide; [done|by intros [= <-]]].
    intros [= <-]. destruct (call_finish ev); [done|by rewrite He].
  - destruct k; try done; by intros [= <-].
  - destruct k; try done; by intros [= <-].
  - by intros [= <-].
  - by intros [= <-].
  - intros [= <-]. destruct (th_job th) as [[| |ev [[target id]|] qos]|]; rewrite ?He; try done.
    by destruct (reply_parts id _).
Qed.

Definition is_call (a : action) : bool := match a with Calls _ _ _ _ _ => true | _ => false end.

Lemma thread_call_id a t th s s' :
  thread_step a t th s s' -> is_call a = false -> call_id (rc_rpc s') = call_id (rc_rpc s).
Proof. intros H Ha. by destruct (ts_call _ _ _ _ _ H) as [-> _|i x e _ -> _|target method params qos -> _ _ _]. Qed.

Lemma act_deaf (pending : Z -> Prop) a s s' :
  client_ok opts s -> deaf opts pending s -> gives_up a = false -> spares pending a s -> act a s = Some s' ->
  (deaf opts pending s' /\ waits_on pending s s') /\
  call_id (rc_rpc s') = if is_call a then next_call_id (call_id (rc_rpc s)) else call_id (rc_rpc s).
Proof.
  intros Hok Hd Hg Hsp H. destruct (actor a) as [t|] eqn:Ea.
  { destruct (act_thread opts timeout handle_call a t s s' Ea H) as [th Hs].
    split; [apply (thread_deaf pending a t th); auto; by eapply thread_inbox|].
    destruct (is_call a) eqn:Ec; [|by eapply thread_call_id]. destruct a; try done. cbn in H. unfold act_call in H.
    destruct (rc_threads s !! t0) as [th'|]; cbn in H; [|done]. destruct (th_stage th'); by simplify_eq. }
  pose proof (fun s' => same_waits_on opts pending s s' Hd) as Hsame.
  destruct a as [| | | | | | | | | | | |f| | | | | |r|]; try done; cbn in H |- *.
  - simplify_eq. split; [|done]. apply Hsame; try done; [right; split; [done|]|cbn; lia].
    destruct Hok as (_ & _ & Ht). by apply (to_fresh _ _ Ht).
  - unfold act_arrives in H. destruct (rc_processor s) eqn:Hp, (rc_closed s); simplify_eq;
      (split; [|done]; apply Hsame; auto; by apply prefix_app_r).
  - simplify_eq. split; [|done]. apply Hsame; auto.
  - unfold act_receives in H. unfold deaf in Hd. by destruct (rc_processor s).
  - unfold act_admits in H. unfold deaf in Hd. destruct (rc_processor s); try done.
    destruct Hd as (p & tasks & Ep & Hnd & Hin & Hb). rewrite Ep in H.
    destruct (Hb (pool_tasks s)) as [E _]; [|by rewrite E in H]. apply pool_tasks_ge; [done|]. intros t Ht. by apply Hin.
  - unfold act_refuses in H. unfold deaf in Hd. destruct (rc_processor s); try done.
    destruct Hd as (p & tasks & Ep & Hnd & Hin & Hb). rewrite Ep in H.
    destruct (Hb (pool_tasks s)) as [_ E]; [|by rewrite E in H]. apply pool_tasks_ge; [done|]. intros t Ht. by apply Hin.
  - unfold act_ping_locks in H. destruct (rc_pinger s), (rc_lock s); simplify_eq. split; [|done]. apply Hsame; auto.
  - unfold act_pinged in H. destruct (rc_pinger s); simplify_eq. destruct r; [split; [|done]; apply Hsame; auto|].
    destruct (abort_waits_on opts pending s Hd) as [[P G N S I] Ep]. split; [split; [unfold deaf; cbn; by rewrite Ep|]|].
    + split; auto. intros t id tx Hid Hpk. destruct (P t id tx Hid Hpk) as [Hpk'|Hgone]; [left|by right].
      by apply (parked_same (abort s)).
    + cbn. by rewrite abort_rpc.
  - unfold act_ping_wakes in H. destruct (rc_pinger s); simplify_eq. split; [|done]. apply Hsame; auto.
Qed.

(** The ids the calls among the actions take are not pending. *)
Definition calls_made (acts : list action) : nat := length (List.filter is_call acts).
Definition fresh_ids (pending : Z -> Prop) (n : nat) (id : Z) : Prop :=
  forall k, (1 <= k <= n)%nat -> ~ pending (Nat.iter k next_call_id id).

Lemma iter_next_call_id k id : Nat.iter k next_call_id (next_call_id id) = Nat.iter (S k) next_call_id id.
Proof. symmetry. apply Nat.iter_succ_r. Qed.

Lemma run_deaf (pending : Z -> Prop) acts : forall s s',
  client_ok opts s -> deaf opts pending s -> forallb (fun a => negb (gives_up a)) acts = true ->
  fresh_ids pending (calls_made acts) (call_id (rc_rpc s)) -> run acts s = Some s' ->
  deaf opts pending s' /\ waits_on pending s s'.
Proof.
  induction acts as [|a acts IH]; intros s s' Hok Hd Hg Hf H; cbn in H; [simplify_eq; split; [done|apply waits_on_refl]|].
  cbn in Hg. apply andb_true_iff in Hg as [Hga Hg]. apply negb_true_iff in Hga.
  destruct (act a s) as [s1|] eqn:E; cbn in H; [|done].
  assert (Hsp : spares pending a s).
  { destruct a; try done. apply (Hf 1%nat). unfold calls_made. cbn. lia. }
  destruct (act_deaf pending a s s1 Hok Hd Hga Hsp E) as [[Hd1 Hw1] Eid].
  destruct (IH s1 s') as [Hd' Hw']; [by apply (act_ok opts timeout handle_call a s)|done|done| |done|].
  - rewrite Eid. unfold calls_made in *. cbn in Hf. destruct (is_call a); [|done].
    intros k Hk. rewrite iter_next_call_id. apply Hf. cbn [length]. lia.
  - split; [done|]. by apply (waits_on_trans pending s s1 s' opts).
Qed.
End deaf.

Lemma deaf_registered opts s :
  deaf opts (fun _ => True) s -> deaf opts (fun id => is_Some (calls (rc_rpc s) !! id)) s.
Proof.
  assert (Hr : forall t id tx, parked s t id tx -> is_Some (calls (rc_rpc s) !! id)) by (intros t id tx [_ _ ? _]; eauto).
  unfold deaf. destruct (rc_processor s) as [|j|t|]; try done.
  - intros (p & tasks & Hp & Hnd & Hin & Hb). exists p, tasks. split_and!; [done|done| |done].
    intros t Ht. destruct (Hin t Ht) as (Hj & id & tx & _ & Hpk). eauto 7.
  - intros (id & tx & _ & Hp). eauto 6.
Qed.

(** C35: when its processor takes no more frames, no call of an RPC client that waits for its reply
    ever returns, as there is no timeout for the reply and nobody withdraws the call: neither when the
    connection has ended and the processor with it, nor when the processor waits for a blocking
    handler that has itself made a call, nor when it waits for a place in a bounded pool full of
    handlers that have. Whatever the tasks and the bus do (as long as no operation is cancelled and no
    handler dropped by a time limit of the pool, and the ids of new calls do not run into those
    of pending ones), nothing is read from the client, and whoever waits waits on; only
    a handler that the pinger aborts together with the processor is relieved. *)
Theorem deaf_client_never_returns opts timeout handle_call s acts s' :
  reachable opts timeout handle_call s -> deaf opts (fun _ => True) s ->
  forallb (fun a => negb (gives_up a)) acts = true ->
  fresh_ids (fun id => is_Some (calls (rc_rpc s) !! id)) (calls_made acts) (call_id (rc_rpc s)) ->
  run opts timeout handle_call acts s = Some s' ->
  rc_inbox s `prefix_of` rc_inbox s' /\
  forall t id tx, parked s t id tx ->
    parked s' t id tx \/ rc_processor s' = Stopped /\ rc_threads s' !! t = None.
Proof.
  intros Hr Hd Hg Hf H.
  destruct (run_deaf opts timeout handle_call _ acts s s' (reachable_ok _ _ _ _ Hr) (deaf_registered opts s Hd) Hg Hf H)
    as [_ [P _ _ _ I]].
  split; [done|]. intros t id tx Hp. apply P; [|done]. by exists tx; apply Hp.
Qed.

(** ** A call and its answer *)

(** A client whose processor waits for a frame and whose bus client nobody uses. *)
Definition idle (s : RpcClient) : Prop :=
  rc_processor s = Receiving /\ rc_inbox s = [] /\ rc_closed s = false /\ rc_lock s = false.

(** The task of a request gets its place, if there is a pool. *)
Definition admission (opts : Options) : list action := match task_pool opts with Some _ => [Admits] | None => [] end.

(** The steps of a callee, and those of a caller. *)
Definition answering (opts : Options) (t : nat) (f : FrameData) (r : result bool Error) : list action :=
  [Arrives f; Receives] ++ admission opts ++ [Ends t; Locks t; Sent t r].
Definition asking (t : nat) (target method : str) (params : bytes) (qos : QoS) : list action :=
  [Calls t target method params qos; Locks t; Sent t (Ok true); Confirmed t (Some (Ok tt))].
Definition taking (t : nat) (g : FrameData) : list action := [Arrives g; Receives; Returns t].
Definition calling (t : nat) (target method : str) (params : bytes) (qos : QoS) (g : FrameData) : list action :=
  asking t target method params qos ++ taking t g.

Lemma run_cons opts timeout handle_call a acts s s1 :
  act opts timeout handle_call a s = Some s1 ->
  run opts timeout handle_call (a :: acts) s = run opts timeout handle_call acts s1.
Proof. intros E. cbn. by rewrite E. Qed.

Lemma run_app opts timeout handle_call acts1 acts2 s :
  run opts timeout handle_call (acts1 ++ acts2) s = s' ← run opts timeout handle_call acts1 s; run opts timeout handle_call acts2 s'.
Proof. revert s. induction acts1 as [|a acts1 IH]; intros s; [done|]. cbn. destruct (act _ _ _ a s); cbn; [apply IH|done]. Qed.

Ltac steps := repeat (progress (try unfold go; rewrite ?lookup_insert_eq, ?insert_insert_eq; cbn)).

Section answer.
Context (opts : Options) (timeout : option Z) (handle_call : RpcHandlers).

(** A request is handled and its result sent to whom it came from, under its id. *)
Lemma request_answered method params from id f s r :
  idle s -> rc_threads s !! rc_next s = None ->
  match task_pool opts with Some p => pool_admits p (pool_tasks s) = true | None => True end ->
  1 <= id < 2 ^ 32 -> x00 ∉ method -> frame_kind f = FrameKind_Message -> frame_sender f = Some from ->
  carried (prepare_call_payload method (to_le_bytes 4 id)) params f ->
  exists ev s', event_method ev = Some method /\ event_payload ev = Some params /\
    run opts timeout handle_call (answering opts (rc_next s) f r) s = Some s' /\
    idle s' /\ rc_threads s' = rc_threads s /\ rc_rpc s' = rc_rpc s /\
    rc_sent s' = rc_sent s ++ match r with
      | Ok _ => [Outgoing from (reply_parts id (handle_call ev)).1 (reply_parts id (handle_call ev)).2
                   (if frame_realtime f then QoS_RealtimeProcessed else QoS_Processed)]
      | Err _ => []
      end.
Proof.
  intros (Hp & Hi & Hc & Hl) Hf Hpool Hid Hm Hk Hs Hcar.
  destruct (processor_request (op_processor opts) method params from id f (rc_rpc s) Hid Hm Hk Hs Hcar) as (ev & E & Em & Epl).
  set (reply_to := Some (from, id)) in E. set (qos := if frame_realtime f then _ else _) in E |- *.
  set (j := RequestJob ev reply_to qos).
  assert (H1 : run opts timeout handle_call (answering opts (rc_next s) f r) s =
    run opts timeout handle_call [Ends (rc_next s); Locks (rc_next s); Sent (rc_next s) r] (set_processor Receiving (set_channel [] false (spawn (Some j) s)))).
  { unfold answering, admission. destruct s as [rpc res inbox closed proc ping lock ths n sent results]. cbn in * |- . subst.
    cbn [app]. erewrite run_cons; [|by cbn]. erewrite run_cons; [|cbn; rewrite E; reflexivity].
    cbn [perform]. unfold spawn_task. destruct (task_pool opts) as [p|] eqn:Eo; [|done]. cbn [app].
    erewrite run_cons; [reflexivity|]. cbn. unfold act_admits. cbn. rewrite Eo.
    unfold pool_tasks in *. cbn in *. by rewrite Hpool. }
  rewrite H1. destruct (reply_parts id (handle_call ev)) as [hdr data] eqn:Er.
  destruct s as [rpc res inbox closed proc ping lock ths n sent results]. cbn in * |- . subst.
  exists ev. eexists. split_and!; [done|done| | | | |].
  - cbn. unfold act_ends. steps. rewrite Er. steps. unfold act_locks. steps. unfold act_sent. steps. reflexivity.
  - unfold end_task. cbn. by destruct r.
  - unfold end_task. destruct r; cbn; by rewrite delete_insert_id.
  - by destruct r.
  - unfold end_task. destruct r; cbn; by rewrite ?Er, ?app_nil_r.
Qed.
End answer.

(** The steps of a caller, one by one. *)
Section caller.
Context (opts : Options) (timeout : option Z) (handle_call : RpcHandlers).
#[local] Abbreviation act := (act opts timeout handle_call).

Lemma act_call_go t th target method params qos hdr id tx r s :
  rc_threads s !! t = Some th -> th_stage th = Running -> call_begin method (rc_rpc s) = ((hdr, id, tx), r) ->
  act (Calls t target method params qos) s = Some (go t th (Locking (Outgoing target hdr params qos) (Calling id tx)) (set_rpc r s)).
Proof. intros Ht Hs E. cbn [RpcClient.act]. unfold act_call. rewrite Ht. cbn [mbind option_bind]. by rewrite Hs, E. Qed.

Lemma act_locks_go t th m k s :
  rc_threads s !! t = Some th -> th_stage th = Locking m k -> rc_lock s = false ->
  act (Locks t) s = Some (go t th (Sending m k) (set_lock true s)).
Proof. intros Ht Hs E. cbn [RpcClient.act]. unfold act_locks. rewrite Ht. cbn [mbind option_bind]. by rewrite Hs, E. Qed.

Lemma act_sent_go t th m id tx s :
  rc_threads s !! t = Some th -> th_stage th = Sending m (Calling id tx) ->
  act (Sent t (Ok true)) s = Some (go t th (Confirming id tx) (set_lock false (push_sent m s))).
Proof. intros Ht Hs. cbn [RpcClient.act]. unfold act_sent. rewrite Ht. cbn [mbind option_bind]. by rewrite Hs. Qed.

Lemma act_confirmed_go t th id tx s :
  rc_threads s !! t = Some th -> th_stage th = Confirming id tx ->
  act (Confirmed t (Some (Ok tt))) s = Some (go t th (Waiting id tx) s).
Proof. intros Ht Hs. cbn [RpcClient.act]. unfold act_confirmed. rewrite Ht. cbn [mbind option_bind]. by rewrite Hs. Qed.

Lemma act_arrives_go f s :
  rc_processor s = Receiving -> rc_closed s = false ->
  act (Arrives f) s = Some (set_channel (rc_inbox s ++ [f]) false s).
Proof. intros Hp Hc. cbn [RpcClient.act]. unfold act_arrives. by rewrite Hp, Hc. Qed.

Lemma act_receives_go f fs what r s :
  rc_processor s = Receiving -> rc_inbox s = f :: fs ->
  processor_step (op_processor opts) f (rc_rpc s) = Some (what, r) ->
  act Receives s = Some (perform opts what (set_rpc r (set_channel fs (rc_closed s) s))).
Proof.
  intros Hp Hi E. cbn [RpcClient.act]. unfold act_receives. rewrite Hp, Hi. cbn [rc_rpc set_channel]. by rewrite E.
Qed.

Lemma act_returns_go t th id tx ev res s :
  rc_threads s !! t = Some th -> th_stage th = Waiting id tx -> rc_resolved s !! tx = Some ev -> call_finish ev = Some res ->
  act (Returns t) s = Some (push_result tx res (go t th Running s)).
Proof.
  intros Ht Hs Hr Hf. cbn [RpcClient.act]. unfold act_returns. rewrite Ht. cbn [mbind option_bind]. by rewrite Hs, Hr, Hf.
Qed.
End caller.

(** The request of a call is sent and confirmed. *)
Lemma request_out opts timeout handle_call t th target method params qos hdr id tx r s :
  call_begin method (rc_rpc s) = ((hdr, id, tx), r) -> idle s -> rc_threads s !! t = Some th -> th_stage th = Running ->
  exists s', run opts timeout handle_call (asking t target method params qos) s = Some s' /\ idle s' /\
    rc_threads s' = <[ t := MkThread (th_job th) (Waiting id tx) ]> (rc_threads s) /\ rc_rpc s' = r /\ rc_next s' = rc_next s /\
    rc_sent s' = rc_sent s ++ [Outgoing target hdr params qos].
Proof.
  intros Eb (Hp & Hi & Hc & Hl) Ht Hs. eexists. split.
  { unfold asking.
    erewrite run_cons by by eapply act_call_go.
    erewrite run_cons by by eapply act_locks_go; [apply go_threads|..].
    erewrite run_cons by by eapply act_sent_go; [apply go_threads|..].
    erewrite run_cons by by eapply act_confirmed_go; [apply go_threads|..].
    reflexivity. }
  split_and!; try done. unfold go. cbn. by rewrite !insert_insert_eq.
Qed.

(** Its reply arrives, and the call returns what it says. *)
Lemma call_in opts timeout handle_call t th id tx res g s :
  idle s -> rc_threads s !! t = Some th -> th_stage th = Waiting id tx -> calls (rc_rpc s) !! id = Some tx ->
  0 <= id < 2 ^ 32 -> match res with Ok _ => True | Err e => - 2 ^ 15 <= rpc_code e < 2 ^ 15 end ->
  frame_kind g = FrameKind_Message -> carried (reply_parts id res).1 (reply_parts id res).2 g ->
  exists ev s', event_payload ev = Some (reply_parts id res).2 /\
    run opts timeout handle_call (taking t g) s = Some s' /\ idle s' /\
    rc_threads s' = <[ t := MkThread (th_job th) Running ]> (rc_threads s) /\ rc_sent s' = rc_sent s /\
    rc_rpc s' = MkRpcState (call_id (rc_rpc s)) (delete id (calls (rc_rpc s))) (next_tx (rc_rpc s)) /\
    rc_results s' !! tx = Some match res with
                               | Ok _ => Ok ev
                               | Err e => Err (MkRpcError (rpc_code e) (Some (default [] (rpc_data e))))
                               end.
Proof.
  intros (Hp & Hi & Hc & Hl) Ht Hs Er Hid Hcode Hk Hcar.
  destruct (processor_reply (op_processor opts) id res g (rc_rpc s) tx Hid Hcode Er Hk Hcar) as (ev & E & Epl & Ef).
  exists ev. eexists. split; [done|]. split.
  { unfold taking.
    erewrite run_cons by by apply act_arrives_go.
    erewrite run_cons by by eapply act_receives_go; [|exact (f_equal (fun l => l ++ [g]) Hi)|].
    erewrite run_cons by by eapply act_returns_go; [| |apply lookup_insert_eq|].
    reflexivity. }
  split_and!; try done. apply lookup_insert_eq.
Qed.

(** Both. *)
Lemma call_returns opts timeout handle_call t th target method params qos hdr id tx r res g s :
  call_begin method (rc_rpc s) = ((hdr, id, tx), r) ->
  idle s -> rc_threads s !! t = Some th -> th_stage th = Running ->
  0 <= id < 2 ^ 32 -> match res with Ok _ => True | Err e => - 2 ^ 15 <= rpc_code e < 2 ^ 15 end ->
  frame_kind g = FrameKind_Message -> carried (reply_parts id res).1 (reply_parts id res).2 g ->
  exists ev s', event_payload ev = Some (reply_parts id res).2 /\
    run opts timeout handle_call (calling t target method params qos g) s = Some s' /\
    idle s' /\ rc_threads s' = rc_threads s /\ rc_sent s' = rc_sent s ++ [Outgoing target hdr params qos] /\
    rc_rpc s' = MkRpcState (call_id r) (delete id (calls r)) (next_tx r) /\
    rc_results s' !! tx = Some match res with
                               | Ok _ => Ok ev
                               | Err e => Err (MkRpcError (rpc_code e) (Some (default [] (rpc_data e))))
                               end.
Proof.
  intros Eb Hidle Ht Hs Hid Hcode Hk Hcar.
  destruct (request_out opts timeout handle_call t th target method params qos hdr id tx r s Eb Hidle Ht Hs)
    as (s1 & E1 & Hidle1 & Eth1 & Er1 & _ & Es1).
  assert (Er : calls (rc_rpc s1) !! id = Some tx).
  { rewrite Er1. unfold call_begin in Eb. injection Eb as _ <- <- <-. apply lookup_insert_eq. }
  destruct (call_in opts timeout handle_call t (MkThread (th_job th) (Waiting id tx)) id tx res g s1 Hidle1)
    as (ev & s2 & Ep & E2 & Hidle2 & Eth2 & Es2 & Er2 & Eres); [by rewrite Eth1, lookup_insert_eq|done..|].
  exists ev, s2. unfold calling. rewrite run_app, E1. split_and!; [done|exact E2|done| |by rewrite Es2|by rewrite Er2, Er1|done].
  rewrite Eth2, Eth1, insert_insert_eq. apply insert_id. rewrite Ht. destruct th as [jb st]. cbn in Hs. by subst st.
Qed.

(** A client may call itself: its processor hands the request to a task of its own, so that neither the
    request nor the reply waits for the caller. *)
Lemma self_call opts timeout handle_call t th own method params qos hdr id tx st f r s :
  reachable opts timeout handle_call s -> idle s -> task_pool opts = None ->
  rc_threads s !! t = Some th -> th_stage th = Running -> 0 <= call_id (rc_rpc s) < 2 ^ 32 -> x00 ∉ method ->
  (forall ev e, handle_call ev = Err e -> - 2 ^ 15 <= rpc_code e < 2 ^ 15) ->
  call_begin method (rc_rpc s) = ((hdr, id, tx), st) ->
  frame_kind f = FrameKind_Message -> frame_sender f = Some own -> carried hdr params f ->
  exists ev s1, event_method ev = Some method /\ event_payload ev = Some params /\
    run opts timeout handle_call (asking t own method params qos ++ answering opts (rc_next s) f (Ok r)) s = Some s1 /\
    let '(hdr2, data2) := reply_parts id (handle_call ev) in
    rc_sent s1 = rc_sent s ++ [Outgoing own hdr params qos] ++
      [Outgoing own hdr2 data2 (if frame_realtime f then QoS_RealtimeProcessed else QoS_Processed)] /\
    forall g, frame_kind g = FrameKind_Message -> carried hdr2 data2 g ->
    exists ev' s2, event_payload ev' = Some data2 /\ run opts timeout handle_call (taking t g) s1 = Some s2 /\
      idle s2 /\ rc_threads s2 = rc_threads s /\
      rc_results s2 !! tx = Some match handle_call ev with
                                 | Ok _ => Ok ev'
                                 | Err e => Err (MkRpcError (rpc_code e) (Some (default [] (rpc_data e))))
                                 end.
Proof.
  intros (_ & _ & Hok)%reachable_ok Hidle Hpool Ht Hs Hid0 Hm Hcode Eb Hk Hsf Hc.
  assert (Hb : 1 <= id < 2 ^ 32 /\ hdr = prepare_call_payload method (to_le_bytes 4 id) /\ calls st !! id = Some tx).
  { unfold call_begin in Eb. injection Eb as <- <- <- <-. split_and!; [apply next_call_id_range; lia..|done|apply lookup_insert_eq]. }
  destruct Hb as (Hid & -> & Hcl).
  destruct (request_out opts timeout handle_call t th own method params qos _ id tx st s Eb Hidle Ht Hs)
    as (s0 & E0 & Hidle0 & Eth0 & Er0 & En0 & Es0).
  destruct (request_answered opts timeout handle_call method params own id f s0 (Ok r) Hidle0)
    as (ev & s1 & Em & Ep & E1 & Hidle1 & Eth1 & Er1 & Es1); [|by rewrite Hpool|done|done|done|done|done|].
  { rewrite Eth0, En0. rewrite lookup_insert_ne; [by apply (to_fresh _ _ Hok)|]. intros ->.
    by rewrite (to_fresh _ _ Hok) in Ht by lia. }
  rewrite En0 in E1. exists ev, s1. rewrite run_app, E0. split_and!; [done|done|exact E1|].
  destruct (reply_parts id (handle_call ev)) as [hdr2 data2] eqn:Erp. split; [by rewrite Es1, Es0, <- app_assoc|].
  intros g Hkg Hcg.
  pose proof (call_in opts timeout handle_call t (MkThread (th_job th) (Waiting id tx)) id tx (handle_call ev) g s1 Hidle1) as Hin.
  rewrite Erp in Hin. destruct Hin as (ev' & s2 & Ep2 & E2 & Hidle2 & Eth2 & _ & _ & Eres);
    [by rewrite Eth1, Eth0, lookup_insert_eq|done|by rewrite Er1, Er0|lia| |done|done|].
  { destruct (handle_call ev) eqn:Eh; [done|]. by apply (Hcode ev). }
  exists ev', s2. split_and!; [done..| |done].
  rewrite Eth2, Eth1, Eth0, insert_insert_eq. apply insert_id. rewrite Ht. destruct th as [jb stg]. cbn in Hs. by subst stg.
Qed.

(** C14: a call between two RPC clients, task by task. The caller takes an id, sends the request, waits
    for its confirmation and for the reply; the callee's processor gives the request to a task (with a
    place in the pool, if it has one), whose handler gets the method and the parameters; the task sends
    the handler's result to the caller, and the call returns it: the payload, or the code and the data of
    the error. Both clients are left as they were, the call is forgotten, and the mutexes are free. *)
Theorem call_answered opts1 opts2 timeout1 timeout2 handle1 handle2 s1 s2 t th from target method params qos f r hdr id tx st :
  reachable opts2 timeout2 handle2 s2 -> idle s1 -> idle s2 ->
  rc_threads s1 !! t = Some th -> th_stage th = Running -> 0 <= call_id (rc_rpc s1) < 2 ^ 32 -> x00 ∉ method ->
  match task_pool opts2 with Some p => pool_admits p (pool_tasks s2) = true | None => True end ->
  (forall ev e, handle2 ev = Err e -> - 2 ^ 15 <= rpc_code e < 2 ^ 15) ->
  call_begin method (rc_rpc s1) = ((hdr, id, tx), st) ->
  frame_kind f = FrameKind_Message -> frame_sender f = Some from -> carried hdr params f ->
  exists ev s2', event_method ev = Some method /\ event_payload ev = Some params /\
    run opts2 timeout2 handle2 (answering opts2 (rc_next s2) f (Ok r)) s2 = Some s2' /\
    idle s2' /\ rc_threads s2' = rc_threads s2 /\
    let res := handle2 ev in
    let '(hdr2, data2) := reply_parts id res in
    rc_sent s2' = rc_sent s2 ++ [Outgoing from hdr2 data2 (if frame_realtime f then QoS_RealtimeProcessed else QoS_Processed)] /\
    forall g, frame_kind g = FrameKind_Message -> carried hdr2 data2 g ->
    exists ev' s1', event_payload ev' = Some data2 /\
      run opts1 timeout1 handle1 (calling t target method params qos g) s1 = Some s1' /\
      idle s1' /\ rc_threads s1' = rc_threads s1 /\ rc_sent s1' = rc_sent s1 ++ [Outgoing target hdr params qos] /\
      calls (rc_rpc s1') !! id = None /\
      rc_results s1' !! tx = Some match res with
                                  | Ok _ => Ok ev'
                                  | Err e => Err (MkRpcError (rpc_code e) (Some (default [] (rpc_data e))))
                                  end.
Proof.
  intros (_ & _ & Hok2)%reachable_ok Hi1 Hi2 Ht Hst Hid0 Hm Hpool Hcode Hb Hk Hs Hc.
  assert (Hid : 1 <= id < 2 ^ 32 /\ hdr = prepare_call_payload method (to_le_bytes 4 id) /\ call_id st = id /\ next_tx st = S tx).
  { unfold call_begin in Hb. injection Hb as <- <- <- <-. split_and!; [apply next_call_id_range; lia..|done|done|done]. }
  destruct Hid as (Hid & -> & _ & _).
  destruct (request_answered opts2 timeout2 handle2 method params from id f s2 (Ok r) Hi2) as (ev & s2' & Em & Ep & Er & Hi & Eth & _ & Es);
    [by apply (to_fresh _ _ Hok2)|done|done|done|done|done|done|].
  exists ev, s2'. split_and!; [done..|]. cbv zeta. destruct (reply_parts id (handle2 ev)) as [hdr2 data2] eqn:Erp. split; [done|].
  intros g Hkg Hcg.
  assert (Hcode' : match handle2 ev with Ok _ => True | Err e => - 2 ^ 15 <= rpc_code e < 2 ^ 15 end).
  { destruct (handle2 ev) eqn:Eh; [done|]. by apply (Hcode ev). }
  pose proof (call_returns opts1 timeout1 handle1 t th target method params qos _ id tx st (handle2 ev) g s1 Hb Hi1 Ht Hst) as Hr.
  rewrite Erp in Hr. destruct Hr as (ev' & s1' & Hp' & Hrun & Hi' & Eth' & Es' & Erpc & Eres); [lia|done|done|done|].
  exists ev', s1'. split_and!; [done..| |done]. rewrite Erpc. apply lookup_delete_eq.
Qed.

(** ** Scenarios *)

(** A client after some actions. *)
Definition no_client : RpcClient := MkRpcClient RpcState_new ∅ [] true Stopped PingerOff false ∅ 0 [] ∅.
Definition client_after (opts : Options) (handle_call : RpcHandlers) (acts : list action) : RpcClient :=
  default no_client (s ← init (Some []) None; run opts None handle_call acts s).

Lemma client_after_reachable opts handle_call acts :
  is_Some (s ← init (Some []) None; run opts None handle_call acts s) ->
  reachable opts None handle_call (client_after opts handle_call acts).
Proof.
  intros [s E]. unfold client_after. rewrite E. cbn in E. eexists [], _, acts. split; [reflexivity|done].
Qed.

(** A task that calls, and its reply. *)
Definition out_of (t : nat) : list action :=
  [Calls t (lit "callee") (lit "echo") (lit "hi") QoS_Processed; Locks t; Sent t (Ok false)].
Definition replied : RpcClient :=
  client_after Options_new DummyHandlers ([Enters] ++ out_of 0 ++ [Arrives reply_frame; Receives]).

Lemma rpc_client_safe_witness :
  exists ev, rc_resolved replied !! 0%nat = Some ev /\ event_id ev = Some 1 /\ is_reply_event ev.
Proof.
  destruct (rpc_client_safe Options_new None DummyHandlers replied) as (_ & _ & _ & H).
  { apply client_after_reachable. vm_compute. by eexists. }
  destruct (rc_resolved replied !! 0%nat) as [ev|] eqn:E; [|by vm_compute in E].
  exists ev. destruct (H 0%nat (MkThread None (Waiting 1 0)) 1 0%nat ev) as (Hk & Hi & _); [by vm_compute|done|done|]. done.
Defined.

(** A pool with one place, taken by the handler of a request, which calls in turn; the next request
    waits for the place, and in front of it the reply is never reached. *)
Definition pool_of (n : nat) : Pool := MkPool (fun k => (k <? n)%nat) (fun _ => false) false.
Definition one_place : Options := Options_with_task_pool (pool_of 1) Options_new.
Definition pool_full : RpcClient :=
  client_after one_place DummyHandlers
    ([Arrives request_frame; Receives; Admits] ++ out_of 0 ++ [Arrives request_frame; Arrives reply_frame; Receives]).

Lemma pool_full_reachable : reachable one_place None DummyHandlers pool_full.
Proof. apply client_after_reachable. vm_compute. by eexists. Qed.

Lemma pool_full_parked : parked pool_full 0 1 0.
Proof.
  split; [|by vm_compute|by vm_compute|].
  - eexists. split; [by vm_compute|done].
  - intros u c Hu Hc. assert (E : rc_threads pool_full !! u = None); [|unfold call_at in Hc; by rewrite E in Hc].
    assert (E : exists th, rc_threads pool_full = {[ 0%nat := th ]}) by (eexists; by vm_compute).
    destruct E as [th ->]. by apply lookup_singleton_ne.
Qed.

Lemma pool_full_deaf : deaf one_place (fun _ => True) pool_full.
Proof.
  assert (E : exists j, rc_processor pool_full = Spawning j) by (eexists; by vm_compute).
  destruct E as [j E]. unfold deaf. rewrite E. exists (pool_of 1), [0%nat].
  split_and!; [done|apply NoDup_singleton| |].
  - intros t ->%list_elem_of_singleton. split; [|exists 1, 0%nat; split; [done|apply pool_full_parked]].
    eexists. split; [by vm_compute|by eexists].
  - intros k Hk. split; [|done]. by apply Nat.ltb_ge.
Qed.

(** Another task calls, and the connection is closed: the handler waits on. *)
Definition afterwards : list action := [Enters] ++ out_of 1 ++ [Closes].

Lemma deaf_client_never_returns_witness :
  exists s', run one_place None DummyHandlers afterwards pool_full = Some s' /\
    rc_inbox pool_full = [reply_frame] /\ (parked s' 0 1 0 \/ rc_processor s' = Stopped /\ rc_threads s' !! 0%nat = None).
Proof.
  destruct (run one_place None DummyHandlers afterwards pool_full) as [s'|] eqn:E; [|by vm_compute in E].
  destruct (deaf_client_never_returns one_place None DummyHandlers pool_full afterwards s') as [_ H];
    [apply pool_full_reachable|apply pool_full_deaf|done| |done|].
  - intros k Hk. assert (k = 1)%nat as -> by (unfold calls_made in Hk; cbn in Hk; lia). vm_compute. by intros [? ?].
  - exists s'. split_and!; [done|by vm_compute|]. apply H, pool_full_parked.
Defined.

(** A handler that returns the parameters it gets. *)
Definition echo : RpcHandlers := fun ev => Ok (event_payload ev).

Lemma call_answered_witness :
  exists ev s2', event_payload ev = Some (lit "hi") /\
    run Options_new None echo (answering Options_new 0 request_frame (Ok false)) (client_after Options_new echo []) = Some s2' /\
    rc_sent s2' = [Outgoing (lit "caller") (RPC_REPLY :: to_le_bytes 4 1) (default [] (event_payload ev)) QoS_Processed].
Proof.
  destruct (call_answered Options_new Options_new None None DummyHandlers echo
    (client_after Options_new DummyHandlers [Enters]) (client_after Options_new echo []) 0 (MkThread None Running)
    (lit "caller") (lit "callee") (lit "echo") (lit "hi") QoS_Processed request_frame false
    (prepare_call_payload (lit "echo") (to_le_bytes 4 1)) 1 0 (call_begin (lit "echo") RpcState_new).2)
    as (ev & s2' & Em & Ep & Er & _ & _ & Es & _).
  - apply client_after_reachable. by eexists.
  - done.
  - done.
  - done.
  - done.
  - done.
  - apply (bool_decide_eq_true _). by vm_compute.
  - done.
  - done.
  - done.
  - done.
  - done.
  - right. by vm_compute.
  - exists ev, s2'. split_and!; [done|done|]. rewrite Es. done.
Defined.
