(* ===== verification/ServerScenarios.v ===== *)
(** * Concrete runs of the connecting client, the listeners and the daemon

    The theorems of [Connect], [Server] and [Busrtd] applied to closed inputs, with the instances
    of [Scenarios]. *)
From S2P Require Export Scenarios Busrtd.
From S2P Require Ipc SyncIpc.

(** Every stream that is dialed leads to a broker that accepts the client. *)
#[global] Instance ref_dialing : Dialing := {|
  dl_uri _ := Ok tt;
  dl_ws _ _ _ := DialSilent;
  dl_unix _ := Dialed (MkConn (Source broker_answers EndStall) [] []);
  dl_tcp _ := Dialed (MkConn (Source broker_answers EndStall) [] []);
  dl_nodelay := Ok tt;
  dl_write_timeout _ := Ok tt;
  dl_clone := Ok tt;
|}.

(** Everything can be bound, but what is called [busy]. *)
Definition bound (path : str) : result unit io_error :=
  if bool_decide (path = lit "busy") then Err (IoError OtherKind (lit "address in use")) else Ok tt.
#[global] Instance ref_binding : Binding := {|
  bd_unix := bound;
  bd_tcp := bound;
  bd_fifo p := map_err Error_from_io (bound p);
  bd_pid := bound;
|}.

Definition dial_config : Config := Config_queue_size 16 (Config_new (lit "/run/bus.sock") (lit "a")).
Definition dial_sync_config : SyncConfig := SyncConfig_queue_size 16 (SyncConfig_new (lit "/run/bus.sock") (lit "a")).

Lemma connect_equiv_witness :
  twin_results (sync_connect_broker (Q := Ref.queue FrameData) dial_sync_config None None)
               (with_timeout (connect_broker dial_config None) None).
Proof.
  apply (connect_equiv dial_sync_config dial_config None); try reflexivity; try done; by apply List.Forall_nil.
Defined.

(** The broker sends its greeting and no more. *)
Definition half_open : conn := MkConn (Source (take 3 broker_answers) EndStall) [] [].

Lemma silent_broker_witness :
  (exists s, connect_stream (Q := Ref.queue FrameData) half_open dial_config None = Throw Error_timeout s) /\
  (exists s, sync_connect_stream (Q := Ref.queue FrameData) half_open dial_sync_config None = Hang s).
Proof.
  apply (silent_broker dial_sync_config dial_config half_open 3); try reflexivity; try done; by apply Nat.ltb_lt.
Defined.

(** ** A service *)

Definition options : Options := Options_with_async_allocator 64 (fun _ n => Some n) Options_default.
Definition serving : Broker :=
  match spawn_unix_server (Ok tt) (lit "/run/bus.sock") ServerConfig_default (set_queue_size 4 (Broker_create options)) with
  | Done _ b => set_queue_size 32 b
  | _ => Broker_default
  end.
Definition bus_service : Service :=
  MkService (lit "/run/bus.sock") UnixServer ServerConfig_default 4 (Some 64) (Some (fun _ n => Some n)).

Lemma serving_built : built serving.
Proof.
  apply built_queue_size; [done|].
  eapply (built_listener UnixServer (Ok tt)); [|reflexivity]. apply built_queue_size; [done|].
  apply built_create, made_allocator, made_default.
Qed.

(** A peer that connects and sends garbage, after one that could not be accepted. *)
Definition arrivals : list accepted :=
  [AcceptErr (lit "too many open files");
   Accepted (MkConn (Source (client_hello (lit "a") ++ [x01; x02; x03]) EndEof) [] []) UnixAddr (Ok tt) NegotiationTimeout NegotiationTimeout].

Lemma connections_safe_witness :
  Forall (fun cx => match run_connection cx 10 None two with Done _ d' | Hang d' => db_wf d' | _ => False end)
    (accept_loop bus_service arrivals).
Proof.
  apply Forall_forall. intros cx Hcx.
  apply (connections_safe serving bus_service arrivals cx 10 None two); [exact serving_built|left|exact Hcx|apply run_wf].
Defined.

(** The other end of the stream [dial_config] opens. *)
Definition incoming_conn : conn := MkConn (Source (client_hello (lit "a")) EndStall) [] [Ipc.WriteOk; Ipc.WriteOk].

(** The network of a machine on which [serving] runs: nobody listens but its service. *)
Definition client_end : conn := MkConn (Source broker_answers EndStall) [] [].
Definition refused : io_error := IoError OtherKind (lit "Connection refused (os error 111)").
Definition local_dialing : Dialing := {|
  dl_uri _ := Ok tt;
  dl_ws _ _ _ := DialErr (lit "connection refused");
  dl_unix p := if bool_decide (p = lit "/run/bus.sock") then Dialed client_end else DialErr refused;
  dl_tcp _ := DialErr refused;
  dl_nodelay := Ok tt;
  dl_write_timeout _ := Ok tt;
  dl_clone := Ok tt;
|}.

Lemma local_listening : Listening local_dialing (br_services serving) client_end.
Proof.
  assert (Hs : forall s, Listens s ∈ br_services serving -> s = bus_service).
  { intros s Hin. change (br_services serving) with [Listens bus_service] in Hin.
    apply list_elem_of_singleton in Hin. congruence. }
  by split; [intros s ->%Hs|intros s ->%Hs|intros s tls header config ->%Hs|intros s tls ->%Hs|].
Defined.

(** A broker with a core RPC client and a client that has room. *)
Definition idle : BrokerDb := run false [InitCoreRpc 8; joins (lit "c")].

Lemma client_reaches_broker_witness :
  exists cx p x d', accept_loop bus_service [arrival incoming_conn UnixAddr] = [cx] /\
    handshake (cx_peer cx) (idle, cx_stream cx)
      = Done (p, None) (d', MkConn (Source [] EndStall) broker_answers []) /\
    heap d' !! p = Some x /\ ckind x = LocalIpc /\ port x = Some (lit "/run/bus.sock") /\ ch_cap (tx x) = 4.
Proof.
  destruct (client_reaches_broker (D := local_dialing) (Q := Ref.queue FrameData) serving bus_service dial_config
    UnixAddr idle None EndStall EndStall)
    as (_ & cx & p & x & d' & Ea & E & _ & _ & Hx & _ & _ & Hk & Hp & Hcap & _).
  - exact serving_built.
  - by left.
  - exact local_listening.
  - reflexivity.
  - reflexivity.
  - by split_and!.
  - done.
  - done.
  - apply run_wf.
  - concrete.
  - by intros H; destruct H.
  - split; [concrete|]. intros _. split_and!; [concrete|eexists; reflexivity|].
    intros x y Hy _. revert Hy. apply all_ready_spec. concrete.
  - exists cx, p, x, d'. split_and!; [exact Ea|exact E|exact Hx|exact Hk|exact Hp|exact Hcap].
Defined.

(** ** The daemon *)

Definition daemon_on (d : BrokerDb) : Daemon :=
  MkDaemon (Some (set_br_db d Broker_default)) false (Some (lit "/run/busrt.pid")) [lit "/run/bus.sock"] true [].

(** Three paths are bound; with one that is in use the daemon does not start. *)
Definition daemon_opts (paths : list str) : Opts := MkOpts paths (Some (lit "/run/busrt.pid")) false 5000000 16384 10 8192.

Example daemon_services :
  match start (daemon_opts [lit "/run/bus.sock"; lit "127.0.0.1:9924"; lit "fifo:/run/bus.fifo"]) Daemon_new with
  | Done _ dm => (dm_sock_files dm, length (default [] (br_services <$> dm_broker dm)))
  | _ => ([], 0%nat)
  end = ([lit "/run/bus.sock"; lit "/run/bus.fifo"], 3%nat).
Proof. concrete. Qed.

Example daemon_without_pid_file :
  match start (MkOpts [lit "/run/bus.sock"] (Some (lit "busy")) false 5000000 16384 10 8192) Daemon_new with
  | Panic => true
  | _ => false
  end = true.
Proof. concrete. Qed.

Example daemon_in_use :
  match start (daemon_opts [lit "/run/bus.sock"; lit "busy"]) Daemon_new with Panic => true | _ => false end = true.
Proof. concrete. Qed.

Lemma shutdown_completes_witness :
  exists dm', terminate (daemon_on idle) = Done tt dm' /\ main_ends dm' = true /\
    dm_removed dm' = [lit "/run/busrt.pid"; lit "/run/bus.sock"].
Proof.
  destruct (shutdown_completes (daemon_on idle) (set_br_db idle Broker_default) 0 (lit "shutdown "))
    as (dm' & b' & E & Em & Er & _).
  - reflexivity.
  - reflexivity.
  - apply run_wf.
  - concrete.
  - concrete.
  - concrete.
  - concrete.
  - intros x y Hy _ _. revert Hy. apply all_ready_spec. concrete.
  - exists dm'. split_and!; [exact E|exact Em|exact Er].
Defined.

(** Two clients have room, the third, a connection, has not. *)
Lemma shutdown_blocked_witness :
  (exists dm', terminate (daemon_on slow_target) = Hang dm' /\
    dm_removed dm' = [lit "/run/busrt.pid"; lit "/run/bus.sock"]) /\
  forall n, main_ends (Nat.iter n signal (daemon_on slow_target)) = false.
Proof.
  apply (shutdown_blocked (daemon_on slow_target) (set_br_db slow_target Broker_default) 0 (lit "shutdown ")
           [handle 2 (at_ptr slow_target 2); handle 0 (at_ptr slow_target 0)] (handle 1 (at_ptr slow_target 1))
           (at_ptr slow_target 1)).
  - reflexivity.
  - reflexivity.
  - reflexivity.
  - apply run_wf.
  - concrete.
  - concrete.
  - concrete.
  - split_and!.
    + exists []. concrete.
    + intros p [->|[->|[]%elem_of_nil]%elem_of_cons]%elem_of_cons.
      * exists (at_ptr slow_target 2). split; [apply at_ptr_lookup; concrete|split; concrete].
      * exists (at_ptr slow_target 0). split; [apply at_ptr_lookup; concrete|split; concrete].
    + apply at_ptr_lookup; concrete.
    + concrete.
    + concrete.
    + assert (K : ckind (at_ptr slow_target 1) = LocalIpc) by concrete. cbn [br_db set_br_db]. by rewrite K.
    + concrete.
Defined.
