(* ===== verification/CursorService.v ===== *)
(** * A service with cursors and its client ([examples/server_cursor.rs], [examples/client_cursor.rs])

    The service hands out cursors over the rows of a query and reads from them, one row or a block at a
    time; the client reads a query to its end in both ways. Between the calls of the client other
    clients use the map of cursors and its cleaner runs, which is given as events ([Cursors]).
    MessagePack is a class of functions. *)
From S2P Require Export Cursors.

(** ** The cursor over a query *)

Definition CURSOR_TTL : Z := 30 * 10 ^ 9.

Record Customer := MkCustomer { cu_id : Z; cu_name : str }.

#[export] Instance Customer_eq_dec : EqDecision Customer.
Proof. solve_decision. Defined.

(** What the stream of the database yields: a row with its columns as far as they convert to the types
    asked for, or an error. *)
Inductive row_item := RowItem (id : option Z) (nm : option str) | RowErr.

Record CustomerCursor := MkCustomerCursor {
  cc_stream : list row_item;
  cc_meta : Meta;
}.

(** [CustomerCursor::new]. *)
Definition CustomerCursor_new (now : Z) (stream : list row_item) : CustomerCursor :=
  MkCustomerCursor stream (Meta_new now CURSOR_TTL).

(** [rmp_serde::to_vec_named] and [rmp_serde::from_slice]. *)
Class CursorCodec := {
  cx_customer_to_vec : Customer -> result bytes str;
  cx_customers_to_vec : list Customer -> result bytes str;
  cx_payload_to_vec : Payload -> result bytes str;
  cx_customer_from_slice : bytes -> result Customer str;
  cx_customers_from_slice : bytes -> result (list Customer) str;
  cx_payload_from_slice : bytes -> result Payload str;
}.

(** The values of the types: the id of a customer is an [i64] and its name a text, which MessagePack has
    up to a length of 32 bits, as it has lists; a cursor has a UUID, and the number of rows is a [usize]. *)
Definition customer_ok (c : Customer) : Prop :=
  - 2 ^ 63 <= cu_id c < 2 ^ 63 /\ is_str (cu_name c) = true /\ Z.of_nat (length (cu_name c)) < 2 ^ 32.
Definition uuid_ok (id : Z) : Prop := 0 <= id < 2 ^ 128.
Definition payload_ok (p : Payload) : Prop :=
  uuid_ok (u p) /\ match n p with Some k => 0 <= k < 2 ^ 64 | None => True end.

(** Such values can be written and are read back as they were, and a record takes at least a byte. *)
Class CursorCodecLaws (K : CursorCodec) := {
  cx_customer c :
    customer_ok c -> exists b, cx_customer_to_vec c = Ok b /\ b <> [] /\ cx_customer_from_slice b = Ok c;
  cx_customers cs :
    Forall customer_ok cs -> Z.of_nat (length cs) < 2 ^ 32 ->
    exists b, cx_customers_to_vec cs = Ok b /\ cx_customers_from_slice b = Ok cs;
  cx_payload p : payload_ok p -> exists b, cx_payload_to_vec p = Ok b /\ cx_payload_from_slice b = Ok p;
}.

(** [impl From<rmp_serde::encode::Error>] and [From<rmp_serde::decode::Error> for RpcError]. *)
Definition encode_err (e : str) : RpcError := RpcError_internal (Some e).
Definition decode_err (e : str) : RpcError := RpcError_parse (Some e).

Section service.
Context {K : CursorCodec}.

(** A row that was read, or the error of reading it. *)
Definition decode_row (r : row_item) : result Customer RpcError :=
  match r with
  | RowErr => Err (RpcError_internal None)
  | RowItem id nm =>
      let? id := ok_or id (RpcError_internal None) in
      let? nm := ok_or nm (RpcError_internal None) in
      Ok (MkCustomer id nm)
  end.

(** [CustomerCursor::next]. *)
Definition customer_next (c : CustomerCursor) : result (option bytes) RpcError * CustomerCursor :=
  match cc_stream c with
  | [] => (Ok None, MkCustomerCursor [] (mark_finished (cc_meta c)))
  | row :: rest =>
      (let? customer := decode_row row in
       let? data := map_err encode_err (cx_customer_to_vec customer) in Ok (Some data),
       MkCustomerCursor rest (cc_meta c))
  end.

(** The loop of [next_bulk], which is entered with a positive [count]. *)
Fixpoint fetch_rows (count : Z) (acc : list Customer) (stream : list row_item) : result (list Customer) RpcError * list row_item :=
  match stream with
  | [] => (Ok acc, [])
  | row :: rest =>
      match decode_row row with
      | Err e => (Err e, rest)
      | Ok customer =>
          let acc := acc ++ [customer] in
          if Z.of_nat (length acc) =? count then (Ok acc, rest) else fetch_rows count acc rest
      end
  end.

(** [CustomerCursor::next_bulk]; it allocates for [count] rows first, which is assumed to succeed. *)
Definition customer_next_bulk (count : Z) (c : CustomerCursor) : result bytes RpcError * CustomerCursor :=
  let '(r, rest) := if 0 <? count then fetch_rows count [] (cc_stream c) else (Ok [], cc_stream c) in
  match r with
  | Err e => (Err e, MkCustomerCursor rest (cc_meta c))
  | Ok rows =>
      let meta := if Z.of_nat (length rows) <? count then mark_finished (cc_meta c) else cc_meta c in
      (map_err encode_err (cx_customers_to_vec rows), MkCustomerCursor rest meta)
  end.

#[global] Instance CustomerCursor_ops : Cursor CustomerCursor := {
  cursor_next := customer_next;
  cursor_next_bulk := customer_next_bulk;
  cursor_meta := cc_meta;
  cursor_set_meta m c := MkCustomerCursor (cc_stream c) m;
}.

#[global] Instance CustomerCursor_laws : CursorLaws CustomerCursor.
Proof.
  split; [done| |]; cbn.
  - intros c. unfold customer_next. destruct (cc_stream c); cbn; auto.
  - intros k c. unfold customer_next_bulk. destruct (if 0 <? k then _ else _) as [[rows|e] rest]; cbn; [|auto].
    destruct (_ <? k); auto.
Defined.

(** ** The service *)

(** [MyHandlers::handle_call], at a time, with the rows the query yields and the id the map draws.
    [None]: a panic in reading the event. *)
Definition handle_call (query : list row_item) (now new_id : Z) (event : RpcEvent) (m : gmap Z CustomerCursor)
    : option (RpcResult * gmap Z CustomerCursor) :=
  payload ← event_payload event;
  method ← event_parse_method event;
  Some match method with
       | Err e => (Err (RpcError_from_Error e), m)
       | Ok method =>
           if decide (method = lit "Ccustomers") then
             (let? data := map_err encode_err (cx_payload_to_vec (Payload_from new_id)) in Ok (Some data),
              map_add new_id (CustomerCursor_new now query) m)
           else if decide (method = lit "N") then
             match cx_payload_from_slice payload with
             | Err e => (Err (decode_err e), m)
             | Ok p => map_next now (u p) m
             end
           else if decide (method = lit "NB") then
             match cx_payload_from_slice payload with
             | Err e => (Err (decode_err e), m)
             | Ok p => map_next_bulk now (u p) (bulk_number p) m
             end
           else (Err (RpcError_method None), m)
       end.

(** ** The client *)

(** A call of the client: what happened to the map since the call before, when it is handled, and the id
    the map draws if it is to. *)
Record turn := MkTurn {
  tn_between : list (Z * event CustomerCursor);
  tn_now : Z;
  tn_id : Z;
}.

(** The errors [main] ends with. *)
Inductive client_error := CallFailed (e : RpcError) | DecodeFailed (e : str).

(** What [RpcClient::call] returns for the result of the handler. *)
Definition call_result (res : RpcResult) : result bytes client_error :=
  match res with
  | Ok v => Ok (default [] v)
  | Err e => Err (CallFailed (MkRpcError (rpc_code e) (Some (default [] (rpc_data e)))))
  end.

Definition world : Type := list turn * gmap Z CustomerCursor.

(** The request as the service gets it. *)
Definition request (method : str) (params : bytes) : FrameData :=
  MkFrame FrameKind_Message (Some (lit "test.client.123")) None None
    (prepare_call_payload method (to_le_bytes 4 1) ++ params) 0 false.

(** [rpc.call(target, method, params, QoS::Processed)]; with no turn left, the call is not answered. *)
Definition call (query : list row_item) (method : str) (params : bytes) : prog world client_error bytes := fun '(turns, m) =>
  match turns with
  | [] => Hang ([], m)
  | t :: turns =>
      let m := run_events (tn_between t) m in
      match RpcEvent_try_from (request method params) with
      | Some (Ok event) =>
          match handle_call query (tn_now t) (tn_id t) event m with
          | Some (res, m) => lift (call_result res) (turns, m)
          | None => Panic
          end
      | _ => Panic
      end
  end.

(** The first loop of [main]: the customers it prints. *)
Fixpoint one_by_one (fuel : nat) (query : list row_item) (cursor : bytes) : prog world client_error (list Customer) :=
  match fuel with
  | O => hang
  | S fuel =>
      call query (lit "N") cursor ≫= fun data =>
      if decide (data = []) then mret []
      else lift (map_err DecodeFailed (cx_customer_from_slice data)) ≫= fun customer =>
           one_by_one fuel query cursor ≫= fun rest => mret (customer :: rest)
  end.

(** The second loop. *)
Fixpoint in_bulk (fuel : nat) (query : list row_item) (bulk_size : Z) (cursor : bytes) : prog world client_error (list Customer) :=
  match fuel with
  | O => hang
  | S fuel =>
      call query (lit "NB") cursor ≫= fun data =>
      lift (map_err DecodeFailed (cx_customers_from_slice data)) ≫= fun customers =>
      if Z.of_nat (length customers) <? bulk_size then mret customers
      else in_bulk fuel query bulk_size cursor ≫= fun rest => mret (customers ++ rest)
  end.

(** The call that gets a cursor. *)
Definition get_cursor (query : list row_item) : prog world client_error Payload :=
  call query (lit "Ccustomers") [] ≫= fun data => lift (map_err DecodeFailed (cx_payload_from_slice data)).

(** [main], without what it prints besides the customers of both loops. *)
Definition client (fuel : nat) (query : list row_item) (bulk_size : Z) : prog world client_error (list Customer * list Customer) :=
  get_cursor query ≫= fun cursor =>
  lift (map_err DecodeFailed (cx_payload_to_vec cursor)) ≫= fun packed =>
  one_by_one fuel query packed ≫= fun first =>
  get_cursor query ≫= fun cursor =>
  lift (map_err DecodeFailed (cx_payload_to_vec (set_bulk_number bulk_size cursor))) ≫= fun packed =>
  in_bulk fuel query bulk_size packed ≫= fun second =>
  mret (first, second).
End service.

(** ** Facts *)

Section facts.
Context {K : CursorCodec} `{!CursorCodecLaws K}.

(** The rows of customers. *)
Definition rows_of (cs : list Customer) : list row_item := (fun c => RowItem (Some (cu_id c)) (Some (cu_name c))) <$> cs.

Lemma decode_rows c : decode_row (RowItem (Some (cu_id c)) (Some (cu_name c))) = Ok c.
Proof. by destruct c. Qed.

Lemma fetch_rows_all count cs : forall acc,
  Z.of_nat (length acc) < count ->
  fetch_rows count acc (rows_of cs) =
    (Ok (acc ++ take (Z.to_nat count - length acc) cs), rows_of (drop (Z.to_nat count - length acc) cs)).
Proof.
  induction cs as [|c cs IH]; intros acc Hacc; cbn [rows_of fmap list_fmap fetch_rows].
  - by rewrite take_nil, drop_nil, app_nil_r.
  - rewrite decode_rows. fold (rows_of cs). destruct (Z.to_nat count - length acc)%nat as [|k] eqn:Ek; [lia|].
    cbn [take drop]. destruct (_ =? count) eqn:El.
    + apply Z.eqb_eq in El. rewrite length_app in El. cbn in El. assert (k = 0)%nat as -> by lia. by rewrite take_0, drop_0.
    + apply Z.eqb_neq in El. rewrite length_app in El. cbn in El.
      rewrite IH by (rewrite length_app; cbn; lia).
      rewrite length_app. cbn [length]. replace (Z.to_nat count - (length acc + 1))%nat with k by lia. by rewrite <- app_assoc.
Qed.

(** A block of rows. *)
Lemma next_bulk_rows count cs meta :
  0 < count < 2 ^ 32 -> Forall customer_ok cs ->
  exists data, customer_next_bulk count (MkCustomerCursor (rows_of cs) meta) =
    (Ok data, MkCustomerCursor (rows_of (drop (Z.to_nat count) cs))
                (if Z.of_nat (length cs) <? count then mark_finished meta else meta)) /\
    cx_customers_from_slice data = Ok (take (Z.to_nat count) cs).
Proof.
  intros Hc Hcs. destruct (cx_customers (take (Z.to_nat count) cs)) as (data & E & Ed);
    [by apply Forall_take|rewrite length_take; lia|]. exists data. split; [|done].
  unfold customer_next_bulk. rewrite (proj2 (Z.ltb_lt 0 count)) by lia. cbn [cc_stream cc_meta].
  rewrite fetch_rows_all by (cbn; lia). cbn [app length]. rewrite Nat.sub_0_r, E. cbn [map_err]. do 2 f_equal.
  rewrite length_take. destruct (Z.ltb_spec (Z.of_nat (Z.to_nat count `min` length cs)) count), (Z.ltb_spec (Z.of_nat (length cs)) count);
    try done; lia.
Qed.

(** *** What happens between the calls *)

(** Nobody else uses or replaces the cursor, and the cleaner does not come after its deadline. *)
Definition quiet (id deadline : Z) (te : Z * event CustomerCursor) : Prop :=
  uses id te.2 = false /\ replaces id te.2 = false /\ (te.2 = Tick -> te.1 <= deadline).

Lemma quiet_kept id deadline es : forall m c,
  m !! id = Some c -> is_finished (cc_meta c) = false -> expires (cc_meta c) = deadline ->
  Forall (quiet id deadline) es -> run_events es m !! id = Some c.
Proof.
  induction es as [|[now e] es IH]; intros m c Hm Hf He Hq; [done|]. inversion_clear Hq as [|? ? (Hu & Hr & Ht) Hq'].
  rewrite run_events_cons. apply (IH _ c); [|done..]. cbn in Hu, Hr, Ht.
  destruct e as [| | | |]; try (rewrite other_kept; done). cbn [apply_event]. unfold clean. apply map_lookup_filter_Some.
  split; [done|]. unfold is_alive, is_expired. cbn. rewrite Hf, He. rewrite (proj2 (Z.ltb_ge _ _)) by (by apply Ht). done.
Qed.

(** The calls come before the cursor expires. *)
Fixpoint timely (id last : Z) (turns : list turn) : Prop :=
  match turns with
  | [] => True
  | t :: turns => Forall (quiet id (last + CURSOR_TTL)) (tn_between t) /\ timely id (tn_now t) turns
  end.

Lemma timely_drop id k : forall last turns,
  timely id last turns -> exists last', timely id last' (drop k turns).
Proof.
  induction k as [|k IH]; intros last turns Ht; [by exists last|]. destruct turns as [|t turns]; [by exists last|].
  cbn [drop]. destruct Ht as [_ Ht]. by apply (IH (tn_now t)).
Qed.

(** *** Calls *)

(** A service reads the method and the parameters of a request. *)
Lemma request_event method params :
  x00 ∉ method -> from_utf8 method = Ok method ->
  exists event, RpcEvent_try_from (request method params) = Some (Ok event) /\
    event_payload event = Some params /\ event_parse_method event = Some (Ok method).
Proof.
  intros Hm Hu.
  assert (Hc : carried (prepare_call_payload method (to_le_bytes 4 1)) params (request method params)).
  { right. split; [done|]. unfold payload. apply slice_from_0. }
  destruct (carried_request _ _ _ _ (length_to_le_bytes 4 1) Hm Hc) as (ev & E & _ & _ & _ & Em & Ep).
  exists ev. split_and!; [done..|]. unfold event_parse_method. rewrite Em. cbn. by rewrite Hu.
Qed.

(** What the cursor service does with one. *)
Lemma request_read query now new_id method params m :
  x00 ∉ method -> from_utf8 method = Ok method ->
  exists event, RpcEvent_try_from (request method params) = Some (Ok event) /\
    event_payload event = Some params /\ event_parse_method event = Some (Ok method) /\
    handle_call query now new_id event m =
      Some (if decide (method = lit "Ccustomers") then
              (let? data := map_err encode_err (cx_payload_to_vec (Payload_from new_id)) in Ok (Some data),
               map_add new_id (CustomerCursor_new now query) m)
            else if decide (method = lit "N") then
              match cx_payload_from_slice params with Err e => (Err (decode_err e), m) | Ok p => map_next now (u p) m end
            else if decide (method = lit "NB") then
              match cx_payload_from_slice params with
              | Err e => (Err (decode_err e), m)
              | Ok p => map_next_bulk now (u p) (bulk_number p) m
              end
            else (Err (RpcError_method None), m)).
Proof.
  intros Hm Hu. destruct (request_event method params Hm Hu) as (ev & E & Ep & Em).
  exists ev. split_and!; [done..|]. unfold handle_call. by rewrite Ep, Em.
Qed.

Ltac call_turn query t method params m :=
  unfold call;
  destruct (request_read query (tn_now t) (tn_id t) (lit method) params (run_events (tn_between t) m)
    ltac:(apply (bool_decide_eq_true _); by vm_compute) ltac:(by vm_compute)) as (?ev & -> & _ & _ & ->).

Lemma call_new query t turns m :
  uuid_ok (tn_id t) ->
  exists data, call query (lit "Ccustomers") [] (t :: turns, m) =
    Done data (turns, <[ tn_id t := CustomerCursor_new (tn_now t) query ]> (run_events (tn_between t) m)) /\
    cx_payload_from_slice data = Ok (Payload_from (tn_id t)).
Proof.
  intros Hid. call_turn query t "Ccustomers" (@nil byte) m.
  destruct (cx_payload (Payload_from (tn_id t))) as (data & E & Ed); [by split|]. exists data. split; [|done].
  rewrite decide_True by done. by rewrite E.
Qed.

Lemma get_cursor_new query t turns m :
  uuid_ok (tn_id t) ->
  get_cursor query (t :: turns, m) =
    Done (Payload_from (tn_id t)) (turns, <[ tn_id t := CustomerCursor_new (tn_now t) query ]> (run_events (tn_between t) m)).
Proof.
  intros Hid. destruct (call_new query t turns m Hid) as (data & E & Ed). unfold get_cursor. rewrite (bind_Done _ _ _ _ _ E).
  by rewrite Ed.
Qed.

(** The cursor [id] is in the map, was used at [last], and has these customers to come. *)
Definition reading (id last : Z) (cs : list Customer) (m : gmap Z CustomerCursor) : Prop :=
  exists meta, m !! id = Some (MkCustomerCursor (rows_of cs) meta) /\ is_finished meta = false /\
    expires meta = last + CURSOR_TTL /\ ttl meta = CURSOR_TTL.

Definition finished_in (id : Z) (m : gmap Z CustomerCursor) : Prop :=
  exists c, m !! id = Some c /\ is_finished (cc_meta c) = true.

Lemma reading_quiet id last cs es m :
  reading id last cs m -> Forall (quiet id (last + CURSOR_TTL)) es -> reading id last cs (run_events es m).
Proof.
  intros (meta & Hm & Hf & He & Ht) Hq. exists meta. split; [|done].
  by apply (quiet_kept id (last + CURSOR_TTL)).
Qed.

Lemma call_next query id last cs params p t turns m :
  cx_payload_from_slice params = Ok p -> u p = id -> Forall customer_ok cs -> reading id last cs m ->
  Forall (quiet id (last + CURSOR_TTL)) (tn_between t) ->
  exists data m', call query (lit "N") params (t :: turns, m) = Done data (turns, m') /\
    match cs with
    | [] => data = [] /\ finished_in id m'
    | c :: cs => data <> [] /\ cx_customer_from_slice data = Ok c /\ reading id (tn_now t) cs m'
    end.
Proof.
  intros Ep <- Hcs Hr Hq. destruct (reading_quiet _ _ _ _ _ Hr Hq) as (meta & Hm & Hf & He & Ht).
  call_turn query t "N" params m. rewrite decide_False, decide_True by done. rewrite Ep. unfold map_next. rewrite Hm.
  destruct cs as [|c cs]; cbn.
  - eexists [], _. split; [done|]. split; [done|]. eexists. by rewrite lookup_insert_eq.
  - destruct (cx_customer c) as (data & E & Hne & Ed); [by inversion Hcs|]. destruct c as [i nm]. cbn in *. rewrite E. exists data. eexists. split; [done|].
    split_and!; [done|done|]. eexists. rewrite lookup_insert_eq. split_and!; [done|done| |done]. cbn. by rewrite Ht.
Qed.

Lemma call_next_bulk query id last cs params p t turns m :
  cx_payload_from_slice params = Ok p -> u p = id -> 0 < bulk_number p < 2 ^ 32 -> Forall customer_ok cs -> reading id last cs m ->
  Forall (quiet id (last + CURSOR_TTL)) (tn_between t) ->
  exists data m', call query (lit "NB") params (t :: turns, m) = Done data (turns, m') /\
    cx_customers_from_slice data = Ok (take (Z.to_nat (bulk_number p)) cs) /\
    if Z.of_nat (length cs) <? bulk_number p then finished_in id m'
    else reading id (tn_now t) (drop (Z.to_nat (bulk_number p)) cs) m'.
Proof.
  intros Ep <- Hb Hcs Hr Hq. destruct (reading_quiet _ _ _ _ _ Hr Hq) as (meta & Hm & Hf & He & Ht).
  call_turn query t "NB" params m. rewrite !decide_False, decide_True by done. rewrite Ep. unfold map_next_bulk. rewrite Hm.
  destruct (next_bulk_rows (bulk_number p) cs (touch (tn_now t) meta) Hb Hcs) as (data & E & Ed).
  exists data. eexists. split.
  - cbn [touched cursor_set_meta cursor_meta CustomerCursor_ops cursor_next_bulk cc_stream cc_meta]. unfold touched. cbn.
    rewrite E. reflexivity.
  - split; [done|]. destruct (_ <? bulk_number p); eexists; rewrite lookup_insert_eq; [done|].
    split_and!; [done|done| |done]. cbn. by rewrite Ht.
Qed.

(** *** The loops *)

Lemma one_by_one_all query id params p rest :
  cx_payload_from_slice params = Ok p -> u p = id -> forall cs fuel turns m last,
  Forall customer_ok cs -> reading id last cs m -> timely id last turns -> length turns = S (length cs) -> (length cs < fuel)%nat ->
  exists m', one_by_one fuel query params (turns ++ rest, m) = Done cs (rest, m') /\ finished_in id m'.
Proof.
  intros Ep Hu. induction cs as [|c cs IH]; intros fuel turns m last Hcs Hr Ht Hlt Hlf;
    (destruct fuel as [|fuel]; [cbn in *; lia|]); (destruct turns as [|t turns]; [done|]); destruct Ht as [Hq Ht];
    destruct (call_next query id last _ params p t (turns ++ rest) m Ep Hu Hcs Hr Hq) as (data & m' & E & Hd);
    cbn [one_by_one app]; unfold mbind at 1, prog_bind at 1; rewrite E.
  - destruct Hd as [-> Hf]. exists m'. by destruct turns.
  - destruct Hd as (Hne & Ed & Hr'). rewrite decide_False by done. rewrite Ed. cbn [map_err lift].
    inversion_clear Hcs. destruct (IH fuel turns m' (tn_now t) ltac:(done) Hr' Ht) as (m'' & E' & Hf); [cbn in *; lia..|].
    exists m''. split; [|done]. unfold mbind, prog_bind. cbn. by rewrite E'.
Qed.

Lemma in_bulk_all query id params p :
  cx_payload_from_slice params = Ok p -> u p = id -> 0 < bulk_number p < 2 ^ 32 -> forall fuel cs turns m last,
  Forall customer_ok cs -> reading id last cs m -> timely id last turns ->
  Z.of_nat (length cs) / bulk_number p < Z.of_nat (length turns) -> Z.of_nat (length cs) / bulk_number p < Z.of_nat fuel ->
  exists turns' m', in_bulk fuel query (bulk_number p) params (turns, m) = Done cs (turns', m') /\ finished_in id m' /\
    Z.of_nat (length turns') = Z.of_nat (length turns) - (Z.of_nat (length cs) / bulk_number p + 1).
Proof.
  intros Ep Hu Hb. set (b := bulk_number p) in *.
  induction fuel as [|fuel IH]; intros cs turns m last Hcs Hr Ht Hlt Hlf.
  { pose proof (Z.div_pos (Z.of_nat (length cs)) b). lia. }
  destruct turns as [|t turns]; [pose proof (Z.div_pos (Z.of_nat (length cs)) b); cbn in Hlt; lia|]. destruct Ht as [Hq Ht].
  destruct (call_next_bulk query id last cs params p t turns m Ep Hu Hb Hcs Hr Hq) as (data & m' & E & Ed & Hd). fold b in Ed, Hd.
  cbn [in_bulk]. unfold mbind at 1, prog_bind at 1. rewrite E. rewrite Ed. cbn [map_err lift].
  unfold mbind at 1, prog_bind at 1. cbn [mret prog_ret].
  assert (El : (Z.of_nat (length (take (Z.to_nat b) cs)) <? b) = (Z.of_nat (length cs) <? b)).
  { rewrite length_take. destruct (Z.ltb_spec (Z.of_nat (Z.to_nat b `min` length cs)) b), (Z.ltb_spec (Z.of_nat (length cs)) b); try done; lia. }
  rewrite El. destruct (Z.of_nat (length cs) <? b) eqn:Elt.
  - apply Z.ltb_lt in Elt. exists turns, m'. rewrite take_ge by lia. split_and!; [done|done|].
    rewrite Z.div_small by lia. cbn [length]. lia.
  - apply Z.ltb_ge in Elt. set (cs' := drop (Z.to_nat b) cs) in *.
    assert (Ediv : Z.of_nat (length cs') / b = Z.of_nat (length cs) / b - 1).
    { unfold cs'. rewrite length_drop. replace (Z.of_nat (length cs - Z.to_nat b)) with (Z.of_nat (length cs) + (-1) * b) by lia.
      rewrite Z.div_add by lia. lia. }
    destruct (IH cs' turns m' (tn_now t) (Forall_drop _ _ _ Hcs) Hd Ht) as (turns' & m'' & E' & Hf & Hlen); [cbn in Hlt; lia..|].
    exists turns', m''. split_and!; [|done|cbn [length]; lia]. unfold mbind, prog_bind. rewrite E'. unfold mret, prog_ret.
    unfold cs'. by rewrite take_drop.
Qed.
End facts.

Lemma lift_ok {S E E' A B} (f : E' -> E) (x : A) (g : A -> prog S E B) s : (lift (map_err f (Ok x)) ≫= g) s = g x s.
Proof. done. Qed.

(** C37: the client of the example gets every row of the query, in order and once, by calls for single
    rows and by calls for blocks, and stops by itself, whatever the number of rows and the size of the
    blocks (below 2^32): after one call more than there are rows, and one more than there are full blocks. Meanwhile
    other clients may use the service for other cursors and its cleaner may run, as long as each call
    comes before the cursor expires; afterwards the cursor is finished and the cleaner removes it. *)
Theorem client_gets_all_rows {K : CursorCodec} `{!CursorCodecLaws K} cs bulk_size fuel t1 turns1 t2 turns2 m :
  0 < bulk_size < 2 ^ 32 -> Forall customer_ok cs -> uuid_ok (tn_id t1) -> uuid_ok (tn_id t2) -> timely (tn_id t1) (tn_now t1) turns1 -> timely (tn_id t2) (tn_now t2) turns2 ->
  length turns1 = S (length cs) -> Z.of_nat (length turns2) = Z.of_nat (length cs) / bulk_size + 1 ->
  (length cs < fuel)%nat ->
  exists m', client fuel (rows_of cs) bulk_size (t1 :: turns1 ++ t2 :: turns2, m) = Done (cs, cs) ([], m') /\
    forall now, clean now m' !! tn_id t2 = None.
Proof.
  intros Hb Hcs Hi1 Hi2 Ht1 Ht2 Hl1 Hl2 Hf.
  assert (Hnew : forall t m, reading (tn_id t) (tn_now t) cs (<[ tn_id t := CustomerCursor_new (tn_now t) (rows_of cs) ]> m)).
  { intros t m0. eexists. rewrite lookup_insert_eq. by split_and!. }
  destruct (cx_payload (Payload_from (tn_id t1))) as (p1 & P1 & Q1); [by split|].
  destruct (one_by_one_all (rows_of cs) (tn_id t1) p1 _ (t2 :: turns2) Q1 eq_refl cs fuel turns1 _ (tn_now t1) Hcs (Hnew t1 (run_events (tn_between t1) m)) Ht1 Hl1 Hf)
    as (m1 & E2 & _).
  destruct (cx_payload (set_bulk_number bulk_size (Payload_from (tn_id t2)))) as (p2 & P2 & Q2); [by split; [|cbn; lia]|].
  destruct (in_bulk_all (rows_of cs) (tn_id t2) p2 _ Q2 eq_refl Hb fuel cs turns2 _ (tn_now t2) Hcs (Hnew t2 (run_events (tn_between t2) m1)) Ht2)
    as (turns' & m2 & E4 & (c & Hc & Hfin) & Hlen).
  { cbn. lia. }
  { cbn. pose proof (Z.div_le_upper_bound (Z.of_nat (length cs)) bulk_size (Z.of_nat (length cs))). nia. }
  exists m2. split.
  - unfold client. rewrite (bind_Done _ _ _ _ _ (get_cursor_new _ _ _ _ Hi1)), P1, lift_ok.
    rewrite (bind_Done _ _ _ _ _ E2), (bind_Done _ _ _ _ _ (get_cursor_new _ _ _ _ Hi2)), P2, lift_ok.
    rewrite (bind_Done _ _ _ _ _ E4). destruct turns'; [done|]. cbn in Hlen. lia.
  - intros now. unfold clean. apply map_lookup_filter_None. right. intros c' Hc' Ha. cbn in Ha.
    rewrite Hc in Hc'. injection Hc' as <-. unfold is_alive in Ha. by rewrite Hfin in Ha.
Qed.

(** ** A codec, and a run of the client *)

Fixpoint pos_bytes (p : positive) : bytes :=
  match p with xH => [x01] | xO p => x00 :: pos_bytes p | xI p => x02 :: pos_bytes p end.
Fixpoint bytes_pos (b : bytes) : option positive :=
  match b with
  | [] => None
  | x00 :: b => xO <$> bytes_pos b
  | x02 :: b => xI <$> bytes_pos b
  | _ => Some xH
  end.

Lemma bytes_pos_bytes p : bytes_pos (pos_bytes p) = Some p.
Proof. induction p as [p IH|p IH|]; cbn; by rewrite ?IH. Qed.

#[export] Instance Customer_countable : Countable Customer.
Proof.
  refine (inj_countable' (fun c => (cu_id c, cu_name c)) (fun x => MkCustomer x.1 x.2) _). by intros [].
Defined.

#[export] Instance Payload_eq_dec : EqDecision Payload.
Proof. solve_decision. Defined.
#[export] Instance Payload_countable : Countable Payload.
Proof. refine (inj_countable' (fun p => (u p, n p)) (fun x => MkPayload x.1 x.2) _). by intros []. Defined.

Definition to_vec {A} `{Countable A} (x : A) : result bytes str := Ok (pos_bytes (encode x)).
Definition from_slice {A} `{Countable A} (b : bytes) : result A str := ok_or (bytes_pos b ≫= decode) (lit "invalid").

Lemma to_from {A} `{Countable A} (x : A) : exists b, to_vec x = Ok b /\ b <> [] /\ from_slice b = Ok x.
Proof.
  eexists. split_and!; [done|by destruct (encode x)|]. unfold from_slice. rewrite bytes_pos_bytes. cbn. by rewrite decode_encode.
Qed.

Definition example_codec : CursorCodec := {|
  cx_customer_to_vec := to_vec; cx_customers_to_vec := to_vec; cx_payload_to_vec := to_vec;
  cx_customer_from_slice := from_slice; cx_customers_from_slice := from_slice; cx_payload_from_slice := from_slice;
|}.

#[export] Instance example_codec_laws : CursorCodecLaws example_codec.
Proof.
  split; [intros c _; apply (to_from c)|intros cs _ _; destruct (to_from cs) as (b & ? & _ & ?); by exists b|].
  intros p _. destruct (to_from p) as (b & ? & _ & ?); by exists b.
Qed.

(** Three customers, in blocks of two; between the calls the cleaner runs, and another client has a
    cursor, which expires. *)
Definition customers : list Customer := [MkCustomer 1 (lit "a"); MkCustomer 2 (lit "b"); MkCustomer 3 (lit "c")].
Definition second : Z := 10 ^ 9.
Definition calls_at (times : list Z) : list turn := (fun k => MkTurn [(k * second, Tick)] (k * second) 0) <$> times.
Definition other : CustomerCursor := CustomerCursor_new 0 [RowErr].

Lemma client_gets_all_rows_witness :
  exists m', client (K := example_codec) 4 (rows_of customers) 2
      (MkTurn [(0, Add 9 other)] 0 7 :: calls_at [10; 30; 50; 70] ++ MkTurn [] (80 * second) 8 :: calls_at [90; 100], ∅)
    = Done (customers, customers) ([], m') /\ clean (H := CustomerCursor_ops (K := example_codec)) (110 * second) m' !! 8 = None.
Proof.
  destruct (client_gets_all_rows (K := example_codec) customers 2 4 (MkTurn [(0, Add 9 other)] 0 7) (calls_at [10; 30; 50; 70])
    (MkTurn [] (80 * second) 8) (calls_at [90; 100]) ∅) as (m' & E & H).
  - done.
  - repeat constructor; by vm_compute.
  - by vm_compute.
  - by vm_compute.
  - repeat split; repeat constructor; by vm_compute.
  - repeat split; repeat constructor; by vm_compute.
  - done.
  - done.
  - cbn. lia.
  - exists m'. split; [exact E|apply H].
Defined.
