(* ===== verification/CounterService.v ===== *)
(** * A service with a counter and its client ([examples/client_rpc_handler.rs], [examples/client_rpc.rs])

    The service keeps an atomic 64-bit counter that its clients add to and read. Its handlers run in
    parallel, but each of them touches the counter once at most, with one atomic operation, so that a
    run of the service is the sequence of its requests in the order of these operations. MessagePack
    is a class of functions. *)
From S2P Require Export CursorService.

(** ** The service *)

(** The MessagePack of an object with the one key [ok], and of one with the one key [value]. *)
Class CounterCodec := {
  nc_ok_to_vec : bool -> result bytes str;
  nc_value_to_vec : Z -> result bytes str;
  (** A structure with the field [value: u64]. *)
  nc_value_from_slice : bytes -> result Z str;
}.

(** Such objects can always be written, and a 64-bit value is read back as it was. *)
Class CounterCodecLaws (K : CounterCodec) := {
  nc_ok b : exists v, nc_ok_to_vec b = Ok v;
  nc_value v : 0 <= v <= u64_max -> exists b, nc_value_to_vec v = Ok b /\ nc_value_from_slice b = Ok v;
}.

(** What the handlers print. *)
Inductive printed :=
| GotNotification (from text : str)
| GotFrame (from : str) (kind : FrameKind) (topic : option str) (text : str)
| PrintValue (v : Z).

Definition readable_text (payload : bytes) : str :=
  match from_utf8 payload with Ok s => s | Err _ => lit "something unreadable" end.

(** [MyHandlers::handle_notification] and [handle_frame]. *)
Definition counter_handle_notification (event : RpcEvent) : option printed :=
  from ← event_sender event; p ← event_payload event; Some (GotNotification from (readable_text p)).
Definition counter_handle_frame (frame : FrameData) : option printed :=
  from ← sender frame; p ← payload frame;
  Some (GotFrame from (frame_kind frame) (frame_topic frame) (readable_text p)).

Section service.
Context {K : CounterCodec}.

(** [MyHandlers::handle_call], with the counter before and after. [None]: a panic in reading the event. *)
Definition counter_handle_call (event : RpcEvent) (counter : Z) : option (RpcResult * Z) :=
  payload ← event_payload event;
  method ← event_parse_method event;
  Some match method with
       | Err e => (Err (RpcError_from_Error e), counter)
       | Ok method =>
           if decide (method = lit "test") then
             (let? data := map_err encode_err (nc_ok_to_vec true) in Ok (Some data), counter)
           else if decide (method = lit "get") then
             (let? data := map_err encode_err (nc_value_to_vec counter) in Ok (Some data), counter)
           else if decide (method = lit "add") then
             match nc_value_from_slice payload with
             | Err e => (Err (decode_err e), counter)
             | Ok value => (Ok None, u64_add counter value)
             end
           else (Err (RpcError_method None), counter)
       end.

(** The requests in the order of their operations on the counter, and what they are answered. *)
Fixpoint serve_all (events : list RpcEvent) (counter : Z) : option (list RpcResult * Z) :=
  match events with
  | [] => Some ([], counter)
  | ev :: events =>
      '(r, counter) ← counter_handle_call ev counter;
      '(rs, counter) ← serve_all events counter;
      Some (r :: rs, counter)
  end.

(** ** The client *)

(** What other clients ask for before each of the client's requests is handled, and the counter. *)
Definition shop : Type := list (list RpcEvent) * Z.

Definition ask_counter (method : str) (params : bytes) : prog shop client_error RpcResult := fun '(turns, counter) =>
  match turns with
  | [] => Hang ([], counter)
  | others :: turns =>
      match serve_all others counter, RpcEvent_try_from (request method params) with
      | Some (_, counter), Some (Ok event) =>
          match counter_handle_call event counter with
          | Some (res, counter) => Done res (turns, counter)
          | None => Panic
          end
      | _, _ => Panic
      end
  end.

(** [rpc.call]; [rpc.call0] sends the request only, so that the client learns nothing of its result. *)
Definition call_counter (method : str) (params : bytes) : prog shop client_error bytes :=
  ask_counter method params ≫= fun res => lift (call_result res).
Definition call0_counter (method : str) (params : bytes) : prog shop client_error unit :=
  ask_counter method params ≫= fun _ => mret tt.

(** [main] of the client, up to the value it prints. *)
Definition counter_client : prog shop client_error printed :=
  call0_counter (lit "test") [] ≫= fun _ =>
  lift (map_err DecodeFailed (nc_value_to_vec 10)) ≫= fun params =>
  call_counter (lit "add") params ≫= fun _ =>
  call_counter (lit "get") [] ≫= fun result =>
  lift (map_err DecodeFailed (nc_value_from_slice result)) ≫= fun amount =>
  mret (PrintValue amount).
End service.

(** ** Facts *)

Section facts.
Context {K : CounterCodec}.

(** What a request adds to the counter: its value if it is a readable one to [add]. *)
Definition added (event : RpcEvent) : Z :=
  match event_parse_method event, event_payload event with
  | Some (Ok method), Some params =>
      if decide (method = lit "add") then match nc_value_from_slice params with Ok v => v | Err _ => 0 end else 0
  | _, _ => 0
  end.

Definition total (events : list RpcEvent) : Z := foldr (fun ev t => added ev + t) 0 events.

Definition u64 (c : Z) : Prop := 0 <= c <= u64_max.

(** The event is read from a well-formed frame and is a request. *)
Definition is_request (event : RpcEvent) : Prop := readable (ev_frame event) event /\ ev_kind event = Request.

Lemma u64_add_0 c : u64 c -> u64_add c 0 = c.
Proof. unfold u64. intros Hc. rewrite u64_add_small; lia. Qed.

Lemma u64_add_add c a b : u64_add (u64_add c a) b = u64_add c (a + b).
Proof. unfold u64_add. rewrite Zplus_mod_idemp_l. f_equal. lia. Qed.

Lemma handle_call_adds event c res c' :
  u64 c -> counter_handle_call event c = Some (res, c') -> c' = u64_add c (added event).
Proof.
  intros Hc. unfold counter_handle_call, added. destruct (event_payload event) as [p|]; [|done].
  destruct (event_parse_method event) as [[m|e]|]; cbn; [| |done].
  2:{ intros [= _ <-]. by rewrite u64_add_0. }
  repeat case_decide; subst; try done; try (intros [= _ <-]; by rewrite u64_add_0).
  destruct (nc_value_from_slice p); intros [= _ <-]; [done|by rewrite u64_add_0].
Qed.

Lemma handle_call_some event c : is_request event -> is_Some (counter_handle_call event c).
Proof.
  intros [(_ & [p Hp] & _ & _ & Hm) Hk]. destruct (Hm Hk) as [m Em]. unfold counter_handle_call, event_parse_method.
  rewrite Hp, Em. cbn. eauto.
Qed.

(** A run of the service: no request panics, the counter is the sum, and a [get] is answered with the
    sum of what was added before it. *)
Lemma serve_all_run events : forall c,
  u64 c -> Forall is_request events ->
  exists rs, serve_all events c = Some (rs, u64_add c (total events)) /\ length rs = length events /\
    forall i ev, events !! i = Some ev ->
      counter_handle_call ev (u64_add c (total (take i events))) =
        (fun r => (r, u64_add c (total (take (S i) events)))) <$> rs !! i.
Proof.
  induction events as [|ev events IH]; intros c Hc Hev; cbn [serve_all total foldr].
  { exists []. rewrite u64_add_0 by done. by split_and!. }
  inversion_clear Hev as [|? ? H1 H2]. destruct (handle_call_some ev c H1) as [[r c1] E].
  pose proof (handle_call_adds ev c r c1 Hc E) as Ec.
  destruct (IH c1 ltac:(rewrite Ec; apply u64_add_range) H2) as (rs & Es & Hl & Hget).
  assert (Hc1 : forall t, u64_add c1 t = u64_add c (added ev + t)) by (intros t; by rewrite Ec, u64_add_add).
  exists (r :: rs). rewrite E. cbn. rewrite Es. cbn. rewrite Hc1. split_and!; [done|by f_equal|].
  intros [|i] ev'; cbn [lookup list_lookup take total foldr].
  - intros [= <-]. rewrite u64_add_0, E by done. cbn. by rewrite Z.add_0_r, Ec.
  - intros Hi. specialize (Hget i ev' Hi). rewrite !Hc1 in Hget. exact Hget.
Qed.

Context `{!CounterCodecLaws K}.

(** A request of the client, after those of others. *)
Lemma ask_counter_run method params others turns c :
  x00 ∉ method -> from_utf8 method = Ok method -> u64 c -> Forall is_request others ->
  exists event, event_payload event = Some params /\ event_parse_method event = Some (Ok method) /\
    ask_counter method params (others :: turns, c) =
      match counter_handle_call event (u64_add c (total others)) with
      | Some (res, c) => Done res (turns, c)
      | None => Panic
      end.
Proof.
  intros Hm Hu Hc Ho. destruct (request_event method params Hm Hu) as (ev & E & Ep & Em).
  destruct (serve_all_run others c Hc Ho) as (rs & Es & _). exists ev. split_and!; [done..|].
  unfold ask_counter. by rewrite Es, E.
Qed.

(** What a request in [CounterService.serve_all] is answered that reads the counter. *)
Lemma get_answer event c res c' :
  u64 c -> event_parse_method event = Some (Ok (lit "get")) -> counter_handle_call event c = Some (res, c') ->
  exists b, res = Ok (Some b) /\ nc_value_from_slice b = Ok c.
Proof.
  intros Hc Em. unfold counter_handle_call. destruct (event_payload event); [|done]. rewrite Em. cbn.
  destruct (nc_value c Hc) as (b & Eb & Ed). rewrite Eb. cbn. intros [= <- _]. by exists b.
Qed.
End facts.

(** The service answers every request without a panic, and in whatever order the operations on the
    counter take place, none of them is lost: the counter ends as the sum, modulo 2^64, of where it
    started and what the requests added, and a client that reads it gets the sum of exactly the
    additions before. *)
Theorem counter_serial {K : CounterCodec} `{!CounterCodecLaws K} events c :
  u64 c -> Forall is_request events ->
  exists rs, serve_all events c = Some (rs, (c + total events) mod 2 ^ 64) /\ length rs = length events /\
    forall i ev, events !! i = Some ev -> event_parse_method ev = Some (Ok (lit "get")) ->
      exists b, rs !! i = Some (Ok (Some b)) /\
                nc_value_from_slice b = Ok ((c + total (take i events)) mod 2 ^ 64).
Proof.
  intros Hc Hev. destruct (serve_all_run events c Hc Hev) as (rs & E & Hl & Hi). exists rs. split_and!; [done..|].
  intros i ev Hget Em. specialize (Hi i ev Hget). destruct (rs !! i) as [r|]; cbn in Hi.
  - destruct (get_answer _ _ _ _ (u64_add_range _ _) Em Hi) as (b & -> & Eb). by exists b.
  - destruct (handle_call_some ev (u64_add c (total (take i events)))) as [x Hx]; [|congruence].
    by eapply Forall_lookup_1.
Qed.

(** What the handler answers, by the method. *)
Lemma answers_to {K : CounterCodec} `{!CounterCodecLaws K} event params c :
  u64 c -> event_payload event = Some params ->
  (event_parse_method event = Some (Ok (lit "test")) -> exists b, counter_handle_call event c = Some (Ok (Some b), c)) /\
  (event_parse_method event = Some (Ok (lit "add")) -> forall v, nc_value_from_slice params = Ok v ->
     counter_handle_call event c = Some (Ok None, u64_add c v)) /\
  (event_parse_method event = Some (Ok (lit "get")) ->
     exists b, counter_handle_call event c = Some (Ok (Some b), c) /\ nc_value_from_slice b = Ok c).
Proof.
  intros Hc Hp. unfold counter_handle_call. rewrite Hp. split_and!.
  - intros ->. destruct (nc_ok true) as [b Eb]. exists b. cbn. by rewrite Eb.
  - intros -> v Ev. cbn. by rewrite Ev.
  - intros ->. destruct (nc_value c Hc) as (b & Eb & Ed). exists b. cbn. by rewrite Eb.
Qed.

(** The client of the example prints the sum of the counter, of the 10 it adds, and of what others add
    before its last call is handled, modulo 2^64. *)
Theorem counter_client_reads {K : CounterCodec} `{!CounterCodecLaws K} o1 o2 o3 c :
  u64 c -> Forall is_request o1 -> Forall is_request o2 -> Forall is_request o3 ->
  let sum := (c + total o1 + total o2 + 10 + total o3) mod 2 ^ 64 in
  counter_client ([o1; o2; o3], c) = Done (PrintValue sum) ([], sum).
Proof.
  intros Hc H1 H2 H3 sum. set (c1 := u64_add c (total o1)). set (c2 := u64_add c1 (total o2)).
  set (c3 := u64_add (u64_add c2 10) (total o3)).
  assert (Es : c3 = sum) by (unfold c3, c2, c1; rewrite !u64_add_add; unfold u64_add, sum; f_equal; lia).
  destruct (nc_value 10) as (params & Ep & Ed); [by unfold u64_max|].
  destruct (ask_counter_run (lit "test") [] o1 [o2; o3] c) as (ev1 & P1 & M1 & E1);
    [by apply (bool_decide_eq_true _)|done..|].
  destruct (proj1 (answers_to ev1 _ c1 (u64_add_range _ _) P1) M1) as [b1 A1].
  destruct (ask_counter_run (lit "add") params o2 [o3] c1) as (ev2 & P2 & M2 & E2);
    [by apply (bool_decide_eq_true _)|done|apply u64_add_range|done|].
  pose proof (proj1 (proj2 (answers_to ev2 _ c2 (u64_add_range _ _) P2)) M2 10 Ed) as A2.
  destruct (ask_counter_run (lit "get") [] o3 [] (u64_add c2 10)) as (ev3 & P3 & M3 & E3);
    [by apply (bool_decide_eq_true _)|done|apply u64_add_range|done|].
  destruct (proj2 (proj2 (answers_to ev3 _ c3 (u64_add_range _ _) P3)) M3) as (b3 & A3 & D3).
  fold c1 c2 c3 in E1, E2, E3. rewrite A1 in E1. rewrite A2 in E2. rewrite A3 in E3.
  unfold counter_client, call0_counter, call_counter. unfold mbind, prog_bind, lift. rewrite E1. unfold mret, prog_ret.
  rewrite Ep. cbn [map_err]. rewrite E2. cbn [call_result]. rewrite E3. cbn. rewrite D3. cbn.
  by rewrite Es.
Qed.

(** ** A codec, and a run of the client in which the counter wraps around *)

Definition counter_codec : CounterCodec := {|
  nc_ok_to_vec b := Ok [if b then x01 else x00];
  nc_value_to_vec v := Ok (to_le_bytes 8 v);
  nc_value_from_slice b := if decide (length b = 8%nat) then Ok (from_le_bytes b) else Err (lit "invalid");
|}.

#[export] Instance counter_codec_laws : CounterCodecLaws counter_codec.
Proof.
  split; [by eexists|]. intros v Hv. eexists. split; [done|]. cbn [nc_value_from_slice counter_codec].
  rewrite decide_True by apply length_to_le_bytes. by rewrite from_to_le_bytes_small by (unfold u64_max in Hv; lia).
Qed.

(** Another client's [add] of [v]. *)
Definition add_event (v : Z) : RpcEvent := MkRpcEvent Request (request (lit "add") (to_le_bytes 8 v)) 9 false.

Lemma add_is_request v : is_request (add_event v).
Proof.
  destruct (rpc_event_readable (request (lit "add") (to_le_bytes 8 v))) as (r & E & Hr); [by vm_compute|].
  split; [|done]. apply Hr. enough (Some r = Some (Ok (add_event v))) by congruence. by rewrite <- E.
Qed.

Lemma counter_client_reads_witness :
  counter_client (K := counter_codec) ([[add_event 5]; []; [add_event 7; add_event 1]], u64_max - 3) =
    Done (PrintValue 19) ([], 19).
Proof.
  apply (counter_client_reads (K := counter_codec) [add_event 5] [] [add_event 7; add_event 1] (u64_max - 3)).
  - by vm_compute.
  - repeat constructor; apply add_is_request.
  - constructor.
  - repeat constructor; apply add_is_request.
Defined.

Lemma counter_serial_witness :
  exists rs, serve_all (K := counter_codec) [add_event 5; add_event 7] 1 = Some (rs, 13) /\ length rs = 2%nat.
Proof.
  destruct (counter_serial (K := counter_codec) [add_event 5; add_event 7] 1) as (rs & E & Hl & _).
  - by vm_compute.
  - repeat constructor; apply add_is_request.
  - exists rs. split; [exact E|exact Hl].
Defined.
