(* ===== verification/Cli.v ===== *)
(** * The command line client ([src/cli.rs])

    [main] of the program [busrt]: it connects, carries out one command and prints what comes back. What
    it asks of the client library, and what it prints, are recorded in its state; the answers are
    given. A command that fails panics, as the program does. Colours, logging and the measuring of times
    are left out, and options are parsed already. *)
From S2P Require Export BrokerRpc Params Connect RpcTasks.

(** ** Options *)

Inductive BrokerCommand := ClientList | Info | Stats | Test.

Record ListenCommand := MkListenCommand { lc_topics : list str; lc_exclude_topics : list str }.
Record TargetPayload := MkTargetPayload { tp_target : str; tp_payload : option str }.
Record RpcCall := MkRpcCall { rl_target : str; rl_method : str; rl_params : list str }.
Record PublishCommand := MkPublishCommand { pb_topic : str; pb_payload : option str }.
Record RpcListenCommand := MkRpcListenCommand { rn_topics : list str }.
Record BenchmarkCommand := MkBenchmarkCommand { bm_workers : Z; bm_payload_size : Z; bm_iters : Z }.

Inductive RpcCommand :=
| RpcListen (c : RpcListenCommand)
| RpcNotify (c : TargetPayload)
| RpcCall0 (c : RpcCall)
| RpcCall1 (c : RpcCall).

Inductive Command :=
| BrokerCmd (c : BrokerCommand)
| Listen (c : ListenCommand)
| SendCmd (c : TargetPayload)
| PublishCmd (c : PublishCommand)
| RpcCmd (c : RpcCommand)
| Benchmark (c : BenchmarkCommand).

(** [Opts]; [op_timeout] is [None] if the number is no duration. *)
Record Opts := MkOpts {
  op_path : str;
  op_name : option str;
  op_buf_size : Z;
  op_queue_size : Z;
  op_timeout : option Z;
  op_token : option str;
  op_silent : bool;
  op_command : Command;
}.

(** ** The world of the program *)

Inductive request :=
| ReqConnect (config : Config)
| ReqExclude (topics : list str) (qos : QoS)
| ReqSubscribe (topics : list str) (qos : QoS)
| ReqSend (target : str) (payload : bytes) (qos : QoS)
| ReqBroadcast (target : str) (payload : bytes) (qos : QoS)
| ReqPublish (topic : str) (payload : bytes) (qos : QoS)
| ReqNotify (target : str) (data : bytes) (qos : QoS)
| ReqCall0 (target method : str) (params : bytes) (qos : QoS)
| ReqCall (target method : str) (params : bytes) (qos : QoS)
| ReqConfirm                       (* the confirmation of the operation before *)
| ReqReceive (n : Z)               (* that many frames *)
| ReqListen | ReqRpcListen.        (* what arrives until the connection ends *)

Inductive heard := HeardFrame (f : FrameData) | HeardNotification (ev : RpcEvent) | HeardCall (ev : RpcEvent).

Inductive answer :=
| AnsConnect (r : result unit Error)
| AnsOp (r : result bool Error)                     (* with a confirmation to come? *)
| AnsConfirm (r : option (result unit Error))       (* [None]: it will not come *)
| AnsReply (r : result bytes RpcError)              (* the payload of the reply *)
| AnsFrames (l : list FrameData)
| AnsHeard (l : list heard)
| Silence.

Inductive output :=
| Line (s : str)
| Raw (b : bytes)
| Table (titles : list str) (rows : list (list str)).

Record CliState := MkCliState {
  cs_answers : list answer;
  cs_requests : list request;
  cs_output : list output;
}.

(** JSON, MessagePack and hexadecimal texts. *)
Class Formats := {
  fm_map : Type;
  fm_decode_json : str -> option fm_map;
  fm_json_to_string : bool -> fm_map -> option str;          (* pretty? *)
  fm_value : Type;
  fm_decode_msgpack : bytes -> option fm_value;
  fm_value_to_string : bool -> fm_value -> option str;
  fm_hex : bytes -> str;
  fm_list_from_slice : bytes -> result (list ClientInfo) str;
  fm_stats_from_slice : bytes -> result BrokerStats str;
  fm_info_from_slice : bytes -> result BrokerInfo str;
}.

(** The keys of an object that was read from JSON are texts, so that it can be written as JSON. *)
Class FormatsLaws (F : Formats) := {
  fm_json_printable s m pretty : fm_decode_json s = Some m -> is_Some (fm_json_to_string pretty m);
}.

(** What reading the standard input to its end comes to. *)
Inductive input := InputEnds (b : bytes) | InputFails | InputStays.

(** The process: its host, if that has a readable name, its id, and its standard input, which may be a
    terminal. *)
Record process := MkProcess {
  pr_hostname : option str;
  pr_pid : Z;
  pr_stdin : input;
  pr_terminal : bool;
}.

(** An exit with a code other than zero is thrown. *)
Abbreviation cli := (prog CliState Z).

Definition print (o : output) : cli unit :=
  modify (fun s => MkCliState (cs_answers s) (cs_requests s) (cs_output s ++ [o])).
Definition println (s : str) : cli unit := print (Line s).

Definition ask (r : request) : cli answer := fun s =>
  match cs_answers s with
  | [] => Done Silence (MkCliState [] (cs_requests s ++ [r]) (cs_output s))
  | a :: answers => Done a (MkCliState answers (cs_requests s ++ [r]) (cs_output s))
  end.

Definition unwrap {A E} (r : result A E) : cli A := match r with Ok a => mret a | Err _ => panic end.
Definition expect {A} (o : option A) : cli A := match o with Some a => mret a | None => panic end.

(** With [wto!], what is not answered in time is a panic; otherwise the program waits. *)
Definition unanswered {A} (wto : bool) : cli A := if wto then panic else hang.

Definition operation (wto : bool) (r : request) : cli (result bool Error) :=
  ask r ≫= fun a => match a with AnsOp r => mret r | _ => unanswered wto end.
Definition confirmation (wto : bool) : cli (option (result unit Error)) :=
  ask ReqConfirm ≫= fun a => match a with AnsConfirm r => mret r | _ => unanswered wto end.

(** An operation and its confirmation, up to the inner result: [.unwrap().unwrap().await.unwrap()]. *)
Definition confirmed (wto : bool) (r : request) : cli (result unit Error) :=
  operation wto r ≫= fun opc => unwrap opc ≫= fun has_confirmation : bool =>
  if has_confirmation then confirmation wto ≫= fun c => expect c else panic.

Definition call (wto : bool) (r : request) : cli (result bytes RpcError) :=
  ask r ≫= fun a => match a with AnsReply r => mret r | _ => unanswered wto end.

(** [fnum!]: digits in groups of three. *)
Fixpoint group3 (k : nat) (rev_digits : list byte) : list byte :=
  match rev_digits with
  | [] => []
  | d :: ds =>
      match k with
      | O => x5f :: d :: group3 2 ds
      | S k => d :: group3 k ds
      end
  end.
Definition fnum (z : Z) : str := reverse (group3 3 (reverse (fmt_z z))).

(** ** Printing *)

Section cli.
Context {F : Formats}.

Definition print_hex (payload : bytes) : cli unit :=
  let '(p, dots) := if (256 <? length payload)%nat then (take 256 payload, lit "...") else (payload, []) in
  println (lit "HEX: " ++ fm_hex p ++ dots).

(** No byte below the tabulator. *)
Definition is_str (payload : bytes) : bool := forallb (fun p => negb (u8_val p <? 9)) payload.

Definition print_text (s : str) (silent : bool) : cli unit :=
  match fm_decode_json s with
  | Some j =>
      when (negb silent) (println (lit "JSON:")) ≫= fun _ =>
      expect (fm_json_to_string (negb silent) j) ≫= fun text => println text
  | None => println ((if silent then [] else lit "STR: ") ++ lit " " ++ s)
  end.

Definition print_binary (payload : bytes) (silent : bool) : cli unit :=
  match fm_decode_msgpack payload with
  | Some data =>
      when (negb silent) (println (lit "MSGPACK:")) ≫= fun _ =>
      match fm_value_to_string (negb silent) data with
      | Some s => println s
      | None => print_hex payload
      end
  | None => if silent then print (Raw payload) else print_hex payload
  end.

Definition print_payload (payload : bytes) (silent : bool) : cli unit :=
  if is_str payload then
    match from_utf8 payload with
    | Ok s => print_text s silent
    | Err _ => print_binary payload silent
    end
  else print_binary payload silent.

Definition sep : cli unit := println (lit "----").
Definition ok : cli unit := println (lit "OK").

Definition FrameKind_debug (k : FrameKind) : str :=
  lit match k with
      | FrameKind_Prepared => "Prepared"
      | FrameKind_Message => "Message"
      | FrameKind_Broadcast => "Broadcast"
      | FrameKind_Publish => "Publish"
      | FrameKind_Acknowledge => "Acknowledge"
      | FrameKind_Nop => "Nop"
      end.

Definition RpcEventKind_debug (k : RpcEventKind) : str :=
  lit match k with
      | Notification => "Notification"
      | Request => "Request"
      | Reply => "Reply"
      | ErrorReply => "ErrorReply"
      end.

Definition from_line (f : FrameData) : cli str :=
  expect (sender f) ≫= fun s => expect (primary_sender f) ≫= fun p =>
  mret (lit "from " ++ s ++ lit " (" ++ p ++ lit ")").

Definition print_frame (f : FrameData) : cli unit :=
  from_line f ≫= fun from =>
  println (FrameKind_debug (frame_kind f) ++ lit " " ++ from) ≫= fun _ =>
  (match frame_topic f with Some topic => println (lit "topic: " ++ topic) | None => mret tt end) ≫= fun _ =>
  expect (payload f) ≫= fun p => print_payload p false ≫= fun _ => sep.

(** [impl RpcHandlers for Handlers]; a call is answered with nothing. *)
Definition handle_frame := print_frame.

Definition handle_notification (ev : RpcEvent) : cli unit :=
  from_line (ev_frame ev) ≫= fun from =>
  println (RpcEventKind_debug (ev_kind ev) ++ lit " " ++ from) ≫= fun _ =>
  expect (event_payload ev) ≫= fun p => print_payload p false ≫= fun _ => sep.

Definition handle_call (ev : RpcEvent) : cli RpcResult :=
  expect (event_parse_method ev) ≫= fun parsed =>
  (match parsed with
   | Ok method => println (lit "method: " ++ method)
   | Err _ => expect (event_method ev) ≫= fun m => println (lit "method: HEX: " ++ fm_hex m)
   end) ≫= fun _ =>
  from_line (ev_frame ev) ≫= fun from => println from ≫= fun _ =>
  expect (event_payload ev) ≫= fun p => print_payload p false ≫= fun _ => sep ≫= fun _ =>
  mret (Ok None).

Definition handle_heard (h : heard) : cli unit :=
  match h with
  | HeardFrame f => handle_frame f
  | HeardNotification ev => handle_notification ev
  | HeardCall ev => handle_call ev ≫= fun _ => mret tt
  end.

(** ** Commands *)

(** [create_client]: [Client::connect] has a timeout of its own. *)
Definition create_client (opts : Opts) (timeout : Z) (name : str) : cli unit :=
  let config := Config_timeout timeout (Config_queue_size (op_queue_size opts)
                  (Config_buf_size (op_buf_size opts) (Config_new (op_path opts) name))) in
  let config := match op_token opts with Some token => Config_token token config | None => config end in
  ask (ReqConnect config) ≫= fun a => match a with AnsConnect r => unwrap r | _ => unanswered true end.

Definition subscribe_topics (topics : list str) : cli unit :=
  confirmed false (ReqSubscribe topics QoS_Processed) ≫= fun r => unwrap r.
Definition exclude_topics (topics : list str) : cli unit :=
  confirmed false (ReqExclude topics QoS_Processed) ≫= fun r => unwrap r.

Definition stdin_prompt : output := Line (lit "Reading stdin, Ctrl-D to finish...").

Definition read_stdin (pr : process) : cli bytes :=
  when (pr_terminal pr) (print stdin_prompt) ≫= fun _ =>
  match pr_stdin pr with
  | InputEnds buf => mret buf
  | InputFails => panic
  | InputStays => hang
  end.

Definition get_payload (pr : process) (candidate : option str) : cli bytes :=
  match candidate with Some p => mret p | None => read_stdin pr end.

Definition client_name (opts : Opts) (pr : process) : cli str :=
  match op_name opts with
  | Some name => mret name
  | None => expect (pr_hostname pr) ≫= fun h => mret (lit "cli." ++ h ++ lit "." ++ fmt_z (pr_pid pr))
  end.

(** An operation that is to be confirmed in time, and the [OK] after it. *)
Definition acknowledged (r : request) : cli unit :=
  confirmed true r ≫= fun res => unwrap res ≫= fun _ => ok.

(** A target with a wildcard is a mask. *)
Definition is_mask (target : str) : bool := bool_decide (x2a ∈ target \/ x3f ∈ target).

(** [prepare_rpc_call!], the parameters. *)
Definition call_params {P : ParamOps} (pr : process) (params : list str) : cli bytes :=
  match params with
  | [] => mret []
  | _ =>
      if bool_decide (params = [lit "-"]) then read_stdin pr
      else unwrap (str_to_params_map params) ≫= fun m => unwrap (pa_to_vec m)
  end.

Definition broker_call (method : str) : cli bytes :=
  call true (ReqCall BROKER_NAME method [] QoS_Processed) ≫= fun r => unwrap r.

(** The row of a client in the table of [client.list]. *)
Definition client_row (c : ClientInfo) : list str :=
  [ci_name c; ci_kind c; default [] (ci_source c); default [] (ci_port c); fnum (ci_r_frames c); fnum (ci_r_bytes c);
   fnum (ci_w_frames c); fnum (ci_w_bytes c); fnum (ci_queue c); fnum (ci_instances c)].
Definition client_titles : list str :=
  lit <$> ["name"; "type"; "source"; "port"; "r_frames"; "r_bytes"; "w_frames"; "w_bytes"; "queue"; "ins"].

Definition broker_command (opts : Opts) (name : str) (c : BrokerCommand) : cli unit :=
  match c with
  | ClientList =>
      broker_call (lit "client.list") ≫= fun data => unwrap (fm_list_from_slice data) ≫= fun clients =>
      let clients := merge_sort info_le clients in
      print (Table client_titles (client_row <$> filter (fun c => ci_name c <> name) clients))
  | Stats =>
      broker_call (lit "stats") ≫= fun data => unwrap (fm_stats_from_slice data) ≫= fun stats =>
      print (Table [lit "field"; lit "value"]
        [[lit "r_frames"; fmt_z (st_r_frames stats)]; [lit "r_bytes"; fmt_z (st_r_bytes stats)];
         [lit "w_frames"; fmt_z (st_w_frames stats)]; [lit "w_bytes"; fmt_z (st_w_bytes stats)];
         [lit "uptime"; fmt_z (uptime stats)]])
  | Info =>
      broker_call (lit "info") ≫= fun data => unwrap (fm_info_from_slice data) ≫= fun info =>
      print (Table [lit "field"; lit "value"] [[lit "author"; author info]; [lit "version"; version info]])
  | Test => broker_call (lit "test") ≫= fun data => print_payload data (op_silent opts)
  end.

Definition rpc_command {P : ParamOps} (opts : Opts) (pr : process) (name : str) (c : RpcCommand) : cli unit :=
  match c with
  | RpcListen c =>
      subscribe_topics (rn_topics c) ≫= fun _ => sep ≫= fun _ =>
      println (lit "Listening to RPC messages for " ++ name ++ lit " ...") ≫= fun _ =>
      ask ReqRpcListen ≫= fun a => match a with AnsHeard l => for_each l handle_heard | _ => hang end
  | RpcNotify c =>
      get_payload pr (tp_payload c) ≫= fun payload =>
      acknowledged (ReqNotify (tp_target c) payload QoS_Processed)
  | RpcCall0 c =>
      call_params pr (rl_params c) ≫= fun params =>
      acknowledged (ReqCall0 (rl_target c) (rl_method c) params QoS_Processed)
  | RpcCall1 c =>
      call_params pr (rl_params c) ≫= fun params =>
      call true (ReqCall (rl_target c) (rl_method c) params QoS_Processed) ≫= fun r =>
      match r with
      | Ok result => print_payload result (op_silent opts)
      | Err _ => throw 1
      end
  end.
End cli.

(** ** The benchmark *)

(** Workers run concurrently, each with a client of its own; here one runs after the other. *)
Section benchmark.
Context {F : Formats}.

Definition worker_name (name : str) (w : Z) : str := name ++ lit "-" ++ fmt_z (w + 1).
Definition worker_null (name : str) (w : Z) : str := worker_name name w ++ lit "-null".
Definition workers_of (workers : Z) : list Z := Z.of_nat <$> seq 0 (Z.to_nat workers).
Definition bench_data (payload_size : Z) : bytes := replicate (Z.to_nat payload_size) xee.

(** What a worker asks [iters_worker] times. *)
Definition repeated (iters_worker : Z) (r : request) : list request := replicate (Z.to_nat iters_worker) r.

(** One turn of the loops of [spawn_caller!] and [spawn_sender!], or the receiving task. *)
Definition benchmark_op (data : bytes) (r : request) : cli unit :=
  match r with
  | ReqCall _ _ _ _ =>
      call false r ≫= fun res => unwrap res ≫= fun result =>
      if decide (result = data) then mret tt else panic
  | ReqCall0 _ _ _ _ => confirmed false r ≫= fun _ => mret tt
  | ReqSend _ _ qos =>
      operation false r ≫= fun res => unwrap res ≫= fun has_confirmation : bool =>
      if needs_ack qos then
        if has_confirmation then confirmation false ≫= fun c => expect c ≫= fun _ => mret tt else panic
      else mret tt
  | _ => ask r ≫= fun a => match a with Silence => hang | _ => mret tt end
  end.

(** The stages of [benchmark_rpc] and [benchmark_client]: what their workers ask. *)
Definition benchmark_rpc_stages (name : str) (iters workers payload_size : Z) : list (str * list request) :=
  let iters_worker := iters / workers in
  let data := bench_data payload_size in
  let stage n r := (n, workers_of workers ≫= fun w => repeated iters_worker (r w)) in
  [stage (lit "rpc.call") (fun _ => ReqCall BROKER_NAME (lit "benchmark.test") data QoS_RealtimeProcessed);
   stage (lit "rpc.call+handle") (fun w => ReqCall (worker_name name w) (lit "benchmark.selftest") data QoS_RealtimeProcessed);
   stage (lit "rpc.call0") (fun w => ReqCall0 (worker_null name w) (lit "test") data QoS_RealtimeProcessed)].

Definition benchmark_client_stages (name : str) (iters workers payload_size : Z) : list (str * list request) :=
  let iters_worker := iters / workers in
  let data := bench_data payload_size in
  let send n qos := (lit "send.qos." ++ n, workers_of workers ≫= fun w =>
    repeated iters_worker (ReqSend (worker_null name w) data qos)) in
  let send_recv n qos := (lit "send+recv.qos." ++ n, workers_of workers ≫= fun w =>
    repeated iters_worker (ReqSend (worker_name name w) data qos) ++ [ReqReceive iters_worker]) in
  [send (lit "no") QoS_No; send (lit "processed") QoS_RealtimeProcessed;
   send_recv (lit "no") QoS_No; send_recv (lit "processed") QoS_RealtimeProcessed].

(** [BenchmarkHandlers::handle_call]. *)
Definition benchmark_handler (ev : RpcEvent) : option RpcResult :=
  parsed ← event_parse_method ev;
  match parsed with
  | Err e => Some (Err (RpcError_from_Error e))
  | Ok method =>
      if decide (method = lit "benchmark.selftest") then p ← event_payload ev; Some (Ok (Some p))
      else Some (Err (RpcError_method None))
  end.

Definition run_stages (opts : Opts) (timeout : Z) (name : str) (workers : Z) (data : bytes) (stages : list (str * list request))
    : cli unit :=
  for_each (workers_of workers) (fun w => create_client opts timeout (worker_name name w)) ≫= fun _ =>
  for_each stages (fun st => for_each st.2 (benchmark_op data)).

(** The command: dividing by zero workers is a panic. *)
Definition benchmark_command (opts : Opts) (timeout : Z) (name : str) (c : BenchmarkCommand) : cli unit :=
  let '(workers, iters, size) := (bm_workers c, bm_iters c, bm_payload_size c) in
  if workers =? 0 then panic
  else
    println (lit "Starting benchmark, " ++ fmt_z workers ++ lit " worker(s), " ++ fnum iters ++ lit " iters, "
             ++ fnum (iters / workers) ++ lit " iters/worker, " ++ fnum size ++ lit " byte(s) payload") ≫= fun _ =>
    run_stages opts timeout name workers (bench_data size) (benchmark_rpc_stages name iters workers size) ≫= fun _ =>
    run_stages opts timeout name workers (bench_data size) (benchmark_client_stages name iters workers size).
End benchmark.

(** ** [main] *)

Section main.
Context {F : Formats} {P : ParamOps}.

Definition main (opts : Opts) (pr : process) : cli unit :=
  client_name opts pr ≫= fun name =>
  expect (op_timeout opts) ≫= fun timeout =>
  match op_command opts with
  | BrokerCmd c => create_client opts timeout name ≫= fun _ => broker_command opts name c
  | Listen c =>
      create_client opts timeout name ≫= fun _ =>
      exclude_topics (lc_exclude_topics c) ≫= fun _ =>
      subscribe_topics (lc_topics c) ≫= fun _ => sep ≫= fun _ =>
      println (lit "Listening to messages for " ++ name ++ lit " ...") ≫= fun _ =>
      ask ReqListen ≫= fun a => match a with AnsFrames l => for_each l print_frame | _ => hang end
  | SendCmd c =>
      create_client opts timeout name ≫= fun _ =>
      get_payload pr (tp_payload c) ≫= fun payload =>
      if is_mask (tp_target c) then acknowledged (ReqBroadcast (tp_target c) payload QoS_Processed)
      else acknowledged (ReqSend (tp_target c) payload QoS_Processed)
  | PublishCmd c =>
      create_client opts timeout name ≫= fun _ =>
      get_payload pr (pb_payload c) ≫= fun payload =>
      acknowledged (ReqPublish (pb_topic c) payload QoS_Processed)
  | RpcCmd c => create_client opts timeout name ≫= fun _ => rpc_command opts pr name c
  | Benchmark c => benchmark_command opts timeout name c
  end.

(** A run of the program. *)
Definition started (answers : list answer) : CliState := MkCliState answers [] [].
End main.

(** ** Facts *)

Section facts.
Context {F : Formats} {P : ParamOps}.

Definition answered (rest : list answer) (asked : list request) (printed : list output) (s : CliState) : CliState :=
  MkCliState rest (cs_requests s ++ asked) (cs_output s ++ printed).

Lemma acknowledged_run r s :
  acknowledged r s =
    match cs_answers s with
    | AnsOp (Ok true) :: AnsConfirm (Some (Ok _)) :: rest => Done tt (answered rest [r; ReqConfirm] [Line (lit "OK")] s)
    | _ => Panic
    end.
Proof.
  destruct s as [answers requests out]. unfold acknowledged, confirmed, operation, confirmation, ask, mbind, prog_bind. cbn.
  destruct answers as [|[r1|[[|]|e]|c|r1|l|l|] [|[r2|r2|[[u|e2]|]|r2|l2|l2|] rest]]; try done.
  unfold answered. cbn. by rewrite <- app_assoc.
Qed.

(** The configuration the options stand for. *)
Definition config_of (opts : Opts) (timeout : Z) (name : str) : Config :=
  MkConfig (op_path opts) name (op_buf_size opts) DEFAULT_BUF_TTL (op_queue_size opts) timeout (op_token opts).

Lemma create_client_run opts timeout name s :
  create_client opts timeout name s =
    match cs_answers s with
    | AnsConnect (Ok _) :: rest => Done tt (answered rest [ReqConnect (config_of opts timeout name)] [] s)
    | _ => Panic
    end.
Proof.
  destruct s as [answers requests out]. unfold create_client, config_of, ask, answered, mbind, prog_bind. cbn.
  rewrite !app_nil_r. destruct (op_token opts); by destruct answers as [|[[[]|]| | | | | |] rest].
Qed.

(** What the standard input yields, and what reading it prints. *)
Definition input_of (pr : process) : option bytes := match pr_stdin pr with InputEnds b => Some b | _ => None end.
Definition prompt (pr : process) : list output := if pr_terminal pr then [stdin_prompt] else [].

Lemma read_stdin_run pr b s :
  input_of pr = Some b -> read_stdin pr s = Done b (answered (cs_answers s) [] (prompt pr) s).
Proof.
  unfold input_of, read_stdin, prompt, answered, mbind, prog_bind. destruct (pr_stdin pr); try done. intros [= ->].
  destruct s, (pr_terminal pr); cbn; by rewrite ?app_nil_r.
Qed.

(** The payload of a command: given, or read. *)
Definition payload_of (pr : process) (candidate : option str) : option bytes :=
  match candidate with Some p => Some p | None => input_of pr end.

(** The parameters of a call, if they can be read and written. *)
Definition params_of (pr : process) (params : list str) : option bytes :=
  match params with
  | [] => Some []
  | _ =>
      if bool_decide (params = [lit "-"]) then input_of pr
      else match str_to_params_map params with
           | Ok m => match pa_to_vec m with Ok b => Some b | Err _ => None end
           | Err _ => None
           end
  end.

Lemma answered_nil s : answered (cs_answers s) [] [] s = s.
Proof. destruct s. unfold answered. cbn. by rewrite !app_nil_r. Qed.

Lemma get_payload_run pr candidate b s :
  payload_of pr candidate = Some b ->
  get_payload pr candidate s =
    Done b (answered (cs_answers s) [] (match candidate with None => prompt pr | _ => [] end) s).
Proof.
  destruct candidate; cbn; [|by apply read_stdin_run]. intros [= ->]. by rewrite answered_nil.
Qed.

Lemma call_params_run pr params b s :
  params_of pr params = Some b ->
  call_params pr params s =
    Done b (answered (cs_answers s) [] (if bool_decide (params = [lit "-"]) then prompt pr else []) s).
Proof.
  unfold call_params, params_of. destruct params as [|p params]; [intros [= <-]; by rewrite answered_nil|].
  case_bool_decide; [by apply read_stdin_run|]. rewrite answered_nil.
  unfold mbind, prog_bind. destruct (str_to_params_map _); cbn; [|done]. destruct (pa_to_vec _); [|done]. by intros [= ->].
Qed.

(** The operation a command is: a mask is broadcast to, any other target sent to; and what it prints
    before: nothing, or the prompt if it reads from a terminal. *)
Definition operation_of (opts : Opts) (pr : process) : option (request * list output) :=
  let given candidate := match candidate : option str with None => prompt pr | _ => [] end in
  match op_command opts with
  | SendCmd c =>
      payload ← payload_of pr (tp_payload c);
      Some ((if is_mask (tp_target c) then ReqBroadcast else ReqSend) (tp_target c) payload QoS_Processed, given (tp_payload c))
  | PublishCmd c =>
      payload ← payload_of pr (pb_payload c); Some (ReqPublish (pb_topic c) payload QoS_Processed, given (pb_payload c))
  | RpcCmd (RpcNotify c) =>
      payload ← payload_of pr (tp_payload c); Some (ReqNotify (tp_target c) payload QoS_Processed, given (tp_payload c))
  | RpcCmd (RpcCall0 c) =>
      params ← params_of pr (rl_params c);
      Some (ReqCall0 (rl_target c) (rl_method c) params QoS_Processed,
            if bool_decide (rl_params c = [lit "-"]) then prompt pr else [])
  | _ => None
  end.

Definition name_of (opts : Opts) (pr : process) : option str :=
  match op_name opts with
  | Some name => Some name
  | None => h ← pr_hostname pr; Some (lit "cli." ++ h ++ lit "." ++ fmt_z (pr_pid pr))
  end.

Lemma client_name_run opts pr s :
  client_name opts pr s = match name_of opts pr with Some n => Done n s | None => Panic end.
Proof. unfold client_name, name_of. destruct (op_name opts); [done|]. unfold mbind, prog_bind. by destruct (pr_hostname pr). Qed.

(** A command that is one operation, once it is connected. *)
Lemma main_operation opts pr name timeout r out s :
  name_of opts pr = Some name -> op_timeout opts = Some timeout -> operation_of opts pr = Some (r, out) ->
  main opts pr s =
    (create_client opts timeout name ≫= fun _ =>
     modify (fun s => answered (cs_answers s) [] out s) ≫= fun _ => acknowledged r) s.
Proof.
  intros Hn Ht Hr. unfold main. pose proof (client_name_run opts pr s) as E. rewrite Hn in E.
  rewrite (bind_Done _ _ _ _ _ E), Ht. cbn [expect].
  rewrite (bind_Done (mret timeout) _ s timeout s eq_refl). unfold operation_of in Hr.
  destruct (op_command opts) as [| |c|c|[c|c|c|c]|]; try done;
    (destruct (create_client opts timeout name s) as [[] s1|e s1|s1|] eqn:Ec;
     [rewrite !(bind_Done _ _ _ _ _ Ec)|unfold mbind, prog_bind; by rewrite Ec..]).
  - destruct (payload_of pr (tp_payload c)) as [b|] eqn:Ep; [|done]. cbn in Hr. injection Hr as <- <-.
    rewrite (bind_Done _ _ _ _ _ (get_payload_run _ _ _ _ Ep)). by destruct (is_mask (tp_target c)).
  - destruct (payload_of pr (pb_payload c)) as [b|] eqn:Ep; [|done]. cbn in Hr. injection Hr as <- <-.
    by rewrite (bind_Done _ _ _ _ _ (get_payload_run _ _ _ _ Ep)).
  - cbn [rpc_command]. destruct (payload_of pr (tp_payload c)) as [b|] eqn:Ep; [|done]. cbn in Hr. injection Hr as <- <-.
    by rewrite (bind_Done _ _ _ _ _ (get_payload_run _ _ _ _ Ep)).
  - cbn [rpc_command]. destruct (params_of pr (rl_params c)) as [b|] eqn:Ep; [|done]. cbn in Hr. injection Hr as <- <-.
    by rewrite (bind_Done _ _ _ _ _ (call_params_run _ _ _ _ Ep)).
Qed.
End facts.

(** C38: sending, publishing, notifying and calling without a reply from the command line, with a
    payload or parameters that are given or can be read. The program connects under its name with the
    options it was given, asks for exactly the operation of its command (a broadcast if the target has a
    wildcard), and ends normally exactly if the broker accepts the connection and the operation and
    confirms it with success; it has printed OK then, after the prompt if it read from a terminal. In
    every other case it panics. *)
Theorem cli_acknowledged {F : Formats} {P : ParamOps} opts pr name timeout r out answers :
  name_of opts pr = Some name -> op_timeout opts = Some timeout -> operation_of opts pr = Some (r, out) ->
  match main opts pr (started answers) with
  | Done _ s =>
      (exists rest, answers = AnsConnect (Ok tt) :: AnsOp (Ok true) :: AnsConfirm (Some (Ok tt)) :: rest) /\
      cs_requests s = [ReqConnect (config_of opts timeout name); r; ReqConfirm] /\
      cs_output s = out ++ [Line (lit "OK")]
  | Panic => forall rest, answers <> AnsConnect (Ok tt) :: AnsOp (Ok true) :: AnsConfirm (Some (Ok tt)) :: rest
  | Hang _ | Throw _ _ => False
  end.
Proof.
  intros Hn Ht Hr. rewrite (main_operation opts pr name timeout r out _ Hn Ht Hr). unfold mbind, prog_bind.
  rewrite create_client_run. cbn [started cs_answers].
  destruct answers as [|[[[]|e]| | | | | |] rest]; try done.
  unfold modify. rewrite acknowledged_run. cbn [answered cs_answers].
  destruct rest as [|[r1|[[|]|e]|c|r1|l|l|] [|[r2|r2|[[[]|e2]|]|r2|l2|l2|] rest]]; try done.
  split; [by eexists|]. done.
Qed.

(** Printing a payload never panics or waits, and always prints something; text that is not a JSON object
    is printed as it is, after a blank that [--silent] leaves, and other binary data goes out unchanged in
    silent mode. *)
Lemma print_payload_total {F : Formats} `{!FormatsLaws F} payload silent s :
  exists out, print_payload payload silent s = Done tt (MkCliState (cs_answers s) (cs_requests s) (cs_output s ++ out)) /\ out <> [] /\
    (is_str payload = true -> from_utf8 payload = Ok payload -> fm_decode_json payload = None ->
       out = [Line ((if silent then [] else lit "STR: ") ++ lit " " ++ payload)]) /\
    (is_str payload = false -> fm_decode_msgpack payload = None -> silent = true -> out = [Raw payload]).
Proof.
  assert (Hhex : forall s, exists out, print_hex payload s = Done tt (MkCliState (cs_answers s) (cs_requests s) (cs_output s ++ out)) /\ out <> []).
  { intros s'. unfold print_hex. destruct (256 <? length payload)%nat; eexists; by split. }
  assert (Hbin : exists out, print_binary payload silent s = Done tt (MkCliState (cs_answers s) (cs_requests s) (cs_output s ++ out)) /\
    out <> [] /\ (fm_decode_msgpack payload = None -> silent = true -> out = [Raw payload])).
  { unfold print_binary. destruct (fm_decode_msgpack payload) as [v|].
    - destruct silent, (fm_value_to_string _ v) as [t|]; cbn; unfold mbind, prog_bind; cbn; rewrite <- ?app_assoc.
      + eexists. by split_and!.
      + destruct (Hhex s) as (out & -> & Hne). by exists out.
      + exists [Line (lit "MSGPACK:"); Line t]. unfold println, print, modify. cbn. rewrite <- app_assoc. by split_and!.
      + set (s1 := MkCliState _ _ _). destruct (Hhex s1) as (out & -> & Hne). eexists. cbn. rewrite <- app_assoc. by split_and!.
    - destruct silent; [eexists; by split_and!|]. destruct (Hhex s) as (out & -> & Hne). by exists out. }
  unfold print_payload. destruct (is_str payload).
  - destruct (from_utf8 payload) as [t|e]; [|destruct Hbin as (out & -> & Hne & _); by exists out].
    unfold print_text. destruct (fm_decode_json t) as [j|] eqn:Ej.
    + destruct (fm_json_printable t j (negb silent) Ej) as [txt Etxt].
      destruct silent; cbn in *; unfold mbind, prog_bind; cbn; rewrite Etxt; cbn;
        unfold println, print, modify; cbn; rewrite <- ?app_assoc;
        (eexists; split_and!; [done|done| |done]); intros _ [= ->]; congruence.
    + eexists. split_and!; [done|done| |done]. by intros _ [= ->] _.
  - destruct Hbin as (out & -> & Hne & Hraw). by exists out.
Qed.

(** Every stage of the benchmark asks as often as there are workers times whole shares of the turns, which
    is less than the number of turns it reports unless the workers divide it; the payload of a call comes
    back from the handler unchanged. *)
Definition is_operation (r : request) : bool := match r with ReqReceive _ => false | _ => true end.

Lemma length_workers workers (f : Z -> list request) k :
  (forall w, length (filter (fun r => is_operation r = true) (f w)) = k) -> 0 <= workers ->
  Z.of_nat (length (filter (fun r => is_operation r = true) (workers_of workers ≫= f))) = workers * Z.of_nat k.
Proof.
  intros Hf Hw. unfold workers_of. assert (E : forall l : list Z,
    Z.of_nat (length (filter (fun r => is_operation r = true) (l ≫= f))) = Z.of_nat (length l) * Z.of_nat k).
  { induction l as [|w l IH]; [done|]. cbn [mbind list_bind]. rewrite filter_app, length_app, Hf. cbn [length]. lia. }
  rewrite E, length_fmap, length_seq. lia.
Qed.

Lemma length_repeated (k : Z) r : is_operation r = true -> 0 <= k ->
  length (filter (fun r => is_operation r = true) (repeated k r)) = Z.to_nat k.
Proof.
  intros Hr Hk. unfold repeated. induction (Z.to_nat k) as [|n IH]; [done|]. cbn [replicate]. rewrite filter_cons_True by done.
  cbn [length]. by rewrite IH.
Qed.

Lemma benchmark_counts name iters workers payload_size st :
  0 < workers -> 0 <= iters ->
  st ∈ benchmark_rpc_stages name iters workers payload_size ++ benchmark_client_stages name iters workers payload_size ->
  Z.of_nat (length (filter (fun r => is_operation r = true) st.2)) = workers * (iters / workers) /\
  workers * (iters / workers) <= iters /\ (workers * (iters / workers) = iters <-> (workers | iters)).
Proof.
  intros Hw Hi Hst. pose proof (Z.div_pos iters workers Hi Hw) as Hd. split.
  - assert (Hk : forall (f : Z -> request), (forall w, is_operation (f w) = true) ->
      Z.of_nat (length (filter (fun r => is_operation r = true) (workers_of workers ≫= fun w => repeated (iters / workers) (f w))))
        = workers * (iters / workers)).
    { intros f Hf. rewrite (length_workers _ _ (Z.to_nat (iters / workers))); [lia|intros w; by apply length_repeated|lia]. }
    assert (Hk' : forall (f : Z -> request) n, (forall w, is_operation (f w) = true) ->
      Z.of_nat (length (filter (fun r => is_operation r = true) (workers_of workers ≫= fun w => repeated (iters / workers) (f w) ++ [ReqReceive n])))
        = workers * (iters / workers)).
    { intros f n Hf. rewrite (length_workers _ _ (Z.to_nat (iters / workers))); [lia| |lia].
      intros w. rewrite filter_app, length_app, length_repeated, filter_cons_False, filter_nil by done. cbn [length]. lia. }
    unfold benchmark_rpc_stages, benchmark_client_stages in Hst. cbn [app] in Hst.
    repeat (apply elem_of_cons in Hst as [->|Hst]); [by apply Hk..|by apply Hk'|by apply Hk'|by apply elem_of_nil in Hst].
  - pose proof (Z_div_mod_eq_full iters workers). pose proof (Z.mod_pos_bound iters workers Hw). split; [lia|].
    rewrite <- Z.mod_divide by lia. lia.
Qed.

(** The handlers of the benchmark; reading the method of an event does not panic
    ([Rpc.rpc_event_readable]). *)
Definition benchmark_handlers : RpcHandlers := fun ev => default (Err (RpcError_method None)) (benchmark_handler ev).

(** The self-test of the benchmark passes: a worker that calls itself gets back the bytes it sent, which
    is what it asserts. *)
Lemma selftest_passes timeout t own data qos f r s :
  reachable Options_new timeout benchmark_handlers s -> idle s -> rc_threads s !! t = Some (MkThread None Running) ->
  0 <= call_id (rc_rpc s) < 2 ^ 32 ->
  let '((hdr, id, tx), _) := call_begin (lit "benchmark.selftest") (rc_rpc s) in
  frame_kind f = FrameKind_Message -> frame_sender f = Some own -> carried hdr data f ->
  exists s1,
    run Options_new timeout benchmark_handlers
      (asking t own (lit "benchmark.selftest") data qos ++ answering Options_new (rc_next s) f (Ok r)) s = Some s1 /\
    let '(hdr2, data2) := reply_parts id (Ok (Some data)) in
    forall g, frame_kind g = FrameKind_Message -> carried hdr2 data2 g ->
    exists ev s2, run Options_new timeout benchmark_handlers (taking t g) s1 = Some s2 /\
      rc_results s2 !! tx = Some (Ok ev) /\ event_payload ev = Some data.
Proof.
  intros Hr Hidle Ht Hid. destruct (call_begin _ (rc_rpc s)) as [[[hdr id] tx] st] eqn:Eb. intros Hk Hs Hc.
  destruct (self_call Options_new timeout benchmark_handlers t (MkThread None Running) own (lit "benchmark.selftest") data qos
    hdr id tx st f r s Hr Hidle eq_refl Ht eq_refl Hid) as (ev & s1 & Em & Ep & E1 & H);
    [apply (bool_decide_eq_true _); by vm_compute| |done..|].
  - intros ev e. unfold benchmark_handlers, benchmark_handler.
    destruct (event_parse_method ev) as [[m|err]|]; cbn; [case_decide|..].
    + destruct (event_payload ev); cbn; [done|]. by intros [= <-].
    + by intros [= <-].
    + intros [= <-]. cbn. pose proof (u8_val_range (ErrorKind_code (kind err))). lia.
    + by intros [= <-].
  - exists s1. split; [exact E1|].
    assert (Eh : benchmark_handlers ev = Ok (Some data)).
    { unfold benchmark_handlers, benchmark_handler, event_parse_method. rewrite Em, Ep. cbn [mbind option_bind].
      replace (from_utf8 (lit "benchmark.selftest")) with (Ok (E := Utf8Error) (lit "benchmark.selftest")) by by vm_compute.
      cbn [map_err]. rewrite decide_True by done. done. }
    rewrite Eh in H. destruct (reply_parts id (Ok (Some data))) as [hdr2 data2] eqn:Erp. destruct H as [_ H].
    intros g Hkg Hcg. destruct (H g Hkg Hcg) as (ev' & s2 & Ep' & E2 & _ & _ & Eres). exists ev', s2.
    split_and!; [done|done|]. rewrite Ep'. cbn in Erp. by injection Erp as _ <-.
Qed.

(** ** A run *)

(** Objects are texts in braces; nothing is read from MessagePack. *)
Definition example_formats : Formats := {|
  fm_map := str;
  fm_decode_json s := if starts_with (lit "{") s then Some s else None;
  fm_json_to_string _ m := Some m;
  fm_value := unit;
  fm_decode_msgpack _ := None;
  fm_value_to_string _ _ := None;
  fm_hex b := concat ((fun x => fmt_z (u8_val x)) <$> b);
  fm_list_from_slice _ := Err [];
  fm_stats_from_slice _ := Err [];
  fm_info_from_slice _ := Err [];
|}.

#[export] Instance example_formats_laws : FormatsLaws example_formats.
Proof. split. intros s m pretty _. by eexists. Qed.

(** [busrt /tmp/busrt.sock send 'group.*' hi], from process 7 of host h. *)
Definition send_opts : Opts :=
  MkOpts (lit "/tmp/busrt.sock") None 8192 8192 (Some 5) None false (SendCmd (MkTargetPayload (lit "group.*") (Some (lit "hi")))).
Definition host : process := MkProcess (Some (lit "h")) 7 InputStays true.
(** [busrt /tmp/busrt.sock publish news], with [hi] typed in. *)
Definition publish_opts : Opts :=
  MkOpts (lit "/tmp/busrt.sock") None 8192 8192 (Some 5) None false (PublishCmd (MkPublishCommand (lit "news") None)).
Definition typing : process := MkProcess (Some (lit "h")) 7 (InputEnds (lit "hi")) true.

Definition accepting : list answer := [AnsConnect (Ok tt); AnsOp (Ok true); AnsConfirm (Some (Ok tt))].

Lemma cli_acknowledged_witness :
  (exists s, main (F := example_formats) (P := ref_params) send_opts host (started accepting) = Done tt s /\
    cs_requests s = [ReqConnect (config_of send_opts 5 (lit "cli.h.7")); ReqBroadcast (lit "group.*") (lit "hi") QoS_Processed; ReqConfirm] /\
    cs_output s = [Line (lit "OK")]) /\
  exists s, main (F := example_formats) (P := ref_params) publish_opts typing (started accepting) = Done tt s /\
    cs_requests s = [ReqConnect (config_of publish_opts 5 (lit "cli.h.7")); ReqPublish (lit "news") (lit "hi") QoS_Processed; ReqConfirm] /\
    cs_output s = [stdin_prompt; Line (lit "OK")].
Proof.
  pose proof (cli_acknowledged (F := example_formats) (P := ref_params) send_opts host (lit "cli.h.7") 5
    (ReqBroadcast (lit "group.*") (lit "hi") QoS_Processed) [] accepting) as H1.
  pose proof (cli_acknowledged (F := example_formats) (P := ref_params) publish_opts typing (lit "cli.h.7") 5
    (ReqPublish (lit "news") (lit "hi") QoS_Processed) [stdin_prompt] accepting) as H2.
  assert (E1 : exists s, main (F := example_formats) (P := ref_params) send_opts host (started accepting) = Done tt s)
    by (eexists; by vm_compute).
  assert (E2 : exists s, main (F := example_formats) (P := ref_params) publish_opts typing (started accepting) = Done tt s)
    by (eexists; by vm_compute).
  destruct E1 as [s1 E1], E2 as [s2 E2]. rewrite E1 in H1. rewrite E2 in H2.
  split; [exists s1|exists s2]; (split; [done|]); [apply H1|apply H2]; by vm_compute.
Defined.
