(* ===== verification/Demos.v ===== *)
(** * The other example programs

    A broker with permissions ([examples/broker_aaa.rs]), one with a core client of its own
    ([examples/broker_custom_rpc.rs]), and a sender and a listener ([examples/client_sender.rs],
    [client_listener.rs]). Between the turns of their loops, and in the network, is what the other
    files model. *)
From S2P Require Export Busrtd CounterService Cli Scenarios.

(** ** A broker with permissions *)

Section broker_aaa.
Context {X : Externals} {N : Networks}.

(** The map of permissions; [local] is what [127.0.0.0/8] parses to. *)
Definition demo_aaa_map (local : net_network) : gmap str (ClientAaa ext_acl) :=
  <[ lit "test2" := allow_p2p_to [lit "test"] (deny_broadcast (deny_subscribe
                      (allow_publish_to [lit "news/#"] ClientAaa_default))) ]>
  (<[ lit "test" := hosts_allow [local] ClientAaa_default ]> ∅).

Definition broker_aaa_start (local : result net_network Error) (bound : result unit io_error) : prog Broker Error unit :=
  Broker_init_default_core_rpc ≫= fun _ =>
  lift local ≫= fun local =>
  spawn_tcp_server bound (lit "0.0.0.0:7777") (ServerConfig_aaa_map (demo_aaa_map local) ServerConfig_new).

(** A turn of the loop: whether [test2] was there to be disconnected, the error being printed. *)
Definition broker_aaa_turn : prog BrokerDb Error (list str) :=
  attempt (force_disconnect (lit "test2")) ≫= fun r =>
  mret (lit "forcing test2 disconnect" :: match r with Ok _ => [] | Err e => [Error_fmt e] end).
End broker_aaa.

(** ** A core client of one's own *)

(** The parameters of [ping], which borrow from the bytes they are read from. *)
Class PingCodec := { pg_from_slice : bytes -> result (option str) str }.

(** [MyHandlers::handle_call] of the broker's own client. *)
Definition custom_handle_call {P : PingCodec} (event : RpcEvent) : option RpcResult :=
  payload ← event_payload event;
  method ← event_parse_method event;
  Some match method with
       | Err e => Err (RpcError_from_Error e)
       | Ok method =>
           if decide (method = lit "test") then Ok (Some (lit "passed"))
           else if decide (method = lit "ping") then
             match pg_from_slice payload with
             | Err e => Err (decode_err e)
             | Ok message => Ok message
             end
           else Err (RpcError_method None)
       end.

Section custom_rpc.
Context {X : Externals} {N : Networks}.

(** The start: listeners, the client [.broker] that is subscribed to everything, and the fifo. *)
Definition custom_rpc_start (unix ws : result unit io_error) (pipe : result unit Error) : prog Broker Error Client :=
  spawn_unix_server unix (lit "/tmp/busrt.sock") ServerConfig_default ≫= fun _ =>
  spawn_websocket_server false ws (lit "127.0.0.1:3001") ServerConfig_default ≫= fun _ =>
  Broker_register_client BROKER_NAME ≫= fun core_client =>
  in_db (subscribe (bus core_client) (lit "#") QoS_No) ≫= fun _ =>
  in_db (modify (set_core_rpc_client (bus core_client))) ≫= fun _ =>
  Broker_spawn_fifo pipe (lit "/tmp/busrt.fifo") 8192 ≫= fun _ =>
  mret core_client.

(** A turn of the loop of [main]. *)
Definition custom_rpc_turn (core : nat) : prog BrokerDb Error unit :=
  client_publish core (lit "test") (lit "broker alive") QoS_No ≫= fun _ => mret tt.
End custom_rpc.

(** ** A sender and a listener *)

(** An operation with [QoS::Processed] and its confirmation: [.await?.expect("no op")], [.await??].
    An error ends the program with the code 1. *)
Definition awaited (r : request) : cli unit :=
  operation false r ≫= fun opc =>
  match opc with
  | Err _ => throw 1
  | Ok false => panic
  | Ok true =>
      confirmation false ≫= fun c =>
      match c with Some (Ok _) => mret tt | _ => throw 1 end
  end.

Definition demo_connect (name : str) : cli unit :=
  ask (ReqConnect (Config_new (lit "/tmp/busrt.sock") name)) ≫= fun a =>
  match a with AnsConnect (Ok _) => mret tt | AnsConnect (Err _) => throw 1 | _ => hang end.

Definition sender_operations : list request :=
  [ReqPublish (lit "some/topic") (lit "hello") QoS_Processed;
   ReqSend (lit "test.client.listener") (lit "hello") QoS_Processed;
   ReqBroadcast (lit "test.*") (lit "hello everyone") QoS_Processed].

Definition client_sender : cli unit :=
  demo_connect (lit "test.client.sender") ≫= fun _ => for_each sender_operations awaited.

(** The listener: what it prints of the frames that come until the connection ends. *)
Definition client_listener : cli (list printed) :=
  demo_connect (lit "test.client.listener") ≫= fun _ =>
  awaited (ReqSubscribe [lit "#"] QoS_Processed) ≫= fun _ =>
  ask ReqListen ≫= fun a =>
  match a with AnsFrames l => expect (mapM counter_handle_frame l) | _ => hang end.

(** The service of [CounterService], which listens in the same way. *)
Definition client_rpc_handler : cli unit :=
  demo_connect (lit "test.client.rpc") ≫= fun _ =>
  awaited (ReqSubscribe [lit "#"] QoS_Processed) ≫= fun _ =>
  ask ReqRpcListen ≫= fun _ => mret tt.

(** ** Facts *)

Section facts.
Context {X : Externals} `{!ExternalsLaws X} {N : Networks}.

Lemma aaa_start_run local bound b :
  broker_aaa_start (Ok local) bound Broker_new = Done tt b ->
  br_services b = [Listens (MkService (lit "0.0.0.0:7777") TcpServer
    (ServerConfig_aaa_map (demo_aaa_map local) ServerConfig_new) DEFAULT_QUEUE_SIZE None None)].
Proof.
  destruct (init_core_run DEFAULT_QUEUE_SIZE false) as (d & cl & E & _).
  unfold broker_aaa_start, Broker_init_default_core_rpc, in_db, mbind, prog_bind, gets. cbn [br_queue_size Broker_new Broker_default br_db].
  rewrite E. destruct bound; [|done]. cbn. by intros [= <-].
Qed.

(** What the entry of [test2] permits. *)
Lemma test2_permissions local a t :
  demo_aaa_map local !! lit "test2" = Some a ->
  (p2p_allowed (Some a) t = true <-> acl_fits (acl_cfg (M := ext_acl) peer_masks) (lit "test") t = true) /\
  (publish_allowed (Some a) t = true <-> acl_fits (acl_cfg (M := ext_acl) topic_masks) (lit "news/#") t = true) /\
  subscribe_allowed (Some a) t = false /\ broadcast_allowed (Some a) t = false /\ hosts a = [net_any_v4].
Proof.
  unfold demo_aaa_map. rewrite lookup_insert_eq. intros [= <-].
  pose proof (allowed_spec (lit "*") [lit "test"] (peer_masks (M := ext_acl)) t peer_masks_empty) as Hp.
  pose proof (allowed_spec (lit "#") [lit "news/#"] (topic_masks (M := ext_acl)) t topic_masks_empty) as Ht.
  setoid_rewrite list_elem_of_singleton in Hp. setoid_rewrite list_elem_of_singleton in Ht.
  unfold p2p_allowed, publish_allowed, subscribe_allowed, broadcast_allowed, allow_p2p_to, allow_publish_to.
  cbn [ClientAaa_default deny_broadcast deny_subscribe allow_p2p_map allow_publish_map].
  destruct (insert_masks (lit "#") _ _) as [any2 m2]. cbn [deny_subscribe deny_broadcast allow_p2p_map].
  destruct (insert_masks (lit "*") _ _) as [any1 m1].
  cbn [allow_p2p_any allow_p2p_map allow_publish_any allow_publish_map allow_subscribe_any allow_subscribe_map
       allow_broadcast_any allow_broadcast_map deny_subscribe deny_broadcast hosts]. rewrite acl_matches_new.
  split_and!; [rewrite Hp|rewrite Ht|done..]; split; try (intros [?|(k & -> & ?)]; done); eauto.
Qed.
End facts.

(** The broker of the demonstration does what its comment says: a connection gets as far as a
    registration only under the name [test], from a local address, or [test2], from any address of IP
    version 4 (or under a secondary name of these); [test] may do anything, [test2] may send to what the
    mask [test] fits and publish what [news/#] fits, and may neither subscribe nor broadcast. *)
Theorem aaa_demo_permissions {X : Externals} `{!ExternalsLaws X} {N : Networks} local b s l cx ss c aaa ss' :
  broker_aaa_start (Ok local) (Ok tt) Broker_new = Done tt b ->
  Listens s ∈ br_services b -> cx ∈ accept_loop s l -> handshake (cx_peer cx) ss = Done (c, aaa) ss' ->
  exists nm, registration (cx_peer cx) nm ss.1 = Done c ss'.1 /\
    (before_sep nm = lit "test" /\ (forall addr, pp_ip (cx_peer cx) = Some addr -> net_contains local addr = true) /\
       (forall t, p2p_allowed aaa t = true /\ publish_allowed aaa t = true /\
                  subscribe_allowed aaa t = true /\ broadcast_allowed aaa t = true) \/
     before_sep nm = lit "test2" /\ (forall addr, pp_ip (cx_peer cx) = Some addr -> net_contains net_any_v4 addr = true) /\
       forall t, (p2p_allowed aaa t = true <-> acl_fits (acl_cfg (M := ext_acl) peer_masks) (lit "test") t = true) /\
                 (publish_allowed aaa t = true <-> acl_fits (acl_cfg (M := ext_acl) topic_masks) (lit "news/#") t = true) /\
                 subscribe_allowed aaa t = false /\ broadcast_allowed aaa t = false).
Proof.
  intros Eb Hs Hcx Eh. rewrite (aaa_start_run local _ b Eb) in Hs.
  apply list_elem_of_singleton in Hs. injection Hs as ->.
  destruct (accept_loop_spec _ _ _ Hcx) as (stream & addr & ->).
  pose proof (handshake_touches (cx_peer (service_connection (MkService (lit "0.0.0.0:7777") TcpServer
    (ServerConfig_aaa_map (demo_aaa_map local) ServerConfig_new) DEFAULT_QUEUE_SIZE None None) stream addr)) ss) as H.
  rewrite Eh in H. destruct H as (nm & (_ & _ & _ & a & Ha & -> & Haddr) & Hreg). exists nm. split; [exact Hreg|].
  unfold connect_allowed in Haddr. cbn [pp_aaa_map cx_peer service_connection handle_connection se_config sv_aaa_map ServerConfig_aaa_map] in *.
  destruct (decide (before_sep nm = lit "test2")) as [E2|N2].
  - right. rewrite E2 in Ha. split; [done|]. split.
    + intros ip Hip. destruct (test2_permissions local a [] Ha) as (_ & _ & _ & _ & Hh).
      specialize (Haddr ip Hip). rewrite Hh in Haddr. cbn in Haddr. by rewrite orb_false_r in Haddr.
    + intros t. destruct (test2_permissions local a t Ha) as (H1 & H2 & H3 & H4 & _). by split_and!.
  - left. unfold demo_aaa_map in Ha. rewrite lookup_insert_ne in Ha by done.
    destruct (decide (before_sep nm = lit "test")) as [E1|N1].
    + rewrite E1, lookup_insert_eq in Ha. injection Ha as <-. split_and!; [done| |done].
      intros ip Hip. specialize (Haddr ip Hip). cbn in Haddr. by rewrite orb_false_r in Haddr.
    + by rewrite lookup_insert_ne, lookup_empty in Ha.
Qed.

(** The sender: each operation is asked for once the one before was confirmed, and the program ends
    normally exactly when all three were. *)
Fixpoint all_confirmed (n : nat) (answers : list answer) : bool :=
  match n, answers with
  | O, _ => true
  | S n, AnsOp (Ok true) :: AnsConfirm (Some (Ok _)) :: answers => all_confirmed n answers
  | S _, _ => false
  end.
Definition confirmed_all (answers : list answer) : bool :=
  match answers with AnsConnect (Ok _) :: answers => all_confirmed 3 answers | _ => false end.

Lemma awaited_run r s :
  awaited r s =
    match cs_answers s with
    | AnsOp (Err _) :: rest => Throw 1 (answered rest [r] [] s)
    | AnsOp (Ok false) :: _ => Panic
    | AnsOp (Ok true) :: AnsConfirm (Some (Ok _)) :: rest => Done tt (answered rest [r; ReqConfirm] [] s)
    | AnsOp (Ok true) :: AnsConfirm _ :: rest => Throw 1 (answered rest [r; ReqConfirm] [] s)
    | AnsOp (Ok true) :: rest => Hang (answered (tail rest) [r; ReqConfirm] [] s)
    | rest => Hang (answered (tail rest) [r] [] s)
    end.
Proof.
  destruct s as [answers requests out]. unfold awaited, operation, confirmation, ask, answered, mbind, prog_bind. cbn.
  rewrite !app_nil_r. destruct answers as [|[r1|[[|]|e]|c|r1|l|l|] [|[r2|r2|[[u|e2]|]|r2|l2|l2|] rest]]; cbn;
    rewrite <- ?app_assoc; done.
Qed.

Definition asked_for (ops : list request) : list request := ops ≫= fun r => [r; ReqConfirm].
Definition sender_requests : list request :=
  ReqConnect (Config_new (lit "/tmp/busrt.sock") (lit "test.client.sender")) :: asked_for sender_operations.

Lemma for_each_awaited ops : forall s,
  match for_each ops awaited s with
  | Done _ s' => all_confirmed (length ops) (cs_answers s) = true /\ cs_requests s' = cs_requests s ++ asked_for ops
  | Throw _ s' | Hang s' => all_confirmed (length ops) (cs_answers s) = false /\
      exists asked, cs_requests s' = cs_requests s ++ asked /\ asked `prefix_of` asked_for ops
  | Panic => all_confirmed (length ops) (cs_answers s) = false
  end.
Proof.
  induction ops as [|r ops IH]; intros s; cbn [for_each length].
  { split; [done|]. by rewrite app_nil_r. }
  assert (P1 : [r] `prefix_of` asked_for (r :: ops)) by by exists (ReqConfirm :: asked_for ops).
  assert (P2 : [r; ReqConfirm] `prefix_of` asked_for (r :: ops)) by by exists (asked_for ops).
  unfold mbind, prog_bind. rewrite awaited_run.
  destruct (cs_answers s) as [|[r1|[[|]|e]|c|r1|l|l|] [|[r2|r2|[[u|e2]|]|r2|l2|l2|] rest]]; cbn [all_confirmed];
    try done; try (split; [done|]; eexists; split; [reflexivity|done]).
  specialize (IH (answered rest [r; ReqConfirm] [] s)). change (cs_answers (answered rest _ _ _)) with rest in IH.
  change (cs_requests (answered rest [r; ReqConfirm] [] s)) with (cs_requests s ++ [r; ReqConfirm]) in IH.
  destruct (for_each ops awaited _) as [[] s'|e s'|s'|]; [|destruct IH as (H & asked & E & Hp)..|done].
  - destruct IH as [H E]. split; [done|]. by rewrite E, <- app_assoc.
  - split; [done|]. exists (r :: ReqConfirm :: asked). split; [by rewrite E, <- app_assoc|]. by do 2 apply prefix_cons.
  - split; [done|]. exists (r :: ReqConfirm :: asked). split; [by rewrite E, <- app_assoc|]. by do 2 apply prefix_cons.
Qed.

(** The sender of the example asks for its three operations in order, each once the one before was
    confirmed: whatever the answers, what it asked for is an initial part of its programme, and it ends
    normally exactly if the connection and all the confirmations came. *)
Theorem sender_in_order answers :
  match client_sender (started answers) with
  | Done _ s => confirmed_all answers = true /\ cs_requests s = sender_requests
  | Throw _ s | Hang s => confirmed_all answers = false /\ cs_requests s `prefix_of` sender_requests
  | Panic => confirmed_all answers = false
  end.
Proof.
  set (connect := ReqConnect (Config_new (lit "/tmp/busrt.sock") (lit "test.client.sender"))).
  assert (P : [connect] `prefix_of` sender_requests) by by eexists.
  unfold client_sender, demo_connect, ask, started, mbind, prog_bind. cbn [cs_answers cs_requests cs_output app].
  destruct answers as [|[[u|e]| | | | | |] answers]; try (split; [done|exact P]).
  unfold mret, prog_ret. pose proof (for_each_awaited sender_operations (MkCliState answers [connect] [])) as H.
  cbn [cs_answers cs_requests] in H. fold connect.
  destruct (for_each _ _ _) as [[] s'|e s'|s'|]; [|destruct H as (H & asked & E & Hp)..|done].
  - destruct H as [H E]. by split.
  - split; [done|]. rewrite E. by apply prefix_cons.
  - split; [done|]. rewrite E. by apply prefix_cons.
Qed.

(** The core client of one's own answers every request: [test] always with the same text, [ping] with
    the message it was given. *)
Lemma custom_handle_call_total {P : PingCodec} event :
  is_request event ->
  exists res, custom_handle_call event = Some res /\
    (event_parse_method event = Some (Ok (lit "test")) -> res = Ok (Some (lit "passed"))) /\
    forall params message, event_parse_method event = Some (Ok (lit "ping")) -> event_payload event = Some params ->
      pg_from_slice params = Ok message -> res = Ok message.
Proof.
  intros [(_ & [p Hp] & _ & _ & Hm) Hk]. destruct (Hm Hk) as [m Em]. unfold custom_handle_call.
  assert (E : exists r, event_parse_method event = Some r) by (unfold event_parse_method; rewrite Em; by eexists).
  destruct E as [r Er]. rewrite Hp, Er. cbn. eexists. split; [done|]. split.
  - by intros [= ->].
  - intros params message [= ->] [= <-] Ed. cbn. by rewrite Ed.
Qed.

(** ** Concrete runs *)

(** What the broker with a core client of its own has spawned. *)
Lemma custom_rpc_started :
  match custom_rpc_start (Ok tt) (Ok tt) (Ok tt) Broker_new with
  | Done core b => Some (bus core, rpc_client (br_db b), length (br_services b))
  | _ => None
  end = Some (0%nat, Some 0%nat, 3%nat).
Proof. concrete. Qed.

(** [test2] connects from the address 77 to the broker of the demonstration. *)
Definition aaa_broker : Broker :=
  match broker_aaa_start (Ok (0, 5)) (Ok tt) Broker_new with Done _ b => b | _ => Broker_new end.
Definition test2_accepted : Server.accepted :=
  Accepted (MkConn (Source (client_hello (lit "test2")) EndStall) [] []) (InetAddr 77 (lit "77")) (Ok tt) NegotiationTimeout NegotiationTimeout.
Definition test2_connection : Connection :=
  service_connection (MkService (lit "0.0.0.0:7777") TcpServer
    (ServerConfig_aaa_map (demo_aaa_map (0, 5)) ServerConfig_new) DEFAULT_QUEUE_SIZE None None)
    (MkConn (Source (client_hello (lit "test2")) EndStall) [] []) (InetAddr 77 (lit "77")).
Definition joined (r : outcome session Error (nat * option (ClientAaa ext_acl))) : bool :=
  match r with Done _ _ => true | _ => false end.

Lemma aaa_started : broker_aaa_start (Ok (0, 5)) (Ok tt) Broker_new = Done tt aaa_broker.
Proof.
  assert (J : match broker_aaa_start (Ok (0, 5)) (Ok tt) Broker_new with Done _ _ => true | _ => false end = true) by concrete.
  unfold aaa_broker. destruct (broker_aaa_start _ _ _) as [[] b| | |]; [reflexivity|discriminate J..].
Qed.

Lemma aaa_demo_permissions_witness :
  match handshake (cx_peer test2_connection) (br_db aaa_broker, cx_stream test2_connection) with
  | Done (_, aaa) _ =>
      p2p_allowed aaa (lit "test") = true /\ p2p_allowed aaa (lit "other") = false /\
      publish_allowed aaa (lit "news/today") = true /\ subscribe_allowed aaa (lit "news/today") = false
  | _ => False
  end.
Proof.
  assert (J : joined (handshake (cx_peer test2_connection) (br_db aaa_broker, cx_stream test2_connection)) = true) by concrete.
  destruct (handshake _ _) as [[c aaa] s'| | |] eqn:E; [clear J|discriminate J..].
  destruct (aaa_demo_permissions (N := ref_networks) (0, 5) aaa_broker _ [test2_accepted] test2_connection _ c aaa s' aaa_started
    ltac:(rewrite (aaa_start_run _ _ _ aaa_started); left) ltac:(left) E) as (nm & _ & [(_ & Hlocal & _)|(_ & _ & H)]).
  - by specialize (Hlocal 77 eq_refl).
  - assert (F1 : acl_fits (acl_cfg (M := ext_acl) peer_masks) (lit "test") (lit "test") = true) by concrete.
    assert (F2 : acl_fits (acl_cfg (M := ext_acl) peer_masks) (lit "test") (lit "other") = false) by concrete.
    assert (F3 : acl_fits (acl_cfg (M := ext_acl) topic_masks) (lit "news/#") (lit "news/today") = true) by concrete.
    destruct (H (lit "test")) as (P1 & _). destruct (H (lit "other")) as (P2 & _).
    destruct (H (lit "news/today")) as (_ & P3 & P4 & _). split_and!; [by apply P1| |by apply P3|exact P4].
    apply not_true_is_false. intros Hp%P2. exact (eq_true_false_abs _ Hp F2).
Defined.
